(* ===== verification/_CoqProject ===== *)
-Q . S2P
Prelude.v
Status.v
Buffer.v
Base64.v
Frame.v
Handshake.v
WebSocket.v
Net.v
Sockets.v
Transport.v
TlsInit.v
Connection.v
PlainConnection.v
ConnectionPaths.v
WebSocketConnection.v
Epoll.v
FStack.v
Reactor.v
ReactorRun.v
EpollReactor.v
Hexdump.v
Logging.v
Numerals.v
Config.v
BinanceDepth.v
App.v
