(* ===== verification/Prelude.v ===== *)
(** * manet: a verification library (root file)

    manet is a C++ client library for persistent network connections: an
    edge-triggered reactor drives connections, each a state machine over three
    layers that are template parameters, a network ([Net]: epoll or F-Stack), a
    transport (plain sockets or TLS) and a protocol (WebSocket over a message
    codec).  This library models the program in Rocq, file by file, and proves
    the properties that make it correct, or shows where it is not.

    ** Files and the code they model

    - Prelude.v (this file): machine integers, bytes and spans, the [outcome]
      monad, a state monad over it with a weakest-precondition calculus, tactics,
      hint databases and shared lemmas.
    - Status.v: include/manet/transport/status.hpp, include/manet/protocol/status.hpp.
    - Buffer.v: include/manet/reactor/buffer.hpp and io.hpp.  A buffer is its array
      with the two positions; [contents] is the byte queue it represents.
    - Base64.v: include/manet/utils/base64.hpp.
    - Frame.v: include/manet/protocol/websocket_frame.hpp, with the wire format of
      RFC 6455 as a reference encoder.
    - Handshake.v: src/manet/protocol/websocket.cc (request, response reader, control
      frames); the random device and SHA-1 are parameters.  A reference receiver
      of masked frames is written from RFC 6455 alone.
    - WebSocket.v: include/manet/protocol/websocket.hpp, every method of [Session],
      over the codec interface of websocket_concepts.hpp (class [MessageCodec]).
    - Net.v: the [Net] concept (class [NetOps]) and include/manet/net/dial.hpp.
    - Sockets.v: the socket calls both backends forward to (class [Sockets]) with
      their contract, backends as static members over a kernel, and what the
      reactor needs of a network ([NetLoop], [NetLife]).
    - Transport.v: the [Transport] concept (class [TransportOps]), plain.hpp,
      tls.hpp, tls.cc, tls_bio.hpp and tls_bio.cc; OpenSSL is a parameter (class
      [OpenSSL]).
    - TlsInit.v: the one-time initialisation of OpenSSL and the exit handler of
      tls_bio.hpp (class [Libssl]; [LibsslRoom] says when allocations succeed).
    - Connection.v: include/manet/reactor/connection.hpp, the state machine, generic
      in [NetOps], [TransportOps] and [ProtocolOps]; each private method is one
      definition.  Its laws ([NetLaws], [TransportLaws], [ProtocolLaws]) say what
      it relies on, and its invariant is proved from them alone.
    - PlainConnection.v: the laws discharged for the plain transport over any
      network that keeps the contract of the socket calls; whole runs.
    - ConnectionPaths.v: output order, and error paths of the state machine.
    - WebSocketConnection.v: the WebSocket session as the protocol of a connection.
    - Epoll.v: include/manet/net/epoll.hpp and src/manet/net/epoll.cc over the system
      calls (class [Posix]), an instance of the network interfaces.
    - FStack.v: include/manet/net/fstack.hpp and src/manet/net/fstack.cc over the
      F-Stack library (class [FF]), another instance.
    - Reactor.v: include/manet/reactor.hpp over the interface of a connection (class
      [BaseConnection]); the state machine is an instance of it.
    - ReactorRun.v: whole runs of a reactor with several plain connections over any
      network that keeps the laws [NetLoopOk] and [NetLifeOk].
    - EpollReactor.v: those laws for epoll, and what a late signal does.
    - Hexdump.v: src/manet/utils/hexdump.cc.
    - Logging.v: include/manet/logging.hpp, with threads as a step relation and one
      mutex per instantiation of the template [log].
    - Numerals.v: [std::stoi] and the decimal output of [printf].
    - Config.v, BinanceDepth.v, App.v: the example program, examples/config.cc,
      binance_codec.hpp and main.cc; its three threads, the queue between them
      (class [SPSCQueue]) and the signals are a step relation on the state of the
      process.

    ** How the code is modelled

    A [w]-bit integer is a [Z] with its wrap-around written out ([u8], [u64],
    [s32], ...); a byte is a [Z] in 0..255 and a span a list, where the count
    [dynamic_extent] of [subspan] means the rest of the span.  A computation
    returns an [outcome]: a value, [UB] for undefined behaviour (a span access
    outside its bounds, an indeterminate value read, a freed object used), or
    [NoFuel].  Methods that change an object run in the state monad [M] over the
    object and the outside world.  Code outside the repository (system calls,
    OpenSSL, SHA-1, the random device, the codec) is a class of operations; what
    the code relies on in it is a class of laws, each with a concrete instance
    (the toy networks, kernels and codecs next to the witnesses).

    A [while (true)] is [loop fuel].  Fuel is only a bound ([loop_more_fuel]) and
    the theorems about runs show how much is enough: more than [RX_CAP] and
    [TX_CAP] (each round of the write, consume and shutdown loops shortens a
    buffer), and more than the number of reads that can still succeed or be
    interrupted ([budget]) for the read loops; [steps] takes at most seven rounds,
    because each one lowers the [rank] of the state.

    ** What the theorems show

    - Bytes: a buffer refines a byte queue under every sequence of defined
      operations; it regains room only when drained.  Base64 decodes back.
    - Frames: encoded frames are parsed back with anything behind them, strict
      prefixes ask for more, decisions are stable under more input, exactly what
      re-encodes to the input is accepted, and undefined behaviour occurs exactly
      when a 64-bit length wraps around (2^64-1 does not: it means the rest).
    - Handshake: the request and the expected key fit together, complete
      responses are consumed exactly and accepted precisely with the right key;
      the inputs on which the reader runs past its end or accepts too much.
    - Session: opening, fragmented messages, PING, CLOSE, heartbeat, and that one
      frame at a time the session stays well formed, but for two undefined inputs
      that are delimited both ways.
    - Sockets: dialling leaks no descriptor; plain reads and writes and the BIO
      report every outcome of the system call as they should; the TLS globals are
      initialised and released once, while OpenSSL can allocate.
    - Connections: every run of a plain connection returns, keeps its invariant
      and has exactly its own descriptor open; output keeps its order; a
      WebSocket client over it terminates on any input, and is consistent after
      every run without undefined behaviour.  Theorems show error paths that go
      wrong, among them a use after free over TLS.
    - Reactor and backends: a run with orderly kill signals ([orderly_rounds])
      keeps every connection's invariant and accounts for every open descriptor;
      for protocols without a shutdown handler the kill signal, reported first
      and once, ends it and closes what it opened; events go to their
      connection, closed connections restart, the heartbeat beat; registrations
      on both backends are what was asked for; what a failing poll skips, what a
      second signal in a round does, and that the signal is never reported on
      F-Stack.
    - Dumps and log: [readable_ascii] is lossless on ASCII and undefined above;
      log messages of concurrent threads are not torn by calls of the same
      instantiation, and can be torn by others.
    - Example: the configuration agrees with a declarative reference; a depth
      message reaches the queue as one event per level; between the threads no
      event the queue accepted is lost, duplicated or reordered; exit codes, and
      that every schedule ends the process once the worker alone is left.

    ** What is not modelled

    Tests and build files.  Log lines inside the modelled functions are left out
    (the logger itself is modelled).  The library runs in one thread, so its
    functions are sequential; threads occur in the logger and the example
    program, where memory is sequentially consistent: the acquire and release
    accesses of main.cc and the calls of the queue are single steps.  That
    [reactor.run] returns is not part of the model of main.cc.  Code behind the
    interfaces (kernel, F-Stack, OpenSSL, sbepp, the queue, [getopt_long],
    [std::vformat]) is a parameter.  Whole runs are proved for the plain
    transport; for TLS the error paths above show that the invariant does not
    hold as it stands. *)

From stdpp Require Export base list list_numbers option numbers strings gmap.
From stdpp Require Import tactics.
From Stdlib Require Export ZArith Lia.
From Stdlib Require Ascii String.

#[global] Open Scope Z_scope.

(** ** Machine integers

    A [w]-bit unsigned value is a [Z]; the wrap-around is written out. *)

Definition u8 (x : Z) : Z := x mod 2 ^ 8.
Definition u16 (x : Z) : Z := x mod 2 ^ 16.
Definition u32 (x : Z) : Z := x mod 2 ^ 32.
Definition u64 (x : Z) : Z := x mod 2 ^ 64.

(** Conversion to a signed [w]-bit value (two's complement, C++20). *)
Definition swrap (w x : Z) : Z := (x + 2 ^ (w - 1)) mod 2 ^ w - 2 ^ (w - 1).
Definition s8 (x : Z) : Z := swrap 8 x.
Definition s32 (x : Z) : Z := swrap 32 x.

Definition INT_MAX : Z := 2 ^ 31 - 1.

Definition is_byte (b : Z) : Prop := 0 <= b < 256.
Definition is_bytes (l : list Z) : Prop := Forall is_byte l.

#[export] Instance is_byte_dec b : Decision (is_byte b).
Proof. unfold is_byte. apply _. Defined.
#[export] Instance is_bytes_dec l : Decision (is_bytes l).
Proof. unfold is_bytes. apply _. Defined.

(** Length of a container as a [std::size_t]. *)
Definition zlen {A} (l : list A) : Z := Z.of_nat (length l).

(** The bytes of a string literal. *)
Definition str (s : string) : list Z :=
  (fun a => Z.of_N (Ascii.N_of_ascii a)) <$> String.list_ascii_of_string s.

(** A character literal. *)
Definition chr (s : string) : Z := default 0 (head (str s)).

(** ** Outcomes: a value, undefined behaviour, or not enough fuel *)

Inductive outcome (A : Type) : Type :=
| Ret (a : A)
| UB
| NoFuel.
Arguments Ret {A} a.
Arguments UB {A}.
Arguments NoFuel {A}.

#[export] Instance outcome_ret : MRet outcome := fun A a => Ret a.
#[export] Instance outcome_bind : MBind outcome := fun A B f m =>
  match m with Ret a => f a | UB => UB | NoFuel => NoFuel end.

(** A span access or sub-view outside its precondition is [UB]. *)
Definition span_at (l : list Z) (i : Z) : outcome Z :=
  if decide (0 <= i < zlen l) then
    match l !! Z.to_nat i with Some x => Ret x | None => UB end
  else UB.

Definition slice {A} (l : list A) (off cnt : Z) : list A :=
  take (Z.to_nat cnt) (drop (Z.to_nat off) l).

(** [span::subspan(off, cnt)]: the count [std::dynamic_extent], the largest
    [size_t], stands for "the rest of the span". *)
Definition dynamic_extent : Z := 2 ^ 64 - 1.

Definition subspan {A} (l : list A) (off cnt : Z) : outcome (list A) :=
  let n := if cnt =? dynamic_extent then zlen l - off else cnt in
  if decide (0 <= off /\ 0 <= n /\ off + n <= zlen l) then Ret (slice l off n) else UB.

(** [memcpy(dst + off, src, |src|)] into an array; outside the array it is [UB]. *)
Definition splice {A} (dst : list A) (off : Z) (src : list A) : list A :=
  take (Z.to_nat off) dst ++ src ++ drop (Z.to_nat off + length src) dst.

Definition memcpy {A} (dst : list A) (off : Z) (src : list A) : outcome (list A) :=
  if decide (0 <= off /\ off + zlen src <= zlen dst) then Ret (splice dst off src) else UB.

(** ** State monad over outcomes *)

Definition M (S A : Type) : Type := S -> outcome (A * S).

#[export] Instance M_ret S : MRet (M S) := fun A a s => Ret (a, s).
#[export] Instance M_bind S : MBind (M S) := fun A B f m s =>
  match m s with
  | Ret (a, s') => f a s'
  | UB => UB
  | NoFuel => NoFuel
  end.

Definition get {S} : M S S := fun s => Ret (s, s).
Definition gets {S A} (f : S -> A) : M S A := fun s => Ret (f s, s).
Definition modify {S} (f : S -> S) : M S unit := fun s => Ret (tt, f s).
Definition lift {S A} (o : outcome A) : M S A := fun s =>
  match o with Ret a => Ret (a, s) | UB => UB | NoFuel => NoFuel end.
Definition undef {S A} : M S A := fun _ => UB.

(** A C++ [while (true)] loop: the body yields [None] to go round again and
    [Some a] to leave the loop with [a]. *)
Fixpoint loop {S A} (fuel : nat) (body : M S (option A)) : M S A :=
  match fuel with
  | O => fun _ => NoFuel
  | Datatypes.S f => fun s =>
      match body s with
      | Ret (Some a, s') => Ret (a, s')
      | Ret (None, s') => loop f body s'
      | UB => UB
      | NoFuel => NoFuel
      end
  end.

(** ** Weakest preconditions

    [wp nf ub m Q s]: running [m] from [s] ends in [Q], or the run is out of
    fuel and [nf] holds, or it is undefined and [ub] holds.  [wp False False]
    is total correctness, [wp True False] safety without termination,
    [wp True True] partial correctness. *)
Definition wp {S A} (nf ub : Prop) (m : M S A) (Q : A -> S -> Prop) (s : S) : Prop :=
  match m s with
  | Ret (a, s') => Q a s'
  | UB => ub
  | NoFuel => nf
  end.

Section wp_rules.
Context {S : Type} (nf ub : Prop).

Lemma wp_ret {A} (a : A) (Q : A -> S -> Prop) s : Q a s -> wp nf ub (mret a) Q s.
Proof. done. Qed.

Lemma wp_bind {A B} (m : M S A) (f : A -> M S B) (Q : B -> S -> Prop) s :
  wp nf ub m (fun a s' => wp nf ub (f a) Q s') s -> wp nf ub (m ≫= f) Q s.
Proof. unfold wp, mbind, M_bind. destruct (m s) as [[a s']| |]; done. Qed.

Lemma wp_bind_inv {A B} (m : M S A) (f : A -> M S B) (Q : B -> S -> Prop) s :
  wp nf ub (m ≫= f) Q s -> wp nf ub m (fun a s' => wp nf ub (f a) Q s') s.
Proof. unfold wp, mbind, M_bind. destruct (m s) as [[a s']| |]; done. Qed.

Lemma wp_mono {A} (m : M S A) (Q R : A -> S -> Prop) s :
  wp nf ub m Q s -> (forall a s', Q a s' -> R a s') -> wp nf ub m R s.
Proof. unfold wp. destruct (m s) as [[a s']| |]; auto. Qed.

Lemma wp_gets {A} (f : S -> A) (Q : A -> S -> Prop) s :
  Q (f s) s -> wp nf ub (gets f) Q s.
Proof. done. Qed.

Lemma wp_modify (f : S -> S) (Q : unit -> S -> Prop) s :
  Q tt (f s) -> wp nf ub (modify f) Q s.
Proof. done. Qed.

Lemma wp_if {A} (b : bool) (m1 m2 : M S A) (Q : A -> S -> Prop) s :
  (b = true -> wp nf ub m1 Q s) -> (b = false -> wp nf ub m2 Q s) ->
  wp nf ub (if b then m1 else m2) Q s.
Proof. destruct b; auto. Qed.

(** The loop rule: an invariant, and a measure that the body decreases
    whenever it goes round again (not needed when running out of fuel is
    accepted). *)
Lemma wp_loop {A} (body : M S (option A)) (I : S -> Prop) (mu : S -> nat)
    (Q : A -> S -> Prop) fuel s :
  (forall s, I s ->
    wp nf ub body (fun r s' =>
      match r with
      | None => I s' /\ (nf \/ (mu s' < mu s)%nat)
      | Some a => Q a s'
      end) s) ->
  I s -> nf \/ (mu s < fuel)%nat -> wp nf ub (loop fuel body) Q s.
Proof.
  intros Hbody. revert s. induction fuel as [|fuel IH]; intros s HI Hf.
  - destruct Hf; [done | lia].
  - specialize (Hbody s HI). unfold wp in *. simpl.
    destruct (body s) as [[[a|] s']| |]; try done.
    destruct Hbody as [HI' Hlt]. apply IH; [done|].
    destruct Hf as [Hnf|Hf]; [by left|]. destruct Hlt as [Hnf|Hlt]; [by left|right; lia].
Qed.

(** One round of a loop. *)
Lemma wp_loop_unfold {A} (body : M S (option A)) (Q : A -> S -> Prop) fuel s :
  (0 < fuel)%nat ->
  wp nf ub body (fun r s' => match r with Some a => Q a s' | None => wp nf ub (loop (pred fuel) body) Q s' end) s ->
  wp nf ub (loop fuel body) Q s.
Proof.
  destruct fuel as [|f]; [lia|]. intros _. unfold wp. cbn [loop Nat.pred].
  by destruct (body s) as [[[a|] s']| |].
Qed.
End wp_rules.

Lemma wp_total {S A} (m : M S A) (Q : A -> S -> Prop) s :
  wp False False m Q s <-> exists a s', m s = Ret (a, s') /\ Q a s'.
Proof.
  unfold wp. destruct (m s) as [[a s']| |]; split; try done; [eauto | | |].
  - intros (? & ? & Heq & HQ). by simplify_eq.
  - by intros (? & ? & ? & _).
  - by intros (? & ? & ? & _).
Qed.

Lemma wp_weaken {S A} (nf ub nf' ub' : Prop) (m : M S A) (Q : A -> S -> Prop) s :
  (nf -> nf') -> (ub -> ub') -> wp nf ub m Q s -> wp nf' ub' m Q s.
Proof. unfold wp. destruct (m s) as [[a s']| |]; auto. Qed.

Lemma wp_and {S A} (nf ub : Prop) (m : M S A) (Q R : A -> S -> Prop) s :
  wp nf ub m Q s -> wp nf ub m R s -> wp nf ub m (fun a s' => Q a s' /\ R a s') s.
Proof. unfold wp. destruct (m s) as [[a s']| |]; auto. Qed.

(** Fuel is only a bound: a loop that ended ends the same way with more. *)
Lemma loop_more_fuel {S A} (body : M S (option A)) f1 f2 s r :
  (f1 <= f2)%nat -> loop f1 body s = Ret r -> loop f2 body s = Ret r.
Proof.
  revert f2 s. induction f1 as [|f1 IH]; intros f2 s Hle Heq; [done|].
  destruct f2 as [|f2]; [lia|]. simpl in *.
  destruct (body s) as [[[a|] s']| |]; try done. apply IH; [lia|done].
Qed.

(** ** Tactics *)

(** Case analysis on the innermost [match]/[if] of the goal. *)
Ltac case_goal :=
  match goal with
  | |- context [match ?x with _ => _ end] =>
      lazymatch x with
      | context [match _ with _ => _ end] => fail
      | _ => let E := fresh "E" in destruct x eqn:E
      end
  end.

Ltac bool_to_prop :=
  repeat match goal with
  | H : (_ <? _) = true |- _ => apply Z.ltb_lt in H
  | H : (_ <? _) = false |- _ => apply Z.ltb_ge in H
  | H : (_ <=? _) = true |- _ => apply Z.leb_le in H
  | H : (_ <=? _) = false |- _ => apply Z.leb_gt in H
  | H : (_ =? _) = true |- _ => apply Z.eqb_eq in H
  | H : (_ =? _) = false |- _ => apply Z.eqb_neq in H
  | H : negb _ = true |- _ => apply negb_true_iff in H
  | H : negb _ = false |- _ => apply negb_false_iff in H
  | H : (_ && _) = true |- _ => apply andb_true_iff in H; destruct H
  | H : (_ || _) = false |- _ => apply orb_false_iff in H; destruct H
  end.

(** Linear arithmetic with division and modulo by constants. *)
Ltac divmod_lia := Z.to_euclidean_division_equations; lia.

(** One step of the weakest-precondition calculus. *)
Ltac wp_step :=
  lazymatch goal with
  | |- wp _ _ (mret _) _ _ => apply wp_ret
  | |- wp _ _ (_ ≫= _) _ _ => apply wp_bind
  | |- wp _ _ (gets _) _ _ => apply wp_gets
  | |- wp _ _ (modify _) _ _ => apply wp_modify
  | |- wp _ _ (if ?b then _ else _) _ _ => apply wp_if; intros ?
  end.

(** ** Generic lemmas *)

Create HintDb manet.
#[export] Hint Constants Transparent : manet.

Lemma zlen_nonneg {A} (l : list A) : 0 <= zlen l.
Proof. unfold zlen. lia. Qed.

Lemma zlen_nil {A} : zlen (@nil A) = 0.
Proof. done. Qed.

Lemma zlen_cons {A} (x : A) l : zlen (x :: l) = 1 + zlen l.
Proof. unfold zlen. simpl. lia. Qed.

Lemma zlen_app {A} (l1 l2 : list A) : zlen (l1 ++ l2) = zlen l1 + zlen l2.
Proof. unfold zlen. rewrite length_app. lia. Qed.

Lemma zlen_replicate {A} n (x : A) : zlen (replicate n x) = Z.of_nat n.
Proof. unfold zlen. by rewrite length_replicate. Qed.

Lemma zlen_0_inv {A} (l : list A) : zlen l = 0 -> l = [].
Proof. destruct l; [done|]. rewrite zlen_cons. pose proof (zlen_nonneg l). lia. Qed.

Lemma zlen_slice {A} (l : list A) off cnt :
  0 <= off -> 0 <= cnt -> off + cnt <= zlen l -> zlen (slice l off cnt) = cnt.
Proof. unfold zlen, slice. intros. rewrite length_take, length_drop. lia. Qed.

(** Any count but [dynamic_extent] names the bytes themselves; it makes no
    difference on a span that the address space can hold. *)
Lemma subspan_in {A} (l : list A) off cnt :
  (zlen l < 2 ^ 64 \/ cnt < 2 ^ 64 - 1) /\ 0 <= off /\ 0 <= cnt /\ off + cnt <= zlen l ->
  subspan l off cnt = Ret (slice l off cnt).
Proof.
  unfold subspan, dynamic_extent. intros H. destruct (cnt =? _) eqn:E; bool_to_prop.
  - replace (zlen l - off) with cnt by lia. by rewrite decide_True by lia.
  - by rewrite decide_True by lia.
Qed.

Lemma subspan_no_fuel {A} (l : list A) off cnt : subspan l off cnt <> NoFuel.
Proof. unfold subspan. by destruct (decide _). Qed.

Lemma subspan_rest {A} (l : list A) off :
  0 <= off <= zlen l -> subspan l off dynamic_extent = Ret (drop (Z.to_nat off) l).
Proof.
  unfold subspan, zlen. rewrite Z.eqb_refl. intros H. rewrite decide_True by lia.
  unfold slice. by rewrite take_ge by (rewrite length_drop; lia).
Qed.

Lemma subspan_out {A} (l : list A) off cnt :
  cnt <> dynamic_extent -> zlen l < off + cnt -> subspan l off cnt = UB.
Proof.
  unfold subspan. intros Hc Hl. rewrite (proj2 (Z.eqb_neq _ _) Hc). by rewrite decide_False by lia.
Qed.

Lemma zlen_splice {A} (dst : list A) off src :
  0 <= off -> off + zlen src <= zlen dst -> zlen (splice dst off src) = zlen dst.
Proof.
  unfold zlen, splice. intros. rewrite !length_app, length_take, length_drop. lia.
Qed.

#[export] Hint Resolve zlen_nonneg : manet.
Create Rewrite HintDb zlen.
#[export] Hint Rewrite @zlen_nil @zlen_cons @zlen_app @zlen_replicate : zlen.

Lemma slice_all {A} (l : list A) : slice l 0 (zlen l) = l.
Proof. unfold slice, zlen. rewrite Nat2Z.id. simpl. by rewrite drop_0, take_ge. Qed.

Lemma slice_app_l {A} (l1 l2 : list A) : slice (l1 ++ l2) 0 (zlen l1) = l1.
Proof. unfold slice, zlen. rewrite Nat2Z.id. simpl. rewrite drop_0. by rewrite take_app_length. Qed.

Lemma slice_app_mid {A} (l1 l2 l3 : list A) :
  slice (l1 ++ l2 ++ l3) (zlen l1) (zlen l2) = l2.
Proof. unfold slice, zlen. rewrite !Nat2Z.id, drop_app_length, take_app_length. done. Qed.

Lemma drop_zlen {A} (l1 l2 : list A) : drop (Z.to_nat (zlen l1)) (l1 ++ l2) = l2.
Proof. unfold zlen. by rewrite Nat2Z.id, drop_app_length. Qed.

Lemma take_zlen {A} (l1 l2 : list A) : take (Z.to_nat (zlen l1)) (l1 ++ l2) = l1.
Proof. unfold zlen. by rewrite Nat2Z.id, take_app_length. Qed.

(** A write at the current end leaves earlier bytes alone and is read back. *)
Lemma slice_splice_app {A} (dst : list A) r w src :
  0 <= r <= w -> w + zlen src <= zlen dst ->
  slice (splice dst w src) r (w + zlen src - r) = slice dst r (w - r) ++ src.
Proof.
  unfold zlen, slice, splice. intros Hr Hw.
  rewrite drop_app_le by (rewrite length_take; lia).
  rewrite take_app.
  rewrite length_drop, length_take.
  rewrite (take_ge (drop _ (take _ _))) by (rewrite length_drop, length_take; lia).
  rewrite skipn_firstn_comm. f_equal; [f_equal; lia|].
  apply take_app_length'. lia.
Qed.

Lemma slice_slice {A} (l : list A) r w n :
  0 <= r -> 0 <= n -> r + n <= w ->
  slice (slice l r (w - r)) n (w - r - n) = slice l (r + n) (w - (r + n)).
Proof.
  unfold slice. intros.
  rewrite skipn_firstn_comm, drop_drop, take_take. f_equal; [lia|]. f_equal. lia.
Qed.

Lemma slice_split {A} (l : list A) off n m :
  0 <= off -> 0 <= n -> 0 <= m ->
  slice l off (n + m) = slice l off n ++ slice l (off + n) m.
Proof.
  unfold slice. intros.
  rewrite !Z2Nat.inj_add, <- drop_drop by lia. by rewrite take_take_drop.
Qed.

Lemma u64_small x : 0 <= x < 2 ^ 64 -> u64 x = x.
Proof. apply Z.mod_small. Qed.

Lemma u64_range x : 0 <= u64 x < 2 ^ 64.
Proof. apply Z.mod_pos_bound. lia. Qed.

Lemma u8_range x : 0 <= u8 x < 256.
Proof. apply Z.mod_pos_bound. lia. Qed.

(** Bit fields: shifting and or-ing disjoint fields is positional notation. *)
Lemma lor_shiftl_add x y n :
  0 <= n -> 0 <= y < 2 ^ n -> Z.lor (Z.shiftl x n) y = x * 2 ^ n + y.
Proof.
  intros Hn Hy. rewrite <- Z.shiftl_mul_pow2 by done.
  rewrite <- (Z.add_lor_land (Z.shiftl x n) y).
  enough (Z.land (Z.shiftl x n) y = 0) by lia.
  apply Z.bits_inj'. intros i Hi. rewrite Z.land_spec, Z.bits_0, Z.shiftl_spec by done.
  destruct (decide (i < n)).
  - by rewrite Z.testbit_neg_r by lia.
  - rewrite <- (Z.mod_small y (2 ^ n)) by done.
    rewrite Z.mod_pow2_bits_high by lia. apply andb_false_r.
Qed.

Lemma land_ones_mod x n m : 0 <= n -> m = Z.ones n -> Z.land x m = x mod 2 ^ n.
Proof. intros ? ->. by apply Z.land_ones. Qed.

Lemma is_byte_testbit b i : is_byte b -> 8 <= i -> Z.testbit b i = false.
Proof.
  unfold is_byte. intros [Hlo Hhi] Hi.
  rewrite <- (Z.mod_small b (2 ^ 8)) by lia. by apply Z.mod_pow2_bits_high.
Qed.

#[export] Hint Resolve u64_range u8_range : manet.
