(* ===== verification/Status.v ===== *)
(** * Status codes of the two layers

    [transport::Status] (include/manet/transport/status.hpp) and
    [protocol::Status] (include/manet/protocol/status.hpp). *)

From S2P Require Import Prelude.

Module transport.
Inductive Status : Set := ok | close | error | want_read | want_write.

#[global] Instance Status_eq_dec : EqDecision Status.
Proof. solve_decision. Defined.

Definition to_string (status : Status) : string :=
  match status with
  | ok => "ok"
  | close => "close"
  | error => "error"
  | want_read => "want_read"
  | want_write => "want_write"
  end.
End transport.

Module protocol.
Inductive Status : Set := ok | close | error.

#[global] Instance Status_eq_dec : EqDecision Status.
Proof. solve_decision. Defined.

Definition to_string (status : Status) : string :=
  match status with
  | ok => "ok"
  | close => "close"
  | error => "error"
  end.
End protocol.

(** The names are pairwise distinct, so a log line identifies the status. *)
Lemma transport_to_string_inj a b :
  transport.to_string a = transport.to_string b -> a = b.
Proof. by destruct a, b. Qed.

Lemma protocol_to_string_inj a b :
  protocol.to_string a = protocol.to_string b -> a = b.
Proof. by destruct a, b. Qed.
