(* ===== verification/Buffer.v ===== *)
(** * Buffers and the IO views

    [Buffer<CAP>] (include/manet/reactor/buffer.hpp): a fixed array with a read
    and a write position, and the views [Input], [Output], [IO]
    (include/manet/reactor/io.hpp).  The capacity of the model is the length of
    the array, as [std::array<std::byte, CAP>] has it in its type.

    The abstract specification is a bounded FIFO of bytes: [contents]. *)

From S2P Require Import Prelude.

Record Buffer := mkBuffer { _buf : list Z; _rpos : Z; _wpos : Z }.

(** [Buffer()]: zero-filled array, both positions 0. *)
Definition Buffer_new (CAP : Z) : Buffer :=
  mkBuffer (replicate (Z.to_nat CAP) 0) 0 0.

Definition CAP (b : Buffer) : Z := zlen (_buf b).

Definition rbuf (b : Buffer) : outcome (list Z) :=
  subspan (_buf b) (_rpos b) (u64 (_wpos b - _rpos b)).

Definition wbuf (b : Buffer) : outcome (list Z) :=
  subspan (_buf b) (_wpos b) (u64 (CAP b - _wpos b)).

Definition clear (b : Buffer) : Buffer := mkBuffer (_buf b) 0 0.

Definition inc_wpos (b : Buffer) (len : Z) : Buffer :=
  mkBuffer (_buf b) (_rpos b) (u64 (_wpos b + len)).

Definition inc_rpos (b : Buffer) (len : Z) : Buffer :=
  let rpos := u64 (_rpos b + len) in
  if rpos =? _wpos b then mkBuffer (_buf b) 0 0
  else mkBuffer (_buf b) rpos (_wpos b).

Definition full (b : Buffer) : bool := CAP b =? _wpos b.

(** [begin()]/[end()]: the offsets of the two iterators into the array. *)
Definition begin_ (b : Buffer) : Z := _rpos b.
Definition end_ (b : Buffer) : Z := _wpos b.

(** Writing [src] at the start of the span returned by [wbuf()]; the caller
    then announces it with [inc_wpos]. *)
Definition wbuf_write (b : Buffer) (src : list Z) : outcome Buffer :=
  w ← wbuf b;
  if decide (zlen src <= zlen w) then
    a ← memcpy (_buf b) (_wpos b) src;
    Ret (mkBuffer a (_rpos b) (_wpos b))
  else UB.

(** ** The views of io.hpp *)

Definition RX_CAP : Z := Z.shiftl 1 20.
Definition TX_CAP : Z := Z.shiftl 1 20.

(** [Input::rbuf], [Input::read] on the buffer the view points to. *)
Definition Input_rbuf := rbuf.
Definition Input_read := inc_rpos.

(** [Output::wbuf], [Output::wrote]. *)
Definition Output_wbuf := wbuf.
Definition Output_wrote := inc_wpos.

(** [struct IO : RxSource, TxSink]: the receive buffer is read through it, the
    transmit buffer written. *)
Record IO := mkIO { io_rx : Buffer; io_tx : Buffer }.

Definition io_rbuf (io : IO) : outcome (list Z) := Input_rbuf (io_rx io).
Definition io_read (io : IO) (len : Z) : IO := mkIO (Input_read (io_rx io) len) (io_tx io).
Definition io_wbuf (io : IO) : outcome (list Z) := Output_wbuf (io_tx io).
Definition io_wrote (io : IO) (len : Z) : IO := mkIO (io_rx io) (Output_wrote (io_tx io) len).
Definition io_put (io : IO) (src : list Z) : outcome IO :=
  tx ← wbuf_write (io_tx io) src; Ret (mkIO (io_rx io) tx).

(** ** Invariant and abstraction *)

Definition buffer_wf (b : Buffer) : Prop :=
  0 <= _rpos b <= _wpos b /\ _wpos b <= CAP b /\ CAP b < 2 ^ 64.

#[export] Instance buffer_wf_dec b : Decision (buffer_wf b).
Proof. unfold buffer_wf. apply _. Defined.

Definition contents (b : Buffer) : list Z := slice (_buf b) (_rpos b) (_wpos b - _rpos b).

(** Free space at the tail of the array (what [wbuf()] spans). *)
Definition room (b : Buffer) : Z := CAP b - _wpos b.

Section buffer.
Implicit Types b : Buffer.

Lemma buffer_wf_diff b : buffer_wf b -> u64 (_wpos b - _rpos b) = _wpos b - _rpos b.
Proof. unfold buffer_wf. intros. apply u64_small. lia. Qed.

Lemma buffer_wf_room b : buffer_wf b -> u64 (CAP b - _wpos b) = room b.
Proof. unfold buffer_wf, room. intros. apply u64_small. lia. Qed.

Lemma room_nonneg b : buffer_wf b -> 0 <= room b.
Proof. unfold buffer_wf, room. lia. Qed.

Lemma zlen_contents b : buffer_wf b -> zlen (contents b) = _wpos b - _rpos b.
Proof. unfold buffer_wf, contents, CAP. intros. apply zlen_slice; lia. Qed.

Lemma contents_le_cap b : buffer_wf b -> zlen (contents b) <= CAP b.
Proof. intros Hb. rewrite zlen_contents by done. unfold buffer_wf in Hb. lia. Qed.

Lemma rbuf_wf b : buffer_wf b -> rbuf b = Ret (contents b).
Proof.
  intros H. unfold rbuf. rewrite buffer_wf_diff by done.
  unfold buffer_wf, CAP in H. by rewrite subspan_in by lia.
Qed.

Lemma wbuf_wf b : buffer_wf b ->
  wbuf b = Ret (slice (_buf b) (_wpos b) (room b)).
Proof.
  intros H. unfold wbuf. rewrite buffer_wf_room by done.
  unfold buffer_wf, room, CAP in *. by rewrite subspan_in by lia.
Qed.

Lemma zlen_wbuf b : buffer_wf b -> zlen (slice (_buf b) (_wpos b) (room b)) = room b.
Proof. unfold buffer_wf, room, CAP. intros. apply zlen_slice; lia. Qed.

Lemma Buffer_new_wf cap : 0 <= cap < 2 ^ 64 -> buffer_wf (Buffer_new cap).
Proof.
  unfold buffer_wf, Buffer_new, CAP, zlen. simpl. rewrite length_replicate. lia.
Qed.

Lemma CAP_Buffer_new cap : 0 <= cap -> CAP (Buffer_new cap) = cap.
Proof. unfold CAP, Buffer_new, zlen. simpl. rewrite length_replicate. lia. Qed.

Lemma cap_new c : 0 <= c < 2 ^ 64 -> buffer_wf (Buffer_new c) /\ CAP (Buffer_new c) = c.
Proof. intros. split; [by apply Buffer_new_wf|apply CAP_Buffer_new; lia]. Qed.

Lemma clear_wf b : buffer_wf b -> buffer_wf (clear b).
Proof. unfold buffer_wf, clear, CAP. simpl. lia. Qed.

Lemma clear_contents b : contents (clear b) = [].
Proof. done. Qed.

Lemma CAP_clear b : CAP (clear b) = CAP b.
Proof. done. Qed.

Lemma CAP_inc_rpos b n : CAP (inc_rpos b n) = CAP b.
Proof. unfold inc_rpos. by destruct (_ =? _). Qed.

Lemma CAP_inc_wpos b n : CAP (inc_wpos b n) = CAP b.
Proof. done. Qed.

Lemma inc_rpos_spec b n :
  buffer_wf b -> 0 <= n <= zlen (contents b) ->
  buffer_wf (inc_rpos b n) /\ contents (inc_rpos b n) = drop (Z.to_nat n) (contents b).
Proof.
  intros Hwf Hn. rewrite zlen_contents in Hn by done.
  assert (Hu : u64 (_rpos b + n) = _rpos b + n)
    by (unfold buffer_wf in Hwf; apply u64_small; lia).
  unfold inc_rpos. rewrite Hu. destruct (_ =? _) eqn:E; bool_to_prop.
  - split; [unfold buffer_wf, CAP in *; simpl in *; lia|].
    rewrite drop_ge; [done|].
    pose proof (zlen_contents b Hwf). unfold zlen in *. lia.
  - split; [unfold buffer_wf, CAP in *; simpl in *; lia|].
    unfold contents, slice. simpl.
    rewrite skipn_firstn_comm, drop_drop. unfold buffer_wf in Hwf. f_equal; [lia|]. f_equal. lia.
Qed.

Lemma inc_rpos_wf b n :
  buffer_wf b -> 0 <= n <= zlen (contents b) -> buffer_wf (inc_rpos b n).
Proof. intros. by apply inc_rpos_spec. Qed.

Lemma inc_wpos_wf b n : buffer_wf b -> 0 <= n <= room b -> buffer_wf (inc_wpos b n).
Proof.
  unfold buffer_wf, inc_wpos, room, CAP. simpl. intros.
  rewrite u64_small by lia. lia.
Qed.

(** A write followed by [wrote] appends to the FIFO. *)
Lemma wbuf_write_spec b src :
  buffer_wf b -> zlen src <= room b ->
  exists b', wbuf_write b src = Ret b' /\ buffer_wf b' /\ CAP b' = CAP b /\
    _rpos b' = _rpos b /\ _wpos b' = _wpos b /\ contents b' = contents b /\
    buffer_wf (inc_wpos b' (zlen src)) /\
    contents (inc_wpos b' (zlen src)) = contents b ++ src.
Proof.
  intros Hwf Hroom. pose proof (zlen_nonneg src) as Hsrc.
  pose proof Hwf as (Hr & Hw & Hc). unfold room in Hroom.
  exists (mkBuffer (splice (_buf b) (_wpos b) src) (_rpos b) (_wpos b)).
  assert (Hlen : zlen (splice (_buf b) (_wpos b) src) = zlen (_buf b))
    by (apply zlen_splice; unfold CAP in *; lia).
  assert (Hwf' : buffer_wf (mkBuffer (splice (_buf b) (_wpos b) src) (_rpos b) (_wpos b)))
    by (unfold buffer_wf, CAP in *; simpl; lia).
  split_and!.
  - unfold wbuf_write. rewrite wbuf_wf by done. simpl.
    rewrite zlen_wbuf by done. rewrite decide_True by (unfold room; lia).
    unfold memcpy. rewrite decide_True by (unfold CAP in *; lia). done.
  - done.
  - unfold CAP in *. simpl. lia.
  - done.
  - done.
  - unfold contents, slice, splice, CAP, zlen in *. simpl.
    rewrite drop_app_le by (rewrite length_take; lia).
    rewrite take_app_le by (rewrite length_drop, length_take; lia).
    rewrite skipn_firstn_comm, take_take. f_equal. lia.
  - apply inc_wpos_wf; [done|]. unfold room, CAP in *. simpl. lia.
  - unfold contents, inc_wpos. simpl. rewrite u64_small by (unfold CAP in *; lia).
    rewrite slice_splice_app by (unfold CAP in *; lia). done.
Qed.
End buffer.

(** ** Both buffers of a connection *)

Definition io_wf (io : IO) : Prop := buffer_wf (io_rx io) /\ buffer_wf (io_tx io).

(** Capacities stay, input is only consumed from the front, output only appended. *)
Definition progress (io io' : IO) : Prop :=
  CAP (io_rx io') = CAP (io_rx io) /\ CAP (io_tx io') = CAP (io_tx io) /\
  (exists n, contents (io_rx io') = drop n (contents (io_rx io))) /\
  exists bs, contents (io_tx io') = contents (io_tx io) ++ bs.

#[export] Instance progress_preorder : PreOrder progress.
Proof.
  split.
  - intros io. split_and!; [done|done|by exists 0%nat|]. exists []. by rewrite app_nil_r.
  - intros io1 io2 io3 (? & ? & [n Hn] & [bs Hbs]) (? & ? & [m Hm] & [cs Hcs]).
    split_and!; [congruence|congruence| |].
    + exists (n + m)%nat. by rewrite Hm, Hn, drop_drop.
    + exists (bs ++ cs). by rewrite Hcs, Hbs, app_assoc.
Qed.

#[export] Hint Resolve clear_wf inc_rpos_wf inc_wpos_wf : manet.
Create Rewrite HintDb buffer.
#[export] Hint Rewrite CAP_clear CAP_inc_rpos CAP_inc_wpos : buffer.

(** ** Refinement: the buffer implements a bounded FIFO *)

Inductive buf_op := OpWrite (src : list Z) | OpRead (n : Z) | OpClear.

(** The way a client uses the buffer: check the span sizes, write and announce,
    or consume. *)
Definition run_op (b : Buffer) (op : buf_op) : outcome Buffer :=
  match op with
  | OpWrite src => b' ← wbuf_write b src; Ret (inc_wpos b' (zlen src))
  | OpRead n => Ret (inc_rpos b n)
  | OpClear => Ret (clear b)
  end.

Definition op_pre (b : Buffer) (op : buf_op) : bool :=
  match op with
  | OpWrite src => zlen src <=? room b
  | OpRead n => (0 <=? n) && (n <=? zlen (contents b))
  | OpClear => true
  end.

(** The same operation on the abstract FIFO. *)
Definition fifo_op (q : list Z) (op : buf_op) : list Z :=
  match op with
  | OpWrite src => q ++ src
  | OpRead n => drop (Z.to_nat n) q
  | OpClear => []
  end.

Fixpoint run_ops (b : Buffer) (ops : list buf_op) : outcome Buffer :=
  match ops with
  | [] => Ret b
  | op :: ops' => if op_pre b op then b' ← run_op b op; run_ops b' ops' else UB
  end.

Lemma run_op_refines b op :
  buffer_wf b -> op_pre b op = true ->
  exists b', run_op b op = Ret b' /\ buffer_wf b' /\ contents b' = fifo_op (contents b) op.
Proof.
  intros Hwf Hpre. destruct op as [src|n|]; simpl in *; bool_to_prop.
  - destruct (wbuf_write_spec b src) as (b' & -> & _ & _ & _ & _ & _ & Hwf' & Hc); [done..|].
    simpl. eauto.
  - destruct (inc_rpos_spec b n) as [? ?]; [done..|]. eauto.
  - exists (clear b). eauto using clear_wf, clear_contents.
Qed.

(** ** Properties *)

(** C6: refinement of the abstract FIFO: any sequence of writes, reads and clears
    that respects the sizes of the spans leaves the buffer well formed, and its
    readable bytes are those of a list queue that saw the same operations. *)
Theorem buffer_refines_fifo (b b' : Buffer) (ops : list buf_op)
    (Hwf : buffer_wf b) (Hrun : run_ops b ops = Ret b') :
  buffer_wf b' /\ rbuf b' = Ret (fold_left fifo_op ops (contents b)).
Proof.
  revert b Hwf Hrun. induction ops as [|o ops IH]; intros b Hwf Hrun; simpl in *.
  - injection Hrun as <-. eauto using rbuf_wf.
  - destruct (op_pre b o) eqn:Hpre; [|done].
    destruct (run_op_refines b o Hwf Hpre) as (b1 & Hb1 & Hwf1 & Hc1).
    rewrite Hb1 in Hrun. simpl in Hrun. destruct (IH b1 Hwf1 Hrun) as [? Hr].
    by rewrite Hr, Hc1.
Qed.

Lemma buffer_refines_fifo_witness :
  exists b', run_ops (Buffer_new 8) [OpWrite [1; 2; 3]; OpRead 2; OpWrite [4]] = Ret b' /\
    rbuf b' = Ret [3; 4].
Proof.
  eexists. split; [reflexivity|].
  apply (buffer_refines_fifo (Buffer_new 8) _ [OpWrite [1; 2; 3]; OpRead 2; OpWrite [4]]).
  - apply (bool_decide_unpack _). vm_compute. exact I.
  - reflexivity.
Defined.

(** Space before the read position is only given back when the buffer is
    drained: while bytes are left, no operation makes more room, and [full()]
    says that the tail is used up, however many bytes were consumed. *)
Lemma buffer_reclaims_only_when_drained (b b' : Buffer) (op : buf_op)
    (Hwf : buffer_wf b) (Hpre : op_pre b op = true)
    (Hrun : run_op b op = Ret b') (Hne : contents b' <> []) :
  room b' <= room b /\ (full b' = true <-> room b' = 0).
Proof.
  split; cycle 1.
  { unfold full, room. rewrite Z.eqb_eq. lia. }
  destruct op as [src|n|]; simpl in *; bool_to_prop.
  - destruct (wbuf_write_spec b src Hwf) as (b1 & Hb1 & _ & HC & _ & Hw & _ & Hwf' & _); [done|].
    rewrite Hb1 in Hrun. simpl in Hrun. injection Hrun as <-.
    unfold room. rewrite CAP_inc_wpos, HC. simpl. rewrite Hw.
    pose proof (zlen_nonneg src). unfold buffer_wf, room in *. rewrite u64_small by lia. lia.
  - injection Hrun as <-. unfold inc_rpos in *. destruct (_ =? _); [done|].
    unfold room, CAP. simpl. lia.
  - by injection Hrun as <-.
Qed.

Lemma buffer_reclaims_only_when_drained_witness :
  let b := mkBuffer [1; 2; 3; 4] 0 4 in
  room (inc_rpos b 3) <= room b /\ (full (inc_rpos b 3) = true <-> room (inc_rpos b 3) = 0).
Proof.
  apply (buffer_reclaims_only_when_drained (mkBuffer [1; 2; 3; 4] 0 4) _ (OpRead 3)).
  - apply (bool_decide_unpack _). vm_compute. exact I.
  - reflexivity.
  - reflexivity.
  - discriminate.
Defined.
