(* ===== verification/Base64.v ===== *)
(** * Base64

    [utils::base64_encode] (include/manet/utils/base64.hpp), with a reference
    decoder written from the positional meaning of the encoding. *)

From S2P Require Import Prelude.

Definition table : list Z :=
  Eval vm_compute in
  str "ABCDEFGHIJKLMNOPQRSTUVWXYZabcdefghijklmnopqrstuvwxyz0123456789+/".

Definition eq_char : Z := Eval vm_compute in chr "=".

(** [table[i]]; for bytes the index is below 64 ([table_index_bounds]). *)
Definition table_at (i : Z) : Z := default 0 (table !! Z.to_nat i).

(** The four indices of a full group. *)
Definition group1 (a : Z) : Z := Z.shiftr a 2.
Definition group2 (a b : Z) : Z := Z.lor (Z.shiftl (Z.land a 3) 4) (Z.shiftr b 4).
Definition group3 (b c : Z) : Z := Z.lor (Z.shiftl (Z.land b 15) 2) (Z.shiftr c 6).
Definition group4 (c : Z) : Z := Z.land c 63.

(** The characters written through [pos], in order. *)
Fixpoint base64_encode (src : list Z) : list Z :=
  match src with
  | a :: b :: c :: src' =>
      table_at (group1 a) :: table_at (group2 a b) ::
      table_at (group3 b c) :: table_at (group4 c) :: base64_encode src'
  | [a; b] =>
      [table_at (group1 a); table_at (group2 a b);
       table_at (Z.shiftl (Z.land b 15) 2); eq_char]
  | [a] =>
      [table_at (group1 a); table_at (Z.shiftl (Z.land a 3) 4); eq_char; eq_char]
  | [] => []
  end.

(** ** Reference decoder *)

Definition table_val (c : Z) : option Z :=
  (fun p => Z.of_nat p.1) <$> list_find (eq c) table.

(** Three bytes from the 24-bit number four digits spell. *)
Definition dec3 (v1 v2 v3 v4 : Z) : list Z :=
  let n := ((v1 * 64 + v2) * 64 + v3) * 64 + v4 in
  [n / 65536; n / 256 mod 256; n mod 256].

Fixpoint base64_decode (l : list Z) : option (list Z) :=
  match l with
  | [] => Some []
  | c1 :: c2 :: c3 :: c4 :: l' =>
      v1 ← table_val c1; v2 ← table_val c2;
      match l', bool_decide (c3 = eq_char), bool_decide (c4 = eq_char) with
      | [], true, true => Some (take 1 (dec3 v1 v2 0 0))
      | [], false, true => v3 ← table_val c3; Some (take 2 (dec3 v1 v2 v3 0))
      | _, _, _ =>
          v3 ← table_val c3; v4 ← table_val c4;
          r ← base64_decode l'; Some (dec3 v1 v2 v3 v4 ++ r)
      end
  | _ => None
  end.

(** ** Lemmas *)

(** Induction three bytes at a time, as the loop runs. *)
Lemma triple_ind (P : list Z -> Prop) :
  P [] -> (forall a, P [a]) -> (forall a b, P [a; b]) ->
  (forall a b c l, P l -> P (a :: b :: c :: l)) -> forall l, P l.
Proof.
  intros H0 H1 H2 H3. fix IH 1. intros [|a [|b [|c l]]]; [auto..|]. apply H3, IH.
Qed.

Lemma table_val_at i : 0 <= i < 64 -> table_val (table_at i) = Some i /\ table_at i <> eq_char.
Proof.
  intros Hi.
  assert (Hall : Forall (fun n => table_val (table_at (Z.of_nat n)) = Some (Z.of_nat n) /\
                                  table_at (Z.of_nat n) <> eq_char) (seq 0 64)).
  { apply (bool_decide_unpack _). vm_compute. exact I. }
  rewrite Forall_forall in Hall.
  specialize (Hall (Z.to_nat i)). rewrite Z2Nat.id in Hall by lia.
  apply Hall. apply elem_of_seq. lia.
Qed.

Ltac fields :=
  unfold group1, group2, group3, group4, is_byte in *;
  rewrite ?(land_ones_mod _ 2 3), ?(land_ones_mod _ 4 15), ?(land_ones_mod _ 6 63) by done;
  rewrite ?Z.shiftr_div_pow2 by lia;
  rewrite ?lor_shiftl_add, ?Z.shiftl_mul_pow2
    by divmod_lia;
  change (2 ^ 2) with 4; change (2 ^ 4) with 16; change (2 ^ 6) with 64.

Lemma group1_bounds a : is_byte a -> 0 <= group1 a < 64.
Proof. intros. fields. divmod_lia. Qed.
Lemma group2_bounds a b : is_byte a -> is_byte b -> 0 <= group2 a b < 64.
Proof. intros. fields. divmod_lia. Qed.
Lemma group3_bounds b c : is_byte b -> is_byte c -> 0 <= group3 b c < 64.
Proof. intros. fields. divmod_lia. Qed.
Lemma group4_bounds c : is_byte c -> 0 <= group4 c < 64.
Proof. intros. fields. divmod_lia. Qed.

(** The two tail groups are full groups with a zero byte. *)
Lemma group2_0 a : is_byte a -> Z.shiftl (Z.land a 3) 4 = group2 a 0.
Proof. intros. unfold group2. change (Z.shiftr 0 4) with 0. by rewrite Z.lor_0_r. Qed.
Lemma group3_0 b : is_byte b -> Z.shiftl (Z.land b 15) 2 = group3 b 0.
Proof. intros. unfold group3. change (Z.shiftr 0 6) with 0. by rewrite Z.lor_0_r. Qed.

Lemma dec3_groups a b c :
  is_byte a -> is_byte b -> is_byte c ->
  dec3 (group1 a) (group2 a b) (group3 b c) (group4 c) = [a; b; c].
Proof.
  intros. unfold dec3. fields.
  f_equal; [|f_equal; [|f_equal]]; divmod_lia.
Qed.

Lemma byte_0 : is_byte 0.
Proof. unfold is_byte. lia. Qed.

#[export] Hint Resolve group1_bounds group2_bounds group3_bounds group4_bounds byte_0 : manet.

Lemma base64_encode_length l : zlen (base64_encode l) = 4 * ((zlen l + 2) / 3).
Proof.
  induction l as [|a|a b|a b c l IH] using triple_ind; [done..|].
  cbn [base64_encode]. autorewrite with zlen. rewrite IH.
  divmod_lia.
Qed.

Lemma base64_encode_digit l c :
  is_bytes l -> c ∈ base64_encode l -> c = eq_char \/ c ∈ table.
Proof.
  assert (Ht : forall i, 0 <= i < 64 -> table_at i ∈ table).
  { intros i Hi. unfold table_at. destruct (table !! Z.to_nat i) eqn:E.
    - by apply list_elem_of_lookup_2 in E.
    - apply lookup_ge_None in E. change (length table) with 64%nat in E. lia. }
  induction l as [|a|a b|a b c' l IH] using triple_ind; cbn [base64_encode];
    intros Hl Hc; [by apply not_elem_of_nil in Hc|..];
    unfold is_bytes in Hl; decompose_Forall_hyps;
    rewrite ?group2_0, ?group3_0 in Hc by done;
    repeat (apply elem_of_cons in Hc as [->|Hc]; [eauto with manet|]);
    [by apply not_elem_of_nil in Hc..|]. by apply IH.
Qed.

#[local] Opaque dec3.

Lemma base64_roundtrip_aux l : is_bytes l -> base64_decode (base64_encode l) = Some l.
Proof.
  induction l as [|a|a b|a b c l IH] using triple_ind; intros Hl; [done|..];
    unfold is_bytes in *; decompose_Forall_hyps; cbn [base64_encode];
    rewrite ?group2_0, ?group3_0 by done.
  - destruct (table_val_at (group1 a)) as [E1 _]; [auto with manet|].
    destruct (table_val_at (group2 a 0)) as [E2 _]; [auto with manet|].
    cbn [base64_decode]. rewrite E1, E2. cbn [mbind option_bind].
    pose proof (dec3_groups a 0 0) as Hd.
    change (group3 0 0) with 0 in Hd. change (group4 0) with 0 in Hd.
    by rewrite Hd by auto with manet.
  - destruct (table_val_at (group1 a)) as [E1 _]; [auto with manet|].
    destruct (table_val_at (group2 a b)) as [E2 _]; [auto with manet|].
    destruct (table_val_at (group3 b 0)) as [E3 N3]; [auto with manet|].
    cbn [base64_decode]. rewrite E1, E2. cbn [mbind option_bind]. rewrite bool_decide_false by done.
    rewrite E3. cbn [mbind option_bind].
    pose proof (dec3_groups a b 0) as Hd. change (group4 0) with 0 in Hd.
    by rewrite Hd by auto with manet.
  - destruct (table_val_at (group1 a)) as [E1 _]; [auto with manet|].
    destruct (table_val_at (group2 a b)) as [E2 _]; [auto with manet|].
    destruct (table_val_at (group3 b c)) as [E3 N3]; [auto with manet|].
    destruct (table_val_at (group4 c)) as [E4 N4]; [auto with manet|].
    cbn [base64_decode]. rewrite E1, E2. cbn [mbind option_bind].
    rewrite !bool_decide_false by done. rewrite E3, E4. cbn [mbind option_bind].
    rewrite IH, dec3_groups by done. by destruct (base64_encode l).
Qed.

(** ** Properties *)

(** C33: the encoder is inverted by the reference decoder on every byte string. *)
Theorem base64_roundtrip (l : list Z) (Hl : is_bytes l) :
  base64_decode (base64_encode l) = Some l.
Proof. by apply base64_roundtrip_aux. Qed.

Lemma base64_roundtrip_witness :
  base64_decode (base64_encode [104; 255; 0; 7]) = Some [104; 255; 0; 7].
Proof.
  apply base64_roundtrip. apply (bool_decide_unpack _). vm_compute. exact I.
Defined.

(** Exactly the [N = 4 * ((M + 2) / 3)] characters of the output array are
    written, all of them digits of the table or padding. *)
Lemma base64_output (l : list Z) (Hl : is_bytes l) :
  zlen (base64_encode l) = 4 * ((zlen l + 2) / 3) /\
  Forall (fun c => c = eq_char \/ c ∈ table) (base64_encode l).
Proof.
  split; [apply base64_encode_length|].
  apply Forall_forall. intros c Hc. by apply (base64_encode_digit l).
Qed.

Lemma base64_output_witness :
  zlen (base64_encode [1; 2]) = 4 /\
  Forall (fun c => c = eq_char \/ c ∈ table) (base64_encode [1; 2]).
Proof.
  apply (base64_output [1; 2]). apply (bool_decide_unpack _). vm_compute. exact I.
Defined.
