(* ===== verification/Frame.v ===== *)
(** * WebSocket frames

    include/manet/protocol/websocket_frame.hpp: the enumerations, the frame
    view and [parse_frame], the single-pass parser of server frames.  Lengths
    are kept at their 64-bit width, so that [hdr + len] wraps as in the code,
    and [subspan] reads the largest count as [std::dynamic_extent]. *)

From S2P Require Import Prelude.

(** [enum class OpCode : uint8_t].  The underlying type is fixed, so
    [static_cast<OpCode>(b0 & 0x0F)] may hold a value without a name. *)
Module OpCode.
Inductive t : Set := cont | text | binary | close | ping | pong | unnamed (v : Z).

#[global] Instance t_eq_dec : EqDecision t.
Proof. solve_decision. Defined.

Definition of_Z (v : Z) : t :=
  if v =? 0 then cont else if v =? 1 then text else if v =? 2 then binary
  else if v =? 8 then close else if v =? 9 then ping else if v =? 10 then pong
  else unnamed v.

Definition to_Z (op : t) : Z :=
  match op with
  | cont => 0 | text => 1 | binary => 2 | close => 8 | ping => 9 | pong => 10
  | unnamed v => v
  end.

(** The values a four-bit field can hold. *)
Definition nibble (op : t) : Prop := of_Z (to_Z op) = op /\ 0 <= to_Z op < 16.

Lemma to_of_Z v : to_Z (of_Z v) = v.
Proof. unfold of_Z. repeat case_match; bool_to_prop; subst; done. Qed.

Lemma nibble_of_Z v : 0 <= v < 16 -> nibble (of_Z v).
Proof. intros. unfold nibble. by rewrite to_of_Z. Qed.
End OpCode.

Module CloseCode.
Inductive t : Set :=
| normal | going_away | protocol_error | unsupported | invalid_payload
| policy_violation | msg_too_big | mandatory_ext | internal_error.

#[global] Instance t_eq_dec : EqDecision t.
Proof. solve_decision. Defined.

Definition to_Z (c : t) : Z :=
  match c with
  | normal => 1000 | going_away => 1001 | protocol_error => 1002
  | unsupported => 1003 | invalid_payload => 1007 | policy_violation => 1008
  | msg_too_big => 1009 | mandatory_ext => 1010 | internal_error => 1011
  end.
End CloseCode.

Module parse_status.
Inductive t : Set := ok | need_more | masked_server | bad_reserved.

#[global] Instance t_eq_dec : EqDecision t.
Proof. solve_decision. Defined.
End parse_status.

Record frame_view := mkFrame {
  op : OpCode.t;
  fin : bool;
  payload : list Z;
  payload_len : Z
}.

Record parse_output := mkParse { frame : frame_view; consumed : Z }.

Definition fin_bit (b0 : Z) : bool := negb (Z.land b0 128 =? 0).
Definition rsv (b0 : Z) : Z := Z.land (Z.shiftr b0 4) 7.
Definition to_op (b0 : Z) : OpCode.t := OpCode.of_Z (Z.land b0 15).
Definition masked (b1 : Z) : bool := negb (Z.land b1 128 =? 0).
Definition len7 (b1 : Z) : Z := Z.land b1 127.

(** [for (i = 0; i < 8; i++) x = (x << 8) | buf[2 + i];] *)
Definition be64 (bs : list Z) : Z :=
  fold_left (fun x b => u64 (Z.lor (Z.shiftl x 8) b)) bs 0.

(** The payload length and the header size, or [None] when the extended length
    field is not there yet. *)
Definition frame_len (inp : list Z) (b1 : Z) : outcome (option (Z * Z)) :=
  let len := len7 b1 in
  if len =? 126 then
    if zlen inp <? 4 then Ret None
    else
      b2 ← span_at inp 2; b3 ← span_at inp 3;
      Ret (Some (Z.lor (Z.shiftl b2 8) b3, 2 + 2))
  else if len =? 127 then
    if zlen inp <? 10 then Ret None
    else
      bs ← subspan inp 2 8;
      Ret (Some (be64 bs, 2 + 8))
  else Ret (Some (len, 2)).

(** [parse_frame(in, out)]: the status, and [out] when it is written. *)
Definition parse_frame (inp : list Z) : outcome (parse_status.t * option parse_output) :=
  if zlen inp <? 2 then Ret (parse_status.need_more, None)
  else
    b0 ← span_at inp 0; b1 ← span_at inp 1;
    if negb (rsv b0 =? 0) then Ret (parse_status.bad_reserved, None)
    else if masked b1 then Ret (parse_status.masked_server, None)
    else
      r ← frame_len inp b1;
      match r with
      | None => Ret (parse_status.need_more, None)
      | Some (len, hdr) =>
          if zlen inp <? u64 (hdr + len) then Ret (parse_status.need_more, None)
          else
            pl ← subspan inp hdr len;
            Ret (parse_status.ok,
                 Some (mkParse (mkFrame (to_op b0) (fin_bit b0) pl len) (u64 (hdr + len))))
      end.

(** ** Reference: the RFC 6455 encoding of an unmasked frame *)

Fixpoint be_bytes (n : nat) (x : Z) : list Z :=
  match n with
  | O => []
  | S n' => be_bytes n' (x / 256) ++ [x mod 256]
  end.

Definition encode_len (n : Z) : list Z :=
  if n <? 126 then [n]
  else if n <? 65536 then 126 :: be_bytes 2 n
  else 127 :: be_bytes 8 n.

(** The encodings of a length: RFC 6455 wants the shortest, the parser takes all
    three. *)
Inductive length_form (n : Z) : list Z -> Prop :=
| form7 : 0 <= n < 126 -> length_form n [n]
| form16 : 0 <= n < 65536 -> length_form n (126 :: be_bytes 2 n)
| form64 : 0 <= n < 2 ^ 64 -> length_form n (127 :: be_bytes 8 n).

Definition first_byte (fin : bool) (op : OpCode.t) : Z :=
  Z.lor (if fin then 128 else 0) (OpCode.to_Z op).

Definition encode_frame (fin : bool) (op : OpCode.t) (pl : list Z) : list Z :=
  first_byte fin op :: encode_len (zlen pl) ++ pl.

(** ** Lemmas on fields *)

Lemma span_at_cons_0 x l : span_at (x :: l) 0 = Ret x.
Proof.
  unfold span_at. rewrite decide_True; [done|].
  rewrite zlen_cons. pose proof (zlen_nonneg l). lia.
Qed.

Lemma span_at_cons_S x l i : 0 < i -> span_at (x :: l) i = span_at l (i - 1).
Proof.
  intros Hi. unfold span_at. rewrite zlen_cons.
  replace (Z.to_nat i) with (S (Z.to_nat (i - 1))) by lia. simpl.
  repeat case_decide; lia || done.
Qed.

Lemma span_at_Some l i : 0 <= i < zlen l -> exists x, span_at l i = Ret x /\ l !! Z.to_nat i = Some x.
Proof.
  intros Hi. unfold span_at. rewrite decide_True by done.
  destruct (l !! Z.to_nat i) eqn:E; [eauto|].
  apply lookup_ge_None in E. unfold zlen in Hi. lia.
Qed.

Lemma be64_app l x : be64 (l ++ [x]) = u64 (Z.lor (Z.shiftl (be64 l) 8) x).
Proof. unfold be64. by rewrite fold_left_app. Qed.

Lemma be64_range l : 0 <= be64 l < 2 ^ 64.
Proof.
  induction l as [|x l _] using rev_ind; [done|]. rewrite be64_app. apply u64_range.
Qed.

Lemma be64_be_bytes n x :
  (n <= 8)%nat -> 0 <= x < 2 ^ (8 * Z.of_nat n) -> be64 (be_bytes n x) = x.
Proof.
  revert x. induction n as [|n IH]; intros x Hn Hx; [change (2 ^ _) with 1 in Hx; cbn; lia|].
  cbn [be_bytes]. rewrite be64_app.
  assert (Hp : 2 ^ (8 * Z.of_nat (S n)) = 256 * 2 ^ (8 * Z.of_nat n)).
  { replace (8 * Z.of_nat (S n)) with (8 + 8 * Z.of_nat n) by lia.
    by rewrite Z.pow_add_r by lia. }
  rewrite IH by (first [lia | split; [apply Z.div_pos; lia | apply Z.div_lt_upper_bound; lia]]).
  rewrite lor_shiftl_add by (first [lia | apply Z.mod_pos_bound; lia]).
  change (2 ^ 8) with 256. rewrite Z.mul_comm, <- Z.div_mod by lia.
  apply u64_small. split; [lia|].
  eapply Z.lt_le_trans; [apply Hx|]. apply Z.pow_le_mono_r; lia.
Qed.

Lemma be64_snoc l x :
  is_byte x -> be64 l < 2 ^ 56 -> be64 (l ++ [x]) = be64 l * 256 + x.
Proof.
  unfold is_byte. intros Hx Hl. pose proof (be64_range l). rewrite be64_app.
  rewrite lor_shiftl_add by lia. change (2 ^ 8) with 256. apply u64_small. lia.
Qed.

Lemma be64_bound l : is_bytes l -> (length l <= 8)%nat -> be64 l < 2 ^ (8 * Z.of_nat (length l)).
Proof.
  induction l as [|x l IH] using rev_ind; intros Hb Hl; [done|].
  unfold is_bytes in *. rewrite Forall_app, Forall_singleton in Hb. destruct Hb as [Hb Hx].
  rewrite length_app in *. cbn [length] in *. specialize (IH Hb ltac:(lia)).
  assert (2 ^ (8 * Z.of_nat (length l)) <= 2 ^ 56) by (apply Z.pow_le_mono_r; lia).
  rewrite be64_snoc by (done || lia).
  replace (8 * Z.of_nat (length l + 1)) with (8 * Z.of_nat (length l) + 8) by lia.
  rewrite Z.pow_add_r by lia. unfold is_byte in Hx. lia.
Qed.

(** Encoding the value read gives back the bytes read. *)
Lemma be_bytes_be64 l : is_bytes l -> (length l <= 8)%nat -> be_bytes (length l) (be64 l) = l.
Proof.
  induction l as [|x l IH] using rev_ind; intros Hb Hl; [done|].
  unfold is_bytes in *. rewrite Forall_app, Forall_singleton in Hb. destruct Hb as [Hb Hx].
  rewrite length_app in *. cbn [length] in *. rewrite Nat.add_1_r. cbn [be_bytes].
  assert (Hlt : be64 l < 2 ^ 56).
  { eapply Z.lt_le_trans; [apply be64_bound; [done|lia]|apply Z.pow_le_mono_r; lia]. }
  rewrite be64_snoc by done. unfold is_byte in Hx. pose proof (be64_range l).
  replace ((be64 l * 256 + x) / 256) with (be64 l) by divmod_lia.
  replace ((be64 l * 256 + x) mod 256) with x by divmod_lia.
  by rewrite IH by (done || lia).
Qed.

Lemma length_be_bytes n x : length (be_bytes n x) = n.
Proof. revert x. induction n as [|n IH]; intros x; [done|]. simpl. rewrite length_app, IH. simpl. lia. Qed.

Lemma zlen_be_bytes n x : zlen (be_bytes n x) = Z.of_nat n.
Proof. unfold zlen. by rewrite length_be_bytes. Qed.

Lemma first_byte_fields f o :
  OpCode.nibble o ->
  rsv (first_byte f o) = 0 /\ fin_bit (first_byte f o) = f /\ to_op (first_byte f o) = o.
Proof.
  intros [Ho Hr]. unfold first_byte, to_op.
  remember (OpCode.to_Z o) as v eqn:Hv. clear Hv.
  assert (Hv : v ∈ seqZ 0 16) by (apply elem_of_seqZ; lia).
  assert (Hall : Forall (fun v => rsv (Z.lor (if f then 128 else 0) v) = 0 /\
       fin_bit (Z.lor (if f then 128 else 0) v) = f /\
       Z.land (Z.lor (if f then 128 else 0) v) 15 = v) (seqZ 0 16)).
  { destruct f; apply (bool_decide_unpack _); vm_compute; exact I. }
  rewrite Forall_forall in Hall. specialize (Hall v Hv) as (-> & -> & ->). done.
Qed.

(** A first byte without reserved bits is the encoding of its own fields. *)
Lemma first_byte_read b :
  is_byte b -> rsv b = 0 -> first_byte (fin_bit b) (to_op b) = b /\ OpCode.nibble (to_op b).
Proof.
  unfold is_byte. intros Hb.
  assert (Hall : Forall (fun b => rsv b = 0 ->
      Z.lor (if fin_bit b then 128 else 0) (Z.land b 15) = b /\ 0 <= Z.land b 15 < 16) (seqZ 0 256)).
  { apply (bool_decide_unpack _). vm_compute. exact I. }
  rewrite Forall_forall in Hall. intros Hr. destruct (Hall b) as [H1 H2]; [apply elem_of_seqZ; lia|done|].
  unfold first_byte, to_op. rewrite OpCode.to_of_Z. split; [done|by apply OpCode.nibble_of_Z].
Qed.

(** The second byte: an unmasked seven-bit field. *)
Lemma len7_small n : 0 <= n < 128 -> len7 n = n /\ masked n = false.
Proof.
  intros Hn.
  assert (Hall : Forall (fun n => len7 n = n /\ masked n = false) (seqZ 0 128)).
  { apply (bool_decide_unpack _). vm_compute. exact I. }
  rewrite Forall_forall in Hall. apply Hall, elem_of_seqZ. lia.
Qed.

Lemma masked_false_small b : is_byte b -> masked b = false -> len7 b = b /\ b < 128.
Proof.
  unfold is_byte. intros Hb.
  assert (Hall : Forall (fun b => masked b = false -> len7 b = b /\ b < 128) (seqZ 0 256)).
  { apply (bool_decide_unpack _). vm_compute. exact I. }
  rewrite Forall_forall in Hall. apply Hall, elem_of_seqZ. lia.
Qed.

Lemma len7_range b : 0 <= len7 b < 128.
Proof.
  unfold len7. rewrite (land_ones_mod b 7 127) by done. apply Z.mod_pos_bound. lia.
Qed.

Lemma encode_len_range n : 0 <= n -> 1 <= zlen (encode_len n) <= 9.
Proof.
  intros. unfold encode_len. repeat case_match; rewrite ?zlen_cons, ?zlen_be_bytes, ?zlen_nil; lia.
Qed.

(** ** The parser on an encoded frame *)

Section parse.
Implicit Types pl rest inp : list Z.

Lemma encode_len_form n : 0 <= n < 2 ^ 64 -> length_form n (encode_len n).
Proof.
  intros. unfold encode_len. destruct (n <? 126) eqn:?; [|destruct (n <? 65536) eqn:?];
    bool_to_prop; constructor; lia.
Qed.

Lemma length_form_range n lf :
  length_form n lf -> 0 <= n < 2 ^ 64 /\ 1 <= zlen lf <= 9 /\ (2 ^ 63 <= n -> zlen lf = 9).
Proof. destruct 1; autorewrite with zlen; rewrite ?zlen_be_bytes; split_and!; intros; lia. Qed.

(** [frame_len] reads back the length field, in whichever form it was written. *)
Lemma frame_len_form b0 n lf rest :
  length_form n lf ->
  exists b1 ext, lf = b1 :: ext /\ masked b1 = false /\
    frame_len (b0 :: b1 :: ext ++ rest) b1 = Ret (Some (n, 1 + zlen lf)).
Proof.
  intros Hf. unfold frame_len. pose proof (zlen_nonneg rest). destruct Hf as [Hn|Hn|Hn].
  - destruct (len7_small n) as [Hl Hm]; [lia|]. exists n, []. split_and!; [done..|].
    rewrite Hl. rewrite (proj2 (Z.eqb_neq n 126)), (proj2 (Z.eqb_neq n 127)) by lia. done.
  - exists 126, (be_bytes 2 n). split_and!; [done..|].
    change (len7 126 =? 126) with true. cbv iota.
    rewrite (proj2 (Z.ltb_ge _ _)) by (rewrite !zlen_cons, zlen_app, zlen_be_bytes; lia).
    cbn [be_bytes app]. rewrite !span_at_cons_S, span_at_cons_0 by lia. cbn.
    rewrite !span_at_cons_S, span_at_cons_0 by lia. cbn.
    rewrite lor_shiftl_add by divmod_lia.
    do 3 f_equal. divmod_lia.
  - exists 127, (be_bytes 8 n). split_and!; [done..|].
    change (len7 127 =? 126) with false. change (len7 127 =? 127) with true. cbv iota.
    rewrite (proj2 (Z.ltb_ge _ _)) by (rewrite !zlen_cons, zlen_app, zlen_be_bytes; lia).
    rewrite subspan_in by (rewrite !zlen_cons, zlen_app, zlen_be_bytes; lia).
    change (slice _ 2 8) with (take 8 (be_bytes 8 n ++ rest)).
    rewrite take_app_length' by (by rewrite length_be_bytes).
    cbn [mbind outcome_bind]. rewrite be64_be_bytes by lia.
    by rewrite zlen_cons, zlen_be_bytes.
Qed.

(** What the parser sees in any input with a whole, legal header. *)
Lemma parse_frame_header b0 b1 inp :
  rsv b0 = 0 -> masked b1 = false ->
  parse_frame (b0 :: b1 :: inp) =
    (r ← frame_len (b0 :: b1 :: inp) b1;
    match r with
    | None => Ret (parse_status.need_more, None)
    | Some (len, hdr) =>
        if zlen (b0 :: b1 :: inp) <? u64 (hdr + len) then Ret (parse_status.need_more, None)
        else
          pl ← subspan (b0 :: b1 :: inp) hdr len;
          Ret (parse_status.ok,
               Some (mkParse (mkFrame (to_op b0) (fin_bit b0) pl len) (u64 (hdr + len))))
    end).
Proof.
  intros Hr Hm. unfold parse_frame. pose proof (zlen_nonneg inp).
  rewrite (proj2 (Z.ltb_ge _ _)) by (rewrite !zlen_cons; lia).
  rewrite span_at_cons_S, !span_at_cons_0 by lia. cbn [mbind outcome_bind].
  by rewrite Hr, Hm.
Qed.

(** A frame in any of the three length forms. *)
Lemma parse_form f o lf pl rest :
  OpCode.nibble o -> length_form (zlen pl) lf -> zlen pl < 2 ^ 64 - 10 ->
  parse_frame (first_byte f o :: lf ++ pl ++ rest) =
    Ret (parse_status.ok,
         Some (mkParse (mkFrame o f pl (zlen pl)) (zlen (first_byte f o :: lf ++ pl)))).
Proof.
  intros Ho Hlf Hpl. pose proof (zlen_nonneg pl). pose proof (zlen_nonneg rest).
  destruct (length_form_range _ _ Hlf) as (_ & Hel & _).
  destruct (first_byte_fields f o Ho) as (Hr & Hf & Ht).
  destruct (frame_len_form (first_byte f o) (zlen pl) lf (pl ++ rest) Hlf)
    as (b1 & ext & -> & Hm & Hlen).
  rewrite <- app_comm_cons. rewrite parse_frame_header by done.
  rewrite Hlen. cbn [mbind outcome_bind].
  rewrite u64_small by lia.
  rewrite (proj2 (Z.ltb_ge _ _)) by (rewrite !zlen_cons, !zlen_app in *; lia).
  rewrite subspan_in by (rewrite !zlen_cons, !zlen_app in *; lia).
  rewrite Hf, Ht. cbn [mbind outcome_bind].
  assert (Hs : slice (first_byte f o :: b1 :: ext ++ pl ++ rest) (1 + zlen (b1 :: ext)) (zlen pl) = pl).
  { rewrite <- (zlen_cons (first_byte f o)).
    change (first_byte f o :: b1 :: ext ++ pl ++ rest)
      with ((first_byte f o :: b1 :: ext) ++ pl ++ rest). apply slice_app_mid. }
  rewrite Hs. do 4 f_equal. rewrite (zlen_cons (first_byte f o)), zlen_app. lia.
Qed.

(** The length [std::dynamic_extent] takes the rest of the input for payload,
    while header plus length wraps around to 9. *)
Lemma parse_form_rest f o lf pl :
  OpCode.nibble o -> length_form dynamic_extent lf ->
  parse_frame (first_byte f o :: lf ++ pl) =
    Ret (parse_status.ok, Some (mkParse (mkFrame o f pl dynamic_extent) 9)).
Proof.
  intros Ho Hlf. pose proof (zlen_nonneg pl).
  destruct (length_form_range _ _ Hlf) as (_ & _ & H9). specialize (H9 ltac:(vm_compute; discriminate)).
  destruct (first_byte_fields f o Ho) as (Hr & Hf & Ht).
  destruct (frame_len_form (first_byte f o) dynamic_extent lf pl Hlf) as (b1 & ext & -> & Hm & Hlen).
  rewrite <- app_comm_cons. rewrite parse_frame_header by done.
  rewrite Hlen, H9. cbn [mbind outcome_bind]. change (u64 (1 + 9 + dynamic_extent)) with 9.
  rewrite !zlen_cons in H9.
  rewrite (proj2 (Z.ltb_ge _ _)) by (rewrite !zlen_cons, zlen_app; lia).
  rewrite subspan_rest by (rewrite !zlen_cons, zlen_app; lia).
  rewrite Hf, Ht. cbn [mbind outcome_bind].
  change (Z.to_nat (1 + 9)) with (S (S 8)). cbn [drop].
  by rewrite drop_app_length' by (unfold zlen in H9; lia).
Qed.

Lemma parse_encode f o pl rest :
  OpCode.nibble o -> zlen pl < 2 ^ 64 - 10 ->
  parse_frame (encode_frame f o pl ++ rest) =
    Ret (parse_status.ok,
         Some (mkParse (mkFrame o f pl (zlen pl)) (zlen (encode_frame f o pl)))).
Proof.
  intros Ho Hpl. pose proof (zlen_nonneg pl).
  unfold encode_frame. rewrite <- app_comm_cons, <- app_assoc.
  apply parse_form; [done|apply encode_len_form; lia|done].
Qed.

(** The extended length field is read only when it is there. *)
Lemma frame_len_app inp more b1 v :
  frame_len inp b1 = Ret (Some v) -> frame_len (inp ++ more) b1 = Ret (Some v).
Proof.
  unfold frame_len. pose proof (zlen_nonneg more). rewrite !zlen_app.
  destruct (len7 b1 =? 126); [|destruct (len7 b1 =? 127); [|done]].
  - destruct (zlen inp <? 4) eqn:E; [done|]. bool_to_prop.
    rewrite (proj2 (Z.ltb_ge _ _)) by lia.
    destruct (span_at_Some inp 2) as (x & Hx & Hx'); [lia|].
    destruct (span_at_Some inp 3) as (y & Hy & Hy'); [lia|].
    unfold span_at in *. rewrite zlen_app. repeat case_decide; try lia.
    rewrite !lookup_app_l by (unfold zlen in *; lia). done.
  - destruct (zlen inp <? 10) eqn:E; [done|]. bool_to_prop.
    rewrite (proj2 (Z.ltb_ge _ _)) by lia.
    rewrite !subspan_in by (rewrite ?zlen_app; lia). unfold slice. rewrite !drop_app_le, take_app_le
      by (rewrite ?length_drop; unfold zlen in *; lia). done.
Qed.
End parse.

(** ** Inversion *)

Section inversion.
Implicit Types inp more : list Z.

Lemma frame_len_defined inp b1 : exists r, frame_len inp b1 = Ret r.
Proof.
  unfold frame_len.
  destruct (len7 b1 =? 126); [|destruct (len7 b1 =? 127); [|eauto]].
  - destruct (zlen inp <? 4) eqn:E; [eauto|]. bool_to_prop.
    destruct (span_at_Some inp 2) as (x & -> & _); [lia|].
    destruct (span_at_Some inp 3) as (y & -> & _); [lia|]. simpl. eauto.
  - destruct (zlen inp <? 10) eqn:E; [eauto|]. bool_to_prop.
    rewrite subspan_in by lia. simpl. eauto.
Qed.

Lemma frame_len_range inp b1 len hdr :
  is_bytes inp -> 2 <= zlen inp -> frame_len inp b1 = Ret (Some (len, hdr)) ->
  0 <= len < 2 ^ 64 /\ 2 <= hdr <= zlen inp /\ hdr <= 10 /\
  (len < 2 ^ 64 - 10 \/
   hdr = 10 /\ len7 b1 = 127 /\ len = be64 (slice inp 2 8)).
Proof.
  intros Hb Hz. unfold frame_len. pose proof (len7_range b1).
  destruct (len7 b1 =? 126) eqn:E1; [|destruct (len7 b1 =? 127) eqn:E2]; bool_to_prop.
  - destruct (zlen inp <? 4) eqn:E; [done|]. bool_to_prop.
    destruct (span_at_Some inp 2) as (x & -> & Hx); [lia|].
    destruct (span_at_Some inp 3) as (y & -> & Hy); [lia|]. simpl. intros [= <- <-].
    unfold is_bytes in Hb. rewrite Forall_lookup in Hb.
    apply Hb in Hx, Hy. unfold is_byte in *. rewrite lor_shiftl_add by lia. lia.
  - destruct (zlen inp <? 10) eqn:E; [done|]. bool_to_prop.
    rewrite subspan_in by lia. simpl. intros [= <- <-].
    pose proof (be64_range (slice inp 2 8)). split_and!; lia.
  - intros [= <- <-]. lia.
Qed.

Lemma zlen_2_inv inp : 2 <= zlen inp -> exists b0 b1 inp', inp = b0 :: b1 :: inp'.
Proof.
  destruct inp as [|b0 [|b1 inp']]; rewrite ?zlen_cons, ?zlen_nil; [lia..|eauto].
Qed.

(** A successful parse, taken apart. *)
Lemma parse_frame_ok_inv inp out :
  parse_frame inp = Ret (parse_status.ok, out) ->
  exists b0 b1 inp' len hdr pl,
    inp = b0 :: b1 :: inp' /\ rsv b0 = 0 /\ masked b1 = false /\
    frame_len inp b1 = Ret (Some (len, hdr)) /\
    subspan inp hdr len = Ret pl /\ u64 (hdr + len) <= zlen inp /\
    out = Some (mkParse (mkFrame (to_op b0) (fin_bit b0) pl len) (u64 (hdr + len))).
Proof.
  intros Hp. destruct (decide (2 <= zlen inp)) as [Hz|Hz]; cycle 1.
  { unfold parse_frame in Hp. by rewrite (proj2 (Z.ltb_lt _ _)) in Hp by lia. }
  destruct (zlen_2_inv inp Hz) as (b0 & b1 & inp' & ->).
  unfold parse_frame in Hp. rewrite (proj2 (Z.ltb_ge _ _)) in Hp by lia.
  rewrite span_at_cons_S, !span_at_cons_0 in Hp by lia. cbn [mbind outcome_bind] in Hp.
  destruct (rsv b0 =? 0) eqn:Er; [|done]. destruct (masked b1) eqn:Em; [done|].
  cbn [negb] in Hp. bool_to_prop.
  destruct (frame_len_defined (b0 :: b1 :: inp') b1) as [r Hr]. rewrite Hr in Hp.
  destruct r as [[len hdr]|]; [|done]. cbn [mbind outcome_bind] in Hp.
  destruct (_ <? u64 _) eqn:El; [done|]. bool_to_prop.
  destruct (subspan _ hdr len) as [pl| |] eqn:Hs; [|done..]. cbn in Hp. simplify_eq.
  by exists b0, b1, inp', len, hdr, pl.
Qed.

Lemma parse_frame_out inp st out :
  parse_frame inp = Ret (st, out) -> (st = parse_status.ok <-> is_Some out).
Proof.
  unfold parse_frame. destruct (zlen inp <? 2) eqn:E0; [intros; simplify_eq; split; [done|by intros []]|].
  bool_to_prop. destruct (zlen_2_inv inp E0) as (b0 & b1 & inp' & ->).
  rewrite span_at_cons_S, !span_at_cons_0 by lia. cbn [mbind outcome_bind].
  destruct (frame_len_defined (b0 :: b1 :: inp') b1) as [r ->]. cbn [mbind outcome_bind].
  unfold subspan.
  repeat case_match; cbn; intros; simplify_eq; try done; split; try done; try (by intros []); eauto.
Qed.

Lemma parse_frame_no_fuel inp : parse_frame inp <> NoFuel.
Proof.
  unfold parse_frame. destruct (zlen inp <? 2) eqn:E0; [done|]. bool_to_prop.
  destruct (zlen_2_inv inp E0) as (b0 & b1 & inp' & ->).
  rewrite span_at_cons_S, !span_at_cons_0 by lia. cbn [mbind outcome_bind].
  destruct (frame_len_defined (b0 :: b1 :: inp') b1) as [r ->]. cbn [mbind outcome_bind].
  unfold subspan. repeat case_match; done.
Qed.

(** The parser leaves its input only for a 64-bit length whose sum with the
    header wraps around. *)
Lemma parse_frame_defined inp :
  is_bytes inp -> zlen inp < 2 ^ 64 ->
  (exists b0 ext rest, inp = b0 :: 127 :: ext ++ rest /\ zlen ext = 8 /\
       rsv b0 = 0 /\ 2 ^ 64 - 10 <= be64 ext < dynamic_extent) \/
  exists st out, parse_frame inp = Ret (st, out).
Proof.
  intros Hb Hz. unfold parse_frame.
  destruct (zlen inp <? 2) eqn:E0; [eauto|]. bool_to_prop.
  destruct (zlen_2_inv inp E0) as (b0 & b1 & inp' & ->).
  rewrite span_at_cons_S, !span_at_cons_0 by lia. cbn [mbind outcome_bind].
  destruct (rsv b0 =? 0) eqn:Er; [|eauto]. destruct (masked b1) eqn:Em; [eauto|].
  cbn [negb]. bool_to_prop.
  destruct (frame_len_defined (b0 :: b1 :: inp') b1) as [r Hr]. rewrite Hr.
  destruct r as [[len hdr]|]; [|eauto]. cbn [mbind outcome_bind].
  destruct (frame_len_range _ _ _ _ Hb E0 Hr) as (Hl & Hh & Hh10 & Hcase).
  destruct (decide (len = dynamic_extent)) as [->|Hne].
  { right. destruct (_ <? _); [eauto|]. rewrite subspan_rest by lia. simpl. eauto. }
  unfold dynamic_extent in *.
  assert (Hsmall : len < 2 ^ 64 - 10 \/ 2 ^ 64 - 10 <= len) by lia.
  destruct Hsmall as [Hsmall|Hbig].
  - rewrite u64_small by lia. destruct (_ <? _) eqn:El; [eauto|]. bool_to_prop.
    rewrite subspan_in by lia. simpl. eauto.
  - destruct Hcase as [?|(-> & H7 & ->)]; [lia|]. left.
    assert (Hb1 : is_byte b1) by (unfold is_bytes in Hb; by decompose_Forall_hyps).
    destruct (masked_false_small b1 Hb1 Em) as [Hl7 _]. rewrite !zlen_cons in Hh.
    assert (b1 = 127) as -> by lia.
    exists b0, (take 8 inp'), (drop 8 inp'). rewrite take_drop. split_and!; [done| |done|..].
    + unfold zlen in *. rewrite length_take. lia.
    + exact Hbig.
    + change (take 8 inp') with (slice (b0 :: 127 :: inp') 2 8). lia.
Qed.

Lemma parse_frame_wrap b0 ext rest :
  zlen ext = 8 -> zlen (b0 :: 127 :: ext ++ rest) < 2 ^ 64 -> rsv b0 = 0 ->
  2 ^ 64 - 10 <= be64 ext < dynamic_extent ->
  parse_frame (b0 :: 127 :: ext ++ rest) = UB.
Proof.
  intros Hext Hz Hr Hbig. unfold dynamic_extent in Hbig. pose proof (zlen_nonneg rest).
  rewrite !zlen_cons, zlen_app in Hz.
  rewrite parse_frame_header by done. unfold frame_len.
  change (len7 127 =? 126) with false. change (len7 127 =? 127) with true. cbv iota.
  rewrite (proj2 (Z.ltb_ge _ _)) by (rewrite !zlen_cons, zlen_app; lia).
  rewrite subspan_in by (rewrite !zlen_cons, zlen_app; lia).
  change (slice _ 2 8) with (take 8 (ext ++ rest)).
  rewrite take_app_length' by (unfold zlen in Hext; lia).
  cbn [mbind outcome_bind].
  assert (Hu : u64 (2 + 8 + be64 ext) = 2 + 8 + be64 ext - 2 ^ 64).
  { unfold u64. symmetry. apply Z.mod_unique with 1; lia. }
  rewrite Hu, (proj2 (Z.ltb_ge _ _)) by (rewrite !zlen_cons, zlen_app; lia).
  by rewrite subspan_out by (unfold dynamic_extent; rewrite ?zlen_cons, ?zlen_app; lia).
Qed.

(** The length field in the input is one of the three forms of its value. *)
Lemma frame_len_read b0 b1 inp len hdr :
  is_bytes (b1 :: inp) -> masked b1 = false ->
  frame_len (b0 :: b1 :: inp) b1 = Ret (Some (len, hdr)) ->
  exists ext rest, inp = ext ++ rest /\ length_form len (b1 :: ext) /\ hdr = 1 + zlen (b1 :: ext).
Proof.
  intros Hb Hm. unfold is_bytes in Hb. rewrite Forall_cons in Hb. destruct Hb as [Hb1 Hb].
  destruct (masked_false_small b1 Hb1 Hm) as [H7 _]. unfold is_byte in Hb1.
  unfold frame_len. rewrite H7.
  destruct (b1 =? 126) eqn:E1; [|destruct (b1 =? 127) eqn:E2]; bool_to_prop; subst.
  - destruct (_ <? 4) eqn:E; [done|]. bool_to_prop. rewrite !zlen_cons in E.
    destruct inp as [|x [|y inp]]; rewrite ?zlen_cons, ?zlen_nil in E; [lia..|].
    rewrite !span_at_cons_S, span_at_cons_0 by lia. cbn.
    rewrite !span_at_cons_S, span_at_cons_0 by lia. cbn. intros [= <- <-].
    decompose_Forall_hyps. unfold is_byte in *. rewrite lor_shiftl_add by lia.
    exists [x; y], inp. split_and!; [done| |done]. change (2 ^ 8) with 256.
    replace [x; y] with (be_bytes 2 (x * 256 + y)); [constructor; lia|].
    cbn [be_bytes app]. repeat f_equal; divmod_lia.
  - destruct (_ <? 10) eqn:E; [done|]. bool_to_prop.
    rewrite subspan_in by lia. cbn [mbind outcome_bind]. intros [= <- <-].
    rewrite !zlen_cons in E. change (slice _ 2 8) with (take 8 inp).
    exists (take 8 inp), (drop 8 inp). rewrite take_drop.
    assert (H8 : length (take 8 inp) = 8%nat) by (rewrite length_take; unfold zlen in E; lia).
    split_and!; [done| |rewrite zlen_cons; unfold zlen; rewrite H8; lia].
    replace (127 :: take 8 inp) with (127 :: be_bytes 8 (be64 (take 8 inp))).
    { constructor. apply be64_range. }
    f_equal. rewrite <- H8 at 1. apply be_bytes_be64; [by apply Forall_take|lia].
  - intros [= <- <-]. exists [], inp. split_and!; [done| |done]. constructor.
    destruct (masked_false_small b1 Hb1 Hm). lia.
Qed.

(** The inputs with such a length. *)
Definition wrapping_length (inp : list Z) : Prop :=
  exists b0 ext rest, inp = b0 :: 127 :: ext ++ rest /\ zlen ext = 8 /\
    rsv b0 = 0 /\ 2 ^ 64 - 10 <= be64 ext <= 2 ^ 64 - 2.

Lemma parse_frame_UB inp :
  is_bytes inp -> zlen inp < 2 ^ 64 -> parse_frame inp = UB <-> wrapping_length inp.
Proof.
  intros Hb Hz. split.
  - intros Hub.
    destruct (parse_frame_defined inp) as [(b0 & ext & rest & H)|(st & out & Heq)];
      [done|done| |congruence].
    exists b0, ext, rest. unfold dynamic_extent in H. split_and!; [apply H..|lia|lia].
  - intros (b0 & ext & rest & -> & He & Hr & Hbig).
    apply parse_frame_wrap; [done..|]. unfold dynamic_extent. lia.
Qed.

Lemma subspan_app_r (l1 l2 : list Z) k cnt :
  0 <= k -> subspan (l1 ++ l2) (zlen l1 + k) cnt = subspan l2 k cnt.
Proof.
  intros Hk. unfold subspan. rewrite zlen_app. pose proof (zlen_nonneg l1).
  replace (zlen l1 + zlen l2 - (zlen l1 + k)) with (zlen l2 - k) by lia.
  destruct (decide (0 <= k /\ _)); [rewrite decide_True by lia|by rewrite decide_False by lia].
  f_equal. unfold slice, zlen in *. by rewrite drop_app_ge by lia; do 2 f_equal; lia.
Qed.

Lemma subspan_split (l : list Z) cnt pl :
  subspan l 0 cnt = Ret pl ->
  exists rest, l = pl ++ rest /\ if cnt =? dynamic_extent then rest = [] else cnt = zlen pl.
Proof.
  unfold subspan. case_decide as H; [|done]. intros [= <-].
  exists (drop (Z.to_nat (if cnt =? dynamic_extent then zlen l - 0 else cnt)) l).
  unfold slice at 1. rewrite drop_0, take_drop. split; [done|].
  destruct (cnt =? dynamic_extent); [apply drop_ge; unfold zlen; lia|]. by rewrite zlen_slice by lia.
Qed.

Lemma subspan_app inp more off cnt pl :
  subspan inp off cnt = Ret pl ->
  subspan (inp ++ more) off cnt = Ret (if cnt =? dynamic_extent then pl ++ more else pl).
Proof.
  unfold subspan. pose proof (zlen_nonneg more). rewrite zlen_app.
  destruct (cnt =? dynamic_extent); (case_decide; [|done]); intros [= <-];
    (rewrite decide_True by lia); f_equal; unfold slice, zlen in *;
    rewrite drop_app_le by lia; [|by rewrite take_app_le by (rewrite length_drop; lia)].
  rewrite !take_ge by (rewrite ?length_app, length_drop; lia). done.
Qed.
End inversion.

(** ** Properties *)

(** C1: parsing the encoding of a server frame, whatever bytes follow it, yields
    exactly that frame and consumes exactly its encoding. *)
Theorem parse_frame_roundtrip (f : bool) (o : OpCode.t) (pl rest : list Z)
    (Ho : OpCode.nibble o) (Hpl : zlen pl < 2 ^ 64 - 10) :
  parse_frame (encode_frame f o pl ++ rest) =
    Ret (parse_status.ok,
         Some (mkParse (mkFrame o f pl (zlen pl)) (zlen (encode_frame f o pl)))).
Proof. by apply parse_encode. Qed.

Lemma parse_frame_roundtrip_witness :
  parse_frame (encode_frame true OpCode.text [72; 105] ++ [1; 2]) =
    Ret (parse_status.ok, Some (mkParse (mkFrame OpCode.text true [72; 105] 2) 4)).
Proof.
  apply (parse_frame_roundtrip true OpCode.text [72; 105] [1; 2]);
    vm_compute; repeat split; discriminate.
Defined.

(** C20: every strict prefix of an encoded frame is answered with [need_more] and
    leaves the output untouched, so a frame split over several reads is never
    misread. *)
Theorem parse_frame_strict_prefix (f : bool) (o : OpCode.t) (pl p q : list Z)
    (Ho : OpCode.nibble o) (Hpl : zlen pl < 2 ^ 64 - 10)
    (Hpq : encode_frame f o pl = p ++ q) (Hq : q <> []) :
  parse_frame p = Ret (parse_status.need_more, None).
Proof.
  assert (Hql : 0 < zlen q) by (destruct q; [done|rewrite zlen_cons; pose proof (zlen_nonneg q); lia]).
  destruct (decide (2 <= zlen p)) as [Hz|Hz]; cycle 1.
  { unfold parse_frame. by rewrite (proj2 (Z.ltb_lt _ _)) by lia. }
  destruct (zlen_2_inv p Hz) as (b0 & b1 & p' & ->).
  destruct (first_byte_fields f o Ho) as (Hr & _).
  pose proof (zlen_nonneg pl).
  destruct (frame_len_form (first_byte f o) (zlen pl) (encode_len (zlen pl)) pl)
    as (c1 & ext & He & Hm & Hlen); [apply encode_len_form; lia|].
  assert (Hlq : zlen (encode_frame f o pl) = zlen (b0 :: b1 :: p') + zlen q)
    by (rewrite Hpq; apply zlen_app).
  unfold encode_frame in Hpq, Hlq. rewrite He in Hpq.
  pose proof Hpq as [= <- <- Happ].
  rewrite parse_frame_header by done.
  destruct (frame_len_defined (first_byte f o :: c1 :: p') c1) as [r Hfl]. rewrite Hfl.
  destruct r as [[len hdr]|]; [|done]. cbn [mbind outcome_bind].
  pose proof (frame_len_app _ q _ _ Hfl) as Hfl'.
  rewrite <- Hpq in Hfl'. cbn [app] in Hfl'. rewrite Hlen in Hfl'. injection Hfl' as <- <-.
  rewrite zlen_cons, zlen_app in Hlq.
  pose proof (encode_len_range (zlen pl)).
  rewrite u64_small by lia. rewrite (proj2 (Z.ltb_lt _ _)) by lia. done.
Qed.

Lemma parse_frame_strict_prefix_witness :
  parse_frame [129; 2; 72] = Ret (parse_status.need_more, None).
Proof.
  apply (parse_frame_strict_prefix true OpCode.text [72; 105] [129; 2; 72] [105]);
    try reflexivity; vm_compute; repeat split; discriminate.
Defined.

(** C2: the inputs the parser accepts are exactly those that start with an
    unmasked frame, and the fields it reports re-encode to the bytes it read:
    FIN, no reserved bit, the opcode, the length in one of the three forms of
    RFC 6455 (the shortest is not required), the payload; [consumed] is the size
    of that encoding.  One length is special: 2^64-1 is accepted with the whole
    rest of the input as payload and [consumed] wrapped around to 9. *)
Theorem parse_frame_ok_iff (inp : list Z) (out : parse_output)
    (Hb : is_bytes inp) (Hz : zlen inp < 2 ^ 64) :
  parse_frame inp = Ret (parse_status.ok, Some out) <->
  exists lf rest,
    inp = first_byte (fin (frame out)) (op (frame out)) :: lf ++ payload (frame out) ++ rest /\
    OpCode.nibble (op (frame out)) /\ length_form (payload_len (frame out)) lf /\
    if payload_len (frame out) =? 2 ^ 64 - 1 then rest = [] /\ consumed out = 9
    else payload_len (frame out) = zlen (payload (frame out)) /\
         consumed out = 1 + zlen lf + zlen (payload (frame out)).
Proof.
  split.
  - intros Hp. destruct (parse_frame_ok_inv _ _ Hp)
      as (b0 & b1 & inp' & len & hdr & pl & -> & Hr & Hm & Hfl & Hs & Hu & [= ->]).
    cbn [frame payload consumed payload_len op fin].
    unfold is_bytes in Hb. rewrite Forall_cons in Hb. destruct Hb as [Hb0 Hb].
    destruct (first_byte_read b0 Hb0 Hr) as [-> Hnib].
    destruct (frame_len_read b0 b1 inp' len hdr Hb Hm Hfl) as (ext & tl & -> & Hlf & ->).
    destruct (length_form_range _ _ Hlf) as (Hlen & Hlz & H9).
    change (b0 :: b1 :: ext ++ tl) with ((b0 :: b1 :: ext) ++ tl) in Hs, Hz.
    rewrite <- (zlen_cons b0), <- (Z.add_0_r (zlen (b0 :: b1 :: ext))), subspan_app_r in Hs
      by (pose proof (zlen_nonneg tl); lia).
    apply subspan_split in Hs as (rest & -> & Hrest).
    exists (b1 :: ext), rest. split_and!; [done|done|done|]. fold dynamic_extent.
    destruct (len =? dynamic_extent) eqn:E; bool_to_prop; subst.
    + rewrite H9 by (vm_compute; discriminate). by split.
    + split; [done|]. rewrite zlen_app, zlen_cons, zlen_app in Hz. pose proof (zlen_nonneg rest).
      rewrite u64_small by lia. lia.
  - destruct out as [[o f pl len] n]. cbn [frame payload consumed payload_len op fin].
    intros (lf & rest & -> & Ho & Hlf & Hif).
    destruct (len =? 2 ^ 64 - 1) eqn:E; bool_to_prop; subst.
    + destruct Hif as [-> ->]. rewrite app_nil_r. by apply parse_form_rest.
    + destruct Hif as [-> ->]. rewrite zlen_cons, !zlen_app in Hz. pose proof (zlen_nonneg rest).
      destruct (length_form_range _ _ Hlf) as (_ & Hlz & H9).
      rewrite parse_form; [|done..|].
      * by rewrite zlen_cons, zlen_app, Z.add_assoc.
      * destruct (decide (2 ^ 63 <= zlen pl)); [specialize (H9 ltac:(done)); lia|lia].
Qed.

Lemma parse_frame_ok_iff_witness :
  (parse_frame [130; 126; 0; 1; 7; 9] =
     Ret (parse_status.ok, Some (mkParse (mkFrame OpCode.binary true [7] 1) 5))) /\
  (exists lf rest, [130; 1; 7; 9] = first_byte true OpCode.binary :: lf ++ [7] ++ rest /\
     OpCode.nibble OpCode.binary /\ length_form 1 lf /\ (1 = zlen [7] /\ 3 = 1 + zlen lf + zlen [7])).
Proof.
  split.
  - apply parse_frame_ok_iff; [apply (bool_decide_unpack _); vm_compute; exact I|reflexivity|].
    exists [126; 0; 1], [9]. split; [reflexivity|]. split; [split; [reflexivity|cbn; lia]|].
    split; [apply (form16 1); lia|]. split; reflexivity.
  - apply (parse_frame_ok_iff [130; 1; 7; 9] (mkParse (mkFrame OpCode.binary true [7] 1) 3));
      [apply (bool_decide_unpack _); vm_compute; exact I|reflexivity|reflexivity].
Defined.

(** What later bytes add to a parsed frame: nothing, unless its payload is "the
    rest of the input". *)
Definition extend (more : list Z) (out : parse_output) : parse_output :=
  let fr := frame out in
  mkParse (mkFrame (op fr) (fin fr)
             (if payload_len fr =? 2 ^ 64 - 1 then payload fr ++ more else payload fr)
             (payload_len fr))
          (consumed out).

(** Frames with a reserved bit or a mask bit are refused on their first two
    bytes, the reserved bits first, and with the output untouched. *)
Lemma parse_frame_rejects (b0 b1 : Z) (inp : list Z) :
  (rsv b0 <> 0 -> parse_frame (b0 :: b1 :: inp) = Ret (parse_status.bad_reserved, None)) /\
  (rsv b0 = 0 -> masked b1 = true ->
     parse_frame (b0 :: b1 :: inp) = Ret (parse_status.masked_server, None)).
Proof.
  pose proof (zlen_nonneg inp). unfold parse_frame.
  rewrite (proj2 (Z.ltb_ge _ _)) by (rewrite !zlen_cons; lia).
  rewrite span_at_cons_S, !span_at_cons_0 by lia. cbn [mbind outcome_bind].
  split.
  - intros Hr. by rewrite (proj2 (Z.eqb_neq _ _) Hr).
  - intros -> ->. done.
Qed.

Lemma parse_frame_refusal_app inp more st out :
  parse_frame inp = Ret (st, out) ->
  st = parse_status.masked_server \/ st = parse_status.bad_reserved ->
  parse_frame (inp ++ more) = Ret (st, extend more <$> out).
Proof.
  destruct (zlen inp <? 2) eqn:E0.
  { unfold parse_frame at 1. rewrite E0. intros [= <- <-] [?|?]; done. }
  bool_to_prop. destruct (zlen_2_inv inp E0) as (b0 & b1 & inp' & ->).
  rewrite <- !app_comm_cons. destruct (decide (rsv b0 = 0)) as [Hr|Hr]; cycle 1.
  { rewrite !(proj1 (parse_frame_rejects b0 b1 _) Hr). intros [= <- <-] _. done. }
  destruct (masked b1) eqn:Em.
  { rewrite !(proj2 (parse_frame_rejects b0 b1 _)) by done. intros [= <- <-] _. done. }
  rewrite parse_frame_header by done. unfold mbind, outcome_bind. intros Hp [?|?]; subst;
    repeat case_match; simplify_eq.
Qed.

(** C21: bytes that arrive later never change a decision of the parser: a frame
    that was parsed, a refusal for a reserved bit and a refusal for a mask bit
    stay what they were, with the same opcode, FIN flag, length and [consumed],
    and the same payload (which takes in the later bytes in one case only, the
    length 2^64-1 that means "the rest of the input"). *)
Theorem parse_frame_stable (inp more : list Z) (st : parse_status.t) (out : option parse_output)
    (Hp : parse_frame inp = Ret (st, out)) (Hst : st <> parse_status.need_more) :
  parse_frame (inp ++ more) = Ret (st, extend more <$> out).
Proof.
  destruct st; [|done|by apply parse_frame_refusal_app; [|auto]..].
  destruct (parse_frame_ok_inv _ _ Hp)
    as (b0 & b1 & inp' & len & hdr & pl & -> & Hr & Hm & Hfl & Hs & Hu & ->).
  rewrite <- !app_comm_cons. rewrite parse_frame_header by done.
  rewrite !app_comm_cons, (frame_len_app _ more _ _ Hfl). cbn [mbind outcome_bind].
  pose proof (zlen_nonneg more).
  rewrite (proj2 (Z.ltb_ge _ _)) by (rewrite zlen_app; lia).
  by rewrite (subspan_app _ more _ _ _ Hs).
Qed.

Lemma parse_frame_stable_witness :
  parse_frame ([130; 1; 7] ++ [9; 9]) =
    Ret (parse_status.ok, Some (mkParse (mkFrame OpCode.binary true [7] 1) 3)) /\
  parse_frame ([193; 0] ++ [9]) = Ret (parse_status.bad_reserved, None).
Proof.
  split.
  - apply (parse_frame_stable [130; 1; 7] [9; 9] parse_status.ok
      (Some (mkParse (mkFrame OpCode.binary true [7] 1) 3))); [vm_compute; reflexivity|discriminate].
  - apply (parse_frame_stable [193; 0] [9] parse_status.bad_reserved None);
      [vm_compute; reflexivity|discriminate].
Defined.

(** C38: the parser is defined on every input, except that a 64-bit length from
    2^64-10 to 2^64-2 makes [hdr + len] wrap around, passes the size check and
    builds a payload view outside the input: undefined behaviour. *)
Theorem parse_frame_undefined_iff (inp : list Z)
    (Hb : is_bytes inp) (Hz : zlen inp < 2 ^ 64) :
  parse_frame inp = UB <->
    exists b0 ext rest, inp = b0 :: 127 :: ext ++ rest /\ zlen ext = 8 /\
      rsv b0 = 0 /\ 2 ^ 64 - 10 <= be64 ext <= 2 ^ 64 - 2.
Proof. by apply parse_frame_UB. Qed.

Lemma parse_frame_undefined_iff_witness :
  parse_frame ([130; 127; 255; 255; 255; 255; 255; 255; 255; 246]) = UB.
Proof.
  apply parse_frame_undefined_iff.
  - apply (bool_decide_unpack _). vm_compute. exact I.
  - vm_compute. reflexivity.
  - exists 130, [255; 255; 255; 255; 255; 255; 255; 246], [].
    split; [reflexivity|]. split; [reflexivity|]. split; [reflexivity|].
    split; vm_compute; discriminate.
Defined.
