(* ===== verification/Handshake.v ===== *)
(** * WebSocket handshake and client control frames

    src/manet/protocol/websocket.cc: [random_bytes], [make_handshake],
    [advance_crlf_count], [read_handshake], [write_control_frame] and
    [write_close].

    The random device and OpenSSL's [SHA1] are parameters.  A read outside the
    span of received bytes is undefined behaviour. *)

From S2P Require Import Prelude Status Buffer Base64 Frame.

Definition CR : Z := 13.
Definition LF : Z := 10.
Definition SP : Z := 32.
Definition CRLF : list Z := [CR; LF].

Record Header := mkHeader { name : list Z; value : list Z }.
Record Handshake := mkHandshake { upgrade_request : list Z; ws_accept_key : list Z }.

Definition kGuid : list Z := Eval vm_compute in str "258EAFA5-E914-47DA-95CA-C5AB0DC85B11".

Section random.
(** [std::random_device]: each call yields an [unsigned int]. *)
Context {R : Type} (rd : R -> Z * R).

Fixpoint random_bytes (len : nat) (r : R) : list Z * R :=
  match len with
  | O => ([], r)
  | S len' =>
      let (x, r1) := rd r in
      let (bs, r2) := random_bytes len' r1 in
      (u8 x :: bs, r2)
  end.

(** The header lines the caller added; a header without a name is skipped. *)
Fixpoint format_extra (extra : list Header) : list Z :=
  match extra with
  | [] => []
  | h :: extra' =>
      (if decide (name h = []) then [] else name h ++ str ": " ++ value h ++ CRLF)
      ++ format_extra extra'
  end.

Definition format_request (host path key_b64 : list Z) (extra : list Header) : list Z :=
  str "GET " ++ path ++ str " HTTP/1.1" ++ CRLF ++
  str "Host: " ++ host ++ CRLF ++
  str "Upgrade: websocket" ++ CRLF ++
  str "Connection: Upgrade" ++ CRLF ++
  str "Sec-WebSocket-Key: " ++ key_b64 ++ CRLF ++
  str "Sec-WebSocket-Version: 13" ++ CRLF ++
  format_extra extra ++ CRLF.

Definition make_handshake (SHA1 : list Z -> list Z) (host path : list Z)
    (extra : list Header) (r : R) : Handshake * R :=
  let (nonce, r') := random_bytes 16 r in
  let key_b64 := base64_encode nonce in
  let req := format_request host path key_b64 extra in
  let sha1 := SHA1 (key_b64 ++ kGuid) in
  (mkHandshake req (base64_encode sha1), r').

(** [write_control_frame(output, opcode, payload)]: the bytes written to the
    front of [output], of which only the size matters; their number is the
    return value. *)
Definition mask_bytes (mask pl : list Z) : list Z :=
  imap (fun i b => Z.lxor (default 0 (mask !! Nat.land i 3)) b) pl.

Definition write_control_frame (output_size : Z) (opcode : OpCode.t) (pl : list Z)
    (r : R) : list Z * R :=
  if (output_size <? 6 + zlen pl) || (125 <? zlen pl) then ([], r)
  else
    let (mask, r') := random_bytes 4 r in
    ([Z.lor 128 (OpCode.to_Z opcode); Z.lor 128 (u8 (zlen pl))] ++ mask ++ mask_bytes mask pl,
     r').

(** [htons] and the reinterpretation as two bytes: most significant first. *)
Definition close_payload (code : Z) : list Z := [Z.shiftr code 8; Z.land code 255].

Definition write_close (output_size : Z) (code : CloseCode.t) (r : R) : list Z * R :=
  write_control_frame output_size OpCode.close (close_payload (CloseCode.to_Z code)) r.
End random.

(** ** Reading the response *)

Definition advance_crlf_count (crlf_counter chr : Z) : Z :=
  if chr =? CR then u8 (crlf_counter + (if crlf_counter mod 2 =? 0 then 1 else 0))
  else if chr =? LF then u8 (crlf_counter + crlf_counter mod 2)
  else 0.

(** [std::tolower] of the "C" locale. *)
Definition tolower (c : Z) : Z := if (65 <=? c) && (c <=? 90) then c + 32 else c.

(** [constexpr std::string_view h]. *)
Definition accept_header : list Z := Eval vm_compute in str "Sec-WebSocket-Accept:".

Definition equal_ci (a b : list Z) : bool := bool_decide (map tolower a = map tolower b).

(** [for (; input[k] == ' '; k++);] on the bytes from [k] on. *)
Fixpoint skip_spaces (l : list Z) (k : Z) : outcome Z :=
  match l with
  | [] => UB
  | c :: l' => if c =? SP then skip_spaces l' (k + 1) else Ret k
  end.

(** [while (k < input.size() && input[k] != '\r' && input[k] != '\n') k++;] *)
Fixpoint find_eol (l : list Z) (k : Z) : Z :=
  match l with
  | [] => k
  | c :: l' => if (c =? CR) || (c =? LF) then k else find_eol l' (k + 1)
  end.

Record scan := mkScan { crlf_counter : Z; sp_ix : Z; ws_key_start : Z; ix : Z }.

(** The header test at index [i]: the new value of [ws_key_start]. *)
Definition match_header (input : list Z) (st : scan) (chr : Z) : outcome Z :=
  if (ws_key_start st =? 0) && (crlf_counter st =? 2) && (chr =? 83) &&
     (ix st + zlen accept_header <? zlen input) then
    sv ← subspan input (ix st) (zlen accept_header);
    if equal_ci sv accept_header then
      skip_spaces (drop (Z.to_nat (ix st + zlen accept_header)) input)
                  (ix st + zlen accept_header)
    else Ret (ws_key_start st)
  else Ret (ws_key_start st).

(** [for (std::byte chr : input)]: [rest] is what is left of [input]. *)
Fixpoint scan_loop (input rest : list Z) (st : scan) : outcome scan :=
  match rest with
  | [] => Ret st
  | chr :: rest' =>
      let sp := if (sp_ix st =? 0) && (chr =? SP) then ix st else sp_ix st in
      ks ← match_header input st chr;
      let cc := advance_crlf_count (crlf_counter st) chr in
      if cc =? 4 then Ret (mkScan cc sp ks (ix st))
      else scan_loop input rest' (mkScan cc sp ks (ix st + 1))
  end.

(** The checks after a complete response: the status code, then the key. *)
Definition check_status (input : list Z) (sp : Z) : outcome bool :=
  if (sp =? 0) || (zlen input <=? sp + 3) then Ret false
  else
    a ← span_at input (sp + 1); b ← span_at input (sp + 2); c ← span_at input (sp + 3);
    Ret ((a =? 49) && (b =? 48) && (c =? 49)).

Definition check_key (input key : list Z) (ks : Z) : outcome bool :=
  let ke := find_eol (drop (Z.to_nat ks) input) ks in
  got ← subspan input ks 28;
  Ret (bool_decide (slice input ks (ke - ks) = key)).

Definition read_handshake (key : list Z) (rx : Buffer) : outcome (protocol.Status * Buffer) :=
  input ← rbuf rx;
  st ← scan_loop input input (mkScan 0 0 0 0);
  if negb (crlf_counter st =? 4) then Ret (protocol.ok, rx)
  else
    let rx' := Input_read rx (ix st + 1) in
    okc ← check_status input (sp_ix st);
    if negb okc then Ret (protocol.error, rx')
    else
      okk ← check_key input key (ws_key_start st);
      Ret (if (okk : bool) then protocol.ok else protocol.error, rx').

(** ** Lemmas: the scan over lines *)

Definition no_eol (l : list Z) : Prop := Forall (fun c => c <> CR /\ c <> LF) l.

#[export] Instance no_eol_dec l : Decision (no_eol l).
Proof. unfold no_eol. apply _. Defined.

Lemma zlen_CRLF : zlen CRLF = 2.
Proof. done. Qed.
#[export] Hint Rewrite zlen_CRLF : zlen.

Lemma no_eol_app l1 l2 : no_eol (l1 ++ l2) <-> no_eol l1 /\ no_eol l2.
Proof. apply Forall_app. Qed.

Lemma advance_other cc c : c <> CR -> c <> LF -> advance_crlf_count cc c = 0.
Proof.
  intros. unfold advance_crlf_count.
  by rewrite (proj2 (Z.eqb_neq c CR)), (proj2 (Z.eqb_neq c LF)).
Qed.

(** No header test happens inside a line, or once the key was found. *)
Lemma match_header_skip input st c :
  crlf_counter st <> 2 \/ ws_key_start st <> 0 -> match_header input st c = Ret (ws_key_start st).
Proof.
  intros H. unfold match_header.
  destruct (ws_key_start st =? 0) eqn:E1; [|done].
  destruct (crlf_counter st =? 2) eqn:E2; [|done]. bool_to_prop. lia.
Qed.

(** [sp_ix] is set once, by a space. *)
Lemma sp_keep sp c i : sp <> 0 \/ c <> SP -> (if (sp =? 0) && (c =? SP) then i else sp) = sp.
Proof.
  intros. destruct (sp =? 0) eqn:E1; [|done]. destruct (c =? SP) eqn:E2; [|done].
  bool_to_prop. lia.
Qed.

(** Scanning the inside of a line moves the index. *)
Lemma scan_inside input l rest cc sp ks i :
  no_eol l -> sp <> 0 \/ Forall (fun c => c <> SP) l -> cc <> 2 \/ ks <> 0 -> l <> [] ->
  scan_loop input (l ++ rest) (mkScan cc sp ks i) =
    scan_loop input rest (mkScan 0 sp ks (i + zlen l)).
Proof.
  revert cc i. induction l as [|c l IH]; intros cc i Hl Hsp Hcc Hne; [done|].
  apply Forall_cons in Hl as [[HCR HLF] Hl]. cbn [app scan_loop].
  rewrite match_header_skip by done. cbn [mbind outcome_bind].
  rewrite advance_other by done. cbn [sp_ix ws_key_start ix Z.eqb].
  rewrite sp_keep by (rewrite Forall_cons in Hsp; tauto). destruct l as [|c' l].
  - done.
  - rewrite IH; [|done| |by left|done].
    + by rewrite (zlen_cons c), Z.add_assoc.
    + destruct Hsp as [?|Hsp]; [by left|right]. by apply Forall_cons in Hsp as [_ ?].
Qed.

(** CRLF at the end of a line that is not empty. *)
Lemma scan_crlf input rest sp ks i :
  scan_loop input (CRLF ++ rest) (mkScan 0 sp ks i) =
    scan_loop input rest (mkScan 2 sp ks (i + 2)).
Proof.
  unfold CRLF. cbn [app scan_loop].
  rewrite match_header_skip by (simpl; lia).
  cbn [mbind outcome_bind sp_ix ix ws_key_start crlf_counter]. rewrite sp_keep by by right.
  change (advance_crlf_count 0 CR) with 1. cbn [Z.eqb].
  rewrite match_header_skip by (simpl; lia).
  cbn [mbind outcome_bind sp_ix ix ws_key_start crlf_counter]. rewrite sp_keep by by right.
  change (advance_crlf_count 1 LF) with 2. cbn [Z.eqb Pos.eqb].
  by replace (i + 1 + 1) with (i + 2) by lia.
Qed.

(** CRLF after a line end: the response is complete. *)
Lemma scan_end input rest sp ks i :
  scan_loop input (CRLF ++ rest) (mkScan 2 sp ks i) = Ret (mkScan 4 sp ks (i + 1)).
Proof.
  unfold CRLF. cbn [app scan_loop].
  assert (Hm : match_header input (mkScan 2 sp ks i) CR = Ret ks)
    by (unfold match_header; change (CR =? 83) with false; by rewrite andb_false_r).
  rewrite Hm. cbn [mbind outcome_bind sp_ix ix ws_key_start crlf_counter].
  rewrite sp_keep by by right. change (advance_crlf_count 2 CR) with 3. cbn [Z.eqb Pos.eqb].
  rewrite match_header_skip by (simpl; lia).
  cbn [mbind outcome_bind sp_ix ix ws_key_start crlf_counter]. rewrite sp_keep by by right.
  by change (advance_crlf_count 3 LF) with 4.
Qed.

(** The header test fails on a line that does not start with the header. *)
Definition starts_accept (l : list Z) : bool :=
  bool_decide (head l = Some 83) && equal_ci (take 21 l) accept_header.

Lemma map_tolower_eol l : CR ∈ l \/ LF ∈ l -> map tolower l <> map tolower accept_header.
Proof.
  intros H Heq.
  assert (Hin : CR ∈ map tolower l \/ LF ∈ map tolower l).
  { destruct H as [H|H]; [left|right]; apply list_elem_of_fmap.
    - by exists CR. - by exists LF. }
  rewrite Heq in Hin. destruct Hin as [Hin|Hin]; apply (bool_decide_pack _) in Hin; by vm_compute in Hin.
Qed.

(** What the 21 bytes from [i] are, when a line starts there. *)
Lemma match_header_line input pre l rest cc sp ks :
  input = pre ++ l ++ CRLF ++ rest -> no_eol l -> l <> [] -> starts_accept l = false ->
  match_header input (mkScan cc sp ks (zlen pre)) (default 0 (head l)) = Ret ks.
Proof.
  intros -> Hl Hne Hs. unfold match_header. cbn [ws_key_start crlf_counter ix].
  destruct (_ && _) eqn:E; [|done]. bool_to_prop.
  change (zlen accept_header) with 21 in *.
  rewrite subspan_in by (pose proof (zlen_nonneg pre); lia). cbn [mbind outcome_bind].
  assert (Hf : equal_ci (slice (pre ++ l ++ CRLF ++ rest) (zlen pre) 21) accept_header = false);
    [|by rewrite Hf].
  unfold slice. rewrite drop_zlen.
  change (Z.to_nat 21) with 21%nat.
  destruct (decide (21 <= length l)%nat) as [H21|H21].
  - rewrite take_app_le by done. unfold starts_accept in Hs.
    destruct l as [|c l]; [done|]. match goal with H : default 0 _ = 83 |- _ => cbv in H; subst c end.
    rewrite bool_decide_true in Hs by done. done.
  - apply bool_decide_eq_false. intros Heq. eapply map_tolower_eol; [|apply Heq].
    left. rewrite take_app_ge by lia. apply elem_of_app. right.
    replace (21 - length l)%nat with (S (20 - length l)) by lia. cbn.
    apply elem_of_cons. by left.
Qed.

Lemma head_default (l : list Z) : l <> [] -> exists l', l = default 0 (head l) :: l'.
Proof. destruct l; [done|eauto]. Qed.

(** A whole line, given what the header test at its first byte says. *)
Lemma scan_line_gen input i c l rest sp ks ks' :
  no_eol (c :: l) -> sp <> 0 ->
  match_header input (mkScan 2 sp ks i) c = Ret ks' ->
  scan_loop input ((c :: l) ++ CRLF ++ rest) (mkScan 2 sp ks i) =
    scan_loop input rest (mkScan 2 sp ks' (i + 1 + zlen l + 2)).
Proof.
  intros Hl Hsp Hm. apply Forall_cons in Hl as [[HCR HLF] Hl]. cbn [app scan_loop].
  rewrite Hm. cbn [mbind outcome_bind sp_ix ws_key_start ix crlf_counter].
  rewrite sp_keep by by left. rewrite advance_other by done. cbn [Z.eqb].
  destruct l as [|c' l].
  - cbn [app]. rewrite scan_crlf. by rewrite zlen_nil, Z.add_0_r.
  - rewrite scan_inside; [|done|by left|lia|done]. by rewrite scan_crlf.
Qed.

(** A header line other than the accept header. *)
Lemma scan_line input pre l rest sp ks :
  input = pre ++ l ++ CRLF ++ rest -> no_eol l -> l <> [] -> sp <> 0 ->
  starts_accept l = false \/ ks <> 0 ->
  scan_loop input (l ++ CRLF ++ rest) (mkScan 2 sp ks (zlen pre)) =
    scan_loop input rest (mkScan 2 sp ks (zlen (pre ++ l ++ CRLF))).
Proof.
  intros Hin Hl Hne Hsp Hs.
  assert (Hm : match_header input (mkScan 2 sp ks (zlen pre)) (default 0 (head l)) = Ret ks).
  { destruct Hs as [Hs|Hs]; [by eapply match_header_line|].
    apply match_header_skip. by right. }
  destruct l as [|c l]; [done|]. change (default 0 (head (c :: l))) with c in Hm.
  erewrite scan_line_gen by done. do 2 f_equal. autorewrite with zlen. lia.
Qed.

(** ** A well-formed upgrade response *)

Definition header_lines (hs : list (list Z)) : list Z := concat ((fun h => h ++ CRLF) <$> hs).

(** [ver SP 101 reason CRLF (line CRLF)* accept-header spaces key CRLF (line CRLF)* CRLF] *)
Definition response (ver reason : list Z) (hs1 : list (list Z)) (hname : list Z)
    (nsp : nat) (key : list Z) (hs2 : list (list Z)) : list Z :=
  (ver ++ [SP; 49; 48; 49] ++ reason) ++ CRLF ++ header_lines hs1 ++
  (hname ++ replicate nsp SP ++ key) ++ CRLF ++ header_lines hs2 ++ CRLF.

Definition good_line (l : list Z) : Prop := no_eol l /\ l <> [].

Lemma header_lines_cons h hs : header_lines (h :: hs) = h ++ CRLF ++ header_lines hs.
Proof. unfold header_lines. simpl. by rewrite <- app_assoc. Qed.

(** Any number of header lines that are not the accept header. *)
Lemma scan_lines input pre hs rest sp ks :
  input = pre ++ header_lines hs ++ rest -> Forall good_line hs -> sp <> 0 ->
  Forall (fun l => starts_accept l = false) hs \/ ks <> 0 ->
  scan_loop input (header_lines hs ++ rest) (mkScan 2 sp ks (zlen pre)) =
    scan_loop input rest (mkScan 2 sp ks (zlen (pre ++ header_lines hs))).
Proof.
  revert pre. induction hs as [|h hs IH]; intros pre Hin Hg Hsp Hs.
  - by rewrite app_nil_r.
  - rewrite header_lines_cons, <- !app_assoc in *. apply Forall_cons in Hg as [[Hh Hne] Hg].
    erewrite scan_line; [|done|done|done|done|].
    2: { rewrite Forall_cons in Hs. tauto. }
    rewrite IH; [by rewrite <- !app_assoc| |done|done|].
    + by rewrite <- !app_assoc.
    + rewrite Forall_cons in Hs. tauto.
Qed.

Lemma skip_spaces_replicate n l k :
  l <> [] -> head l <> Some SP -> skip_spaces (replicate n SP ++ l) k = Ret (k + Z.of_nat n).
Proof.
  intros Hne Hh. revert k. induction n as [|n IH]; intros k.
  - destruct l as [|c l]; [done|]. cbn. rewrite (proj2 (Z.eqb_neq c SP)) by (intros ->; done).
    by rewrite Z.add_0_r.
  - cbn [replicate app skip_spaces]. change (SP =? SP) with true. cbv iota.
    rewrite IH. f_equal. lia.
Qed.

Lemma skip_spaces_all n k : skip_spaces (replicate n SP) k = UB.
Proof. revert k. induction n as [|n IH]; intros k; [done|]. apply IH. Qed.

Lemma find_eol_line l rest k :
  no_eol l -> find_eol (l ++ CRLF ++ rest) k = k + zlen l.
Proof.
  revert k. induction l as [|c l IH]; intros k Hl.
  - cbn. by rewrite zlen_nil, Z.add_0_r.
  - apply Forall_cons in Hl as [[HCR HLF] Hl]. cbn [app find_eol].
    rewrite (proj2 (Z.eqb_neq c CR)), (proj2 (Z.eqb_neq c LF)) by done. cbn [orb].
    rewrite IH by done. rewrite zlen_cons. lia.
Qed.

(** The accept header: its test fires at the start of the line and finds the
    first byte of the value. *)
Lemma match_header_accept pre hname nsp val rest sp :
  equal_ci hname accept_header = true -> head hname = Some 83 ->
  val ++ rest <> [] -> head (val ++ rest) <> Some SP ->
  match_header (pre ++ hname ++ replicate nsp SP ++ val ++ rest)
               (mkScan 2 sp 0 (zlen pre)) 83 = Ret (zlen pre + 21 + Z.of_nat nsp).
Proof.
  intros Heq Hh Hne Hhd.
  assert (Hlen : zlen hname = 21).
  { unfold equal_ci in Heq. apply bool_decide_eq_true in Heq.
    apply (f_equal length) in Heq. rewrite !length_map in Heq.
    change (length accept_header) with 21%nat in Heq. unfold zlen. lia. }
  assert (Hvr : 0 < zlen (val ++ rest)).
  { destruct (val ++ rest) as [|v vr]; [done|]. rewrite zlen_cons. pose proof (zlen_nonneg vr). lia. }
  pose proof (zlen_nonneg pre).
  unfold match_header. cbn [ws_key_start crlf_counter ix Z.eqb Pos.eqb andb].
  change (zlen accept_header) with 21.
  rewrite (proj2 (Z.ltb_lt _ _)) by (rewrite !zlen_app, zlen_replicate in *; lia).
  rewrite subspan_in by (rewrite !zlen_app, zlen_replicate in *; lia).
  cbn [mbind outcome_bind].
  assert (Hs : slice (pre ++ hname ++ replicate nsp SP ++ val ++ rest) (zlen pre) 21 = hname).
  { rewrite <- Hlen. apply slice_app_mid. }
  rewrite Hs, Heq.
  replace (Z.to_nat (zlen pre + 21)) with (length (pre ++ hname))
    by (rewrite length_app; unfold zlen in *; lia).
  rewrite (app_assoc pre), drop_app_length. by apply skip_spaces_replicate.
Qed.

Lemma scan_space input rest i :
  scan_loop input (SP :: rest) (mkScan 0 0 0 i) = scan_loop input rest (mkScan 0 i 0 (i + 1)).
Proof. cbn [scan_loop]. by rewrite match_header_skip by (left; simpl; lia). Qed.

Lemma scan_status_line input ver reason rest :
  no_eol ver -> ver <> [] -> Forall (fun c => c <> SP) ver -> no_eol reason ->
  scan_loop input ((ver ++ [SP; 49; 48; 49] ++ reason) ++ CRLF ++ rest) (mkScan 0 0 0 0) =
    scan_loop input rest
      (mkScan 2 (zlen ver) 0 (zlen ((ver ++ [SP; 49; 48; 49] ++ reason) ++ CRLF))).
Proof.
  intros Hv Hne Hsp Hr. rewrite <- !app_assoc.
  rewrite scan_inside by (auto; left; lia). cbn [app]. rewrite scan_space.
  assert (Hne0 : zlen ver <> 0) by (by intros ?%zlen_0_inv).
  change (49 :: 48 :: 49 :: reason ++ CRLF ++ rest)
    with ((49 :: 48 :: 49 :: reason) ++ CRLF ++ rest).
  rewrite scan_inside; [|by repeat (apply Forall_cons; split)|by left|left; lia|done].
  rewrite scan_crlf. do 2 f_equal. autorewrite with zlen. lia.
Qed.

Lemma no_eol_accept hname : equal_ci hname accept_header = true -> no_eol hname.
Proof.
  unfold equal_ci. intros H%bool_decide_eq_true. apply Forall_forall. intros c Hc.
  split; intros ->; apply (map_tolower_eol hname); auto.
Qed.

Section response.
Context (ver reason : list Z) (hs1 : list (list Z)) (hname : list Z) (nsp : nat)
        (key : list Z) (hs2 : list (list Z)) (rest : list Z).

(** What makes the response one that a server may send: a status line with a
    space-free protocol version, non-empty lines, and the accept header (in any
    case after the capital S). *)
Record good_response : Prop := {
  gr_ver : no_eol ver /\ ver <> [] /\ Forall (fun c => c <> SP) ver;
  gr_reason : no_eol reason;
  gr_hs1 : Forall good_line hs1 /\ Forall (fun l => starts_accept l = false) hs1;
  gr_hname : equal_ci hname accept_header = true /\ head hname = Some 83;
  gr_hs2 : Forall good_line hs2
}.

(** An accept value of the right shape. *)
Definition good_key : Prop := zlen key = 28 /\ no_eol key /\ head key <> Some SP.

Definition before_key : list Z :=
  (ver ++ [SP; 49; 48; 49] ++ reason) ++ CRLF ++ header_lines hs1 ++ hname ++ replicate nsp SP.

Lemma response_split :
  response ver reason hs1 hname nsp key hs2 ++ rest =
    before_key ++ key ++ CRLF ++ header_lines hs2 ++ CRLF ++ rest.
Proof. unfold response, before_key. by rewrite <- !app_assoc. Qed.

Lemma scan_response (Hgood : good_response) (Hkey : good_key) :
  scan_loop (response ver reason hs1 hname nsp key hs2 ++ rest)
            (response ver reason hs1 hname nsp key hs2 ++ rest) (mkScan 0 0 0 0) =
    Ret (mkScan 4 (zlen ver) (zlen before_key)
                (zlen (response ver reason hs1 hname nsp key hs2) - 1)).
Proof.
  destruct Hgood as [(Hv & Hvne & Hvsp) Hr [Hg1 Hs1] [Hci Hhd] Hg2].
  destruct Hkey as (Hk & Hkeol & Hksp).
  assert (Hv0 : zlen ver <> 0).
  { intros ?%zlen_0_inv. done. }
  assert (Hkne : key <> []) by (intros ->; done).
  set (input := response ver reason hs1 hname nsp key hs2 ++ rest).
  set (pre1 := (ver ++ [SP; 49; 48; 49] ++ reason) ++ CRLF).
  set (tl := CRLF ++ header_lines hs2 ++ CRLF ++ rest).
  assert (Hin1 : input = pre1 ++ header_lines hs1 ++ (hname ++ replicate nsp SP ++ key) ++ tl)
    by (unfold input, response, pre1, tl; by rewrite <- !app_assoc).
  assert (E1 : scan_loop input input (mkScan 0 0 0 0) =
    scan_loop input (header_lines hs1 ++ (hname ++ replicate nsp SP ++ key) ++ tl)
      (mkScan 2 (zlen ver) 0 (zlen pre1))).
  { rewrite Hin1 at 2. unfold pre1. rewrite <- (app_assoc _ CRLF). by apply scan_status_line. }
  rewrite E1, (scan_lines input pre1) by auto. clear E1.
  destruct hname as [|c hn] eqn:Hhn; [done|]. injection Hhd as ->.
  assert (Hm : match_header input (mkScan 2 (zlen ver) 0 (zlen (pre1 ++ header_lines hs1))) 83
    = Ret (zlen (pre1 ++ header_lines hs1) + 21 + Z.of_nat nsp)).
  { replace input with ((pre1 ++ header_lines hs1) ++ (83 :: hn) ++ replicate nsp SP ++ key ++ tl)
      by (rewrite Hin1, <- !app_assoc; done).
    apply match_header_accept; [done..|by destruct key|by destruct key]. }
  set (ln := hn ++ replicate nsp SP ++ key) in *.
  change (((83 :: hn) ++ replicate nsp SP ++ key) ++ tl)
    with ((83 :: ln) ++ CRLF ++ header_lines hs2 ++ CRLF ++ rest).
  assert (Hln : no_eol (83 :: ln)).
  { change (83 :: ln) with ((83 :: hn) ++ replicate nsp SP ++ key).
    rewrite !no_eol_app. split_and!; [by apply no_eol_accept| |done].
    by apply Forall_replicate. }
  rewrite (scan_line_gen _ _ _ _ _ _ _ _ Hln Hv0 Hm). clear Hm.
  set (pre2 := pre1 ++ header_lines hs1 ++ (83 :: ln) ++ CRLF).
  assert (Hlen2 : zlen (pre1 ++ header_lines hs1) + 1 + zlen ln + 2 = zlen pre2)
    by (unfold pre2; autorewrite with zlen; lia).
  rewrite Hlen2, scan_lines; [|unfold pre2, ln; rewrite Hin1; unfold tl; rewrite <- !app_assoc; cbn [app];
    by rewrite <- !app_assoc|done|done|right].
  2: { pose proof (zlen_nonneg (pre1 ++ header_lines hs1)). lia. }
  assert (Hn21 : zlen (83 :: hn) = 21).
  { apply bool_decide_eq_true, (f_equal zlen) in Hci. unfold zlen in *.
    rewrite !length_map in Hci. exact Hci. }
  rewrite scan_end. f_equal. f_equal.
  - unfold before_key, pre1. rewrite Hhn. autorewrite with zlen in *. lia.
  - unfold response, pre2, ln, pre1. autorewrite with zlen in *. lia.
Qed.

Lemma check_status_response (Hgood : good_response) :
  check_status (response ver reason hs1 hname nsp key hs2 ++ rest) (zlen ver) = Ret true.
Proof.
  destruct Hgood as [(Hv & Hvne & Hvsp) _ _ _ _].
  assert (Hv0 : 0 < zlen ver).
  { assert (zlen ver <> 0) by (by intros ?%zlen_0_inv). pose proof (zlen_nonneg ver). lia. }
  unfold check_status, response. rewrite <- !app_assoc. cbn [app].
  set (t := reason ++ _). pose proof (zlen_nonneg t).
  rewrite (proj2 (Z.eqb_neq _ _)), (proj2 (Z.leb_gt _ _)) by (autorewrite with zlen; lia).
  cbn [orb].
  assert (Hat : forall k x, (ver ++ SP :: 49 :: 48 :: 49 :: t) !! (length ver + k)%nat = Some x ->
    0 <= Z.of_nat k < 4 -> span_at (ver ++ SP :: 49 :: 48 :: 49 :: t) (zlen ver + Z.of_nat k) = Ret x).
  { intros k x Hk Hr. unfold span_at. rewrite decide_True by (autorewrite with zlen; lia).
    replace (Z.to_nat _) with (length ver + k)%nat by (unfold zlen; lia). by rewrite Hk. }
  pose proof (Hat 1%nat 49) as H1. pose proof (Hat 2%nat 48) as H2. pose proof (Hat 3%nat 49) as H3.
  rewrite lookup_app_r, Nat.add_comm, Nat.add_sub in H1, H2, H3 by lia.
  change (Z.of_nat 1) with 1 in H1. change (Z.of_nat 2) with 2 in H2. change (Z.of_nat 3) with 3 in H3.
  rewrite H1, H2, H3 by (done || lia). done.
Qed.

Lemma check_key_response (Hkey : good_key) :
  check_key (response ver reason hs1 hname nsp key hs2 ++ rest) key (zlen before_key) = Ret true.
Proof.
  destruct Hkey as (Hk & Hkeol & _). rewrite response_split.
  unfold check_key. rewrite drop_zlen.
  change (CRLF ++ header_lines hs2 ++ CRLF ++ rest)
    with (CRLF ++ (header_lines hs2 ++ CRLF ++ rest)).
  rewrite find_eol_line by done.
  rewrite subspan_in.
  2: { pose proof (zlen_nonneg before_key). pose proof (zlen_nonneg (header_lines hs2)).
       pose proof (zlen_nonneg rest). autorewrite with zlen. lia. }
  cbn [mbind outcome_bind].
  replace (zlen before_key + zlen key - zlen before_key) with (zlen key) by lia.
  rewrite slice_app_mid. by rewrite bool_decide_true.
Qed.
End response.

(** ** Lemmas: what a complete scan means *)

(** The counter reaches 4 only on a line feed. *)
Lemma advance_4 cc c : 0 <= cc < 4 -> advance_crlf_count cc c = 4 -> c = LF.
Proof.
  intros Hcc. unfold advance_crlf_count, u8. destruct (c =? CR) eqn:E1; bool_to_prop.
  - destruct (cc mod 2 =? 0) eqn:E2; bool_to_prop; intros H.
    + assert (cc = 3) as -> by (rewrite Z.mod_small in H; lia). done.
    + rewrite Z.mod_small in H; lia.
  - destruct (c =? LF) eqn:E2; bool_to_prop; [done|lia].
Qed.

Lemma advance_range cc c : 0 <= cc < 4 -> 0 <= advance_crlf_count cc c <= 4.
Proof.
  intros Hcc. unfold advance_crlf_count, u8.
  destruct (c =? CR); [|destruct (c =? LF); [|lia]].
  - rewrite Z.mod_small; case_match; lia.
  - pose proof (Z.mod_pos_bound cc 2). rewrite Z.mod_small; [|lia].
    destruct (decide (cc = 3)) as [->|]; [done|lia].
Qed.

(** Where the recorded indices point. *)
Definition scan_ok (input : list Z) (st : scan) : Prop :=
  (sp_ix st = 0 \/ 0 < sp_ix st /\ input !! Z.to_nat (sp_ix st) = Some SP) /\
  (ws_key_start st = 0 \/
   exists pre hname nsp tl, input = pre ++ hname ++ replicate nsp SP ++ tl /\
     equal_ci hname accept_header = true /\
     ws_key_start st = zlen (pre ++ hname ++ replicate nsp SP)).

Lemma skip_spaces_inv l k k' :
  skip_spaces l k = Ret k' -> exists n tl, l = replicate n SP ++ tl /\ k' = k + Z.of_nat n.
Proof.
  revert k. induction l as [|c l IH]; intros k H; [done|]. cbn in H.
  destruct (c =? SP) eqn:E; bool_to_prop.
  - destruct (IH _ H) as (n & tl & -> & ->). exists (S n), tl. subst c. split; [done|lia].
  - injection H as <-. exists 0%nat, (c :: l). split; [done|lia].
Qed.

Lemma match_header_inv input pre rest' c cc sp ks ks' :
  input = pre ++ c :: rest' ->
  match_header input (mkScan cc sp ks (zlen pre)) c = Ret ks' ->
  ks' = ks \/
  exists pre hname nsp tl, input = pre ++ hname ++ replicate nsp SP ++ tl /\
    equal_ci hname accept_header = true /\ ks' = zlen (pre ++ hname ++ replicate nsp SP).
Proof.
  intros Hin. unfold match_header. cbn [ws_key_start crlf_counter ix].
  destruct (_ && _) eqn:E; [|intros [= ->]; by left]. bool_to_prop.
  pose proof (zlen_nonneg pre). change (zlen accept_header) with 21 in *.
  rewrite subspan_in by lia. cbn [mbind outcome_bind].
  destruct (equal_ci _ _) eqn:Eci; [|intros [= ->]; by left].
  intros Hk. right. apply skip_spaces_inv in Hk as (n & tl & Htl & ->).
  exists pre, (slice input (zlen pre) 21), n, tl. split_and!; [|done|].
  - rewrite <- Htl. rewrite <- (take_drop (length pre + 21) input) at 1.
    unfold slice. rewrite <- take_take_drop, <- app_assoc. f_equal.
    + rewrite Hin. apply take_app_length.
    + replace (Z.to_nat (zlen pre)) with (length pre) by (unfold zlen; lia).
      change (Z.to_nat 21) with 21%nat. f_equal. f_equal. unfold zlen. lia.
  - autorewrite with zlen. rewrite zlen_slice by lia. lia.
Qed.

Lemma scan_loop_ok input pre rest st st' :
  input = pre ++ rest -> ix st = zlen pre -> 0 <= crlf_counter st < 4 ->
  scan_ok input st -> scan_loop input rest st = Ret st' ->
  scan_ok input st' /\ 0 <= crlf_counter st' <= 4 /\
  (crlf_counter st' = 4 -> zlen pre <= ix st' /\ input !! Z.to_nat (ix st') = Some LF).
Proof.
  revert pre st. induction rest as [|c rest IH]; intros pre st Hin Hix Hcc Hok Hs.
  - injection Hs as <-. split_and!; [done|lia..].
  - cbn [scan_loop] in Hs. destruct st as [cc sp ks i]. cbn in Hix, Hcc. subst i.
    destruct (match_header _ _ _) as [ks'| |] eqn:Hm; [|done..].
    cbn [mbind outcome_bind sp_ix ws_key_start ix crlf_counter] in Hs.
    assert (Hc : input !! length pre = Some c).
    { rewrite Hin, lookup_app_r, Nat.sub_diag by lia. done. }
    assert (Hz : Z.to_nat (zlen pre) = length pre) by (unfold zlen; lia).
    set (sp' := if (sp =? 0) && (c =? SP) then zlen pre else sp) in Hs.
    assert (Hok' : forall cc' i', scan_ok input (mkScan cc' sp' ks' i')).
    { intros cc' i'. destruct Hok as [Hsp Hks]. split; cbn in *.
      - unfold sp'. destruct (sp =? 0) eqn:E1; [|done]. destruct (c =? SP) eqn:E2; [|by rewrite andb_false_r].
        bool_to_prop. cbn [andb]. pose proof (zlen_nonneg pre).
        destruct (decide (zlen pre = 0)); [by left|right]. rewrite Hz, Hc. split; [lia|congruence].
      - destruct (match_header_inv _ _ _ _ _ _ _ _ Hin Hm) as [->|?]; [done|by right]. }
    pose proof (advance_range cc c Hcc) as Hadv.
    destruct (advance_crlf_count cc c =? 4) eqn:E4; bool_to_prop.
    + injection Hs as <-. split_and!; [apply Hok'|cbn; lia..|].
      intros _. cbn. rewrite Hz, Hc. split; [lia|]. f_equal. by apply (advance_4 cc).
    + destruct (IH (pre ++ [c]) (mkScan (advance_crlf_count cc c) sp' ks' (zlen pre + 1)))
        as (? & ? & Hend); [by rewrite <- app_assoc|cbn; by autorewrite with zlen|cbn; lia|apply Hok'|done|].
      split_and!; [done|lia..|]. intros H4. destruct (Hend H4) as [Hge ?].
      autorewrite with zlen in Hge. split; [lia|done].
Qed.

Lemma response_pos ver reason hs1 hname nsp val hs2 :
  1 <= zlen (response ver reason hs1 hname nsp val hs2).
Proof.
  unfold response. autorewrite with zlen.
  pose proof (zlen_nonneg ver). pose proof (zlen_nonneg reason). pose proof (zlen_nonneg hname).
  pose proof (zlen_nonneg val).
  pose proof (zlen_nonneg (header_lines hs1)). pose proof (zlen_nonneg (header_lines hs2)). lia.
Qed.

Lemma read_handshake_good (key : list Z) (rx : Buffer) (ver reason : list Z)
    (hs1 : list (list Z)) (hname : list Z) (nsp : nat) (val : list Z)
    (hs2 : list (list Z)) (rest : list Z)
    (Hwf : buffer_wf rx)
    (Hgood : good_response ver reason hs1 hname hs2) (Hkey : good_key val)
    (Hrx : contents rx = response ver reason hs1 hname nsp val hs2 ++ rest) :
  exists rx',
    read_handshake key rx =
      Ret (if bool_decide (val = key) then protocol.ok else protocol.error, rx') /\
    buffer_wf rx' /\ contents rx' = rest.
Proof.
  pose proof (response_pos ver reason hs1 hname nsp val hs2) as Hlen.
  destruct (inc_rpos_spec rx (zlen (response ver reason hs1 hname nsp val hs2))) as [Hwf' Hc].
  { done. }
  { rewrite Hrx, zlen_app. pose proof (zlen_nonneg rest). lia. }
  eexists. split; [|split; [exact Hwf'|rewrite Hc, Hrx; apply drop_zlen]].
  unfold read_handshake. rewrite rbuf_wf, Hrx by done. cbn [mbind outcome_bind].
  rewrite scan_response by done. cbn [mbind outcome_bind crlf_counter Z.eqb Pos.eqb negb sp_ix ws_key_start ix].
  rewrite check_status_response by done. cbn [mbind outcome_bind negb].
  pose proof (check_key_response ver reason hs1 hname nsp val hs2 rest Hkey) as Hck.
  unfold check_key in *. destruct (subspan _ _ 28); [|done..].
  cbn [mbind outcome_bind] in *. injection Hck as Hck%bool_decide_eq_true. rewrite Hck.
  unfold Input_read. by rewrite Z.sub_add.
Qed.

(** ** Properties *)

(** C11: a complete upgrade response is consumed up to and including its empty
    line, and accepted exactly when the Sec-WebSocket-Accept value is the
    expected key; bytes after the response stay in the buffer. *)
Theorem read_handshake_response (key : list Z) (rx : Buffer) (ver reason : list Z)
    (hs1 : list (list Z)) (hname : list Z) (nsp : nat) (val : list Z)
    (hs2 : list (list Z)) (rest : list Z)
    (Hwf : buffer_wf rx)
    (Hgood : good_response ver reason hs1 hname hs2) (Hkey : good_key val)
    (Hrx : contents rx = response ver reason hs1 hname nsp val hs2 ++ rest) :
  exists rx',
    read_handshake key rx =
      Ret (if bool_decide (val = key) then protocol.ok else protocol.error, rx') /\
    buffer_wf rx' /\ contents rx' = rest.
Proof. by apply (read_handshake_good key rx ver reason hs1 hname nsp val hs2). Qed.

(** No part of the response reader loops beyond the input. *)
Lemma scan_loop_no_fuel input rest st : scan_loop input rest st <> NoFuel.
Proof.
  assert (Hskip : forall l k, skip_spaces l k <> NoFuel).
  { induction l as [|c l IH]; intros k; cbn [skip_spaces]; [done|]. destruct (_ =? _); [apply IH|done]. }
  assert (Hm : forall st chr, match_header input st chr <> NoFuel).
  { intros st' chr. unfold match_header. destruct (_ && _); [|done].
    destruct (subspan _ _ _) eqn:Hs; [|done|by apply subspan_no_fuel in Hs]. cbn [mbind outcome_bind].
    destruct (equal_ci _ _); [apply Hskip|done]. }
  revert st. induction rest as [|c rest IH]; intros st; cbn [scan_loop]; [done|].
  specialize (Hm st c). destruct (match_header input st c); [|done..]. cbn [mbind outcome_bind].
  destruct (_ =? 4); [done|apply IH].
Qed.

Lemma read_handshake_no_fuel key rx : read_handshake key rx <> NoFuel.
Proof.
  unfold read_handshake, rbuf, check_status, check_key, span_at, mbind, outcome_bind.
  destruct (subspan _ _ _) eqn:Hr; [|done|by apply subspan_no_fuel in Hr]. pose proof (scan_loop_no_fuel) as Hs.
  destruct (scan_loop _ _ _) as [st| |] eqn:E; [|done|by destruct (Hs _ _ _ E)].
  repeat case_match; simplify_eq; try done;
    match goal with H : subspan _ _ _ = NoFuel |- _ => by apply subspan_no_fuel in H end.
Qed.

(** What is consumed: nothing, or a prefix of the input. *)
Lemma read_handshake_consumes key rx st rx' :
  buffer_wf rx -> read_handshake key rx = Ret (st, rx') ->
  rx' = rx \/ exists n, rx' = inc_rpos rx n /\ 0 <= n <= zlen (contents rx).
Proof.
  intros Hwf Hrun. unfold read_handshake in Hrun. rewrite rbuf_wf in Hrun by done. cbn [mbind outcome_bind] in Hrun.
  destruct (scan_loop _ _ _) as [s| |] eqn:Hs; [|done..]. cbn [mbind outcome_bind] in Hrun.
  destruct (scan_loop_ok (contents rx) [] (contents rx) (mkScan 0 0 0 0) s) as (_ & _ & Hend);
    [done|done|done|by split; left|done|].
  destruct (crlf_counter s =? 4) eqn:E4; cbn [negb] in Hrun; [|left; by simplify_eq].
  right. bool_to_prop. destruct (Hend E4) as [Hge Hlf]. rewrite zlen_nil in Hge.
  exists (ix s + 1). pose proof (lookup_lt_Some _ _ _ Hlf) as Hlt. split; [|unfold zlen; lia].
  destruct (check_status _ _) as [[]| |]; [|by simplify_eq/=|done..]. cbn [mbind outcome_bind negb] in Hrun.
  destruct (check_key _ _ _) as [okk| |]; [|done..]. by simplify_eq/=.
Qed.

(** C22: a defined run either waits for more bytes with nothing consumed, or
    consumes up to a line feed; it says [ok] after consuming only if "101"
    follows the first recorded space and the expected key stands at the
    recorded position, which the accept header precedes or which is 0 when no
    such header was seen. *)
Theorem read_handshake_sound (key : list Z) (rx rx' : Buffer) (st : protocol.Status)
    (Hwf : buffer_wf rx) (Hrun : read_handshake key rx = Ret (st, rx')) :
  (st = protocol.ok /\ rx' = rx) \/
  exists n, rx' = inc_rpos rx (n + 1) /\ 0 <= n < zlen (contents rx) /\
    contents rx !! Z.to_nat n = Some LF /\
    (st = protocol.ok ->
       exists sp ks ke, 0 < sp /\ contents rx !! Z.to_nat sp = Some SP /\
         slice (contents rx) (sp + 1) 3 = [49; 48; 49] /\
         slice (contents rx) ks (ke - ks) = key /\
         (ks = 0 \/ exists pre hname nsp tl,
            contents rx = pre ++ hname ++ replicate nsp SP ++ tl /\
            equal_ci hname accept_header = true /\
            ks = zlen (pre ++ hname ++ replicate nsp SP))).
Proof.
  unfold read_handshake in Hrun. rewrite rbuf_wf in Hrun by done. cbn [mbind outcome_bind] in Hrun.
  set (input := contents rx) in *.
  destruct (scan_loop _ _ _) as [s| |] eqn:Hs; [|done..]. cbn [mbind outcome_bind] in Hrun.
  destruct (scan_loop_ok input [] input (mkScan 0 0 0 0) s) as ([Hsp Hks] & _ & Hend);
    [done|done|done|by split; left|done|].
  destruct (crlf_counter s =? 4) eqn:E4; cbn [negb] in Hrun; [|left; by simplify_eq].
  right. bool_to_prop. destruct (Hend E4) as [Hge Hlf]. rewrite zlen_nil in Hge.
  exists (ix s). pose proof (lookup_lt_Some _ _ _ Hlf) as Hlt.
  unfold check_status in Hrun.
  destruct ((sp_ix s =? 0) || _) eqn:E5; cbn [mbind outcome_bind negb] in Hrun.
  { simplify_eq. split_and!; [done|lia|unfold zlen; lia|done|done]. }
  bool_to_prop. destruct Hsp as [?|[Hsp0 Hspc]]; [lia|].
  destruct (span_at_Some input (sp_ix s + 1)) as (a & Ea & La); [lia|].
  destruct (span_at_Some input (sp_ix s + 2)) as (b & Eb & Lb); [lia|].
  destruct (span_at_Some input (sp_ix s + 3)) as (c & Ec & Lc); [lia|].
  rewrite Ea, Eb, Ec in Hrun. cbn [mbind outcome_bind] in Hrun.
  destruct ((a =? 49) && _ && _) eqn:E6; cbn [negb] in Hrun.
  2: { simplify_eq. split_and!; [done|lia|unfold zlen; lia|done|done]. }
  destruct (check_key _ _ _) as [okk| |] eqn:Hck; [|done..].
  cbn [mbind outcome_bind] in Hrun. simplify_eq.
  split_and!; [done|lia|unfold zlen; lia|done|]. intros Hok.
  destruct okk; [|done]. unfold check_key in Hck.
  destruct (subspan _ _ 28); [|done..]. cbn [mbind outcome_bind] in Hck.
  injection Hck as Hck%bool_decide_eq_true. bool_to_prop. subst a b c.
  exists (sp_ix s), (ws_key_start s), (find_eol (drop (Z.to_nat (ws_key_start s)) input) (ws_key_start s)).
  split_and!; [done|done| |done|done].
  unfold slice. change (Z.to_nat 3) with 3%nat.
  replace (Z.to_nat (sp_ix s + 2)) with (S (Z.to_nat (sp_ix s + 1))) in Lb by lia.
  replace (Z.to_nat (sp_ix s + 3)) with (S (S (Z.to_nat (sp_ix s + 1)))) in Lc by lia.
  rewrite (drop_S _ _ _ La), (drop_S _ _ _ Lb), (drop_S _ _ _ Lc). done.
Qed.

(** A small response for the witnesses. *)
Definition sample_key : list Z := replicate 28 65.
Definition sample_response : list Z :=
  response (str "HTTP/1.1") (str " OK") [str "Upgrade: websocket"] accept_header 1 sample_key [].

Lemma sample_good :
  good_response (str "HTTP/1.1") (str " OK") [str "Upgrade: websocket"] accept_header [].
Proof.
  split; apply (bool_decide_unpack _); vm_compute; exact I.
Defined.

Definition sample_rx (l : list Z) : Buffer := mkBuffer l 0 (zlen l).

Lemma sample_rx_wf l : zlen l < 2 ^ 64 -> buffer_wf (sample_rx l).
Proof. intros. unfold buffer_wf, sample_rx, CAP. simpl. pose proof (zlen_nonneg l). lia. Qed.

Lemma sample_rx_contents l : contents (sample_rx l) = l.
Proof. unfold contents, sample_rx. simpl. rewrite Z.sub_0_r. apply slice_all. Qed.

Lemma read_handshake_response_witness :
  exists rx', read_handshake sample_key (sample_rx (sample_response ++ [1; 2])) =
      Ret (protocol.ok, rx') /\ buffer_wf rx' /\ contents rx' = [1; 2].
Proof.
  destruct (read_handshake_response sample_key (sample_rx (sample_response ++ [1; 2]))
    (str "HTTP/1.1") (str " OK") [str "Upgrade: websocket"] accept_header 1 sample_key [] [1; 2])
    as (rx' & H).
  - apply sample_rx_wf. vm_compute. reflexivity.
  - apply sample_good.
  - split; [|split]; [reflexivity| |discriminate]. apply (bool_decide_unpack _). vm_compute. exact I.
  - apply sample_rx_contents.
  - exists rx'. rewrite bool_decide_true in H by reflexivity. exact H.
Defined.

Lemma read_handshake_sound_witness :
  exists rx', read_handshake sample_key (sample_rx (str "HTTP/1.1")) = Ret (protocol.ok, rx') /\
    (protocol.ok = protocol.ok /\ rx' = sample_rx (str "HTTP/1.1") \/
     exists n, rx' = inc_rpos (sample_rx (str "HTTP/1.1")) (n + 1)).
Proof.
  eexists. split; [reflexivity|].
  destruct (read_handshake_sound sample_key (sample_rx (str "HTTP/1.1")) (sample_rx (str "HTTP/1.1"))
    protocol.ok) as [H|(n & H & _)].
  - apply sample_rx_wf. vm_compute. reflexivity.
  - reflexivity.
  - left. exact H.
  - right. exists n. exact H.
Defined.

(** C39: when the received bytes end inside the spaces after the accept header, the
    loop that skips them reads past the end of the span. *)
Theorem read_handshake_overread (key : list Z) (rx : Buffer) (ver reason : list Z)
    (hs1 : list (list Z)) (hname : list Z) (nsp : nat)
    (Hwf : buffer_wf rx)
    (Hgood : good_response ver reason hs1 hname [])
    (Hrx : contents rx = (ver ++ [SP; 49; 48; 49] ++ reason) ++ CRLF ++ header_lines hs1 ++
                         hname ++ replicate (S nsp) SP) :
  read_handshake key rx = UB.
Proof.
  destruct Hgood as [(Hv & Hvne & Hvsp) Hr [Hg1 Hs1] [Hci Hhd] _].
  assert (Hv0 : zlen ver <> 0) by (by intros ?%zlen_0_inv).
  unfold read_handshake. rewrite rbuf_wf, Hrx by done. cbn [mbind outcome_bind].
  set (pre1 := (ver ++ [SP; 49; 48; 49] ++ reason) ++ CRLF).
  set (input := (ver ++ [SP; 49; 48; 49] ++ reason) ++ CRLF ++ header_lines hs1 ++
                hname ++ replicate (S nsp) SP).
  assert (Hin1 : input = pre1 ++ header_lines hs1 ++ hname ++ replicate (S nsp) SP)
    by (unfold input, pre1; by rewrite <- !app_assoc).
  assert (E1 : scan_loop input input (mkScan 0 0 0 0) =
    scan_loop input (header_lines hs1 ++ hname ++ replicate (S nsp) SP)
      (mkScan 2 (zlen ver) 0 (zlen pre1))) by (by apply scan_status_line).
  rewrite E1, (scan_lines input pre1) by auto.
  assert (Hn21 : zlen hname = 21).
  { apply bool_decide_eq_true, (f_equal zlen) in Hci. unfold zlen in *.
    rewrite !length_map in Hci. exact Hci. }
  set (pre2 := pre1 ++ header_lines hs1).
  assert (Hin2 : input = pre2 ++ hname ++ replicate (S nsp) SP)
    by (unfold pre2; by rewrite Hin1, <- app_assoc).
  assert (Hm : match_header input (mkScan 2 (zlen ver) 0 (zlen pre2)) 83 = UB).
  { pose proof (zlen_nonneg pre2). unfold match_header. rewrite Hin2.
    cbn [ws_key_start crlf_counter ix Z.eqb Pos.eqb andb]. change (zlen accept_header) with 21.
    rewrite (proj2 (Z.ltb_lt _ _)) by (autorewrite with zlen; lia).
    rewrite subspan_in by (autorewrite with zlen; lia).
    cbn [mbind outcome_bind]. rewrite <- Hn21 at 1. rewrite slice_app_mid, Hci.
    replace (zlen pre2 + 21) with (zlen (pre2 ++ hname)) by (rewrite zlen_app; lia).
    rewrite app_assoc, drop_zlen. apply skip_spaces_all. }
  destruct hname as [|c hn]; [done|]. injection Hhd as ->. cbn [app scan_loop]. by rewrite Hm.
Qed.

Lemma read_handshake_overread_witness :
  read_handshake sample_key
    (sample_rx ((str "HTTP/1.1" ++ [SP; 49; 48; 49] ++ str " OK") ++ CRLF ++
                header_lines [str "Upgrade: websocket"] ++ accept_header ++ replicate 1 SP)) = UB.
Proof.
  apply (read_handshake_overread sample_key _ (str "HTTP/1.1") (str " OK")
           [str "Upgrade: websocket"] accept_header 0).
  - apply sample_rx_wf. vm_compute. reflexivity.
  - apply sample_good.
  - apply sample_rx_contents.
Defined.

(** Two gaps of the key check, on concrete responses: without any accept header
    a response whose first line is the key itself is accepted, and the header
    written in lower case is not recognised although it is compared without
    regard to case. *)
Lemma read_handshake_key_gaps :
  (exists rx', read_handshake sample_key
     (sample_rx (sample_key ++ CRLF ++ str "X 101" ++ CRLF ++ CRLF)) = Ret (protocol.ok, rx')
     /\ contents rx' = []) /\
  (exists rx', read_handshake sample_key
     (sample_rx (str "HTTP/1.1 101 OK" ++ CRLF ++ str "sec-websocket-accept: " ++ sample_key
                 ++ CRLF ++ CRLF)) = Ret (protocol.error, rx')).
Proof. split; eexists; [split|]; vm_compute; reflexivity. Qed.

(** ** The client's side: upgrade request and control frames *)

(** Reference receiver of a client frame (RFC 6455, 5.2 and 5.3): FIN set and no
    reserved bit, the opcode, MASK set and a seven-bit length, the four bytes of
    the masking key, and each payload byte combined with the next key byte in
    turn. *)
Fixpoint unmask (k0 k1 k2 k3 : Z) (l : list Z) : list Z :=
  match l with
  | [] => []
  | b :: l => Z.lxor b k0 :: unmask k1 k2 k3 k0 l
  end.

Definition decode_masked (l : list Z) : option (OpCode.t * list Z) :=
  match l with
  | b0 :: b1 :: k0 :: k1 :: k2 :: k3 :: pl =>
      if (b0 / 16 =? 8) && (b1 / 128 =? 1) && (b1 mod 128 =? zlen pl)
      then Some (OpCode.of_Z (b0 mod 16), unmask k0 k1 k2 k3 pl)
      else None
  | _ => None
  end.

Lemma land3_add4 i : Nat.land (4 + i) 3 = Nat.land i 3.
Proof.
  assert (Hm : forall n, Nat.land n 3 = (n mod 4)%nat) by (intros n; exact (Nat.land_ones n 2)).
  rewrite !Hm, Nat.add_comm. exact (Nat.Div0.mod_add i 1 4).
Qed.

(** The sender's mask repeats with period four. *)
Lemma mask_bytes_4 mask a b c d pl :
  mask_bytes mask (a :: b :: c :: d :: pl) = mask_bytes mask [a; b; c; d] ++ mask_bytes mask pl.
Proof.
  unfold mask_bytes. change (a :: b :: c :: d :: pl) with ([a; b; c; d] ++ pl). rewrite imap_app.
  f_equal. apply imap_ext. intros i x _. unfold compose. cbn [length]. by rewrite land3_add4.
Qed.

Lemma lxor_unmask k b : Z.lxor (Z.lxor k b) k = b.
Proof. by rewrite Z.lxor_comm, <- Z.lxor_assoc, Z.lxor_nilpotent, Z.lxor_0_l. Qed.

Lemma unmask_mask_bytes k0 k1 k2 k3 : forall pl,
  unmask k0 k1 k2 k3 (mask_bytes [k0; k1; k2; k3] pl) = pl.
Proof.
  fix IH 1. intros [|a [|b [|c [|d pl]]]];
    [reflexivity|cbn -[Z.lxor]; by rewrite !lxor_unmask..|].
  rewrite mask_bytes_4.
  change (mask_bytes [k0; k1; k2; k3] [a; b; c; d])
    with [Z.lxor k0 a; Z.lxor k1 b; Z.lxor k2 c; Z.lxor k3 d].
  cbn [app unmask]. by rewrite !lxor_unmask, IH.
Qed.

Lemma zlen_mask_bytes mask pl : zlen (mask_bytes mask pl) = zlen pl.
Proof. unfold mask_bytes, zlen. by rewrite length_imap. Qed.

(** The two header bytes of a client frame, as the receiver takes them apart. *)
Lemma len_byte_masked n :
  0 <= n <= 125 -> Z.lor 128 (u8 n) / 128 = 1 /\ Z.lor 128 (u8 n) mod 128 = n.
Proof.
  intros Hn.
  assert (Hall : Forall (fun n => Z.lor 128 (u8 n) / 128 = 1 /\ Z.lor 128 (u8 n) mod 128 = n) (seqZ 0 126)).
  { apply (bool_decide_unpack _). vm_compute. exact I. }
  rewrite Forall_forall in Hall. apply Hall, elem_of_seqZ. lia.
Qed.

Lemma op_byte_fin o :
  OpCode.nibble o -> Z.lor 128 (OpCode.to_Z o) / 16 = 8 /\ OpCode.of_Z (Z.lor 128 (OpCode.to_Z o) mod 16) = o.
Proof.
  intros [Ho Hr].
  assert (Hall : Forall (fun v => Z.lor 128 v / 16 = 8 /\ Z.lor 128 v mod 16 = v) (seqZ 0 16)).
  { apply (bool_decide_unpack _). vm_compute. exact I. }
  rewrite Forall_forall in Hall. destruct (Hall (OpCode.to_Z o)) as [-> ->]; [apply elem_of_seqZ; lia|done].
Qed.

Lemma base64_no_blank l :
  is_bytes l -> no_eol (base64_encode l) /\ head (base64_encode l) <> Some SP.
Proof.
  intros Hl.
  assert (Hall : Forall (fun c => c <> CR /\ c <> LF /\ c <> SP) (eq_char :: table)).
  { apply (bool_decide_unpack _). vm_compute. exact I. }
  rewrite Forall_forall in Hall.
  assert (H : forall c, c ∈ base64_encode l -> c <> CR /\ c <> LF /\ c <> SP).
  { intros c Hc. apply Hall. apply elem_of_cons. by apply (base64_encode_digit l). }
  split.
  - apply Forall_forall. intros c Hc. destruct (H c Hc) as (? & ? & _). done.
  - destruct (base64_encode l) as [|c l'] eqn:E; [done|]. intros [= ->].
    destruct (H SP) as (_ & _ & ?); [apply elem_of_cons; by left|done].
Qed.

Section client.
Context {R : Type} (rd : R -> Z * R).

Lemma length_random_bytes n r : length (random_bytes rd n r).1 = n.
Proof.
  revert r. induction n as [|n IH]; intros r; [done|]. simpl.
  destruct (rd r) as [x r1]. specialize (IH r1). destruct (random_bytes rd n r1). simpl in *. lia.
Qed.

Lemma is_bytes_random n r : is_bytes (random_bytes rd n r).1.
Proof.
  revert r. induction n as [|n IH]; intros r; [by apply Forall_nil|]. simpl.
  destruct (rd r) as [x r1]. specialize (IH r1). destruct (random_bytes rd n r1). simpl in *.
  apply Forall_cons. split; [apply u8_range|done].
Qed.

Lemma control_frame_decodes (osz : Z) (o : OpCode.t) (pl : list Z) (r : R)
    (Ho : OpCode.nibble o) (Hlen : zlen pl <= 125) (Hsz : 6 + zlen pl <= osz) :
  decode_masked (write_control_frame rd osz o pl r).1 = Some (o, pl) /\
  zlen (write_control_frame rd osz o pl r).1 = 6 + zlen pl.
Proof.
  unfold write_control_frame.
  rewrite (proj2 (Z.ltb_ge _ _)), (proj2 (Z.ltb_ge _ _)) by lia. cbn [orb].
  pose proof (length_random_bytes 4 r) as Hm. destruct (random_bytes rd 4 r) as [mask r'].
  cbn [fst] in *. destruct mask as [|m0 [|m1 [|m2 [|m3 [|]]]]]; try done.
  pose proof (zlen_nonneg pl). destruct (len_byte_masked (zlen pl)) as [H1 H2]; [lia|].
  destruct (op_byte_fin o Ho) as [Hf Ht]. split.
  - cbn [app decode_masked]. rewrite Hf, Ht, H1, H2, zlen_mask_bytes.
    cbn [andb Z.eqb Pos.eqb]. by rewrite Z.eqb_refl, unmask_mask_bytes.
  - autorewrite with zlen. rewrite zlen_mask_bytes. lia.
Qed.

(** C25: a control frame written by the client is decoded by an RFC 6455 receiver
    to the same opcode and payload, whatever mask the random device gives; it
    has [6 + len] bytes. *)
Theorem write_control_frame_roundtrip (osz : Z) (o : OpCode.t) (pl : list Z) (r : R)
    (Ho : OpCode.nibble o) (Hlen : zlen pl <= 125) (Hsz : 6 + zlen pl <= osz) :
  decode_masked (write_control_frame rd osz o pl r).1 = Some (o, pl) /\
  zlen (write_control_frame rd osz o pl r).1 = 6 + zlen pl.
Proof. by apply control_frame_decodes. Qed.

(** Nothing is written when the output is too small for header, mask and
    payload or the payload is longer than 125 bytes; otherwise the frame fits
    in the output. *)
Lemma write_control_frame_bounds (osz : Z) (o : OpCode.t) (pl : list Z) (r : R)
    (Hosz : 0 <= osz) :
  0 <= zlen (write_control_frame rd osz o pl r).1 <= osz /\
  (zlen (write_control_frame rd osz o pl r).1 = 0 <-> osz < 6 + zlen pl \/ 125 < zlen pl).
Proof.
  unfold write_control_frame. pose proof (zlen_nonneg pl).
  destruct ((osz <? 6 + zlen pl) || (125 <? zlen pl)) eqn:E.
  - cbn [fst]. change (zlen (@nil Z)) with 0. apply orb_true_iff in E.
    split; [lia|]. split; [intros _|done]. destruct E; bool_to_prop; auto.
  - bool_to_prop. pose proof (length_random_bytes 4 r) as Hm.
    destruct (random_bytes rd 4 r) as [mask r']. cbn [fst] in *.
    assert (zlen mask = 4) by (unfold zlen; lia).
    autorewrite with zlen. rewrite zlen_mask_bytes. lia.
Qed.

Lemma close_frame_decodes (osz : Z) (code : CloseCode.t) (r : R) (Hsz : 8 <= osz) :
  decode_masked (write_close rd osz code r).1 =
    Some (OpCode.close, [CloseCode.to_Z code / 256; CloseCode.to_Z code mod 256]) /\
  zlen (write_close rd osz code r).1 = 8.
Proof.
  unfold write_close.
  assert (Hp : close_payload (CloseCode.to_Z code) =
               [CloseCode.to_Z code / 256; CloseCode.to_Z code mod 256])
    by (by destruct code).
  rewrite Hp. apply (control_frame_decodes osz OpCode.close);
    [by split|autorewrite with zlen; lia..].
Qed.

(** The close frame carries the two bytes of the close code in network order. *)
Lemma write_close_code (osz : Z) (code : CloseCode.t) (r : R) (Hsz : 8 <= osz) :
  decode_masked (write_close rd osz code r).1 =
    Some (OpCode.close, [CloseCode.to_Z code / 256; CloseCode.to_Z code mod 256]) /\
  zlen (write_close rd osz code r).1 = 8.
Proof. by apply close_frame_decodes. Qed.

Section sha1.
Context (SHA1 : list Z -> list Z).
(** OpenSSL's [SHA1] writes a 20-byte digest. *)
Hypothesis SHA1_digest : forall l, is_bytes (SHA1 l) /\ zlen (SHA1 l) = 20.

Lemma accept_key_good host path extra r :
  good_key (ws_accept_key (make_handshake rd SHA1 host path extra r).1).
Proof.
  unfold make_handshake. destruct (random_bytes rd 16 r) as [nonce r']. cbn [fst ws_accept_key].
  destruct (SHA1_digest (base64_encode nonce ++ kGuid)) as [Hd Hd20].
  destruct (base64_no_blank _ Hd). split; [|done]. by rewrite base64_encode_length, Hd20.
Qed.

(** C10: the handshake fits together: the request carries a key that decodes to
    the 16-byte nonce, the expected accept value is the base64 SHA-1 of key and
    GUID, and any well-formed 101 response that carries it is accepted. *)
Theorem handshake_completes (host path : list Z) (extra : list Header) (r : R)
    (rx : Buffer) (ver reason : list Z) (hs1 : list (list Z)) (hname : list Z) (nsp : nat)
    (hs2 : list (list Z)) (rest : list Z) :
  let h := (make_handshake rd SHA1 host path extra r).1 in
  exists key tail,
    upgrade_request h =
      str "GET " ++ path ++ str " HTTP/1.1" ++ CRLF ++ str "Host: " ++ host ++ CRLF ++
      str "Upgrade: websocket" ++ CRLF ++ str "Connection: Upgrade" ++ CRLF ++
      str "Sec-WebSocket-Key: " ++ key ++ CRLF ++ tail ++ CRLF /\
    base64_decode key = Some (random_bytes rd 16 r).1 /\
    ws_accept_key h = base64_encode (SHA1 (key ++ kGuid)) /\ zlen (ws_accept_key h) = 28 /\
    (buffer_wf rx -> good_response ver reason hs1 hname hs2 ->
     contents rx = response ver reason hs1 hname nsp (ws_accept_key h) hs2 ++ rest ->
     exists rx', read_handshake (ws_accept_key h) rx = Ret (protocol.ok, rx') /\ contents rx' = rest).
Proof.
  intros h. pose proof (accept_key_good host path extra r) as Hkey. fold h in Hkey.
  assert (Hdec : base64_decode (base64_encode (random_bytes rd 16 r).1) = Some (random_bytes rd 16 r).1)
    by apply base64_roundtrip_aux, is_bytes_random.
  exists (base64_encode (random_bytes rd 16 r).1),
    (str "Sec-WebSocket-Version: 13" ++ CRLF ++ format_extra extra).
  split_and!; [|done| |apply Hkey|].
  - unfold h, make_handshake. destruct (random_bytes rd 16 r).
    cbn [fst upgrade_request]. unfold format_request.
    by rewrite <- (app_assoc (str "Sec-WebSocket-Version: 13")), <- (app_assoc CRLF).
  - unfold h, make_handshake. by destruct (random_bytes rd 16 r).
  - intros Hwf Hgood Hrx.
    destruct (read_handshake_good (ws_accept_key h) rx ver reason hs1 hname nsp _ hs2 rest Hwf Hgood Hkey Hrx)
      as (rx' & Hr & _ & Hc).
    exists rx'. rewrite bool_decide_true in Hr by done. done.
Qed.
End sha1.
End client.

(** Instances for the witnesses: a counting device and a constant digest. *)
Definition count_rd (r : Z) : Z * Z := (r, r + 1).
Definition zero_sha1 (l : list Z) : list Z := replicate 20 0.

Lemma zero_sha1_digest l : is_bytes (zero_sha1 l) /\ zlen (zero_sha1 l) = 20.
Proof. split; [|reflexivity]. apply Forall_replicate. unfold is_byte. lia. Qed.

Lemma write_control_frame_roundtrip_witness :
  decode_masked (write_control_frame count_rd 64 OpCode.ping [1; 2; 3; 4; 5] 250).1 =
    Some (OpCode.ping, [1; 2; 3; 4; 5]) /\
  zlen (write_control_frame count_rd 64 OpCode.ping [1; 2; 3; 4; 5] 250).1 = 11.
Proof.
  apply (write_control_frame_roundtrip count_rd 64 OpCode.ping [1; 2; 3; 4; 5] 250);
    vm_compute; repeat split; discriminate.
Defined.

Lemma write_control_frame_bounds_witness :
  0 <= zlen (write_control_frame count_rd 6 OpCode.pong [1] 0).1 <= 6 /\
  (zlen (write_control_frame count_rd 6 OpCode.pong [1] 0).1 = 0 <-> 6 < 6 + 1 \/ 125 < 1).
Proof. apply (write_control_frame_bounds count_rd 6 OpCode.pong [1] 0). lia. Defined.

Lemma write_close_code_witness :
  decode_masked (write_close count_rd 8 CloseCode.normal 0).1 = Some (OpCode.close, [3; 232]) /\
  zlen (write_close count_rd 8 CloseCode.normal 0).1 = 8.
Proof. apply (write_close_code count_rd 8 CloseCode.normal 0). lia. Defined.

Lemma handshake_completes_witness :
  let h := (make_handshake count_rd zero_sha1 (str "host") (str "/ws") [] 0).1 in
  exists rx', read_handshake (ws_accept_key h)
    (sample_rx (response (str "HTTP/1.1") (str " OK") [] accept_header 1 (ws_accept_key h) [] ++ [7]))
    = Ret (protocol.ok, rx') /\ contents rx' = [7].
Proof.
  set (h := (make_handshake count_rd zero_sha1 (str "host") (str "/ws") [] 0).1). cbv zeta.
  destruct (handshake_completes count_rd zero_sha1
    zero_sha1_digest
    (str "host") (str "/ws") [] 0
    (sample_rx (response (str "HTTP/1.1") (str " OK") [] accept_header 1 (ws_accept_key h) [] ++ [7]))
    (str "HTTP/1.1") (str " OK") [] accept_header 1 [] [7])
    as (key & tail & _ & _ & _ & _ & H).
  apply H.
  - apply sample_rx_wf. vm_compute. reflexivity.
  - split; apply (bool_decide_unpack _); vm_compute; exact I.
  - apply sample_rx_contents.
Defined.
