(* ===== verification/WebSocket.v ===== *)
(** * The WebSocket session

    [WebSocket<Codec>::Session] (include/manet/protocol/websocket.hpp) over the
    codec interface of include/manet/protocol/websocket_concepts.hpp.

    The session, the two buffers behind [reactor::IO] and the random device are
    the state of a small monad; each method of the class is one definition. *)

From S2P Require Import Prelude Status Buffer Base64 Frame Handshake.

(** [concept MessageCodec]: the three handlers are optional. *)
Class MessageCodec (C : Type) := {
  on_text : option (C -> IO -> list Z -> outcome (protocol.Status * C * IO));
  on_binary : option (C -> IO -> list Z -> outcome (protocol.Status * C * IO));
  codec_on_shutdown : option (C -> CloseCode.t * C)
}.

Module State.
Inductive t : Set := idle | handshake_sent | listening.

#[global] Instance t_eq_dec : EqDecision t.
Proof. solve_decision. Defined.
End State.

Definition MSG_CAP : Z := Z.shiftl 1 20.

Section session.
Context {C R : Type} {codec_ops : MessageCodec C}.
Context (rd : R -> Z * R) (SHA1 : list Z -> list Z).

(** [opcode] has no initialiser: [None] is the indeterminate value. *)
Record Session := mkSession {
  host : list Z;
  path : list Z;
  extra : list Header;
  msg_len : Z;
  accept_key : list Z;
  opcode : option OpCode.t;
  state : State.t;
  msg_buf : list Z;
  codec : C
}.

Record config_t := mkConfig { cfg_path : list Z; cfg_extra : list Header; cfg_codec : C }.

(** The constructor: the codec is built from its configuration. *)
Definition Session_new (h : list Z) (cfg : config_t) : Session :=
  mkSession h (cfg_path cfg) (cfg_extra cfg) 0 (replicate 28 0) None State.idle
            (replicate (Z.to_nat MSG_CAP) 0) (cfg_codec cfg).

Record wst := mkWst { ses : Session; sio : IO; rng : R }.

(** ** Assignments and IO calls *)

Definition set_ses (f : Session -> Session) : M wst unit :=
  modify (fun s => mkWst (f (ses s)) (sio s) (rng s)).

Definition with_accept_key (k : list Z) (s : Session) : Session :=
  mkSession (host s) (path s) (extra s) (msg_len s) k (opcode s) (state s) (msg_buf s) (codec s).
Definition with_state (x : State.t) (s : Session) : Session :=
  mkSession (host s) (path s) (extra s) (msg_len s) (accept_key s) (opcode s) x (msg_buf s) (codec s).
Definition with_msg (b : list Z) (n : Z) (s : Session) : Session :=
  mkSession (host s) (path s) (extra s) n (accept_key s) (opcode s) (state s) b (codec s).
Definition with_opcode (o : OpCode.t) (s : Session) : Session :=
  mkSession (host s) (path s) (extra s) (msg_len s) (accept_key s) (Some o) (state s) (msg_buf s) (codec s).
Definition with_codec (c : C) (s : Session) : Session :=
  mkSession (host s) (path s) (extra s) (msg_len s) (accept_key s) (opcode s) (state s) (msg_buf s) c.

Definition do_rbuf : M wst (list Z) := fun s => lift (io_rbuf (sio s)) s.
Definition do_wbuf : M wst (list Z) := fun s => lift (io_wbuf (sio s)) s.
Definition do_read (n : Z) : M wst unit :=
  modify (fun s => mkWst (ses s) (io_read (sio s) n) (rng s)).

(** Writing [bs] to the front of [io.wbuf()], then [io.wrote(bs.size())]. *)
Definition do_emit (bs : list Z) : M wst unit := fun s =>
  match io_put (sio s) bs with
  | Ret io => Ret (tt, mkWst (ses s) (io_wrote io (zlen bs)) (rng s))
  | UB => UB
  | NoFuel => NoFuel
  end.

Definition with_rng {A} (f : R -> A * R) : M wst A := fun s =>
  let (a, r) := f (rng s) in Ret (a, mkWst (ses s) (sio s) r).

Definition run_handler (h : C -> IO -> list Z -> outcome (protocol.Status * C * IO))
    (pl : list Z) : M wst protocol.Status := fun s =>
  match h (codec (ses s)) (sio s) pl with
  | Ret (st, c, io) => Ret (st, mkWst (with_codec c (ses s)) io (rng s))
  | UB => UB
  | NoFuel => NoFuel
  end.

(** ** Frame handling *)

(** The close code a CLOSE payload carries. *)
Definition close_code (pl : list Z) : Z :=
  match pl with
  | p0 :: p1 :: _ => u16 (Z.lor (Z.shiftl p0 8) p1)
  | _ => CloseCode.to_Z CloseCode.normal
  end.

(** The eight bytes of the reply, with the fixed mask 0xDEADBEEF. *)
Definition close_reply (code : Z) : list Z :=
  [Z.lor 128 8; Z.lor 128 2; 222; 173; 190; 239;
   Z.lxor (u8 (Z.shiftr code 8)) 222; Z.lxor (u8 (Z.land code 255)) 173].

Definition handle_frame (op : OpCode.t) (pl : list Z) : M wst protocol.Status :=
  match op with
  | OpCode.cont => mret protocol.ok
  | OpCode.text =>
      match on_text with Some h => run_handler h pl | None => mret protocol.ok end
  | OpCode.binary =>
      match on_binary with Some h => run_handler h pl | None => mret protocol.ok end
  | OpCode.close =>
      out ← do_wbuf;
      (if 8 <=? zlen out then do_emit (close_reply (close_code pl)) else mret tt) ≫= fun _ =>
      mret protocol.close
  | OpCode.ping =>
      if 126 <=? zlen pl then mret protocol.close
      else
        out ← do_wbuf;
        if zlen out <? 6 + zlen pl then mret protocol.close
        else
          bs ← with_rng (write_control_frame rd (zlen out) OpCode.pong pl);
          do_emit bs ≫= fun _ => mret protocol.ok
  | OpCode.pong => mret protocol.ok
  | OpCode.unnamed _ => mret protocol.ok
  end.

(** The branch of [dispatch_frame] for fragments: append to the message buffer,
    and on FIN handle the whole message. *)
Definition dispatch_fragment (fr : frame_view) : M wst protocol.Status :=
  ml ← gets (fun s => msg_len (ses s));
  if MSG_CAP <? u64 (ml + zlen (payload fr)) then mret protocol.error
  else if negb (payload_len fr =? zlen (payload fr)) then mret protocol.error
  else
    mb ← gets (fun s => msg_buf (ses s));
    mb' ← lift (memcpy mb ml (payload fr));
    set_ses (with_msg mb' (u64 (ml + zlen (payload fr)))) ≫= fun _ =>
    if fin fr then
      o ← gets (fun s => opcode (ses s));
      match o with
      | None => undef
      | Some o =>
          msg ← (fun s => lift (subspan (msg_buf (ses s)) 0 (msg_len (ses s))) s);
          status ← handle_frame o msg;
          set_ses (fun s => with_msg (msg_buf s) 0 s) ≫= fun _ =>
          mret status
      end
    else
      (if decide (op fr = OpCode.cont) then mret tt else set_ses (with_opcode (op fr))) ≫= fun _ =>
      mret protocol.ok.

Definition dispatch_frame : M wst protocol.Status :=
  input ← do_rbuf;
  parsed ← lift (parse_frame input);
  match parsed with
  | (parse_status.ok, Some out) =>
      do_read (consumed out) ≫= fun _ =>
      if negb (fin (frame out)) || bool_decide (op (frame out) = OpCode.cont)
      then dispatch_fragment (frame out)
      else handle_frame (op (frame out)) (payload (frame out))
  | (parse_status.ok, None) => undef
  | (parse_status.need_more, _) => mret protocol.ok
  | (parse_status.masked_server, _) => mret protocol.error
  | (parse_status.bad_reserved, _) => mret protocol.error
  end.

(** ** The protocol handlers *)

Definition on_connect : M wst protocol.Status :=
  hs ← (fun s => with_rng (make_handshake rd SHA1 (host (ses s)) (path (ses s)) (extra (ses s))) s);
  out ← do_wbuf;
  let len := zlen (upgrade_request hs) in
  if zlen out <? len then mret protocol.error
  else
    set_ses (with_accept_key (ws_accept_key hs)) ≫= fun _ =>
    set_ses (with_state State.handshake_sent) ≫= fun _ =>
    do_emit (upgrade_request hs) ≫= fun _ =>
    mret protocol.ok.

(** [detail::read_handshake(ws_accept_key, io)] on the receive buffer. *)
Definition do_read_handshake : M wst protocol.Status := fun s =>
  match read_handshake (accept_key (ses s)) (io_rx (sio s)) with
  | Ret (st, rx) => Ret (st, mkWst (ses s) (mkIO rx (io_tx (sio s))) (rng s))
  | UB => UB
  | NoFuel => NoFuel
  end.

Definition on_data : M wst protocol.Status :=
  st ← gets (fun s => state (ses s));
  match st with
  | State.handshake_sent =>
      before ← do_rbuf;
      status ← do_read_handshake;
      after ← do_rbuf;
      (if negb (zlen after =? zlen before) && bool_decide (status = protocol.ok)
       then set_ses (with_state State.listening) else mret tt) ≫= fun _ =>
      mret status
  | State.listening => dispatch_frame
  | State.idle => mret protocol.error
  end.

Definition on_shutdown : M wst protocol.Status :=
  code ← match codec_on_shutdown with
         | Some h => fun s => let (cc, c) := h (codec (ses s)) in
                              Ret (cc, mkWst (with_codec c (ses s)) (sio s) (rng s))
         | None => mret CloseCode.normal
         end;
  out ← do_wbuf;
  bs ← with_rng (write_close rd (zlen out) code);
  do_emit bs ≫= fun _ =>
  mret (if 0 <? zlen bs then protocol.close else protocol.error).

Definition heartbeat : M wst unit :=
  out ← do_wbuf;
  bs ← with_rng (write_control_frame rd (zlen out) OpCode.ping []);
  do_emit bs.
End session.

Arguments Session : clear implicits.
Arguments wst : clear implicits.
Arguments config_t : clear implicits.

(** ** Invariants *)

Definition session_wf {C} (s : Session C) : Prop :=
  zlen (msg_buf s) = MSG_CAP /\ 0 <= msg_len s <= MSG_CAP.

Definition wst_wf {C R} (s : wst C R) : Prop := session_wf (ses s) /\ io_wf (sio s).

(** What the session relies on in a codec: handlers return, keep the buffers
    well formed, consume at most what is there and only append to the output. *)
Definition handler_ok {C} (h : C -> IO -> list Z -> outcome (protocol.Status * C * IO)) : Prop :=
  forall c io pl, io_wf io ->
    exists st c' io', h c io pl = Ret (st, c', io') /\ io_wf io' /\ progress io io'.

Class CodecOk (C : Type) `{MessageCodec C} : Prop := {
  on_text_ok : forall h, on_text = Some h -> handler_ok h;
  on_binary_ok : forall h, on_binary = Some h -> handler_ok h
}.

Section session_lemmas.
Context {C R : Type} {codec_ops : MessageCodec C}.
Context (rd : R -> Z * R).
Implicit Types s : wst C R.

Lemma wp_do_rbuf nf ub (Q : list Z -> wst C R -> Prop) s :
  io_wf (sio s) -> Q (contents (io_rx (sio s))) s -> wp nf ub do_rbuf Q s.
Proof.
  intros [Hrx _] HQ. unfold wp, do_rbuf, lift, io_rbuf, Input_rbuf. by rewrite rbuf_wf.
Qed.

Lemma wp_do_wbuf nf ub (Q : list Z -> wst C R -> Prop) s :
  io_wf (sio s) -> (forall out, zlen out = room (io_tx (sio s)) -> Q out s) ->
  wp nf ub do_wbuf Q s.
Proof.
  intros [_ Htx] HQ. unfold wp, do_wbuf, lift, io_wbuf, Output_wbuf.
  rewrite wbuf_wf by done. apply HQ. by apply zlen_wbuf.
Qed.

(** Emitting appends to the transmit FIFO. *)
Lemma wp_do_emit nf ub bs (Q : unit -> wst C R -> Prop) s :
  io_wf (sio s) -> zlen bs <= room (io_tx (sio s)) ->
  (forall tx, buffer_wf tx -> contents tx = contents (io_tx (sio s)) ++ bs ->
     CAP tx = CAP (io_tx (sio s)) -> room tx = room (io_tx (sio s)) - zlen bs ->
     Q tt (mkWst (ses s) (mkIO (io_rx (sio s)) tx) (rng s))) ->
  wp nf ub (do_emit bs) Q s.
Proof.
  intros [Hrx Htx] Hroom HQ. unfold wp, do_emit, io_put.
  destruct (wbuf_write_spec (io_tx (sio s)) bs) as (b' & -> & Hwf & HC & _ & Hw & _ & Hwf' & Hc);
    [done..|].
  cbn [mbind outcome_bind]. apply HQ; [done|done|done|].
  unfold Output_wrote, room. cbn [io_tx]. rewrite CAP_inc_wpos, HC. cbn [_wpos inc_wpos]. rewrite Hw.
  pose proof (zlen_nonneg bs). unfold buffer_wf, room in *. rewrite u64_small by lia. lia.
Qed.

Lemma do_read_wf n s :
  io_wf (sio s) -> 0 <= n <= zlen (contents (io_rx (sio s))) ->
  io_wf (io_read (sio s) n) /\
  contents (io_rx (io_read (sio s) n)) = drop (Z.to_nat n) (contents (io_rx (sio s))).
Proof.
  intros [Hrx Htx] Hn. destruct (inc_rpos_spec (io_rx (sio s)) n) as [? ?]; [done..|].
  split; [by split|done].
Qed.

Lemma write_control_frame_fits osz o pl r :
  0 <= osz -> 0 <= zlen (write_control_frame rd osz o pl r).1 <= osz.
Proof.
  intros Hosz. unfold write_control_frame. pose proof (zlen_nonneg pl).
  destruct (_ || _) eqn:E; [change (zlen ([], r).1) with 0; lia|]. bool_to_prop.
  pose proof (length_random_bytes rd 4 r) as Hm.
  destruct (random_bytes rd 4 r) as [mask r']. cbn [fst] in *.
  assert (zlen mask = 4) by (unfold zlen; lia).
  autorewrite with zlen. rewrite zlen_mask_bytes. lia.
Qed.

(** [handle_frame] keeps everything but the codec and the buffers. *)
Definition same_session (s s' : Session C) : Prop :=
  exists c, s' = with_codec c s.

Lemma same_session_refl x : same_session x x.
Proof. exists (codec x). by destruct x. Qed.

(** What a step that only touches codec and buffers guarantees. *)
Definition frame_post (s : wst C R) (s' : wst C R) : Prop :=
  io_wf (sio s') /\ same_session (ses s) (ses s') /\ progress (sio s) (sio s').

Lemma frame_post_refl s : io_wf (sio s) -> frame_post s s.
Proof. intros. split_and!; [done|apply same_session_refl|reflexivity]. Qed.

Lemma run_handler_safe h pl s :
  handler_ok h -> io_wf (sio s) -> wp False False (run_handler h pl) (fun _ => frame_post s) s.
Proof.
  intros Hh Hio. destruct (Hh (codec (ses s)) (sio s) pl Hio) as (st & c' & io' & Heq & Hwf & Hpr).
  unfold wp, run_handler. rewrite Heq. split_and!; [done|by exists c'|done].
Qed.

Lemma do_emit_safe bs s :
  io_wf (sio s) -> zlen bs <= room (io_tx (sio s)) ->
  wp False False (do_emit bs) (fun _ => frame_post s) s.
Proof.
  intros Hio Hroom. apply wp_do_emit; [done..|]. intros tx Hwf Hc HC _.
  split_and!; [split; [apply Hio|done]|apply same_session_refl|].
  split_and!; [done|done|by exists 0%nat|by eexists].
Qed.

Lemma handle_frame_safe `{!CodecOk C} o pl s :
  io_wf (sio s) -> wp False False (handle_frame rd o pl) (fun _ => frame_post s) s.
Proof.
  intros Hio. pose proof (frame_post_refl s Hio) as Hrefl.
  assert (Hroom : 0 <= room (io_tx (sio s))) by (apply room_nonneg, Hio).
  destruct o; cbn [handle_frame]; try done.
  - destruct on_text eqn:E; [|done]. apply run_handler_safe; [by apply on_text_ok|done].
  - destruct on_binary eqn:E; [|done]. apply run_handler_safe; [by apply on_binary_ok|done].
  - apply wp_bind, wp_do_wbuf; [done|]. intros out Hout. apply wp_bind, wp_if; intros E; [|done].
    bool_to_prop. eapply wp_mono; [apply do_emit_safe|]; [done| |done].
    change (zlen (close_reply _)) with 8. lia.
  - apply wp_if; intros E; [done|]. apply wp_bind, wp_do_wbuf; [done|]. intros out Hout.
    apply wp_if; intros E2; [done|]. bool_to_prop. apply wp_bind. unfold wp at 1, with_rng.
    pose proof (write_control_frame_fits (zlen out) OpCode.pong pl (rng s)) as Hfit.
    destruct (write_control_frame rd (zlen out) OpCode.pong pl (rng s)) as [bs r']. cbn [fst] in Hfit.
    apply wp_bind. eapply wp_mono; [apply do_emit_safe|]; cbn [sio]; [done|lia|done].
Qed.

(** ** One frame at a time *)

(** The fragments received so far of the message in progress. *)
Definition pending (x : Session C) : list Z := slice (msg_buf x) 0 (msg_len x).

Lemma zlen_pending x : session_wf x -> zlen (pending x) = msg_len x.
Proof. intros [Hb Hl]. apply zlen_slice; lia. Qed.

Lemma dispatch_frame_encoded f o pl rest s :
  io_wf (sio s) -> contents (io_rx (sio s)) = encode_frame f o pl ++ rest ->
  OpCode.nibble o -> zlen pl < 2 ^ 64 - 10 ->
  exists s1, ses s1 = ses s /\ rng s1 = rng s /\ io_tx (sio s1) = io_tx (sio s) /\
    io_wf (sio s1) /\ contents (io_rx (sio s1)) = rest /\
    dispatch_frame rd s =
      (if negb f || bool_decide (o = OpCode.cont)
       then dispatch_fragment rd (mkFrame o f pl (zlen pl)) else handle_frame rd o pl) s1.
Proof.
  intros Hio Hc Ho Hpl.
  destruct (do_read_wf (zlen (encode_frame f o pl)) s Hio) as [Hwf1 Hc1].
  { rewrite Hc, zlen_app. pose proof (zlen_nonneg rest). pose proof (zlen_nonneg (encode_frame f o pl)). lia. }
  exists (mkWst (ses s) (io_read (sio s) (zlen (encode_frame f o pl))) (rng s)).
  split_and!; [done..| |].
  - cbn [sio]. rewrite Hc1, Hc. apply drop_zlen.
  - unfold dispatch_frame, do_rbuf, mbind, M_bind, io_rbuf, Input_rbuf.
    rewrite rbuf_wf by apply Hio. cbn [lift]. rewrite Hc, parse_encode by done.
    cbn [lift frame consumed op fin payload]. unfold do_read, modify. done.
Qed.

Lemma dispatch_fragment_append fr s :
  session_wf (ses s) -> payload_len fr = zlen (payload fr) ->
  msg_len (ses s) + zlen (payload fr) <= MSG_CAP ->
  exists mb, zlen mb = MSG_CAP /\
    slice mb 0 (msg_len (ses s) + zlen (payload fr)) = pending (ses s) ++ payload fr /\
    let s1 := mkWst (with_msg mb (msg_len (ses s) + zlen (payload fr)) (ses s)) (sio s) (rng s) in
    dispatch_fragment rd fr s =
      if fin fr then
        match opcode (ses s) with
        | None => UB
        | Some o => (status ← handle_frame rd o (pending (ses s) ++ payload fr);
                     set_ses (fun x => with_msg (msg_buf x) 0 x) ≫= fun _ => mret status) s1
        end
      else Ret (protocol.ok,
                mkWst (if decide (op fr = OpCode.cont) then ses s1
                       else with_opcode (op fr) (ses s1)) (sio s) (rng s)).
Proof.
  intros [Hb Hl] Hpl Hcap. pose proof (zlen_nonneg (payload fr)).
  exists (splice (msg_buf (ses s)) (msg_len (ses s)) (payload fr)).
  assert (Hu : u64 (msg_len (ses s) + zlen (payload fr)) = msg_len (ses s) + zlen (payload fr)).
  { apply u64_small. unfold MSG_CAP in *. change (Z.shiftl 1 20) with 1048576 in *. lia. }
  assert (Hs : slice (splice (msg_buf (ses s)) (msg_len (ses s)) (payload fr)) 0
                 (msg_len (ses s) + zlen (payload fr)) = pending (ses s) ++ payload fr).
  { pose proof (slice_splice_app (msg_buf (ses s)) 0 (msg_len (ses s)) (payload fr)) as Hsp.
    rewrite !Z.sub_0_r in Hsp. apply Hsp; lia. }
  split_and!; [by rewrite zlen_splice by lia|done|].
  unfold dispatch_fragment, mbind, M_bind, gets. rewrite Hu.
  rewrite (proj2 (Z.ltb_ge _ _)) by lia. rewrite Hpl, Z.eqb_refl. cbn [negb].
  unfold memcpy. rewrite decide_True by lia. cbn [lift set_ses modify ses opcode with_msg].
  unfold set_ses, modify. cbn [ses sio rng].
  destruct (fin fr); cbn [ses sio rng opcode with_msg].
  - destruct (opcode (ses s)); [|done].
    cbn [msg_buf msg_len with_msg opcode ses]. rewrite subspan_in; [|rewrite zlen_splice; assert (MSG_CAP = 1048576) by done; lia].
    cbn [lift]. by rewrite Hs.
  - destruct (decide (op fr = OpCode.cont)); done.
Qed.

(** ** Fragmented messages *)

(** The statuses of consecutive [on_data] calls, as the reactor makes them while
    each of them is [ok]. *)
Fixpoint dispatch_n (n : nat) : M (wst C R) protocol.Status :=
  match n with
  | O => mret protocol.ok
  | S n' =>
      st ← dispatch_frame rd;
      if decide (st = protocol.ok) then dispatch_n n' else mret st
  end.

Lemma dispatch_middle (mids : list (list Z)) tail s :
  wst_wf s -> contents (io_rx (sio s)) = concat (encode_frame false OpCode.cont <$> mids) ++ tail ->
  msg_len (ses s) + zlen (concat mids) <= MSG_CAP ->
  exists s1, wst_wf s1 /\ contents (io_rx (sio s1)) = tail /\ io_tx (sio s1) = io_tx (sio s) /\
    rng s1 = rng s /\ opcode (ses s1) = opcode (ses s) /\ codec (ses s1) = codec (ses s) /\
    pending (ses s1) = pending (ses s) ++ concat mids /\
    forall n, dispatch_n (length mids + n) s = dispatch_n n s1.
Proof.
  revert s. induction mids as [|m mids IH]; intros s [Hses Hio] Hc Hcap.
  - exists s. rewrite app_nil_r. split_and!; done.
  - cbn [concat fmap list_fmap] in *. rewrite <- app_assoc in Hc. rewrite zlen_app in Hcap.
    pose proof (zlen_nonneg m). pose proof (zlen_nonneg (concat mids)).
    destruct Hses as [Hb Hl].
    destruct (dispatch_frame_encoded false OpCode.cont m _ s Hio Hc)
      as (s1 & Hs1 & Hr1 & Htx1 & Hio1 & Hc1 & Heq).
    { by split. }
    { unfold MSG_CAP in *. change (Z.shiftl 1 20) with 1048576 in *. lia. }
    cbn [negb orb] in Heq.
    destruct (dispatch_fragment_append (mkFrame OpCode.cont false m (zlen m)) s1)
      as (mb & Hmb & Hpend & Heq1).
    { rewrite Hs1. by split. } { done. } { rewrite Hs1. cbn [payload]. lia. }
    cbn [payload fin op] in *. rewrite decide_True in Heq1 by done. cbv zeta in Heq1.
    rewrite Hs1 in *.
    destruct (IH (mkWst (with_msg mb (msg_len (ses s) + zlen m) (ses s)) (sio s1) (rng s1)))
      as (s2 & Hwf2 & Hc2 & Htx2 & Hr2 & Ho2 & Hcd2 & Hp2 & Hn).
    { split; [|done]. split; cbn; lia. } { done. } { cbn. lia. }
    exists s2. cbn [ses sio rng opcode codec with_msg] in *.
    split_and!; [done|done|congruence|congruence|done|done| |].
    + rewrite Hp2. unfold pending at 1. cbn. rewrite Hpend. by rewrite <- app_assoc.
    + intros n. cbn [length Nat.add dispatch_n]. unfold mbind at 1, M_bind at 1.
      rewrite Heq, Heq1. cbn [ses]. rewrite decide_True by done. apply Hn.
Qed.
End session_lemmas.

Section session_properties.
Context {C R : Type} {codec_ops : MessageCodec C}.
Context (rd : R -> Z * R).
Implicit Types s : wst C R.

Lemma dispatch_n_1 s : dispatch_n rd 1 s = dispatch_frame rd s.
Proof.
  unfold dispatch_n, mbind, M_bind. destruct (dispatch_frame rd s) as [[st s']| |]; [|done..].
  destruct (decide (st = protocol.ok)) as [->|]; done.
Qed.

(** Handling a whole message, then clearing the message buffer. *)
Definition deliver (o : OpCode.t) (msg : list Z) : M (wst C R) protocol.Status :=
  status ← handle_frame rd o msg;
  set_ses (fun x => with_msg (msg_buf x) 0 x) ≫= fun _ => mret status.

Lemma dispatch_first o first tail s :
  wst_wf s -> msg_len (ses s) = 0 -> o <> OpCode.cont -> OpCode.nibble o ->
  contents (io_rx (sio s)) = encode_frame false o first ++ tail ->
  zlen first <= MSG_CAP ->
  exists s1, wst_wf s1 /\ contents (io_rx (sio s1)) = tail /\ io_tx (sio s1) = io_tx (sio s) /\
    rng s1 = rng s /\ opcode (ses s1) = Some o /\ codec (ses s1) = codec (ses s) /\
    pending (ses s1) = first /\ forall n, dispatch_n rd (S n) s = dispatch_n rd n s1.
Proof.
  intros [Hses Hio] H0 Ho Hn Hc Hcap. pose proof Hses as [Hb Hl]. pose proof (zlen_nonneg first).
  destruct (dispatch_frame_encoded rd false o first _ s Hio Hc Hn)
    as (s1 & Hs1 & Hr1 & Htx1 & Hio1 & Hc1 & Heq).
  { unfold MSG_CAP in *. change (Z.shiftl 1 20) with 1048576 in *. lia. }
  cbn [negb orb] in Heq.
  destruct (dispatch_fragment_append rd (mkFrame o false first (zlen first)) s1)
    as (mb & Hmb & Hpend & Heq1).
  { by rewrite Hs1. } { done. } { rewrite Hs1. cbn [payload]. lia. }
  cbn [payload fin op] in *. rewrite decide_False in Heq1 by done. cbv zeta in Heq1.
  rewrite Hs1 in *.
  eexists. split_and!; [| | | | | | |].
  8: { intros n. cbn [dispatch_n]. unfold mbind, M_bind. rewrite Heq, Heq1.
       rewrite decide_True by done. reflexivity. }
  - split; [|done]. split; cbn; lia.
  - done.
  - done.
  - done.
  - done.
  - done.
  - unfold pending in *. cbn. rewrite H0 in *. rewrite Hpend.
    change (slice (msg_buf (ses s)) 0 0) with (@nil Z). done.
Qed.

(** Fragments of a message reach the handler as one. *)
Lemma fragments_delivered (o : OpCode.t) (first last rest : list Z)
    (mids : list (list Z)) (s : wst C R)
    (Hwf : wst_wf s) (H0 : msg_len (ses s) = 0)
    (Ho : o <> OpCode.cont) (Hn : OpCode.nibble o)
    (Hrx : contents (io_rx (sio s)) =
       encode_frame false o first ++ concat (encode_frame false OpCode.cont <$> mids) ++
       encode_frame true OpCode.cont last ++ rest)
    (Hcap : zlen (first ++ concat mids ++ last) <= MSG_CAP) :
  exists s1, wst_wf s1 /\ contents (io_rx (sio s1)) = rest /\ io_tx (sio s1) = io_tx (sio s) /\
    rng s1 = rng s /\ codec (ses s1) = codec (ses s) /\
    dispatch_n rd (S (length mids + 1)) s = deliver o (first ++ concat mids ++ last) s1.
Proof.
  pose proof (zlen_nonneg first). pose proof (zlen_nonneg last). pose proof (zlen_nonneg (concat mids)).
  autorewrite with zlen in Hcap.
  destruct (dispatch_first o first _ s Hwf H0 Ho Hn Hrx)
    as (s1 & Hwf1 & Hc1 & Htx1 & Hr1 & Ho1 & Hcd1 & Hp1 & Hn1); [lia|].
  assert (Hml1 : msg_len (ses s1) = zlen first) by (rewrite <- Hp1; symmetry; apply zlen_pending, Hwf1).
  destruct (dispatch_middle rd mids _ s1 Hwf1 Hc1)
    as (s2 & Hwf2 & Hc2 & Htx2 & Hr2 & Ho2 & Hcd2 & Hp2 & Hn2); [lia|].
  assert (Hml2 : msg_len (ses s2) = zlen first + zlen (concat mids)).
  { rewrite <- (zlen_pending (ses s2)) by apply Hwf2. by rewrite Hp2, zlen_app, Hp1. }
  rewrite Hn1, Hn2, dispatch_n_1. pose proof Hwf2 as [Hses2 Hio2].
  destruct (dispatch_frame_encoded rd true OpCode.cont last rest s2 Hio2 Hc2)
    as (s3 & Hs3 & Hr3 & Htx3 & Hio3 & Hc3 & Heq).
  { by split. } { unfold MSG_CAP in *. change (Z.shiftl 1 20) with 1048576 in *. lia. }
  cbn [negb orb] in Heq. rewrite bool_decide_true in Heq by done. rewrite Heq.
  destruct (dispatch_fragment_append rd (mkFrame OpCode.cont true last (zlen last)) s3)
    as (mb & Hmb & Hpend & Heq1).
  { by rewrite Hs3. } { done. } { rewrite Hs3. cbn [payload]. lia. }
  cbn [payload fin] in *. rewrite Heq1, Hs3, Ho2, Ho1. rewrite Hs3 in *.
  eexists. split_and!; [| | | | |unfold deliver; rewrite Hp2, Hp1, <- app_assoc; reflexivity].
  - split; [|done]. split; cbn; lia.
  - done.
  - cbn. congruence.
  - cbn. congruence.
  - cbn. congruence.
Qed.

(** C7: a message of at most [MSG_CAP] bytes (1 MiB), split into a first frame, any
    number of continuation frames and a final one, is handed to the handler of the first frame's opcode exactly
    once, as the concatenation of the payloads; the bytes behind it stay in the
    receive buffer and the message buffer is empty again. *)
Theorem fragmented_message_delivered (o : OpCode.t) (first last rest : list Z)
    (mids : list (list Z)) (s : wst C R)
    (Hwf : wst_wf s) (H0 : msg_len (ses s) = 0)
    (Ho : o <> OpCode.cont) (Hn : OpCode.nibble o)
    (Hrx : contents (io_rx (sio s)) =
       encode_frame false o first ++ concat (encode_frame false OpCode.cont <$> mids) ++
       encode_frame true OpCode.cont last ++ rest)
    (Hcap : zlen (first ++ concat mids ++ last) <= MSG_CAP) :
  exists s1, wst_wf s1 /\ contents (io_rx (sio s1)) = rest /\ io_tx (sio s1) = io_tx (sio s) /\
    rng s1 = rng s /\ codec (ses s1) = codec (ses s) /\
    dispatch_n rd (S (length mids + 1)) s = deliver o (first ++ concat mids ++ last) s1.
Proof. exact (fragments_delivered o first last rest mids s Hwf H0 Ho Hn Hrx Hcap). Qed.

(** A fragment that would overflow the message buffer is refused with
    [error], and the message in progress is left as it was. *)
Lemma fragment_overflow_refused (f : bool) (o : OpCode.t) (pl rest : list Z) (s : wst C R)
    (Hwf : wst_wf s) (Hn : OpCode.nibble o) (Hfrag : f = false \/ o = OpCode.cont)
    (Hrx : contents (io_rx (sio s)) = encode_frame f o pl ++ rest)
    (Hpl : zlen pl < 2 ^ 63) (Hcap : MSG_CAP < msg_len (ses s) + zlen pl) :
  exists s', dispatch_frame rd s = Ret (protocol.error, s') /\ ses s' = ses s.
Proof.
  destruct Hwf as [[Hb Hl] Hio].
  destruct (dispatch_frame_encoded rd f o pl rest s Hio Hrx Hn)
    as (s1 & Hs1 & Hr1 & Htx1 & Hio1 & Hc1 & Heq); [lia|].
  exists s1. split; [|done]. rewrite Heq.
  assert (Hb1 : negb f || bool_decide (o = OpCode.cont) = true).
  { destruct Hfrag as [->| ->]; [done|]. rewrite bool_decide_true by done. apply orb_true_r. }
  rewrite Hb1. unfold dispatch_fragment, mbind, M_bind, gets. cbn [payload].
  rewrite Hs1, u64_small, (proj2 (Z.ltb_lt _ _)); [done|lia|].
  pose proof (zlen_nonneg pl). unfold MSG_CAP in *. change (Z.shiftl 1 20) with 1048576 in *. lia.
Qed.

(** C23: a PING with up to 125 bytes is answered with a PONG that carries the same
    payload, appended to the transmit buffer; only the PING is consumed. *)
Theorem ping_answered_with_pong (pl rest : list Z) (s : wst C R)
    (Hwf : wst_wf s) (Hpl : zlen pl <= 125)
    (Hrx : contents (io_rx (sio s)) = encode_frame true OpCode.ping pl ++ rest)
    (Hroom : 6 + zlen pl <= room (io_tx (sio s))) :
  exists s' bs, dispatch_frame rd s = Ret (protocol.ok, s') /\ ses s' = ses s /\
    contents (io_rx (sio s')) = rest /\
    contents (io_tx (sio s')) = contents (io_tx (sio s)) ++ bs /\
    decode_masked bs = Some (OpCode.pong, pl).
Proof.
  destruct Hwf as [Hses Hio]. pose proof (zlen_nonneg pl).
  destruct (dispatch_frame_encoded rd true OpCode.ping pl rest s Hio Hrx)
    as (s1 & Hs1 & Hr1 & Htx1 & Hio1 & Hc1 & Heq); [by split|lia|].
  cbn [negb orb bool_decide] in Heq. rewrite bool_decide_false in Heq by done.
  assert (Hw : wp False False (handle_frame rd OpCode.ping pl)
    (fun st s' => st = protocol.ok /\ ses s' = ses s1 /\ io_rx (sio s') = io_rx (sio s1) /\
       exists bs, contents (io_tx (sio s')) = contents (io_tx (sio s1)) ++ bs /\
         decode_masked bs = Some (OpCode.pong, pl)) s1).
  { cbn [handle_frame]. rewrite (proj2 (Z.leb_gt _ _)) by lia.
    apply wp_bind, wp_do_wbuf; [done|]. intros out Hout. rewrite Htx1 in Hout.
    rewrite (proj2 (Z.ltb_ge _ _)) by lia.
    apply wp_bind. unfold wp at 1, with_rng.
    pose proof (control_frame_decodes rd (zlen out) OpCode.pong pl (rng s1)) as [Hd Hz].
    { by split. } { lia. } { lia. }
    destruct (write_control_frame rd (zlen out) OpCode.pong pl (rng s1)) as [bs r']. cbn [fst] in *.
    apply wp_bind, wp_do_emit; cbn [sio ses rng]; [done|rewrite Htx1; lia|].
    intros tx Htxwf Htxc _ _. apply wp_ret. cbn. split_and!; [done..|]. by exists bs. }
  apply wp_total in Hw as (st & s' & Hrun & -> & Hs' & Hrx' & bs & Htx' & Hdec).
  exists s', bs. rewrite Heq, Hrun, Hs', Hrx', Htx', Htx1, Hc1. done.
Qed.

Lemma close_reply_decodes code :
  0 <= code < 65536 -> decode_masked (close_reply code) = Some (OpCode.close, [code / 256; code mod 256]).
Proof.
  intros Hc. unfold decode_masked, close_reply.
  change (Z.lor 128 8 / 16 =? 8) with true. change (Z.lor 128 2 / 128 =? 1) with true.
  cbn [andb]. change (Z.lor 128 2 mod 128 =? _) with true. cbv iota. cbn [unmask].
  unfold u8. rewrite Z.shiftr_div_pow2, (land_ones_mod code 8 255) by done.
  change (2 ^ 8) with 256. rewrite !Z.mod_mod by lia.
  rewrite (Z.mod_small (code / 256)) by divmod_lia.
  repeat f_equal; by rewrite Z.lxor_assoc, Z.lxor_nilpotent, Z.lxor_0_r.
Qed.

(** The code echoed to a CLOSE with payload [pl]. *)
Definition echo_code (pl : list Z) : list Z := if zlen pl <? 2 then [3; 232] else take 2 pl.

Lemma close_reply_echo pl :
  is_bytes pl -> decode_masked (close_reply (close_code pl)) = Some (OpCode.close, echo_code pl).
Proof.
  intros Hb. destruct pl as [|p0 [|p1 pl]]; [done|done|].
  apply Forall_cons in Hb as [Hp0 [Hp1 _]%Forall_cons]. unfold is_byte in *. unfold echo_code.
  rewrite (proj2 (Z.ltb_ge _ _)) by (rewrite !zlen_cons; pose proof (zlen_nonneg pl); lia).
  assert (Hcode : close_code (p0 :: p1 :: pl) = p0 * 256 + p1).
  { unfold close_code, u16. rewrite lor_shiftl_add, Z.mod_small by lia. done. }
  rewrite Hcode, close_reply_decodes by lia.
  change (take 2 (p0 :: p1 :: pl)) with [p0; p1]. repeat f_equal; divmod_lia.
Qed.

Lemma close_frame_answered pl rest s :
  wst_wf s -> is_bytes pl -> zlen pl < 2 ^ 63 ->
  contents (io_rx (sio s)) = encode_frame true OpCode.close pl ++ rest ->
  8 <= room (io_tx (sio s)) ->
  exists s' bs, dispatch_frame rd s = Ret (protocol.close, s') /\ ses s' = ses s /\
    contents (io_rx (sio s')) = rest /\
    contents (io_tx (sio s')) = contents (io_tx (sio s)) ++ bs /\
    decode_masked bs = Some (OpCode.close, echo_code pl) /\
    wst_wf s' /\ room (io_tx (sio s')) = room (io_tx (sio s)) - 8.
Proof.
  intros [Hses Hio] Hb Hpl Hrx Hroom. pose proof (zlen_nonneg pl).
  destruct (dispatch_frame_encoded rd true OpCode.close pl rest s Hio Hrx)
    as (s1 & Hs1 & Hr1 & Htx1 & Hio1 & Hc1 & Heq); [by split|lia|].
  cbn [negb orb bool_decide] in Heq. rewrite bool_decide_false in Heq by done.
  assert (Hw : wp False False (handle_frame rd OpCode.close pl)
    (fun st s' => st = protocol.close /\ ses s' = ses s1 /\ io_rx (sio s') = io_rx (sio s1) /\
       contents (io_tx (sio s')) = contents (io_tx (sio s1)) ++ close_reply (close_code pl) /\
       buffer_wf (io_tx (sio s')) /\ room (io_tx (sio s')) = room (io_tx (sio s)) - 8) s1).
  { cbn [handle_frame]. apply wp_bind, wp_do_wbuf; [done|]. intros out Hout. rewrite Htx1 in Hout.
    rewrite (proj2 (Z.leb_le _ _)) by lia.
    apply wp_bind, wp_do_emit; [done|rewrite Htx1; change (zlen (close_reply _)) with 8; lia|].
    change (zlen (close_reply _)) with 8. rewrite Htx1.
    intros tx Htxwf Htxc _ Hroom'. apply wp_ret. done. }
  apply wp_total in Hw as (st & s' & Hrun & -> & Hs' & Hrx' & Htx' & Htxwf & Hroom').
  exists s', (close_reply (close_code pl)). rewrite Heq, Hrun, Hs', Hrx', Htx', Htx1, Hc1.
  split_and!; [done..|by apply close_reply_echo| |done].
  split; [by rewrite Hs', Hs1|]. split; [by rewrite Hrx'; apply Hio1|done].
Qed.

(** C24: a CLOSE frame is answered with a CLOSE frame that echoes the peer's code
    (1000 when there is none), and the session asks to be closed. *)
Theorem close_answered_with_close (pl rest : list Z) (s : wst C R)
    (Hwf : wst_wf s) (Hb : is_bytes pl) (Hpl : zlen pl < 2 ^ 63)
    (Hrx : contents (io_rx (sio s)) = encode_frame true OpCode.close pl ++ rest)
    (Hroom : 8 <= room (io_tx (sio s))) :
  exists s' bs, dispatch_frame rd s = Ret (protocol.close, s') /\ ses s' = ses s /\
    contents (io_rx (sio s')) = rest /\
    contents (io_tx (sio s')) = contents (io_tx (sio s)) ++ bs /\
    decode_masked bs = Some (OpCode.close, echo_code pl).
Proof.
  destruct (close_frame_answered pl rest s Hwf Hb Hpl Hrx Hroom)
    as (s' & bs & ? & ? & ? & ? & ? & _). by exists s', bs.
Qed.

(** The one input, besides a wrapping length, that is not handled: a FIN
    continuation frame that is accepted (its length is the size of its payload
    and the message stays within [MSG_CAP]) before any first fragment. *)
Definition orphan_fragment (x : Session C) (fr : frame_view) : Prop :=
  fin fr = true /\ opcode x = None /\ payload_len fr = zlen (payload fr) /\
  msg_len x + zlen (payload fr) <= MSG_CAP.

Definition orphan_continuation (s : wst C R) : Prop :=
  exists out, parse_frame (contents (io_rx (sio s))) = Ret (parse_status.ok, Some out) /\
    op (frame out) = OpCode.cont /\ orphan_fragment (ses s) (frame out).

Lemma parse_bounds inp out :
  parse_frame inp = Ret (parse_status.ok, Some out) ->
  0 <= consumed out <= zlen inp /\ zlen (payload (frame out)) <= zlen inp.
Proof.
  intros Hp. destruct (parse_frame_ok_inv _ _ Hp)
    as (b0 & b1 & inp' & len & hdr & pl & -> & _ & _ & Hfl & Hs & Hu & [= ->]).
  cbn [consumed frame payload]. pose proof (u64_range (hdr + len)). split; [lia|].
  revert Hs. unfold subspan. case_decide; [|done]. intros [= <-]. rewrite zlen_slice by lia. lia.
Qed.

Lemma dispatch_fragment_safe `{!CodecOk C} fr s :
  wst_wf s -> zlen (payload fr) < 2 ^ 63 ->
  wp False (orphan_fragment (ses s) fr) (dispatch_fragment rd fr)
    (fun _ s' => wst_wf s' /\ state (ses s') = state (ses s) /\ progress (sio s) (sio s')) s.
Proof.
  intros [Hses Hio] Hz. pose proof (zlen_nonneg (payload fr)). pose proof Hses as [Hb Hl].
  assert (HM : MSG_CAP = 1048576) by done.
  destruct (decide (msg_len (ses s) + zlen (payload fr) <= MSG_CAP)) as [Hcap|Hcap]; cycle 1.
  { unfold wp, dispatch_fragment, mbind, M_bind, gets.
    rewrite u64_small, (proj2 (Z.ltb_lt _ _)); [by split_and!|lia|lia]. }
  destruct (decide (payload_len fr = zlen (payload fr))) as [Hplen|Hplen]; cycle 1.
  { unfold wp, dispatch_fragment, mbind, M_bind, gets.
    rewrite u64_small, (proj2 (Z.ltb_ge _ _)), (proj2 (Z.eqb_neq _ _) Hplen);
      [by split_and!|lia|lia]. }
  destruct (dispatch_fragment_append rd fr s Hses Hplen Hcap) as (mb & Hmb & Hpend & Heq).
  assert (Hx : session_wf (with_msg mb (msg_len (ses s) + zlen (payload fr)) (ses s)))
    by (split; cbn; lia).
  unfold wp. rewrite Heq. cbv zeta. destruct (fin fr) eqn:Hfin; cycle 1.
  { destruct (decide (op fr = OpCode.cont)); split_and!; done. }
  destruct (opcode (ses s)) as [oc|] eqn:Hoc; [|by split_and!].
  set (s1 := mkWst (with_msg mb _ _) _ _).
  pose proof (handle_frame_safe rd oc (pending (ses s) ++ payload fr) s1 Hio) as Hh.
  unfold wp in Hh. unfold mbind, M_bind.
  destruct (handle_frame rd oc _ s1) as [[st s2]| |]; [|done..].
  destruct Hh as (Hio2 & [c Hses2] & Hpr). cbn. rewrite Hses2.
  split_and!; [|done|done]. split; [|done]. split; cbn; [done|]. lia.
Qed.

Lemma dispatch_fragment_orphan fr s :
  session_wf (ses s) -> orphan_fragment (ses s) fr -> dispatch_fragment rd fr s = UB.
Proof.
  intros Hs (Hf & Ho & Hp & Hc).
  destruct (dispatch_fragment_append rd fr s Hs Hp Hc) as (mb & _ & _ & ->). by rewrite Hf, Ho.
Qed.

Lemma dispatch_frame_wp `{!CodecOk C} s :
  wst_wf s -> zlen (contents (io_rx (sio s))) < 2 ^ 63 ->
  wp False (parse_frame (contents (io_rx (sio s))) = UB \/ orphan_continuation s)
    (dispatch_frame rd)
    (fun _ s' => wst_wf s' /\ state (ses s') = state (ses s) /\ progress (sio s) (sio s')) s.
Proof.
  intros Hwf Hz. pose proof Hwf as [Hses Hio]. unfold dispatch_frame.
  apply wp_bind, wp_do_rbuf; [done|]. apply wp_bind.
  destruct (parse_frame (contents (io_rx (sio s)))) as [[ps out]| |] eqn:Hp;
    [|by left|by destruct (parse_frame_no_fuel _ Hp)].
  unfold wp at 1, lift. destruct ps; [|by split_and!..].
  pose proof (proj1 (parse_frame_out _ _ _ Hp) eq_refl) as [o ->].
  destruct (parse_bounds _ _ Hp) as [Hcons Hpz].
  destruct (do_read_wf (consumed o) s Hio Hcons) as [Hio1 Hc1].
  assert (Hpr1 : progress (sio s) (io_read (sio s) (consumed o))).
  { split_and!; [apply CAP_inc_rpos|done|by eexists|]. exists []. by rewrite app_nil_r. }
  apply wp_bind, wp_modify. apply wp_if; intros Hfrag.
  - eapply wp_weaken; [| |eapply wp_mono; [apply dispatch_fragment_safe; [by split|lia]|]]; [done| |].
    + intros Horphan. right. exists o. pose proof Horphan as (Hfin & _). rewrite Hfin in Hfrag.
      apply bool_decide_eq_true in Hfrag. done.
    + intros _ s' (H1 & H2 & H3). split_and!; [done|done|]. by etransitivity.
  - eapply wp_weaken; [| |eapply wp_mono; [by apply handle_frame_safe|]]; [done|done|].
    intros _ s' (H1 & [c H2] & H3). cbn in H2. split_and!; [|by rewrite H2|by etransitivity].
    split; [|done]. by rewrite H2.
Qed.

Lemma dispatch_frame_UB s :
  wst_wf s -> parse_frame (contents (io_rx (sio s))) = UB \/ orphan_continuation s ->
  dispatch_frame rd s = UB.
Proof.
  intros [Hses [Hrx _]] H. unfold dispatch_frame, mbind, M_bind.
  assert (Hr : do_rbuf s = Ret (contents (io_rx (sio s)), s))
    by (unfold do_rbuf, io_rbuf, Input_rbuf; by rewrite rbuf_wf).
  rewrite Hr. destruct H as [->|(out & -> & Hop & Hor)]; [done|].
  cbn [lift]. pose proof Hor as (-> & _). rewrite Hop, bool_decide_true by done. cbn [negb orb].
  unfold do_read, modify. by apply dispatch_fragment_orphan.
Qed.

(** C12: for a codec that keeps its contract, the inputs on which receiving one
    frame is undefined are exactly two: a 64-bit length that wraps around, and
    a final continuation frame that fits the message buffer and comes before
    any first fragment.  On every other input [dispatch_frame] returns, keeps
    the session and the buffers well formed, consumes a prefix of the received
    bytes and only appends output. *)
Theorem dispatch_frame_safe `{!CodecOk C} (s : wst C R) (Hwf : wst_wf s)
    (Hb : is_bytes (contents (io_rx (sio s))))
    (Hz : zlen (contents (io_rx (sio s))) < 2 ^ 63) :
  let undefined := wrapping_length (contents (io_rx (sio s))) \/ orphan_continuation s in
  (undefined -> dispatch_frame rd s = UB) /\
  (~ undefined -> exists st s', dispatch_frame rd s = Ret (st, s') /\
     wst_wf s' /\ state (ses s') = state (ses s) /\ progress (sio s) (sio s')).
Proof.
  cbv zeta. rewrite <- parse_frame_UB by (done || lia). split.
  - by apply dispatch_frame_UB.
  - intros Hn. pose proof (dispatch_frame_wp s Hwf Hz) as Hw. unfold wp in Hw.
    destruct (dispatch_frame rd s) as [[st s']| |]; [by exists st, s'|done..].
Qed.

(** A final continuation frame that arrives before any first fragment reads
    the session's opcode before it was ever assigned. *)
Lemma orphan_continuation_undefined (h : list Z) (cfg : config_t C) (io : IO) (r : R)
    (pl rest : list Z) (Hio : io_wf io) (Hpl : zlen pl <= MSG_CAP)
    (Hrx : contents (io_rx io) = encode_frame true OpCode.cont pl ++ rest) :
  dispatch_frame rd (mkWst (with_state State.listening (Session_new h cfg)) io r) = UB.
Proof.
  set (s := mkWst _ io r). pose proof (zlen_nonneg pl).
  assert (HM : MSG_CAP = 1048576) by done.
  destruct (dispatch_frame_encoded rd true OpCode.cont pl rest s Hio Hrx)
    as (s1 & Hs1 & _ & _ & _ & _ & ->); [by split|lia|].
  cbn [negb orb]. rewrite bool_decide_true by done.
  destruct (dispatch_fragment_append rd (mkFrame OpCode.cont true pl (zlen pl)) s1)
    as (mb & _ & _ & ->); rewrite ?Hs1; [|done|cbn; lia|done].
  split; [|cbn; lia]. cbn [ses s with_state msg_buf Session_new].
  rewrite zlen_replicate, Z2Nat.id by lia. done.
Qed.

(** ** Opening and closing *)

(** The code a codec closes with. *)
Definition shutdown_code (c : C) : CloseCode.t :=
  match codec_on_shutdown with Some h => (h c).1 | None => CloseCode.normal end.

Definition close_bytes (code : CloseCode.t) : list Z :=
  [CloseCode.to_Z code / 256; CloseCode.to_Z code mod 256].

Lemma on_shutdown_closes s :
  io_wf (sio s) -> 8 <= room (io_tx (sio s)) ->
  wp False False (on_shutdown rd) (fun st s' =>
    st = protocol.close /\ io_wf (sio s') /\ same_session (ses s) (ses s') /\
    io_rx (sio s') = io_rx (sio s) /\
    exists bs, contents (io_tx (sio s')) = contents (io_tx (sio s)) ++ bs /\ zlen bs = 8 /\
      decode_masked bs = Some (OpCode.close, close_bytes (shutdown_code (codec (ses s))))) s.
Proof.
  intros Hio Hroom. unfold on_shutdown. apply wp_bind.
  assert (Hcode : exists c', (match codec_on_shutdown with
         | Some h => fun s => let (cc, c) := h (codec (ses s)) in
                              Ret (cc, mkWst (with_codec c (ses s)) (sio s) (rng s))
         | None => mret CloseCode.normal
         end : M (wst C R) CloseCode.t) s =
         Ret (shutdown_code (codec (ses s)), mkWst (with_codec c' (ses s)) (sio s) (rng s))).
  { unfold shutdown_code. destruct codec_on_shutdown as [h|].
    - destruct (h (codec (ses s))) as [cc c']. by exists c'.
    - exists (codec (ses s)). by destruct s as [[] ? ?]. }
  destruct Hcode as [c' Hcode]. unfold wp at 1. rewrite Hcode.
  apply wp_bind, wp_do_wbuf; [done|]. intros out Hout. cbn [sio] in Hout.
  apply wp_bind. unfold wp at 1, with_rng.
  pose proof (close_frame_decodes rd (zlen out) (shutdown_code (codec (ses s))) (rng s)) as [Hd Hz]; [lia|].
  cbn [rng]. destruct (write_close rd (zlen out) _ (rng s)) as [bs r']. cbn [fst] in *.
  apply wp_bind, wp_do_emit; cbn [sio ses rng]; [done|lia|].
  intros tx Htxwf Htxc _ _. apply wp_ret. rewrite Hz.
  split_and!; [done|split; [apply Hio|done]|by exists c'|done|]. by exists bs.
Qed.

(** Closing sends one CLOSE frame with the codec's code (1000 by default) and
    asks for the connection to be closed. *)
Lemma on_shutdown_sends_close (s : wst C R) (Hwf : wst_wf s)
    (Hroom : 8 <= room (io_tx (sio s))) :
  exists s' bs, on_shutdown rd s = Ret (protocol.close, s') /\ wst_wf s' /\
    contents (io_rx (sio s')) = contents (io_rx (sio s)) /\
    contents (io_tx (sio s')) = contents (io_tx (sio s)) ++ bs /\
    decode_masked bs = Some (OpCode.close, close_bytes (shutdown_code (codec (ses s)))).
Proof.
  destruct Hwf as [Hses Hio].
  pose proof (on_shutdown_closes s Hio Hroom) as Hw.
  apply wp_total in Hw as (st & s' & Hrun & -> & Hio' & [c Hc] & Hrx & bs & Htx & _ & Hd).
  exists s', bs. split_and!; [done| |by rewrite Hrx|done|done]. split; [by rewrite Hc|done].
Qed.

Lemma handshake_to_listening s rx' :
  wst_wf s -> state (ses s) = State.handshake_sent ->
  read_handshake (accept_key (ses s)) (io_rx (sio s)) = Ret (protocol.ok, rx') ->
  buffer_wf rx' -> zlen (contents rx') <> zlen (contents (io_rx (sio s))) ->
  exists s2, on_data rd s = Ret (protocol.ok, s2) /\ state (ses s2) = State.listening /\
    io_rx (sio s2) = rx' /\ wst_wf s2.
Proof.
  intros [Hses Hio] Hst Hr Hwf Hne.
  enough (Hw : wp False False (on_data rd) (fun st s2 => st = protocol.ok /\
    state (ses s2) = State.listening /\ io_rx (sio s2) = rx' /\ wst_wf s2) s).
  { apply wp_total in Hw as (? & s2 & ? & -> & ?). by exists s2. }
  unfold on_data. apply wp_bind, wp_gets. rewrite Hst.
  apply wp_bind, wp_do_rbuf; [done|]. apply wp_bind. unfold wp at 1, do_read_handshake. rewrite Hr.
  assert (io_wf (mkIO rx' (io_tx (sio s)))) by (split; [done|apply Hio]).
  apply wp_bind, wp_do_rbuf; [done|]. cbn [sio io_rx].
  rewrite (proj2 (Z.eqb_neq _ _)) by done. rewrite bool_decide_true by done. cbn [negb andb].
  apply wp_bind, wp_modify, wp_ret. done.
Qed.

(** C19: the session opens as RFC 6455 asks: from idle, [on_connect] queues the
    upgrade request and waits; once a well-formed 101 response with the matching
    key has arrived, [on_data] consumes exactly the response and listens; a
    request that does not fit is refused with nothing queued. *)
Theorem session_opens (SHA1 : list Z -> list Z)
    (SHA1_digest : forall l, is_bytes (SHA1 l) /\ zlen (SHA1 l) = 20)
    (s : wst C R) (Hwf : wst_wf s) :
  let h := (make_handshake rd SHA1 (host (ses s)) (path (ses s)) (extra (ses s)) (rng s)).1 in
  exists st s1, on_connect rd SHA1 s = Ret (st, s1) /\ wst_wf s1 /\
    if zlen (upgrade_request h) <=? room (io_tx (sio s)) then
      st = protocol.ok /\ state (ses s1) = State.handshake_sent /\
      contents (io_tx (sio s1)) = contents (io_tx (sio s)) ++ upgrade_request h /\
      forall rx ver reason hs1 hname nsp hs2 rest,
        buffer_wf rx -> good_response ver reason hs1 hname hs2 ->
        contents rx = response ver reason hs1 hname nsp (ws_accept_key h) hs2 ++ rest ->
        exists s2, on_data rd (mkWst (ses s1) (mkIO rx (io_tx (sio s1))) (rng s1)) = Ret (protocol.ok, s2) /\
          state (ses s2) = State.listening /\ contents (io_rx (sio s2)) = rest /\ wst_wf s2
    else st = protocol.error /\ ses s1 = ses s /\ sio s1 = sio s.
Proof.
  destruct Hwf as [Hses Hio]. intros h.
  pose proof (accept_key_good rd SHA1 SHA1_digest (host (ses s)) (path (ses s)) (extra (ses s)) (rng s)) as Hkey.
  fold h in Hkey. apply wp_total. unfold on_connect.
  apply wp_bind. unfold wp at 1, with_rng. unfold h in *. clear h.
  destruct (make_handshake rd SHA1 (host (ses s)) (path (ses s)) (extra (ses s)) (rng s)) as [h r'].
  cbn [fst] in *. apply wp_bind, wp_do_wbuf; [done|]. intros out Hout. cbn [sio] in Hout. cbv zeta.
  rewrite Hout, Z.leb_antisym. destruct (room (io_tx (sio s)) <? zlen (upgrade_request h)) eqn:E; cbn [negb].
  { by split_and!. }
  bool_to_prop. do 2 apply wp_bind, wp_modify. apply wp_bind, wp_do_emit; cbn [sio ses rng]; [done|lia|].
  intros tx Htxwf Htxc _ _. apply wp_ret. split_and!; [split; [done|split; [apply Hio|done]]|done|done|done|].
  intros rx ver reason hs1 hname nsp hs2 rest Hrx Hgood Hc. cbn [ses sio rng io_tx].
  destruct (read_handshake_good (ws_accept_key h) rx ver reason hs1 hname nsp _ hs2 rest Hrx Hgood Hkey Hc)
    as (rx' & Hr & Hwf' & Hc').
  rewrite bool_decide_true in Hr by done.
  destruct (handshake_to_listening (mkWst (with_state State.handshake_sent
    (with_accept_key (ws_accept_key h) (ses s))) (mkIO rx tx) r') rx')
    as (s2 & Hs2 & Hl & <- & Hwf2); [done|done|done|done| |by exists s2].
  cbn [sio io_rx]. rewrite Hc, Hc', zlen_app.
  pose proof (response_pos ver reason hs1 hname nsp (ws_accept_key h) hs2). lia.
Qed.

(** The shutdown a connection runs after the session asked to close puts a
    second CLOSE frame behind the one that already answered the peer. *)
Lemma peer_close_answered_twice (pl rest : list Z) (s : wst C R)
    (Hwf : wst_wf s) (Hb : is_bytes pl) (Hpl : zlen pl < 2 ^ 63)
    (Hrx : contents (io_rx (sio s)) = encode_frame true OpCode.close pl ++ rest)
    (Hroom : 16 <= room (io_tx (sio s))) :
  exists s' bs1 bs2,
    (dispatch_frame rd ≫= fun _ => on_shutdown rd) s = Ret (protocol.close, s') /\
    contents (io_tx (sio s')) = contents (io_tx (sio s)) ++ bs1 ++ bs2 /\
    decode_masked bs1 = Some (OpCode.close, echo_code pl) /\
    decode_masked bs2 = Some (OpCode.close, close_bytes (shutdown_code (codec (ses s)))).
Proof.
  destruct (close_frame_answered pl rest s Hwf Hb Hpl Hrx)
    as (s1 & bs1 & Hd & Hs1 & _ & Htx1 & Hdec1 & [_ Hio1] & Hroom1); [lia|].
  pose proof (on_shutdown_closes s1 Hio1 ltac:(lia)) as Hw.
  apply wp_total in Hw as (st & s' & Hrun & -> & _ & _ & _ & bs2 & Htx2 & _ & Hdec2).
  exists s', bs1, bs2. rewrite Htx2, Htx1, <- app_assoc, <- Hs1.
  split_and!; [|done..]. unfold mbind, M_bind. by rewrite Hd.
Qed.

(** The heartbeat queues one empty PING when six bytes are free and nothing
    otherwise. *)
Lemma heartbeat_sends_ping (s : wst C R) (Hwf : wst_wf s) :
  exists s' bs, heartbeat rd s = Ret (tt, s') /\ wst_wf s' /\ ses s' = ses s /\
    io_rx (sio s') = io_rx (sio s) /\
    contents (io_tx (sio s')) = contents (io_tx (sio s)) ++ bs /\
    if room (io_tx (sio s)) <? 6 then bs = []
    else decode_masked bs = Some (OpCode.ping, []).
Proof.
  destruct Hwf as [Hses Hio]. unfold heartbeat.
  assert (Hw : wp False False (heartbeat rd) (fun _ s' => wst_wf s' /\ ses s' = ses s /\
    io_rx (sio s') = io_rx (sio s) /\ exists bs,
    contents (io_tx (sio s')) = contents (io_tx (sio s)) ++ bs /\
    if room (io_tx (sio s)) <? 6 then bs = [] else decode_masked bs = Some (OpCode.ping, [])) s).
  { unfold heartbeat. apply wp_bind, wp_do_wbuf; [done|]. intros out Hout.
    apply wp_bind. unfold wp at 1, with_rng.
    pose proof (write_control_frame_fits rd (zlen out) OpCode.ping [] (rng s) (zlen_nonneg _)) as Hfit.
    assert (Hdec : if room (io_tx (sio s)) <? 6
      then (write_control_frame rd (zlen out) OpCode.ping [] (rng s)).1 = []
      else decode_masked (write_control_frame rd (zlen out) OpCode.ping [] (rng s)).1 = Some (OpCode.ping, [])).
    { destruct (_ <? 6) eqn:E; bool_to_prop.
      - unfold write_control_frame. rewrite zlen_nil, (proj2 (Z.ltb_lt _ _)) by lia. done.
      - apply control_frame_decodes; [by split|rewrite zlen_nil; lia..]. }
    destruct (write_control_frame rd _ _ _ _) as [bs r']. cbn [fst] in *.
    apply wp_do_emit; cbn [sio ses rng]; [done|lia|].
    intros tx Htxwf Htxc _ _. split_and!; [split; [done|split; [apply Hio|done]]|done|done|].
    by exists bs. }
  apply wp_total in Hw as ([] & s' & Hrun & Hwf' & Hs & Hrx & bs & Htx & Hd). by exists s', bs.
Qed.
End session_properties.

(** ** Witnesses: a codec without handlers, small buffers, a fresh session *)

#[export] Instance null_codec : MessageCodec unit := {
  on_text := None; on_binary := None; codec_on_shutdown := None
}.

#[export] Instance null_codec_ok : CodecOk unit.
Proof. split; done. Qed.

Lemma Session_new_wf {C} h (cfg : config_t C) : session_wf (Session_new h cfg).
Proof.
  assert (Hm : 0 <= MSG_CAP) by (vm_compute; discriminate).
  unfold Session_new. generalize (zlen_replicate (Z.to_nat MSG_CAP) 0).
  generalize (replicate (Z.to_nat MSG_CAP) 0). intros mb Hmb.
  split; cbn [msg_buf msg_len]; [by rewrite Hmb, Z2Nat.id|lia].
Qed.

Lemma session_wf_state {C} st (x : Session C) : session_wf x -> session_wf (with_state st x).
Proof. done. Qed.

Lemma session_wf_full {C} (x : Session C) :
  session_wf x -> session_wf (with_msg (msg_buf x) MSG_CAP x).
Proof. intros [Hb Hl]. split; cbn; [done|lia]. Qed.

Definition sample_session : Session unit :=
  with_state State.listening (Session_new (str "host") (mkConfig (str "/") [] tt)).

(** The session with [l] received and [n] bytes free to send. *)
Definition sample_wst (l : list Z) (n : Z) : wst unit Z :=
  mkWst sample_session (mkIO (sample_rx l) (Buffer_new n)) 0.

Lemma sample_wst_wf l n : zlen l < 2 ^ 64 -> 0 <= n < 2 ^ 64 -> wst_wf (sample_wst l n).
Proof.
  intros. split; [apply session_wf_state, Session_new_wf|]. split; [by apply sample_rx_wf|by apply Buffer_new_wf].
Qed.

Lemma sample_wst_room l n : 0 <= n -> room (io_tx (sio (sample_wst l n))) = n.
Proof. intros. unfold room. cbn [sample_wst sio io_tx]. rewrite CAP_Buffer_new by done. cbn. lia. Qed.

Lemma fragmented_message_delivered_witness :
  exists s1, contents (io_rx (sio s1)) = [9] /\
    dispatch_n count_rd 3
      (sample_wst (encode_frame false OpCode.text [1; 2] ++ encode_frame false OpCode.cont [3] ++
                   encode_frame true OpCode.cont [4; 5] ++ [9]) 64) =
    deliver count_rd OpCode.text [1; 2; 3; 4; 5] s1.
Proof.
  destruct (fragmented_message_delivered count_rd OpCode.text [1; 2] [4; 5] [9] [[3]]
    (sample_wst (encode_frame false OpCode.text [1; 2] ++ encode_frame false OpCode.cont [3] ++
                   encode_frame true OpCode.cont [4; 5] ++ [9]) 64))
    as (s1 & _ & Hc & _ & _ & _ & Heq).
  - apply sample_wst_wf; [reflexivity|lia].
  - reflexivity.
  - discriminate.
  - split; [reflexivity|cbn; lia].
  - reflexivity.
  - vm_compute. discriminate.
  - exists s1. split; [exact Hc|exact Heq].
Defined.

Lemma fragment_overflow_refused_witness :
  exists s', dispatch_frame count_rd
    (mkWst (with_msg (msg_buf sample_session) MSG_CAP sample_session)
           (mkIO (sample_rx (encode_frame false OpCode.cont [7])) (Buffer_new 64)) 0) =
    Ret (protocol.error, s').
Proof.
  destruct (fragment_overflow_refused count_rd false OpCode.cont [7] []
    (mkWst (with_msg (msg_buf sample_session) MSG_CAP sample_session)
           (mkIO (sample_rx (encode_frame false OpCode.cont [7])) (Buffer_new 64)) 0))
    as (s' & Hs & _).
  - split; [|split; [apply sample_rx_wf; reflexivity|apply Buffer_new_wf; lia]].
    apply session_wf_full. apply session_wf_state, Session_new_wf.
  - split; [reflexivity|cbn; lia].
  - left. reflexivity.
  - reflexivity.
  - reflexivity.
  - vm_compute. reflexivity.
  - exists s'. exact Hs.
Defined.

Lemma ping_answered_with_pong_witness :
  exists s' bs, dispatch_frame count_rd (sample_wst (encode_frame true OpCode.ping [1; 2; 3]) 64) =
    Ret (protocol.ok, s') /\ contents (io_tx (sio s')) = bs /\
    decode_masked bs = Some (OpCode.pong, [1; 2; 3]).
Proof.
  destruct (ping_answered_with_pong count_rd [1; 2; 3] []
    (sample_wst (encode_frame true OpCode.ping [1; 2; 3]) 64))
    as (s' & bs & Hd & _ & _ & Htx & Hdec).
  - apply sample_wst_wf; [reflexivity|lia].
  - vm_compute. discriminate.
  - reflexivity.
  - rewrite sample_wst_room by lia. vm_compute. discriminate.
  - exists s', bs. split; [exact Hd|split; [exact Htx|exact Hdec]].
Defined.

Lemma close_answered_with_close_witness :
  exists s' bs, dispatch_frame count_rd (sample_wst (encode_frame true OpCode.close [3; 233]) 64) =
    Ret (protocol.close, s') /\ contents (io_tx (sio s')) = bs /\
    decode_masked bs = Some (OpCode.close, [3; 233]).
Proof.
  destruct (close_answered_with_close count_rd [3; 233] []
    (sample_wst (encode_frame true OpCode.close [3; 233]) 64))
    as (s' & bs & Hd & _ & _ & Htx & Hdec).
  - apply sample_wst_wf; [reflexivity|lia].
  - apply (bool_decide_unpack _). vm_compute. exact I.
  - reflexivity.
  - reflexivity.
  - rewrite sample_wst_room by lia. lia.
  - exists s', bs. split; [exact Hd|split; [exact Htx|exact Hdec]].
Defined.

Lemma dispatch_frame_safe_witness :
  (exists st s', dispatch_frame count_rd (sample_wst [129; 1; 65] 64) = Ret (st, s') /\
     wst_wf s' /\ state (ses s') = State.listening) /\
  dispatch_frame count_rd (sample_wst [130; 127; 255; 255; 255; 255; 255; 255; 255; 254] 64) = UB.
Proof.
  split.
  - destruct (dispatch_frame_safe count_rd (sample_wst [129; 1; 65] 64)) as [_ Hdef];
      [apply sample_wst_wf; [reflexivity|lia]|apply (bool_decide_unpack _); vm_compute; exact I|reflexivity|].
    destruct Hdef as (st & s' & Hd & Hwf & Hst & _); [|exists st, s'; auto].
    intros [(b0 & ext & rest & Heq & _)|(out & Hp & Hop & _)]; [discriminate Heq|].
    vm_compute in Hp. injection Hp as <-. discriminate Hop.
  - apply (dispatch_frame_safe count_rd
      (sample_wst [130; 127; 255; 255; 255; 255; 255; 255; 255; 254] 64));
      [apply sample_wst_wf; [reflexivity|lia]|apply (bool_decide_unpack _); vm_compute; exact I|reflexivity|].
    left. exists 130, [255; 255; 255; 255; 255; 255; 255; 254], [].
    split; [reflexivity|]. split; [reflexivity|]. split; [reflexivity|]. split; vm_compute; discriminate.
Defined.

Lemma orphan_continuation_undefined_witness :
  dispatch_frame count_rd (sample_wst (encode_frame true OpCode.cont [1]) 64) = UB.
Proof.
  apply (orphan_continuation_undefined count_rd (str "host") (mkConfig (str "/") [] tt)
    (mkIO (sample_rx (encode_frame true OpCode.cont [1])) (Buffer_new 64)) 0 [1] []).
  - split; [apply sample_rx_wf; reflexivity|apply Buffer_new_wf; lia].
  - vm_compute. discriminate.
  - reflexivity.
Defined.

Lemma on_shutdown_sends_close_witness :
  exists s' bs, on_shutdown count_rd (sample_wst [] 64) = Ret (protocol.close, s') /\
    contents (io_tx (sio s')) = bs /\ decode_masked bs = Some (OpCode.close, [3; 232]).
Proof.
  destruct (on_shutdown_sends_close count_rd (sample_wst [] 64))
    as (s' & bs & Hd & _ & _ & Htx & Hdec).
  - apply sample_wst_wf; [reflexivity|lia].
  - rewrite sample_wst_room by lia. lia.
  - exists s', bs. split; [exact Hd|split; [exact Htx|exact Hdec]].
Defined.

Lemma peer_close_answered_twice_witness :
  exists s' bs1 bs2,
    (dispatch_frame count_rd ≫= fun _ => on_shutdown count_rd)
      (sample_wst (encode_frame true OpCode.close []) 64) = Ret (protocol.close, s') /\
    contents (io_tx (sio s')) = bs1 ++ bs2 /\
    decode_masked bs1 = Some (OpCode.close, [3; 232]) /\
    decode_masked bs2 = Some (OpCode.close, [3; 232]).
Proof.
  destruct (peer_close_answered_twice count_rd [] []
    (sample_wst (encode_frame true OpCode.close []) 64))
    as (s' & bs1 & bs2 & Hd & Htx & Hdec1 & Hdec2).
  - apply sample_wst_wf; [reflexivity|lia].
  - apply Forall_nil_2.
  - reflexivity.
  - reflexivity.
  - rewrite sample_wst_room by lia. lia.
  - exists s', bs1, bs2. split; [exact Hd|split; [exact Htx|split; [exact Hdec1|exact Hdec2]]].
Defined.

Lemma heartbeat_sends_ping_witness :
  exists s' bs, heartbeat count_rd (sample_wst [] 64) = Ret (tt, s') /\
    contents (io_tx (sio s')) = bs /\ decode_masked bs = Some (OpCode.ping, []).
Proof.
  destruct (heartbeat_sends_ping count_rd (sample_wst [] 64))
    as (s' & bs & Hd & _ & _ & _ & Htx & Hdec).
  - apply sample_wst_wf; [reflexivity|lia].
  - rewrite sample_wst_room in Hdec by lia.
    exists s', bs. split; [exact Hd|split; [exact Htx|exact Hdec]].
Defined.

Lemma session_opens_witness :
  exists s1, on_connect count_rd zero_sha1
      (mkWst sample_session (mkIO (sample_rx []) (Buffer_new 1024)) 0) = Ret (protocol.ok, s1) /\
    state (ses s1) = State.handshake_sent.
Proof.
  destruct (session_opens count_rd zero_sha1 zero_sha1_digest (sample_wst [] 1024))
    as (st & s1 & Hd & _ & Hif).
  - apply sample_wst_wf; [reflexivity|lia].
  - rewrite sample_wst_room in Hif by lia.
    change (zlen (upgrade_request
      (make_handshake count_rd zero_sha1 (str "host") (str "/") [] 0).1) <=? 1024) with true in Hif.
    destruct Hif as (Hst & Hs & _). subst st. exists s1. split; [exact Hd|exact Hs].
Defined.
