(* ===== verification/Net.v ===== *)
(** * Networks: the [Net] concept and dialling

    - [NetOps]: concept [net::Net] (include/manet/net/concepts.hpp), the calls the
      connections make, with what is relied on in them ([NetOk], [NetFinite]);
    - [dial]: include/manet/net/dial.hpp. *)

From S2P Require Import Prelude.

(** Error numbers (Linux). *)
Definition ENOENT : Z := 2.
Definition EINTR : Z := 4.
Definition EBADF : Z := 9.
Definition EAGAIN : Z := 11.
Definition EWOULDBLOCK : Z := 11.
Definition EEXIST : Z := 17.
Definition EINVAL : Z := 22.
Definition ECONNRESET : Z := 104.
Definition ECONNREFUSED : Z := 111.
Definition EINPROGRESS : Z := 115.

Record addrinfo := mkAddr { ai_family : Z; ai_socktype : Z; ai_protocol : Z; ai_addr : list Z }.

(** [concept Net]: what connections and transports call.  [W] is the outside
    world, [Ev] the event type.  A call that can fail returns a negative value
    and leaves its reason in [errno]. *)
Class NetOps (W Ev : Type) := {
  net_socket : Z -> Z -> Z -> W -> Z * W;
  net_ioctl_nonblock : Z -> W -> Z * W;
  net_connect : Z -> list Z -> W -> Z * W;
  net_close : Z -> W -> W;
  net_getsockopt_error : Z -> W -> Z * Z * W;
  net_subscribe : option Z -> Z -> bool -> bool -> W -> W;
  net_clear : Z -> W -> W;
  net_read : Z -> Z -> W -> Z * list Z * W;
  net_write : Z -> list Z -> W -> Z * W;
  errno : W -> Z;
  getaddrinfo : list Z -> Z -> W -> Z * list addrinfo * W;
  ev_close : Ev -> bool;
  ev_error : Ev -> bool;
  ev_readable : Ev -> bool;
  ev_writeable : Ev -> bool
}.

(** ** [net::dial] *)

Record DialResult := mkDial { dial_fd : Z; dial_err : Z }.

Section dial.
Context {W Ev : Type} {net : NetOps W Ev}.

(** The loop over the addresses; [err] is [result.err] so far. *)
Fixpoint dial_loop (ais : list addrinfo) (err : Z) (w : W) : DialResult * W :=
  match ais with
  | [] => (mkDial (-1) err, w)
  | ai :: ais' =>
      let (socketfd, w) := net_socket (ai_family ai) (ai_socktype ai) (ai_protocol ai) w in
      if socketfd <? 0 then dial_loop ais' (errno w) w
      else
        let (r, w) := net_ioctl_nonblock socketfd w in
        if r <? 0 then dial_loop ais' (errno w) (net_close socketfd w)
        else
          let (ok, w) := net_connect socketfd (ai_addr ai) w in
          if ok =? 0 then (mkDial socketfd 0, w)
          else if errno w =? EINPROGRESS then (mkDial socketfd (errno w), w)
          else dial_loop ais' (errno w) (net_close socketfd w)
  end.

Definition dial (host : list Z) (port : Z) (w : W) : DialResult * W :=
  match getaddrinfo host port w with
  | (gai, res, w) =>
      if negb (gai =? 0) then (mkDial (-1) EINVAL, w)
      else dial_loop res ECONNREFUSED w
  end.
End dial.

(** What is relied on in the socket calls: a world has a set of open
    descriptors, only [socket] adds to it (a fresh non-negative one) and only
    [close] removes. *)
Class NetOk (W : Type) {Ev : Type} {net : NetOps W Ev} := {
  opened : W -> gset Z;
  socket_ok : forall d t p w,
    let (fd, w') := net_socket d t p w in
    if fd <? 0 then opened w' = opened w else (fd ∉ opened w) /\ opened w' = (opened w ∪ {[ fd ]});
  ioctl_ok : forall fd w, opened (net_ioctl_nonblock fd w).2 = opened w;
  connect_ok : forall fd a w, opened (net_connect fd a w).2 = opened w;
  close_ok : forall fd w, opened (net_close fd w) = (opened w ∖ {[ fd ]});
  getsockopt_ok : forall fd w, opened (net_getsockopt_error fd w).2 = opened w;
  subscribe_ok : forall c fd r b w, opened (net_subscribe c fd r b w) = opened w;
  clear_ok : forall fd w, opened (net_clear fd w) = opened w;
  read_ok : forall fd n w, opened (net_read fd n w).2 = opened w;
  write_ok : forall fd l w, opened (net_write fd l w).2 = opened w;
  getaddrinfo_ok : forall h p w, opened (getaddrinfo h p w).2 = opened w
}.

(** A read returns at most what was asked for; what the peer sends and how often
    signals interrupt is finite: [budget] bounds both. *)
Class NetFinite (W : Type) {Ev : Type} {net : NetOps W Ev} := {
  budget : W -> nat;
  fin_socket : forall d t p w, (budget (net_socket d t p w).2 <= budget w)%nat;
  fin_ioctl : forall fd w, (budget (net_ioctl_nonblock fd w).2 <= budget w)%nat;
  fin_connect : forall fd a w, (budget (net_connect fd a w).2 <= budget w)%nat;
  fin_close : forall fd w, (budget (net_close fd w) <= budget w)%nat;
  fin_getsockopt : forall fd w, (budget (net_getsockopt_error fd w).2 <= budget w)%nat;
  fin_subscribe : forall c fd r b w, (budget (net_subscribe c fd r b w) <= budget w)%nat;
  fin_clear : forall fd w, (budget (net_clear fd w) <= budget w)%nat;
  fin_getaddrinfo : forall h p w, (budget (getaddrinfo h p w).2 <= budget w)%nat;
  fin_read : forall fd n w, 0 <= n ->
    let '(len, data, w') := net_read fd n w in
    (0 < len -> len = zlen data /\ len <= n) /\ (budget w' <= budget w)%nat /\
    (0 < len \/ (len < 0 /\ errno w' = EINTR) -> (budget w' < budget w)%nat);
  fin_write : forall fd l w,
    let (len, w') := net_write fd l w in
    -1 <= len <= zlen l /\ (budget w' <= budget w)%nat /\
    (len < 0 /\ errno w' = EINTR -> (budget w' < budget w)%nat)
}.

(** The descriptors of a world in which a connection owns [fd] ([-1]: none)
    besides those of [base]. *)
Definition owns `{NetOk W} (base : gset Z) (fd : Z) (w : W) : Prop :=
  if decide (fd = -1) then opened w = base else (fd ∉ base) /\ opened w = (base ∪ {[ fd ]}).

Section dial_lemmas.
Context {W Ev : Type} {net : NetOps W Ev} {net_ok : NetOk W}.

Lemma dial_loop_owns base ais err w r w' :
  opened w = base -> dial_loop ais err w = (r, w') -> owns base (dial_fd r) w' /\ -1 <= dial_fd r.
Proof.
  revert err w. induction ais as [|ai ais IH]; intros err w Hb Hd; cbn [dial_loop] in Hd.
  { injection Hd as <- <-. done. }
  pose proof (socket_ok (ai_family ai) (ai_socktype ai) (ai_protocol ai) w) as Hs.
  destruct (net_socket _ _ _ w) as [fd w1]. destruct (fd <? 0) eqn:E; [apply IH in Hd; [done|congruence]|].
  bool_to_prop. destruct Hs as [Hfresh Hs].
  assert (Hclose : forall w2, opened w2 = opened w1 -> opened (net_close fd w2) = base).
  { intros w2 H2. rewrite close_ok, H2, Hs, Hb, difference_union_distr_l_L, difference_diag_L, union_empty_r_L.
    apply difference_disjoint_L, disjoint_singleton_r. by rewrite <- Hb. }
  pose proof (ioctl_ok fd w1) as H2. destruct (net_ioctl_nonblock fd w1) as [r2 w2]. cbn [snd] in H2.
  destruct (r2 <? 0); [apply IH in Hd; [done|by apply Hclose]|].
  pose proof (connect_ok fd (ai_addr ai) w2) as H3. destruct (net_connect fd _ w2) as [r3 w3]. cbn [snd] in H3.
  assert (Howns : owns base fd w3).
  { unfold owns. rewrite decide_False by lia. split; [set_solver|]. congruence. }
  destruct (r3 =? 0); [by simplify_eq; split; [|cbn; lia]|].
  destruct (errno w3 =? EINPROGRESS); [by simplify_eq; split; [|cbn; lia]|].
  apply IH in Hd; [done|]. apply Hclose. congruence.
Qed.

Lemma dial_owns base host port w :
  opened w = base -> owns base (dial_fd (dial host port w).1) (dial host port w).2.
Proof.
  intros Hb. unfold dial. pose proof (getaddrinfo_ok host port w) as Hg.
  destruct (getaddrinfo host port w) as [[gai res] w1]. cbn [snd] in Hg.
  destruct (negb _); [cbn; unfold owns; by rewrite decide_True, Hg|].
  destruct (dial_loop res ECONNREFUSED w1) as [r w2] eqn:Hd.
  apply (dial_loop_owns base) in Hd as [Hd _]; [done|congruence].
Qed.

Lemma dial_loop_err ais err w r w' :
  dial_loop ais err w = (r, w') -> dial_fd r <> -1 -> dial_err r = 0 \/ dial_err r = EINPROGRESS.
Proof.
  revert err w. induction ais as [|ai ais IH]; intros err w Hd Hfd; cbn [dial_loop] in Hd.
  { by simplify_eq. }
  destruct (net_socket _ _ _ w) as [fd w1]. destruct (fd <? 0); [by eapply IH|].
  destruct (net_ioctl_nonblock fd w1) as [r2 w2]. destruct (r2 <? 0); [by eapply IH|].
  destruct (net_connect fd _ w2) as [r3 w3]. destruct (r3 =? 0); [simplify_eq; by left|].
  destruct (errno w3 =? EINPROGRESS) eqn:E; [bool_to_prop; simplify_eq; by right|by eapply IH].
Qed.

(** C29: dialling leaks no descriptor: on failure the same descriptors are open as
    before, on success exactly one new one, the result's, which is connected
    or in progress. *)
Theorem dial_no_leak (host : list Z) (port : Z) (w w' : W) (r : DialResult)
    (Hd : dial host port w = (r, w')) :
  if decide (dial_fd r = -1) then opened w' = opened w
  else ((dial_fd r ∉ opened w) /\ opened w' = (opened w ∪ {[ dial_fd r ]})) /\
       (dial_err r = 0 \/ dial_err r = EINPROGRESS).
Proof.
  pose proof (dial_owns (opened w) host port w eq_refl) as Ho. rewrite Hd in Ho. cbn [fst snd] in Ho.
  unfold owns in Ho. destruct (decide _); [done|]. split; [done|].
  unfold dial in Hd. destruct (getaddrinfo host port w) as [[gai res] w1].
  destruct (negb _); [by simplify_eq|]. by apply dial_loop_err in Hd.
Qed.
End dial_lemmas.

(** ** A small concrete network, for witnesses

    One process: descriptors are numbered, connecting is immediate or in
    progress, reads replay a script (an empty chunk is end of file, the chunk
    [[-1]] a reset connection, an empty script means [EAGAIN]) and writes are recorded. *)

Record toy := mkToy {
  toy_open : gset Z; toy_next : Z; toy_async : bool;
  toy_in : list (list Z); toy_out : list Z; toy_errno : Z
}.

Record toy_event := mkToyEvent { te_close : bool; te_error : bool; te_read : bool; te_write : bool }.

Definition toy_set_open (o : gset Z) (w : toy) : toy :=
  mkToy o (toy_next w) (toy_async w) (toy_in w) (toy_out w) (toy_errno w).
Definition toy_set_errno (e : Z) (w : toy) : toy :=
  mkToy (toy_open w) (toy_next w) (toy_async w) (toy_in w) (toy_out w) e.

Definition toy_socket (w : toy) : Z * toy :=
  if (toy_next w <? 0) || bool_decide (toy_next w ∈ toy_open w) then (-1, w)
  else (toy_next w, mkToy (toy_open w ∪ {[ toy_next w ]}) (toy_next w + 1) (toy_async w)
                          (toy_in w) (toy_out w) (toy_errno w)).

Definition toy_read (n : Z) (w : toy) : Z * list Z * toy :=
  match toy_in w with
  | [] => (-1, [], toy_set_errno EAGAIN w)
  | c :: cs =>
      let d := take (Z.to_nat n) c in
      if decide (c = [-1]) then (-1, [], toy_set_errno ECONNRESET w)
      else (zlen d, d, mkToy (toy_open w) (toy_next w) (toy_async w)
        (match drop (Z.to_nat n) c with [] => cs | r => r :: cs end) (toy_out w) (toy_errno w))
  end.

#[export] Instance toy_net : NetOps toy toy_event := {
  net_socket := fun _ _ _ => toy_socket;
  net_ioctl_nonblock := fun _ w => (0, w);
  net_connect := fun _ _ w =>
    if toy_async w then (-1, toy_set_errno EINPROGRESS w) else (0, w);
  net_close := fun fd w => toy_set_open (toy_open w ∖ {[ fd ]}) w;
  net_getsockopt_error := fun _ w => (0, 0, w);
  net_subscribe := fun _ _ _ _ w => w;
  net_clear := fun _ w => w;
  net_read := fun _ => toy_read;
  net_write := fun _ l w => (zlen l, mkToy (toy_open w) (toy_next w) (toy_async w)
                                           (toy_in w) (toy_out w ++ l) (toy_errno w));
  errno := toy_errno;
  getaddrinfo := fun _ _ w => (0, [mkAddr 2 1 6 []], w);
  ev_close := te_close; ev_error := te_error; ev_readable := te_read; ev_writeable := te_write
}.

#[export] Instance toy_net_ok : NetOk toy.
Proof.
  refine {| opened := toy_open |}; try done.
  - intros d t p w. cbn. unfold toy_socket.
    destruct (_ || _) eqn:E; [done|]. bool_to_prop. rewrite (proj2 (Z.ltb_ge _ _)) by done.
    by apply bool_decide_eq_false in H0.
  - intros fd a w. cbn. by destruct (toy_async w).
  - intros fd n w. cbn. unfold toy_read. repeat case_match; done.
Defined.

#[export] Instance toy_finite : NetFinite toy.
Proof.
  refine {| budget := fun w => length (concat (toy_in w)) |}; try done.
  - intros d t p w. cbn. unfold toy_socket. by destruct (_ || _).
  - intros fd a w. cbn. by destruct (toy_async w).
  - intros fd n w Hn. cbn. unfold toy_read. destruct (toy_in w) as [|c cs] eqn:E.
    { cbn. rewrite E. split_and!; [discriminate|done|intros [?|[_ ?]]; discriminate]. }
    destruct (decide (c = [-1])).
    { cbn. rewrite E. split_and!; [discriminate|done|intros [?|[_ ?]]; discriminate]. }
    assert (Hrest : length (concat (match drop (Z.to_nat n) c with [] => cs | r => r :: cs end)) =
      (length (drop (Z.to_nat n) c) + length (concat cs))%nat).
    { destruct (drop (Z.to_nat n) c); [done|]. cbn [concat]. by rewrite length_app. }
    cbn [toy_in toy_errno]. rewrite Hrest. unfold zlen. rewrite length_take, length_drop.
    cbn [concat]. rewrite length_app. lia.
  - intros fd l w. cbn. pose proof (zlen_nonneg l). split_and!; [lia|lia|done|]. lia.
Defined.

Definition toy0 : toy := mkToy ∅ 3 false [] [] 0.

Lemma dial_no_leak_witness :
  opened (dial (str "host") 80 toy0).2 = (∅ ∪ {[ 3 ]} : gset Z).
Proof.
  destruct (dial (str "host") 80 toy0) as [r w'] eqn:Hd.
  pose proof (dial_no_leak (str "host") 80 toy0 w' r Hd) as H.
  vm_compute in Hd. injection Hd as Hr Hw. subst r. cbn [dial_fd] in H.
  rewrite decide_False in H by discriminate. destruct H as [[_ H] _]. exact H.
Defined.
