(* ===== verification/Sockets.v ===== *)
(** * Socket calls and backends

    The calls of the operating system (or of the F-Stack library) that a network
    backend forwards to (class [Sockets]), their documented contract
    ([SocketsOk]), the state shared by the backends: static members over a
    kernel ([bst]), and what the reactor needs of a backend besides the calls of
    [NetOps]: polling and the signal ([NetLoop]), start and run ([NetLife]). *)

From S2P Require Import Prelude Net.

Class Sockets (K : Type) := {
  sk_socket : Z -> Z -> Z -> K -> Z * K;
  sk_ioctl : Z -> Z -> Z -> K -> Z * K;
  sk_connect : Z -> list Z -> K -> Z * K;
  sk_close : Z -> K -> Z * K;
  sk_getsockopt : Z -> Z -> Z -> K -> Z * Z * K;
  sk_read : Z -> Z -> K -> Z * list Z * K;
  sk_write : Z -> list Z -> K -> Z * K;
  sk_errno : K -> Z;
  sk_getaddrinfo : list Z -> Z -> K -> Z * list addrinfo * K
}.

(** Constants of the socket interface (Linux). *)
Definition FIONBIO : Z := 0x5421.
Definition SOL_SOCKET : Z := 1.
Definition SO_ERROR : Z := 4.
Definition SOCK_NONBLOCK : Z := 0x800.

(** The contract: a kernel has a set of open descriptors; [socket] adds a fresh
    one, [close] removes one.  Reads and writes transfer at most what was asked
    for, and what can still be read, or interrupted by a signal, is finite. *)
Class SocketsOk (K : Type) {sk : Sockets K} := {
  fds : K -> gset Z;
  quota : K -> nat;
  sk_socket_fds : forall d t p k,
    let (fd, k') := sk_socket d t p k in
    if fd <? 0 then fds k' = fds k else (fd ∉ fds k) /\ fds k' = (fds k ∪ {[ fd ]});
  sk_ioctl_fds : forall fd r a k, fds (sk_ioctl fd r a k).2 = fds k;
  sk_connect_fds : forall fd a k, fds (sk_connect fd a k).2 = fds k;
  sk_close_fds : forall fd k, fds (sk_close fd k).2 = (fds k ∖ {[ fd ]});
  sk_getsockopt_fds : forall fd l o k, fds (sk_getsockopt fd l o k).2 = fds k;
  sk_read_fds : forall fd n k, fds (sk_read fd n k).2 = fds k;
  sk_write_fds : forall fd l k, fds (sk_write fd l k).2 = fds k;
  sk_getaddrinfo_fds : forall h p k, fds (sk_getaddrinfo h p k).2 = fds k;
  sk_socket_quota : forall d t p k, (quota (sk_socket d t p k).2 <= quota k)%nat;
  sk_ioctl_quota : forall fd r a k, (quota (sk_ioctl fd r a k).2 <= quota k)%nat;
  sk_connect_quota : forall fd a k, (quota (sk_connect fd a k).2 <= quota k)%nat;
  sk_close_quota : forall fd k, (quota (sk_close fd k).2 <= quota k)%nat;
  sk_getsockopt_quota : forall fd l o k, (quota (sk_getsockopt fd l o k).2 <= quota k)%nat;
  sk_getaddrinfo_quota : forall h p k, (quota (sk_getaddrinfo h p k).2 <= quota k)%nat;
  sk_read_quota : forall fd n k, 0 <= n ->
    let '(len, data, k') := sk_read fd n k in
    (0 < len -> len = zlen data /\ len <= n) /\ (quota k' <= quota k)%nat /\
    (0 < len \/ (len < 0 /\ sk_errno k' = EINTR) -> (quota k' < quota k)%nat);
  sk_write_quota : forall fd l k,
    let (len, k') := sk_write fd l k in
    -1 <= len <= zlen l /\ (quota k' <= quota k)%nat /\
    (len < 0 /\ sk_errno k' = EINTR -> (quota k' < quota k)%nat)
}.

(** ** The rest of [concept Net] *)

(** Polling, the kill signal and the stop, as the event loop calls them. *)
Class NetLoop (W Ev : Type) := {
  net_poll : Z -> W -> Z * list Ev * W;
  net_stop : W -> W;
  net_ev_signal : Ev -> W -> bool * W;
  net_get_user_data : Ev -> Z
}.

(** [init] with the exception it throws, if any; [run]: the loop function works on
    a state that contains the world, which [run] sees through [view]. *)
Class NetLife (W Cfg : Type) := {
  net_init : Cfg -> W -> option string * W;
  net_run : forall S : Type, nat -> (S -> W) -> M S Z -> M S unit
}.

(** ** Backends: static members over a kernel *)

Record bst (S K : Type) := mkSt { stat : S; kern : K }.
Arguments mkSt {S K} stat kern. Arguments stat {S K}. Arguments kern {S K}.

Section backend.
Context {S K : Type}.

Definition set_stat (f : S -> S) : M (bst S K) unit := modify (fun s => mkSt (f (stat s)) (kern s)).

(** A system call; [sys_] drops its result. *)
Definition on_kern {A} (f : K -> A * K) (s : bst S K) : A * bst S K :=
  let (a, k) := f (kern s) in (a, mkSt (stat s) k).
Definition sys {A} (f : K -> A * K) : M (bst S K) A := fun s => Ret (on_kern f s).
Definition sys_ {A} (f : K -> A * K) : M (bst S K) unit := sys f ≫= fun _ => mret tt.

(** The function a computation that always returns denotes. *)
Definition exec {A} (dflt : A) (m : M (bst S K) A) (s : bst S K) : A * bst S K :=
  match m s with Ret r => r | _ => (dflt, s) end.

(** Relating the state before and after a computation that always returns and
    leaves the static members alone. *)
Definition steps_kern {A} (P : K -> K -> Prop) (m : M (bst S K) A) : Prop :=
  forall s, exists a k', m s = Ret (a, mkSt (stat s) k') /\ P (kern s) k'.

Lemma steps_kern_ret {A} (P : K -> K -> Prop) (a : A) :
  Reflexive P -> steps_kern P (mret a).
Proof. intros HP [c k]. exists a, k. done. Qed.

Lemma steps_kern_gets {A} (P : K -> K -> Prop) (f : bst S K -> A) :
  Reflexive P -> steps_kern P (gets f).
Proof. intros HP [c k]. eexists _, k. done. Qed.

Lemma steps_kern_bind {A B} (P : K -> K -> Prop) (m : M (bst S K) A) (f : A -> M (bst S K) B) :
  Transitive P -> steps_kern P m -> (forall a, steps_kern P (f a)) -> steps_kern P (m ≫= f).
Proof.
  intros HP Hm Hf s. destruct (Hm s) as (a & k1 & H1 & P1).
  destruct (Hf a (mkSt (stat s) k1)) as (b & k2 & H2 & P2). exists b, k2.
  unfold mbind, M_bind. rewrite H1, H2. split; [done|]. by etransitivity.
Qed.

Lemma steps_kern_sys {A} (P : K -> K -> Prop) (f : K -> A * K) :
  (forall k, P k (f k).2) -> steps_kern P (sys f).
Proof.
  intros Hf s. unfold sys, on_kern. specialize (Hf (kern s)).
  destruct (f (kern s)) as [a k']. by exists a, k'.
Qed.

Lemma steps_kern_sys_ {A} (P : K -> K -> Prop) (f : K -> A * K) :
  Reflexive P -> Transitive P -> (forall k, P k (f k).2) -> steps_kern P (sys_ f).
Proof. intros ?? Hf. apply steps_kern_bind; [done|by apply steps_kern_sys|]. intros _. by apply steps_kern_ret. Qed.

Lemma steps_kern_exec {A} (P : K -> K -> Prop) (m : M (bst S K) A) d s :
  steps_kern P m -> stat (exec d m s).2 = stat s /\ P (kern s) (kern (exec d m s).2).
Proof. intros Hm. destruct (Hm s) as (a & k' & H & HP). unfold exec. by rewrite H. Qed.
End backend.

#[export] Hint Resolve steps_kern_ret steps_kern_gets steps_kern_bind steps_kern_sys steps_kern_sys_ : manet.

#[global] Arguments on_kern : simpl never.
#[global] Arguments exec : simpl never.

Lemma on_kern_stat {S K A} (f : K -> A * K) (s : bst S K) : stat (on_kern f s).2 = stat s.
Proof. unfold on_kern. by destruct (f (kern s)). Qed.

Lemma on_kern_kern {S K A} (f : K -> A * K) (s : bst S K) : kern (on_kern f s).2 = (f (kern s)).2.
Proof. unfold on_kern. by destruct (f (kern s)). Qed.

(** A kernel call that neither opens nor closes descriptors nor delivers bytes. *)
Definition fd_neutral `{SocketsOk K} (k k' : K) : Prop := fds k' = fds k /\ (quota k' <= quota k)%nat.

#[export] Instance fd_neutral_preorder `{SocketsOk K} : PreOrder fd_neutral.
Proof.
  split; [by split|]. intros k1 k2 k3 [H1 Q1] [H2 Q2]. split; [congruence|lia].
Qed.
