(* ===== verification/Transport.v ===== *)
(** * Transports

    - [TransportOps]: concept [transport::Transport] with its optional parts
      (include/manet/transport/concepts.hpp);
    - Module [Plain]: include/manet/transport/plain.hpp over any [NetOps];
    - Module [Bio]: the socket BIO of include/manet/transport/tls_bio.hpp and
      src/manet/transport/tls_bio.cc;
    - Module [Tls]: include/manet/transport/tls.hpp and src/manet/transport/tls.cc over the
      OpenSSL calls, which are parameters. *)

From S2P Require Import Prelude Status Buffer Net.

(** [concept Transport].  [None] for an endpoint is one whose members were never
    initialised. *)
Class TransportOps (W E Cfg : Type) := {
  ep_init : Z -> Cfg -> W -> outcome (option E * W);
  ep_read : E -> Buffer -> W -> outcome (transport.Status * E * Buffer * W);
  ep_write : E -> Buffer -> W -> outcome (transport.Status * E * Buffer * W);
  ep_handshake_step : option (E -> W -> outcome (transport.Status * E * W));
  ep_shutdown_step : option (E -> W -> outcome (transport.Status * E * W));
  ep_destroy : option E -> W -> outcome (option E * W)
}.

(** Storing the bytes a [read] call delivered at [rx.wbuf().data()]. *)
Definition deliver_bytes {W} (data : list Z) : M (Buffer * W) unit := fun s =>
  match wbuf_write s.1 data with
  | Ret b => Ret (tt, (b, s.2))
  | UB => UB
  | NoFuel => NoFuel
  end.

Definition on_buffer {W} (f : Buffer -> Buffer) : M (Buffer * W) unit :=
  modify (fun s => (f s.1, s.2)).

Module Plain.
Section plain.
Context {W Ev : Type} {net : NetOps W Ev} (fuel : nat).

(** The function pointers of the endpoint always hold [Net::read] and [Net::write]. *)
Record Endpoint := mkEndpoint { fd : Z }.

Definition init (fd : Z) (cfg : unit) (w : W) : outcome (option Endpoint * W) :=
  Ret (Some (mkEndpoint fd), w).

Definition call_read (fd : Z) (n : Z) : M (Buffer * W) (Z * list Z) := fun s =>
  let '(len, data, w) := net_read fd n s.2 in Ret ((len, data), (s.1, w)).

Definition call_write (fd : Z) (l : list Z) : M (Buffer * W) Z := fun s =>
  let (len, w) := net_write fd l s.2 in Ret (len, (s.1, w)).

Definition read (e : Endpoint) : M (Buffer * W) transport.Status :=
  loop fuel (
    dst ← (fun s => lift (wbuf s.1) s);
    r ← call_read (fd e) (zlen dst);
    if 0 <? r.1 then
      deliver_bytes r.2 ≫= fun _ =>
      on_buffer (fun b => inc_wpos b (u64 r.1)) ≫= fun _ =>
      mret (Some transport.ok)
    else if r.1 =? 0 then mret (Some transport.close)
    else
      err ← gets (fun s => errno s.2);
      if (err =? EAGAIN) || (err =? EWOULDBLOCK) then mret (Some transport.want_read)
      else if err =? EINTR then mret None
      else mret (Some transport.error)).

Definition write (e : Endpoint) : M (Buffer * W) transport.Status :=
  loop fuel (
    src ← (fun s => lift (rbuf s.1) s);
    r ← call_write (fd e) src;
    if 0 <=? s32 r then
      on_buffer (fun b => inc_rpos b (u64 (s32 r))) ≫= fun _ =>
      mret (Some transport.ok)
    else
      err ← gets (fun s => errno s.2);
      if (err =? EAGAIN) || (err =? EWOULDBLOCK) then mret (Some transport.want_write)
      else if err =? EINTR then mret None
      else mret (Some transport.error)).

(** [destroy] touches no member. *)
Definition destroy (e : option Endpoint) (w : W) : outcome (option Endpoint * W) := Ret (e, w).

#[global] Instance ops : TransportOps W Endpoint unit := {
  ep_init := init;
  ep_read := fun e b w =>
    match read e (b, w) with
    | Ret (st, (b', w')) => Ret (st, e, b', w') | UB => UB | NoFuel => NoFuel
    end;
  ep_write := fun e b w =>
    match write e (b, w) with
    | Ret (st, (b', w')) => Ret (st, e, b', w') | UB => UB | NoFuel => NoFuel
    end;
  ep_handshake_step := None;
  ep_shutdown_step := None;
  ep_destroy := destroy
}.
End plain.
End Plain.

(** ** The OpenSSL socket BIO *)
Module Bio.
Section bio.
Context {W Ev : Type} {net : NetOps W Ev} (fuel : nat).

(** [SocketBioData] hangs off the BIO; [None] is a null data pointer. *)
Record BIO := mkBIO {
  bio_init : bool; bio_data : option Z; retry_read : bool; retry_write : bool
}.

Definition bio_create (b : BIO) : Z * BIO :=
  (1, mkBIO true (Some (-1)) (retry_read b) (retry_write b)).

(** [None] is the null pointer. *)
Definition bio_destroy (b : option BIO) : Z * option BIO :=
  match b with
  | None => (0, None)
  | Some b => (1, Some (mkBIO false None (retry_read b) (retry_write b)))
  end.

Definition BIO_C_SET_FD : Z := 104.
Definition BIO_C_GET_FD : Z := 105.
Definition BIO_CTRL_FLUSH : Z := 11.

(** [ptr] is the pointed-to [int], if any; it is returned as it is afterwards. *)
Definition bio_ctrl (b : BIO) (cmd : Z) (ptr : option Z) : outcome (Z * BIO * option Z) :=
  if cmd =? BIO_C_SET_FD then
    match bio_data b with
    | None => UB
    | Some _ =>
        Ret (1, mkBIO (bio_init b) (Some (default (-1) ptr)) (retry_read b) (retry_write b), ptr)
    end
  else if cmd =? BIO_C_GET_FD then
    match bio_data b with
    | None => UB
    | Some fd => Ret (fd, b, (fun _ => fd) <$> ptr)
    end
  else if cmd =? BIO_CTRL_FLUSH then Ret (1, b, ptr)
  else Ret (0, b, ptr).

Definition BIO_clear_retry_flags (b : BIO) : BIO := mkBIO (bio_init b) (bio_data b) false false.
Definition BIO_set_retry_read (b : BIO) : BIO := mkBIO (bio_init b) (bio_data b) true (retry_write b).
Definition BIO_set_retry_write (b : BIO) : BIO := mkBIO (bio_init b) (bio_data b) (retry_read b) true.

(** [data->fd]; a null pointer dereference is undefined. *)
Definition data_fd : M (BIO * W) Z := fun s =>
  match bio_data s.1 with Some fd => Ret (fd, s) | None => UB end.

Definition set_bio (f : BIO -> BIO) : M (BIO * W) unit := modify (fun s => (f s.1, s.2)).

(** The bytes read and the return value; [ssize_t] is narrowed to [int]. *)
Definition bio_read (outl : Z) : M (BIO * W) (Z * list Z) :=
  set_bio BIO_clear_retry_flags ≫= fun _ =>
  loop fuel (
    fd ← data_fd;
    r ← (fun s => let '(n, data, w) := net_read fd (u64 outl) s.2 in Ret ((n, data), (s.1, w)));
    if 0 <=? r.1 then mret (Some (s32 r.1, r.2))
    else
      err ← gets (fun s => errno s.2);
      if err =? EINTR then mret None
      else
        (if (err =? EAGAIN) || (err =? EWOULDBLOCK) then set_bio BIO_set_retry_read else mret tt) ≫= fun _ =>
        mret (Some (-1, []))).

(** [inp = None] is the null pointer; [inl] is [|inp|] otherwise. *)
Definition bio_write (inp : option (list Z)) (inl : Z) : M (BIO * W) Z :=
  match inp with
  | None => mret 0
  | Some bytes =>
      if inl <=? 0 then mret 0
      else
        set_bio BIO_clear_retry_flags ≫= fun _ =>
        loop fuel (
          fd ← data_fd;
          n ← (fun s => let (n, w) := net_write fd (take (Z.to_nat inl) bytes) s.2 in Ret (n, (s.1, w)));
          if 0 <=? n then mret (Some (s32 n))
          else
            err ← gets (fun s => errno s.2);
            if err =? EINTR then mret None
            else
              (if (err =? EAGAIN) || (err =? EWOULDBLOCK) then set_bio BIO_set_retry_write else mret tt) ≫= fun _ =>
              mret (Some (-1)))
  end.
End bio.
End Bio.

(** ** TLS *)

(** The OpenSSL calls on an [SSL *]; a call on a pointer that is not live is
    [UB].  [bio_for fd] stands for [socket_BIO], [SSL_set_bio] and
    [SSL_set_connect_state] in a row. *)
Class OpenSSL (W : Type) := {
  SSL_new : W -> option Z * W;
  SSL_attach_socket : Z -> Z -> W -> outcome W;
  SSL_set_tlsext_host_name : Z -> list Z -> W -> outcome (Z * W);
  SSL_set_verify_peer : Z -> W -> outcome W;
  SSL_set1_host : Z -> list Z -> W -> outcome (Z * W);
  SSL_free : Z -> W -> outcome W;
  SSL_connect : Z -> W -> outcome (Z * W);
  SSL_read : Z -> Z -> W -> outcome (Z * list Z * W);
  SSL_write : Z -> list Z -> W -> outcome (Z * W);
  SSL_shutdown : Z -> W -> outcome (Z * W);
  SSL_get_error : Z -> Z -> W -> outcome Z
}.

Definition SSL_ERROR_WANT_READ : Z := 2.
Definition SSL_ERROR_WANT_WRITE : Z := 3.
Definition SSL_ERROR_ZERO_RETURN : Z := 6.

Module Tls.
Section tls.
Context {W : Type} {ssl : OpenSSL W}.

Record TlsEndpoint := mkTls { ssl_ctx : Z }.

(** [Tls::Endpoint<Net>::init], after the one-time initialisation. *)
Definition init (fd : Z) (host : list Z) (w : W) : outcome (option TlsEndpoint * W) :=
  let (ctx, w) := SSL_new w in
  match ctx with
  | None => Ret (None, w)
  | Some ctx =>
      w ← SSL_attach_socket ctx fd w;
      r ← SSL_set_tlsext_host_name ctx host w;
      let (sni, w) := (r : Z * W) in
      if negb (sni =? 1) then w ← SSL_free ctx w; Ret (None, w)
      else
        w ← SSL_set_verify_peer ctx w;
        r ← SSL_set1_host ctx host w;
        let (ok, w) := (r : Z * W) in
        if negb (ok =? 1) then w ← SSL_free ctx w; Ret (None, w)
        else Ret (Some (mkTls ctx), w)
  end.

Definition handshake_step (e : TlsEndpoint) (w : W) : outcome (transport.Status * TlsEndpoint * W) :=
  r ← SSL_connect (ssl_ctx e) w;
  let (r, w) := (r : Z * W) in
  if negb (r =? 1) then
    err ← SSL_get_error (ssl_ctx e) r w;
    if err =? SSL_ERROR_WANT_WRITE then Ret (transport.want_write, e, w)
    else if err =? SSL_ERROR_WANT_READ then Ret (transport.want_read, e, w)
    else Ret (transport.error, e, w)
  else Ret (transport.ok, e, w).

Definition error_status (err : Z) : transport.Status :=
  if err =? SSL_ERROR_WANT_READ then transport.want_read
  else if err =? SSL_ERROR_WANT_WRITE then transport.want_write
  else if err =? SSL_ERROR_ZERO_RETURN then transport.close
  else transport.error.

Definition clamp (n : Z) : Z := if n <? INT_MAX then n else INT_MAX.

Definition read (e : TlsEndpoint) (rx : Buffer) (w : W)
    : outcome (transport.Status * TlsEndpoint * Buffer * W) :=
  dst ← wbuf rx;
  r ← SSL_read (ssl_ctx e) (clamp (zlen (dst : list Z))) w;
  let '(len, data, w) := (r : Z * list Z * W) in
  if 0 <? len then
    rx ← wbuf_write rx data;
    Ret (transport.ok, e, inc_wpos rx (u64 len), w)
  else
    err ← SSL_get_error (ssl_ctx e) len w;
    Ret (error_status err, e, rx, w).

Definition write (e : TlsEndpoint) (tx : Buffer) (w : W)
    : outcome (transport.Status * TlsEndpoint * Buffer * W) :=
  src ← rbuf tx;
  r ← SSL_write (ssl_ctx e) (slice src 0 (clamp (zlen (src : list Z)))) w;
  let (len, w) := (r : Z * W) in
  if 0 <? len then Ret (transport.ok, e, inc_rpos tx (u64 len), w)
  else
    err ← SSL_get_error (ssl_ctx e) len w;
    Ret (error_status err, e, tx, w).

Definition shutdown_step (e : TlsEndpoint) (w : W) : outcome (transport.Status * TlsEndpoint * W) :=
  r ← SSL_shutdown (ssl_ctx e) w;
  let (r, w) := (r : Z * W) in
  if r =? 1 then Ret (transport.ok, e, w)
  else
    err ← SSL_get_error (ssl_ctx e) r w;
    if err =? SSL_ERROR_ZERO_RETURN then Ret (transport.ok, e, w)
    else if err =? SSL_ERROR_WANT_WRITE then Ret (transport.want_write, e, w)
    else if err =? SSL_ERROR_WANT_READ then Ret (transport.want_read, e, w)
    else Ret (transport.error, e, w).

(** The pointer is freed when it is not null; it keeps its value.  A member that
    was never initialised is read. *)
Definition destroy (e : option TlsEndpoint) (w : W) : outcome (option TlsEndpoint * W) :=
  match e with
  | None => UB
  | Some e =>
      if negb (ssl_ctx e =? 0) then w ← SSL_free (ssl_ctx e) w; Ret (Some e, w)
      else Ret (Some e, w)
  end.

#[global] Instance ops : TransportOps W TlsEndpoint (list Z) := {
  ep_init := init;
  ep_read := read;
  ep_write := write;
  ep_handshake_step := Some handshake_step;
  ep_shutdown_step := Some shutdown_step;
  ep_destroy := destroy
}.
End tls.
End Tls.

(** ** Plain: every outcome of the system call *)

(** [k] calls in a row were interrupted by a signal. *)
Fixpoint reads_interrupted `{NetOps W Ev} (k : nat) (fd n : Z) (w : W) : option W :=
  match k with
  | O => Some w
  | S k' =>
      let '(len, _, w') := net_read fd n w in
      if (len =? -1) && (errno w' =? EINTR) then reads_interrupted k' fd n w' else None
  end.

Fixpoint writes_interrupted `{NetOps W Ev} (k : nat) (fd : Z) (l : list Z) (w : W) : option W :=
  match k with
  | O => Some w
  | S k' =>
      let (len, w') := net_write fd l w in
      if (len =? -1) && (errno w' =? EINTR) then writes_interrupted k' fd l w' else None
  end.

(** The status of a failed call. *)
Definition failure (want : transport.Status) (err : Z) : transport.Status :=
  if err =? EAGAIN then want else transport.error.

Section plain_lemmas.
Context {W Ev : Type} {net : NetOps W Ev}.
Implicit Types (b : Buffer) (w : W).

Lemma loop_again {S A} (body : M S (option A)) fuel s s' :
  body s = Ret (None, s') -> loop (Datatypes.S fuel) body s = loop fuel body s'.
Proof. intros H. simpl. by rewrite H. Qed.

Lemma loop_done {S A} (body : M S (option A)) fuel s s' a :
  body s = Ret (Some a, s') -> loop (Datatypes.S fuel) body s = Ret (a, s').
Proof. intros H. simpl. by rewrite H. Qed.

Lemma eagain_or err : (err =? EAGAIN) || (err =? EWOULDBLOCK) = (err =? EAGAIN).
Proof. unfold EAGAIN, EWOULDBLOCK. by rewrite orb_diag. Qed.

Lemma plain_read_interrupted fuel k e b w w1 :
  buffer_wf b -> reads_interrupted k (Plain.fd e) (room b) w = Some w1 ->
  Plain.read (k + fuel) e (b, w) = Plain.read fuel e (b, w1).
Proof.
  intros Hb. revert w. induction k as [|k IH]; intros w Hi; [by simplify_eq/=|].
  cbn [reads_interrupted] in Hi.
  destruct (net_read (Plain.fd e) (room b) w) as [[len data] w'] eqn:Hr.
  destruct (_ && _) eqn:E; [|done]. bool_to_prop. rewrite <- (IH w') by done.
  unfold Plain.read. cbn [Nat.add]. apply loop_again.
  unfold mbind, M_bind, lift, Plain.call_read. cbn [fst snd]. rewrite wbuf_wf by done.
  cbn [fst snd]. rewrite zlen_wbuf, Hr by done. cbn [fst snd].
  rewrite (proj2 (Z.ltb_ge _ _)), (proj2 (Z.eqb_neq _ _)) by lia.
  unfold gets. cbn [snd]. rewrite H0. done.
Qed.

Lemma plain_read_once fuel e b w len data w' :
  buffer_wf b -> net_read (Plain.fd e) (room b) w = (len, data, w') ->
  (0 < len -> len = zlen data /\ len <= room b) -> (len < 0 -> errno w' <> EINTR) ->
  exists b', Plain.read (S fuel) e (b, w) =
    Ret (if 0 <? len then transport.ok else if len =? 0 then transport.close
         else failure transport.want_read (errno w'), (b', w')) /\
    buffer_wf b' /\ CAP b' = CAP b /\
    contents b' = contents b ++ (if 0 <? len then data else []).
Proof.
  intros Hb Hr Hpos Herr.
  assert (Hstep : forall b', 
    (0 < len -> exists b1, wbuf_write b data = Ret b1 /\ b' = inc_wpos b1 (u64 len)) ->
    (~ 0 < len -> b' = b) ->
    Plain.read (S fuel) e (b, w) =
      Ret (if 0 <? len then transport.ok else if len =? 0 then transport.close
         else failure transport.want_read (errno w'), (b', w'))).
  { intros b' Hp Hn. unfold Plain.read. apply loop_done.
    unfold mbind, M_bind, lift, Plain.call_read. cbn [fst snd]. rewrite wbuf_wf by done.
    cbn [fst snd]. rewrite zlen_wbuf, Hr by done. cbn [fst snd].
    destruct (0 <? len) eqn:E; bool_to_prop.
    - destruct (Hp E) as (b1 & Hw & ->). unfold deliver_bytes. cbn [fst snd]. by rewrite Hw.
    - rewrite Hn by lia. destruct (len =? 0) eqn:E0; [done|]. bool_to_prop.
      unfold gets. cbn [snd]. rewrite eagain_or. unfold failure.
      destruct (errno w' =? EAGAIN); [done|].
      rewrite (proj2 (Z.eqb_neq _ EINTR)); [done|apply Herr; lia]. }
  destruct (decide (0 < len)) as [Hl|Hl].
  - destruct (Hpos Hl) as [Hz Hroom].
    destruct (wbuf_write_spec b data) as (b1 & Hw & _ & HC & _ & _ & _ & Hwf & Hc); [done|lia|].
    exists (inc_wpos b1 (u64 len)).
    assert (Hu : u64 len = zlen data).
    { rewrite Hz. apply u64_small. unfold buffer_wf, room in *. lia. }
    rewrite (Hstep _ (fun _ => ex_intro _ b1 (conj Hw eq_refl))) by lia.
    rewrite (proj2 (Z.ltb_lt _ _)) by done. rewrite Hu, CAP_inc_wpos. done.
  - exists b. rewrite (Hstep b) by (done || lia). rewrite (proj2 (Z.ltb_ge _ _)) by lia.
    by rewrite app_nil_r.
Qed.

Lemma plain_write_interrupted fuel k e b w w1 :
  buffer_wf b -> writes_interrupted k (Plain.fd e) (contents b) w = Some w1 ->
  Plain.write (k + fuel) e (b, w) = Plain.write fuel e (b, w1).
Proof.
  intros Hb. revert w. induction k as [|k IH]; intros w Hi; [by simplify_eq/=|].
  cbn [writes_interrupted] in Hi.
  destruct (net_write (Plain.fd e) (contents b) w) as [len w'] eqn:Hr.
  destruct (_ && _) eqn:E; [|done]. bool_to_prop. rewrite <- (IH w') by done. subst len.
  unfold Plain.write. cbn [Nat.add]. apply loop_again.
  unfold mbind, M_bind, lift, Plain.call_write. cbn [fst snd]. rewrite rbuf_wf by done.
  cbn [fst snd]. rewrite Hr. cbn [fst snd]. change (0 <=? s32 (-1)) with false.
  unfold gets. cbn [snd]. rewrite H0. done.
Qed.

Lemma s32_id x : - 2 ^ 31 <= x < 2 ^ 31 -> s32 x = x.
Proof. intros. unfold s32, swrap. rewrite Z.mod_small; lia. Qed.

Lemma plain_write_once fuel e b w len w' :
  buffer_wf b -> net_write (Plain.fd e) (contents b) w = (len, w') ->
  -1 <= len <= zlen (contents b) -> zlen (contents b) <= INT_MAX -> (len < 0 -> errno w' <> EINTR) ->
  exists b', Plain.write (S fuel) e (b, w) =
    Ret (if 0 <=? len then transport.ok else failure transport.want_write (errno w'), (b', w')) /\
    buffer_wf b' /\ CAP b' = CAP b /\
    contents b' = drop (Z.to_nat len) (contents b).
Proof.
  intros Hb Hr Hlen Hmax Herr. unfold INT_MAX in Hmax.
  assert (Hs : s32 len = len) by (apply s32_id; lia).
  exists (if 0 <=? len then inc_rpos b (u64 len) else b). split.
  - unfold Plain.write. apply loop_done.
    unfold mbind, M_bind, lift, Plain.call_write. cbn [fst snd]. rewrite rbuf_wf by done.
    cbn [fst snd]. rewrite Hr. cbn [fst snd]. rewrite Hs.
    destruct (0 <=? len) eqn:E; bool_to_prop; [done|].
    unfold gets. cbn [snd]. rewrite eagain_or. unfold failure.
    destruct (errno w' =? EAGAIN); [done|].
    rewrite (proj2 (Z.eqb_neq _ EINTR)); [done|apply Herr; lia].
  - destruct (0 <=? len) eqn:E; bool_to_prop.
    + rewrite u64_small by lia. rewrite CAP_inc_rpos.
      destruct (inc_rpos_spec b len) as [? ?]; [done|lia|done].
    + split_and!; [done|done|]. by replace (Z.to_nat len) with 0%nat by lia.
Qed.

(** C27: a plain read retries while signals interrupt it and then reports the
    outcome of the call: bytes are appended to the receive buffer ([ok]), end of
    file is [close], [EAGAIN] is [want_read], anything else [error]; the buffer
    changes only on [ok].  It returns as soon as the call does. *)
Theorem plain_read_outcomes (fuel k : nat) (e : Plain.Endpoint) (b : Buffer) (w w1 w' : W)
    (len : Z) (data : list Z) (Hb : buffer_wf b)
    (Hint : reads_interrupted k (Plain.fd e) (room b) w = Some w1)
    (Hr : net_read (Plain.fd e) (room b) w1 = (len, data, w'))
    (Hlen : 0 < len -> len = zlen data /\ len <= room b)
    (Herr : len < 0 -> errno w' <> EINTR) (Hfuel : (k < fuel)%nat) :
  exists b', Plain.read fuel e (b, w) =
    Ret (if 0 <? len then transport.ok else if len =? 0 then transport.close
         else failure transport.want_read (errno w'), (b', w')) /\
    buffer_wf b' /\ CAP b' = CAP b /\
    contents b' = contents b ++ (if 0 <? len then data else []).
Proof.
  replace fuel with (k + S (fuel - k - 1))%nat by lia.
  rewrite (plain_read_interrupted _ _ _ _ _ _ Hb Hint). by apply plain_read_once.
Qed.

(** C28: a plain write retries while signals interrupt it and then takes exactly
    the accepted bytes off the transmit buffer ([ok]); [EAGAIN] is
    [want_write], anything else [error], with the buffer unchanged. *)
Theorem plain_write_outcomes (fuel k : nat) (e : Plain.Endpoint) (b : Buffer) (w w1 w' : W)
    (len : Z) (Hb : buffer_wf b)
    (Hint : writes_interrupted k (Plain.fd e) (contents b) w = Some w1)
    (Hr : net_write (Plain.fd e) (contents b) w1 = (len, w'))
    (Hlen : -1 <= len <= zlen (contents b)) (Hmax : zlen (contents b) <= INT_MAX)
    (Herr : len < 0 -> errno w' <> EINTR) (Hfuel : (k < fuel)%nat) :
  exists b', Plain.write fuel e (b, w) =
    Ret (if 0 <=? len then transport.ok else failure transport.want_write (errno w'), (b', w')) /\
    buffer_wf b' /\ CAP b' = CAP b /\
    contents b' = drop (Z.to_nat len) (contents b).
Proof.
  replace fuel with (k + S (fuel - k - 1))%nat by lia.
  rewrite (plain_write_interrupted _ _ _ _ _ _ Hb Hint). by apply plain_write_once.
Qed.
End plain_lemmas.

Lemma plain_read_outcomes_witness :
  exists b', Plain.read 1 (Plain.mkEndpoint 3) (Buffer_new 8, mkToy ∅ 3 false [[1; 2; 3]] [] 0) =
    Ret (transport.ok, (b', mkToy ∅ 3 false [] [] 0)) /\ contents b' = [1; 2; 3].
Proof.
  destruct (plain_read_outcomes 1 0 (Plain.mkEndpoint 3) (Buffer_new 8)
    (mkToy ∅ 3 false [[1; 2; 3]] [] 0) (mkToy ∅ 3 false [[1; 2; 3]] [] 0)
    (mkToy ∅ 3 false [] [] 0) 3 [1; 2; 3]) as (b' & H & _ & _ & Hc).
  - apply Buffer_new_wf. lia.
  - reflexivity.
  - reflexivity.
  - intros _. split; vm_compute; [reflexivity|discriminate].
  - lia.
  - lia.
  - exists b'. split; [exact H|exact Hc].
Defined.

Lemma plain_write_outcomes_witness :
  exists b', Plain.write 1 (Plain.mkEndpoint 3) (mkBuffer [1; 2; 3] 0 3, toy0) =
    Ret (transport.ok, (b', mkToy ∅ 3 false [] [1; 2; 3] 0)) /\ contents b' = [].
Proof.
  destruct (plain_write_outcomes 1 0 (Plain.mkEndpoint 3) (mkBuffer [1; 2; 3] 0 3)
    toy0 toy0 (mkToy ∅ 3 false [] [1; 2; 3] 0) 3) as (b' & H & _ & _ & Hc).
  - vm_compute. repeat split; discriminate.
  - reflexivity.
  - reflexivity.
  - vm_compute. split; discriminate.
  - vm_compute. discriminate.
  - lia.
  - lia.
  - exists b'. split; [exact H|exact Hc].
Defined.

(** ** The BIO tells OpenSSL when to retry *)
Section bio_lemmas.
Context {W Ev : Type} {net : NetOps W Ev}.

(** A BIO read retries while signals interrupt it, then returns the number of
    bytes, or -1 with the retry flag set exactly when the socket has nothing to
    give at the moment; stale flags are cleared. *)
Lemma bio_read_reports (fuel k : nat) (b : Bio.BIO) (fd outl : Z) (w w1 w' : W) (n : Z) (data : list Z)
    (Hfd : Bio.bio_data b = Some fd)
    (Hint : reads_interrupted k fd (u64 outl) w = Some w1)
    (Hr : net_read fd (u64 outl) w1 = (n, data, w'))
    (Hn : -1 <= n <= INT_MAX) (Herr : n < 0 -> errno w' <> EINTR) (Hfuel : (k < fuel)%nat) :
  Bio.bio_read fuel outl (b, w) =
    Ret (if 0 <=? n then (n, data) else (-1, []),
         (Bio.mkBIO (Bio.bio_init b) (Some fd) ((n <? 0) && (errno w' =? EAGAIN)) false, w')).
Proof.
  unfold Bio.bio_read, mbind, M_bind at 1, Bio.set_bio, modify. cbn [fst snd].
  unfold Bio.BIO_clear_retry_flags. rewrite Hfd.
  replace fuel with (k + S (fuel - k - 1))%nat by lia. clear Hfuel. set (f := (fuel - k - 1)%nat). clearbody f.
  revert w Hint. induction k as [|k IH]; intros w Hint.
  - cbn in Hint. injection Hint as ->. apply loop_done.
    unfold M_bind, Bio.data_fd. cbn [fst snd Bio.bio_data]. rewrite Hr. cbn [fst snd].
    destruct (0 <=? n) eqn:E; bool_to_prop.
    + rewrite (proj2 (Z.ltb_ge n 0)) by lia. unfold INT_MAX in Hn. rewrite s32_id by lia. done.
    + rewrite (proj2 (Z.ltb_lt n 0)) by lia. unfold gets. cbn [snd].
      rewrite (proj2 (Z.eqb_neq _ EINTR)), eagain_or by (apply Herr; lia).
      destruct (errno w' =? EAGAIN); done.
  - cbn [reads_interrupted] in Hint. destruct (net_read fd (u64 outl) w) as [[len d] w2] eqn:Hr2.
    destruct ((len =? -1) && _) eqn:E; [|done]. bool_to_prop. subst len. rewrite <- (IH w2) by done.
    cbn [Nat.add]. apply loop_again. unfold M_bind, Bio.data_fd. cbn [fst snd Bio.bio_data]. rewrite Hr2.
    cbn [fst snd]. change (0 <=? -1) with false. cbv iota. unfold gets. cbn [snd]. by rewrite H0.
Qed.
End bio_lemmas.

Lemma bio_read_reports_witness :
  Bio.bio_read 1 16 (Bio.mkBIO true (Some 3) true true, toy0) =
    Ret ((-1, []), (Bio.mkBIO true (Some 3) true false, toy_set_errno EAGAIN toy0)).
Proof.
  eapply eq_trans; [apply (bio_read_reports 1 0 (Bio.mkBIO true (Some 3) true true) 3 16 toy0 toy0
    (toy_set_errno EAGAIN toy0) (-1) [])|reflexivity].
  - reflexivity.
  - reflexivity.
  - reflexivity.
  - unfold INT_MAX. lia.
  - discriminate.
  - lia.
Defined.
