(* ===== verification/TlsInit.v ===== *)
(** * One-time initialisation of OpenSSL

    The global context, the BIO method and their release at exit, of
    include/manet/transport/tls_bio.hpp, and [Tls::Endpoint<Net>::init] of tls.hpp with
    the initialisation in front.  The calls of OpenSSL are parameters (class
    [Libssl]), with their ownership rules as laws ([LibsslOk]). *)

From S2P Require Import Prelude Net Sockets Transport.

(** The five callbacks of a BIO method. *)
Inductive bio_slot := slot_create | slot_ctrl | slot_destroy | slot_read | slot_write.

(** Pointers are numbers, 0 is null; a call on an object that is not live is
    [UB].  [bio_at] and [bio_store] are the memory behind a [BIO *]. *)
Class Libssl (K : Type) := {
  SSL_library_init : K -> K;
  OpenSSL_add_all_algorithms : K -> K;
  SSL_load_error_strings : K -> K;
  SSL_CTX_new : K -> Z * K;
  SSL_CTX_set_default_verify_paths : Z -> K -> outcome (Z * K);
  SSL_CTX_set_min_proto_version : Z -> Z -> K -> outcome K;
  SSL_CTX_free : Z -> K -> outcome K;
  BIO_meth_new : Z -> string -> K -> Z * K;
  BIO_meth_set : bio_slot -> Z -> K -> outcome K;
  BIO_meth_free : Z -> K -> outcome K;
  BIO_new : Z -> K -> Z * K;
  bio_at : Z -> K -> option Bio.BIO;
  bio_store : Z -> Bio.BIO -> K -> K;
  OPENSSL_cleanup : K -> K
}.

Definition BIO_TYPE_SOURCE_SINK : Z := 0x0400.
Definition TLS1_2_VERSION : Z := 0x0303.

(** Contexts and methods: [new] hands out a fresh object or null, the other calls
    need a live one, [free] ends its life.  [BIO_new] runs [bio_create] on the
    new BIO. *)
Class LibsslOk (K : Type) {lib : Libssl K} := {
  live : K -> gset Z;
  setup_live : forall k, live (SSL_load_error_strings (OpenSSL_add_all_algorithms (SSL_library_init k))) = live k;
  ctx_new_live : forall k,
    let (p, k') := SSL_CTX_new k in
    if p =? 0 then live k' = live k else (p ∉ live k) /\ live k' = live k ∪ {[ p ]};
  verify_paths_live : forall p k, p ∈ live k ->
    exists r k', SSL_CTX_set_default_verify_paths p k = Ret (r, k') /\ live k' = live k;
  min_proto_live : forall p v k, p ∈ live k ->
    exists k', SSL_CTX_set_min_proto_version p v k = Ret k' /\ live k' = live k;
  ctx_free_live : forall p k, p ∈ live k ->
    exists k', SSL_CTX_free p k = Ret k' /\ live k' = live k ∖ {[ p ]};
  meth_new_live : forall t n k,
    let (p, k') := BIO_meth_new t n k in
    if p =? 0 then live k' = live k else (p ∉ live k) /\ live k' = live k ∪ {[ p ]};
  meth_set_live : forall c p k, p ∈ live k ->
    exists k', BIO_meth_set c p k = Ret k' /\ live k' = live k;
  meth_set_null : forall c k, BIO_meth_set c 0 k = UB;
  meth_free_live : forall p k, p ∈ live k ->
    exists k', BIO_meth_free p k = Ret k' /\ live k' = live k ∖ {[ p ]};
  null_not_live : forall k, 0 ∉ live k;
  bio_new_create : forall m k,
    let (p, k') := BIO_new m k in
    live k' = live k /\
    bio_at p k' = if p =? 0 then None else Some (Bio.bio_create (Bio.mkBIO false None false false)).2;
  bio_at_store : forall p b k, bio_at p (bio_store p b k) = Some b;
  bio_store_live : forall p b k, live (bio_store p b k) = live k;
  cleanup_live : forall k, live (OPENSSL_cleanup k) = live k
}.

(** Memory: [room k] allocations are sure to succeed in state [k].  An allocation
    takes at most one of them; the other calls on a live object take none. *)
Class LibsslRoom (K : Type) {lib : Libssl K} {lib_ok : LibsslOk K} := {
  room : K -> nat;
  setup_room : forall k,
    (room k <= room (SSL_load_error_strings (OpenSSL_add_all_algorithms (SSL_library_init k))))%nat;
  ctx_new_room : forall k, (room k <= S (room (SSL_CTX_new k).2))%nat;
  meth_new_room : forall t n k, (room k <= S (room (BIO_meth_new t n k).2))%nat /\
    ((0 < room k)%nat -> (BIO_meth_new t n k).1 <> 0);
  bio_new_room : forall m k, (room k <= S (room (BIO_new m k).2))%nat /\
    ((0 < room k)%nat -> (BIO_new m k).1 <> 0);
  verify_paths_room : forall p k r k',
    SSL_CTX_set_default_verify_paths p k = Ret (r, k') -> (room k <= room k')%nat;
  min_proto_room : forall p v k k', SSL_CTX_set_min_proto_version p v k = Ret k' -> (room k <= room k')%nat;
  ctx_free_room : forall p k k', SSL_CTX_free p k = Ret k' -> (room k <= room k')%nat;
  meth_set_room : forall c p k k', BIO_meth_set c p k = Ret k' -> (room k <= room k')%nat;
  bio_store_room : forall p b k, (room k <= room (bio_store p b k))%nat
}.

Module TlsInit.

(** [g_tls_ctx], [once] of [g_tls_init], [meth] of [BIO_method] ([None] before the
    first call) and the number of [g_tls_free] handlers given to [atexit]. *)
Record statics := mkStatics { g_tls_ctx : Z; once : bool; meth : option Z; atexit : nat }.

Definition statics0 : statics := mkStatics 0 false None 0.

Definition set_ctx (p : Z) (s : statics) : statics := mkStatics p (once s) (meth s) (atexit s).
Definition set_once (s : statics) : statics := mkStatics (g_tls_ctx s) true (meth s) (atexit s).
Definition set_meth (m : Z) (s : statics) : statics := mkStatics (g_tls_ctx s) (once s) (Some m) (atexit s).
Definition add_handler (s : statics) : statics := mkStatics (g_tls_ctx s) (once s) (meth s) (S (atexit s)).

Section tls_init.
Context {K : Type} {lib : Libssl K} {ssl : OpenSSL K}.
(** [Net::name]. *)
Context (name : string).

Abbreviation st := (bst statics K).

(** A library call that can be undefined. *)
Definition call {A} (f : K -> outcome (A * K)) : M st A := fun s =>
  match f (kern s) with
  | Ret (a, k) => Ret (a, mkSt (stat s) k)
  | UB => UB
  | NoFuel => NoFuel
  end.
Definition call_ (f : K -> outcome K) : M st unit := call (fun k => k' ← f k; Ret (tt, k')).

Definition ctx : M st Z := gets (fun s => g_tls_ctx (stat s)).

(** The initialiser runs on the first call; its result is not checked. *)
Definition BIO_method : M st Z :=
  m ← gets (fun s => meth (stat s));
  match m with
  | Some m => mret m
  | None =>
      m ← sys (BIO_meth_new BIO_TYPE_SOURCE_SINK name);
      call_ (BIO_meth_set slot_create m) ≫= fun _ =>
      call_ (BIO_meth_set slot_ctrl m) ≫= fun _ =>
      call_ (BIO_meth_set slot_destroy m) ≫= fun _ =>
      call_ (BIO_meth_set slot_read m) ≫= fun _ =>
      call_ (BIO_meth_set slot_write m) ≫= fun _ =>
      set_stat (set_meth m) ≫= fun _ =>
      mret m
  end.

(** [data->fd = fd] through the pointer [bio_create] left in the BIO. *)
Definition socket_BIO (fd : Z) : M st Z :=
  m ← BIO_method;
  bio ← sys (BIO_new m);
  b ← gets (fun s => bio_at bio (kern s));
  match b with
  | None => undef
  | Some b =>
      match Bio.bio_data b with
      | None => undef
      | Some _ =>
          modify (fun s => mkSt (stat s)
            (bio_store bio (Bio.mkBIO (Bio.bio_init b) (Some fd) (Bio.retry_read b) (Bio.retry_write b)) (kern s))) ≫= fun _ =>
          mret bio
      end
  end.

Definition g_tls_free : M st unit :=
  c ← ctx;
  (if negb (c =? 0) then call_ (SSL_CTX_free c) ≫= fun _ => set_stat (set_ctx 0) else mret tt) ≫= fun _ =>
  m ← BIO_method;
  (if negb (m =? 0) then call_ (BIO_meth_free m) else mret tt) ≫= fun _ =>
  sys (fun k => (tt, OPENSSL_cleanup k)).

(** The lambda under [call_once], with the exception it throws, if any. *)
Definition init_once : M st (option string) :=
  sys (fun k => (tt, SSL_load_error_strings (OpenSSL_add_all_algorithms (SSL_library_init k)))) ≫= fun _ =>
  p ← sys SSL_CTX_new;
  set_stat (set_ctx p) ≫= fun _ =>
  if p =? 0 then mret (Some "SSL_CTX_new error"%string)
  else
    r ← call (SSL_CTX_set_default_verify_paths p);
    if negb (r =? 1) then mret (Some "SSL_CTX_set_default_verify_paths error"%string)
    else
      call_ (SSL_CTX_set_min_proto_version p TLS1_2_VERSION) ≫= fun _ =>
      set_stat add_handler ≫= fun _ =>
      mret None.

(** [call_once]: the flag is set only when the function returns. *)
Definition g_tls_init : M st (option string) :=
  o ← gets (fun s => once (stat s));
  if (o : bool) then mret None
  else
    e ← init_once;
    match e with
    | None => set_stat set_once ≫= fun _ => mret None
    | Some msg => mret (Some msg)
    end.

(** [Endpoint::init] is [noexcept]: [None] is [std::terminate]. *)
Definition Endpoint_init (fd : Z) (host : list Z) : M st (option (option Tls.TlsEndpoint)) :=
  e ← g_tls_init;
  match e with
  | Some _ => mret None
  | None => r ← call (Tls.init fd host); mret (Some r)
  end.

(** The handlers at exit. *)
Fixpoint run_handlers (n : nat) : M st unit :=
  match n with
  | O => mret tt
  | S n' => g_tls_free ≫= fun _ => run_handlers n'
  end.

Definition at_exit : M st unit :=
  n ← gets (fun s => atexit (stat s)); run_handlers n.

(** A history of calls, up to the first exception. *)
Inductive use := use_init | use_method | use_bio (fd : Z).

Fixpoint uses (us : list use) : M st (option string) :=
  match us with
  | [] => mret None
  | u :: us =>
      e ← match u with
          | use_init => g_tls_init
          | use_method => BIO_method ≫= fun _ => mret None
          | use_bio fd => socket_BIO fd ≫= fun _ => mret None
          end;
      match e with
      | None => uses us
      | Some msg => mret (Some msg)
      end
  end.
End tls_init.
End TlsInit.

(** ** What is released at exit *)
Section lifetime.
Context {K : Type} {lib : Libssl K} {lib_ok : LibsslOk K} {lib_room : LibsslRoom K}.
Context (name : string).
Abbreviation st := (bst TlsInit.statics K).
Implicit Types (s : st) (base : gset Z).

(** The objects the static members refer to. *)
Definition ctx_list (p : Z) : list Z := if p =? 0 then [] else [p].
Definition meth_list (m : option Z) : list Z := match m with Some m => [m] | None => [] end.
Definition held (c : TlsInit.statics) : list Z :=
  ctx_list (TlsInit.g_tls_ctx c) ++ meth_list (TlsInit.meth c).

(** The live objects are those of before and, once each, those referred to. *)
Record holds base s : Prop := {
  holds_nodup : NoDup (held (stat s));
  holds_fresh : forall p, p ∈ held (stat s) -> p ∉ base;
  holds_live : live (kern s) = base ∪ list_to_set (held (stat s))
}.

Record tls_inv base s : Prop := {
  inv_holds : holds base s;
  inv_ctx : if TlsInit.once (stat s) then TlsInit.g_tls_ctx (stat s) <> 0 else TlsInit.g_tls_ctx (stat s) = 0;
  inv_handlers : TlsInit.atexit (stat s) = if TlsInit.once (stat s) then 1%nat else 0%nat
}.

Lemma held_live base s p : holds base s -> p ∈ held (stat s) -> p ∈ live (kern s).
Proof. intros [_ _ ->] Hp. apply elem_of_union_r. by apply elem_of_list_to_set. Qed.

(** A new object becomes one that is referred to. *)
Lemma holds_add base s c' k' p :
  holds base s -> p ∉ live (kern s) -> live k' = live (kern s) ∪ {[ p ]} -> held c' ≡ₚ p :: held (stat s) ->
  holds base (mkSt c' k').
Proof.
  intros [Hn Hf Hl] Hp Hk Hc. split; cbn [stat kern].
  - rewrite Hc. apply NoDup_cons. split; [|done]. rewrite Hl in Hp. set_solver.
  - intros q. rewrite Hc. intros [->|Hq]%elem_of_cons; [|by apply Hf]. rewrite Hl in Hp. set_solver.
  - rewrite Hk, Hl. apply set_eq. intros q. rewrite !elem_of_union, !elem_of_list_to_set, Hc, elem_of_cons. set_solver.
Qed.

(** An object that is released is no longer referred to. *)
Lemma holds_remove base s c' k' p :
  holds base s -> live k' = live (kern s) ∖ {[ p ]} -> held (stat s) ≡ₚ p :: held c' ->
  holds base (mkSt c' k').
Proof.
  intros [Hn Hf Hl] Hk Hc. rewrite Hc in Hn. apply NoDup_cons in Hn as [Hp Hn]. split; cbn [stat kern]; [done| |].
  - intros q Hq. apply Hf. rewrite Hc. by apply elem_of_cons; right.
  - assert (Hpb : p ∉ base) by (apply Hf; rewrite Hc; by left). rewrite Hk, Hl.
    apply set_eq. intros q. rewrite elem_of_difference, !elem_of_union, !elem_of_list_to_set, elem_of_singleton, Hc, elem_of_cons.
    split; [tauto|]. intros [?|?]; (split; [tauto|]); intros ->; done.
Qed.

Lemma holds_same base s c' k' :
  holds base s -> live k' = live (kern s) -> held c' = held (stat s) -> holds base (mkSt c' k').
Proof. intros [] Hk Hc. split; cbn [stat kern]; by rewrite ?Hk, ?Hc. Qed.

(** Library calls on an object that is referred to. *)
Lemma wp_call_live {A} (f : K -> outcome (A * K)) (Q : A -> st -> Prop) s :
  (exists a k', f (kern s) = Ret (a, k') /\ Q a (mkSt (stat s) k')) -> wp False False (TlsInit.call f) Q s.
Proof. intros (a & k' & Hf & HQ). unfold wp, TlsInit.call. by rewrite Hf. Qed.

Lemma wp_call_live_ (f : K -> outcome K) (Q : unit -> st -> Prop) s :
  (exists k', f (kern s) = Ret k' /\ Q tt (mkSt (stat s) k')) -> wp False False (TlsInit.call_ f) Q s.
Proof. intros (k' & Hf & HQ). apply wp_call_live. exists tt, k'. by rewrite Hf. Qed.

Lemma meth_set_wp c p s (Q : unit -> st -> Prop) :
  p ∈ live (kern s) ->
  (forall k', live k' = live (kern s) -> (room (kern s) <= room k')%nat -> Q tt (mkSt (stat s) k')) ->
  wp False False (TlsInit.call_ (BIO_meth_set c p)) Q s.
Proof.
  intros Hp HQ. apply wp_call_live_. destruct (meth_set_live c p (kern s) Hp) as (k' & H1 & H2).
  exists k'. split; [done|]. apply HQ; [done|]. by eapply meth_set_room.
Qed.

(** [BIO_method] returns a live method, creating it at the first call. *)
Lemma BIO_method_wp base n s :
  holds base s -> (S n <= room (kern s))%nat ->
  wp False False (TlsInit.BIO_method name) (fun m s' => holds base s' /\
    stat s' = TlsInit.set_meth m (stat s) /\ m <> 0 /\ (n <= room (kern s'))%nat) s.
Proof.
  intros Hs Hroom. apply wp_bind, wp_gets. destruct (TlsInit.meth (stat s)) as [m|] eqn:Hm.
  - apply wp_ret. split_and!; [done| | |lia].
    + destruct s as [[c o m' a] k]. cbn in *. by subst.
    + intros ->. eapply null_not_live, (held_live base s); [done|]. unfold held. rewrite Hm. set_solver.
  - apply wp_bind. unfold wp at 1, sys, on_kern.
    pose proof (meth_new_live TlsInit.BIO_TYPE_SOURCE_SINK name (kern s)) as Hn.
    destruct (meth_new_room TlsInit.BIO_TYPE_SOURCE_SINK name (kern s)) as [Hr1 Hr2].
    destruct (BIO_meth_new _ name (kern s)) as [p k1] eqn:Hnew. cbn [fst snd] in Hr1, Hr2.
    specialize (Hr2 ltac:(lia)). rewrite (proj2 (Z.eqb_neq _ _) Hr2) in Hn.
    destruct Hn as [Hp Hk]. assert (Hin : p ∈ live k1) by (rewrite Hk; set_solver).
    assert (Hr : (n <= room k1)%nat) by lia. clear Hr1 Hnew.
    do 5 (apply wp_bind; apply meth_set_wp; [cbn [kern]; congruence|]; cbn [kern stat]; intros ? Hl Hr1;
      rewrite <- Hl in Hin; rewrite <- Hl in Hk; apply (Nat.le_trans _ _ _ Hr) in Hr1;
      clear Hl Hr; rename Hr1 into Hr).
    apply wp_bind, wp_modify, wp_ret. split_and!; [|done..]. cbn [stat kern].
    apply (holds_add base s _ _ p); [done..|]. unfold held, TlsInit.set_meth. cbn. rewrite Hm. cbn [meth_list].
    rewrite app_nil_r. by rewrite Permutation_app_comm.
Qed.

Lemma tls_inv_meth base m s s' :
  tls_inv base s -> holds base s' -> stat s' = TlsInit.set_meth m (stat s) -> tls_inv base s'.
Proof. intros [_ Hc Hh] Hs' Hst. split; [done|..]; rewrite Hst; done. Qed.

Lemma socket_BIO_wp base fd n s :
  tls_inv base s -> (S (S n) <= room (kern s))%nat ->
  wp False False (TlsInit.socket_BIO name fd) (fun bio s' => tls_inv base s' /\
    TlsInit.once (stat s') = TlsInit.once (stat s) /\ (n <= room (kern s'))%nat /\
    bio_at bio (kern s') = Some (Bio.mkBIO true (Some fd) false false)) s.
Proof.
  intros Hs Hroom. apply wp_bind. eapply wp_mono; [apply (BIO_method_wp base (S n)); [apply inv_holds, Hs|done]|].
  cbn beta. intros m s1 (H1 & Hst & Hm & Hr1). pose proof (tls_inv_meth base m s s1 Hs H1 Hst) as I1.
  apply wp_bind. unfold wp at 1, sys, on_kern. pose proof (bio_new_create m (kern s1)) as Hb.
  destruct (bio_new_room m (kern s1)) as [Hr2 Hnz].
  destruct (BIO_new m (kern s1)) as [p k2] eqn:Hnew. destruct Hb as [Hl Hb]. cbn [fst snd] in Hr2, Hnz.
  apply wp_bind, wp_gets. cbn [kern]. rewrite Hb, (proj2 (Z.eqb_neq _ _)) by (apply Hnz; lia).
  cbn [Bio.bio_create snd Bio.bio_data Bio.bio_init Bio.retry_read Bio.retry_write].
  apply wp_bind, wp_modify, wp_ret. cbn [kern stat]. rewrite bio_at_store.
  pose proof (bio_store_room p (Bio.mkBIO true (Some fd) false false) k2).
  split_and!; [|by rewrite Hst|lia|done].
  destruct I1 as [Hh Hc Hn]. split; cbn [stat]; [|done..]. apply (holds_same base s1); [done| |done].
  by rewrite bio_store_live.
Qed.

(** [g_tls_init]: the invariant, and what an exception leaves behind. *)
Lemma g_tls_init_wp base n s :
  tls_inv base s -> (S n <= room (kern s))%nat ->
  wp False False TlsInit.g_tls_init (fun e s' =>
    match e with
    | None => tls_inv base s' /\ TlsInit.once (stat s') = true /\ (n <= room (kern s'))%nat
    | Some _ => holds base s' /\ TlsInit.once (stat s') = false /\ TlsInit.atexit (stat s') = 0%nat
    end) s.
Proof.
  intros [Hh Hc Hn] Hroom. apply wp_bind, wp_gets, wp_if; intros Ho; rewrite Ho in Hc, Hn.
  { apply wp_ret. split_and!; [split|done|lia]; rewrite ?Ho; done. }
  apply wp_bind, wp_bind. unfold wp at 1, sys, on_kern. apply wp_bind. unfold wp at 1, sys, on_kern. cbn [kern stat].
  pose proof (setup_room (kern s)) as Hr1.
  set (k1 := SSL_load_error_strings _) in *. assert (Hk1 : live k1 = live (kern s)) by apply setup_live. clearbody k1.
  pose proof (ctx_new_live k1) as Hp. pose proof (ctx_new_room k1) as Hr2. destruct (SSL_CTX_new k1) as [p k2].
  apply wp_bind, wp_modify, wp_if; intros E; rewrite E in Hp; cbn [kern stat snd] in *.
  { apply wp_ret, wp_ret. cbn [stat]. bool_to_prop. subst p. split_and!; [|done..].
    apply (holds_same base s); [done|congruence|]. unfold held. cbn. by rewrite Hc. }
  destruct Hp as [Hp Hk2].
  assert (H2 : forall c k, live k = live k2 -> TlsInit.g_tls_ctx c = p -> TlsInit.meth c = TlsInit.meth (stat s) -> holds base (mkSt c k)).
  { intros c k Hk Hcp Hcm. apply (holds_add base s c k p); [done|congruence|congruence|].
    unfold held. rewrite Hcp, Hcm, Hc. unfold ctx_list. by rewrite E. }
  assert (Hin : p ∈ live k2) by (rewrite Hk2; set_solver).
  apply wp_bind, wp_call_live. cbn [kern stat]. destruct (verify_paths_live p k2 Hin) as (r & k3 & Hr & Hk3).
  pose proof (verify_paths_room _ _ _ _ Hr) as Hr3.
  exists r, k3. split; [done|]. apply wp_if; intros _.
  { apply wp_ret, wp_ret. split_and!; [by apply H2|done..]. }
  apply wp_bind, wp_call_live_. cbn [kern stat]. rewrite <- Hk3 in Hin.
  destruct (min_proto_live p TLS1_2_VERSION k3 Hin) as (k4 & Hk4 & Hl4).
  pose proof (min_proto_room _ _ _ _ Hk4) as Hr4.
  exists k4. split; [done|]. apply wp_bind, wp_modify, wp_ret, wp_bind, wp_modify, wp_ret. cbn. bool_to_prop.
  split_and!; [split; [apply H2; cbn; congruence|done|cbn; by rewrite Hn]|done|lia].
Qed.

(** [g_tls_free] releases what the static members refer to. *)
Lemma g_tls_free_wp base s :
  holds base s -> (1 <= room (kern s))%nat ->
  wp False False (TlsInit.g_tls_free name) (fun _ s' =>
    live (kern s') = base /\ TlsInit.g_tls_ctx (stat s') = 0) s.
Proof.
  intros Hs Hroom. apply wp_bind, wp_gets, wp_bind.
  eapply wp_mono with (Q := fun _ s1 => holds base s1 /\ TlsInit.g_tls_ctx (stat s1) = 0 /\ (1 <= room (kern s1))%nat).
  { apply wp_if; intros E; bool_to_prop; [|by apply wp_ret].
    apply wp_bind, wp_call_live_.
    assert (Hheld : held (stat s) = TlsInit.g_tls_ctx (stat s) :: held (TlsInit.set_ctx 0 (stat s))).
    { unfold held at 1, ctx_list. by rewrite (proj2 (Z.eqb_neq _ _)). }
    destruct (ctx_free_live (TlsInit.g_tls_ctx (stat s)) (kern s)) as (k' & Hk & Hl).
    { apply (held_live base); [done|]. rewrite Hheld. by left. }
    pose proof (ctx_free_room _ _ _ Hk) as Hr.
    exists k'. split; [done|]. apply wp_modify. split_and!; [|done|cbn [kern]; lia].
    apply (holds_remove base s _ _ (TlsInit.g_tls_ctx (stat s))); [done..|]. by rewrite Hheld. }
  cbn beta. intros _ s1 (H1 & Hc & Hr1). apply wp_bind. eapply wp_mono; [by apply (BIO_method_wp base 0)|]. cbn beta.
  intros m s2 (H2 & Hst & Hm & _). rewrite (proj2 (Z.eqb_neq m 0)) by done. cbn [negb].
  assert (Hheld : held (stat s2) = [m]) by (rewrite Hst; unfold held; cbn; by rewrite Hc).
  apply wp_bind, wp_call_live_. destruct (meth_free_live m (kern s2)) as (k' & Hk & Hl).
  { apply (held_live base); [done|]. rewrite Hheld. by left. }
  exists k'. split; [done|]. unfold wp, sys, on_kern. cbn [kern stat]. rewrite cleanup_live. split; [|by rewrite Hst].
  destruct H2 as [_ Hf Hlive]. rewrite Hl, Hlive, Hheld. cbn. rewrite Hheld in Hf. specialize (Hf m). set_solver.
Qed.

(** A history of calls: two allocations each are enough. *)
Lemma uses_wp base us n s :
  tls_inv base s -> (2 * length us + n <= room (kern s))%nat ->
  wp False False (TlsInit.uses name us) (fun e s' =>
    match e with
    | None => tls_inv base s' /\ (TlsInit.once (stat s) = true -> TlsInit.once (stat s') = true) /\
        (n <= room (kern s'))%nat
    | Some _ => TlsInit.once (stat s') = false /\ TlsInit.atexit (stat s') = 0%nat
    end) s.
Proof.
  revert s. induction us as [|u us IH]; intros s Hs Hroom; [by apply wp_ret|]. cbn [length] in Hroom.
  cbn [TlsInit.uses]. apply wp_bind.
  eapply wp_mono with (Q := fun e s' => match e with
    | None => tls_inv base s' /\ (TlsInit.once (stat s) = true -> TlsInit.once (stat s') = true) /\
        (2 * length us + n <= room (kern s'))%nat
    | Some _ => TlsInit.once (stat s') = false /\ TlsInit.atexit (stat s') = 0%nat end).
  - destruct u as [| |fd].
    + eapply wp_mono; [apply (g_tls_init_wp base (2 * length us + n)); [done|lia]|]. cbn beta.
      intros [msg|] s'; tauto.
    + apply wp_bind. eapply wp_mono; [apply (BIO_method_wp base (2 * length us + n)); [apply Hs|lia]|]. cbn beta.
      intros m s' (H1 & Hst & _ & Hr). apply wp_ret. split_and!; [by eapply tls_inv_meth|by rewrite Hst|done].
    + apply wp_bind. eapply wp_mono; [apply (socket_BIO_wp base fd (2 * length us + n)); [done|lia]|]. cbn beta.
      intros bio s' (H1 & Ho & Hr & _). apply wp_ret. split_and!; [done|by rewrite Ho|done].
  - cbn beta. intros [msg|] s' H; [by apply wp_ret|]. destruct H as (H1 & H2 & H3).
    eapply wp_mono; [by apply IH|]. cbn beta. intros [msg|] s2; tauto.
Qed.

(** C14: a process that initialises the TLS globals and then uses them in any way,
    while OpenSSL has memory for two allocations per use and two more, meets no
    undefined behaviour: either the initialisation throws, and then no exit
    handler is registered and the next call would try again, or it is done once,
    the context stays live, one exit handler is registered, and at exit every
    context and BIO method is released exactly once and nothing else is. *)
Theorem tls_process_lifetime (us : list TlsInit.use) (k : K)
    (Hroom : (2 * length us + 2 <= room k)%nat) :
  exists e s, TlsInit.uses name (TlsInit.use_init :: us) (mkSt TlsInit.statics0 k) = Ret (e, s) /\
  match e with
  | Some _ => TlsInit.once (stat s) = false /\ TlsInit.atexit (stat s) = 0%nat
  | None =>
      TlsInit.once (stat s) = true /\ TlsInit.g_tls_ctx (stat s) ∈ live (kern s) /\ TlsInit.atexit (stat s) = 1%nat /\
      exists s', TlsInit.at_exit name s = Ret (tt, s') /\
        live (kern s') = live k /\ TlsInit.g_tls_ctx (stat s') = 0
  end.
Proof.
  assert (H0 : tls_inv (live k) (mkSt TlsInit.statics0 k)).
  { split; [|done..]. split; [constructor|set_solver|cbn; set_solver]. }
  pose proof (g_tls_init_wp (live k) (2 * length us + 1) _ H0 ltac:(cbn [kern]; lia)) as Hi.
  cbn [TlsInit.uses]. unfold mbind, M_bind. unfold wp in Hi.
  destruct (TlsInit.g_tls_init _) as [[[msg|] s1]| |]; [exists (Some msg), s1; tauto| |done..].
  destruct Hi as (I1 & O1 & R1). pose proof (uses_wp (live k) us 1 s1 I1 R1) as Hu. unfold wp in Hu.
  destruct (TlsInit.uses name us s1) as [[[msg|] s2]| |]; [by exists (Some msg), s2| |done..].
  destruct Hu as (I2 & O2 & R2). specialize (O2 O1). pose proof I2 as [Hh Hc Hn]. rewrite O2 in Hc, Hn.
  exists None, s2. split_and!; [done|done| |done|].
  - apply (held_live (live k)); [done|]. unfold held, ctx_list. rewrite (proj2 (Z.eqb_neq _ _)) by done. set_solver.
  - unfold TlsInit.at_exit, mbind, M_bind, gets. rewrite Hn. cbn [TlsInit.run_handlers]. unfold mbind, M_bind.
    pose proof (g_tls_free_wp (live k) s2 Hh R2) as Hf. unfold wp in Hf.
    destruct (TlsInit.g_tls_free name s2) as [[[] s3]| |]; [by exists s3|done..].
Qed.

(** Without that memory: a null method is used as if it were one. *)
Lemma BIO_method_null (s : st)
    (Hfirst : TlsInit.meth (stat s) = None)
    (Hnew : (BIO_meth_new TlsInit.BIO_TYPE_SOURCE_SINK name (kern s)).1 = 0) :
  TlsInit.BIO_method name s = UB.
Proof.
  unfold TlsInit.BIO_method, mbind, M_bind, gets, sys, on_kern. rewrite Hfirst.
  destruct (BIO_meth_new _ name (kern s)) as [p k1]. cbn in Hnew. subst p.
  unfold TlsInit.call_, TlsInit.call. cbn [kern]. by rewrite meth_set_null.
Qed.
End lifetime.

Section failure.
Context {K : Type} {lib : Libssl K} {ssl : OpenSSL K}.

(** When OpenSSL cannot make a context, [Endpoint::init] does not return an
    empty endpoint: the exception leaves a [noexcept] function and ends the
    process, without the exit handler. *)
Lemma tls_init_failure_terminates (fd : Z) (host : list Z) (c : TlsInit.statics) (k k' : K)
    (Hfirst : TlsInit.once c = false)
    (Hnew : SSL_CTX_new (SSL_load_error_strings (OpenSSL_add_all_algorithms (SSL_library_init k))) = (0, k')) :
  TlsInit.Endpoint_init fd host (mkSt c k) = Ret (None, mkSt (TlsInit.set_ctx 0 c) k').
Proof.
  unfold TlsInit.Endpoint_init, TlsInit.g_tls_init, TlsInit.init_once, mbind, M_bind, gets, sys, on_kern.
  cbn [stat kern]. rewrite Hfirst. cbn [stat kern]. rewrite Hnew. done.
Qed.
End failure.

(** ** A small OpenSSL, for the witnesses

    Objects are numbered from 1; a process has room for a few of them. *)
Record toy_lib := mkLib { tl_live : gset Z; tl_next : Z; tl_room : Z; tl_bios : gmap Z Bio.BIO }.

Definition tl_new (k : toy_lib) : Z * toy_lib :=
  if (0 <? tl_next k) && (tl_next k <? tl_room k) && negb (bool_decide (tl_next k ∈ tl_live k)) then
    (tl_next k, mkLib (tl_live k ∪ {[ tl_next k ]}) (tl_next k + 1) (tl_room k) (tl_bios k))
  else (0, k).

Definition tl_free (p : Z) (k : toy_lib) : outcome toy_lib :=
  if bool_decide (p ∈ tl_live k ∖ {[ 0 ]}) then Ret (mkLib (tl_live k ∖ {[ p ]}) (tl_next k) (tl_room k) (tl_bios k)) else UB.

Definition tl_use (p : Z) (k : toy_lib) : outcome toy_lib :=
  if bool_decide (p ∈ tl_live k ∖ {[ 0 ]}) then Ret k else UB.

Definition tl_bio (k : toy_lib) : Z * toy_lib :=
  if (0 <? tl_next k) && (tl_next k <? tl_room k) then
    (tl_next k, mkLib (tl_live k) (tl_next k + 1) (tl_room k)
      (<[tl_next k := (Bio.bio_create (Bio.mkBIO false None false false)).2]> (tl_bios k)))
  else (0, mkLib (tl_live k) (tl_next k) (tl_room k) (delete 0 (tl_bios k))).

#[export] Instance toy_libssl : Libssl toy_lib := {
  SSL_library_init := id;
  OpenSSL_add_all_algorithms := id;
  SSL_load_error_strings := id;
  SSL_CTX_new := tl_new;
  SSL_CTX_set_default_verify_paths := fun p k => k' ← tl_use p k; Ret (1, k');
  SSL_CTX_set_min_proto_version := fun p _ => tl_use p;
  SSL_CTX_free := tl_free;
  BIO_meth_new := fun _ _ => tl_new;
  BIO_meth_set := fun _ => tl_use;
  BIO_meth_free := tl_free;
  BIO_new := fun _ => tl_bio;
  bio_at := fun p k => tl_bios k !! p;
  bio_store := fun p b k => mkLib (tl_live k) (tl_next k) (tl_room k) (<[p := b]> (tl_bios k));
  OPENSSL_cleanup := id
}.

Lemma tl_use_live p k : p ∈ tl_live k ∖ {[ 0 ]} -> tl_use p k = Ret k.
Proof. intros H. unfold tl_use. by rewrite bool_decide_true. Qed.

Lemma tl_new_live k :
  let (p, k') := tl_new k in
  if p =? 0 then tl_live k' ∖ {[ 0 ]} = tl_live k ∖ {[ 0 ]}
  else (p ∉ tl_live k ∖ {[ 0 ]}) /\ tl_live k' ∖ {[ 0 ]} = tl_live k ∖ {[ 0 ]} ∪ {[ p ]}.
Proof.
  unfold tl_new. destruct (_ && _) eqn:E; [|done]. bool_to_prop. cbn [tl_live].
  rewrite (proj2 (Z.eqb_neq _ 0)) by lia. apply bool_decide_eq_false in H0. split; [set_solver|].
  assert (tl_next k <> 0) by lia. set_solver.
Qed.

Lemma tl_free_live p k : p ∈ tl_live k ∖ {[ 0 ]} ->
  exists k', tl_free p k = Ret k' /\ tl_live k' ∖ {[ 0 ]} = tl_live k ∖ {[ 0 ]} ∖ {[ p ]}.
Proof. intros H. unfold tl_free. rewrite bool_decide_true by done. eexists. split; [done|]. cbn. set_solver. Qed.

#[export] Instance toy_libssl_ok : LibsslOk toy_lib.
Proof.
  refine {| live := fun k => tl_live k ∖ {[ 0 ]} |}; cbn; intros; try done.
  - apply tl_new_live.
  - rewrite tl_use_live by done. by exists 1, k.
  - rewrite tl_use_live by done. by exists k.
  - by apply tl_free_live.
  - apply tl_new_live.
  - rewrite tl_use_live by done. by exists k.
  - unfold tl_use. rewrite bool_decide_false; [done|set_solver].
  - by apply tl_free_live.
  - set_solver.
  - unfold tl_bio. destruct (_ && _) eqn:E; cbn; [|split; [done|by simplify_map_eq]].
    bool_to_prop. rewrite (proj2 (Z.eqb_neq _ 0)) by lia. by simplify_map_eq.
  - by simplify_map_eq.
Defined.

(** Numbers from [tl_next] on are free. *)
Definition tl_tidy (k : toy_lib) : Prop := 0 < tl_next k /\ set_Forall (fun p => p < tl_next k) (tl_live k).

#[export] Instance tl_tidy_dec k : Decision (tl_tidy k).
Proof. unfold tl_tidy. apply _. Defined.

Definition tl_free_slots (k : toy_lib) : nat :=
  if decide (tl_tidy k) then Z.to_nat (tl_room k - tl_next k) else 0.

Lemma tl_new_slots k :
  (tl_free_slots k <= S (tl_free_slots (tl_new k).2))%nat /\ ((0 < tl_free_slots k)%nat -> (tl_new k).1 <> 0).
Proof.
  unfold tl_free_slots at 1 3. destruct (decide (tl_tidy k)) as [[Hp Hl]|]; [|lia].
  unfold tl_new. destruct (_ && _) eqn:E; cbn [fst snd]; bool_to_prop.
  - split; [|lia]. unfold tl_free_slots. cbn [tl_room tl_next]. rewrite decide_True; [lia|].
    split; cbn [tl_next tl_live]; [lia|]. apply set_Forall_union; [|apply set_Forall_singleton; lia].
    intros p Hin. specialize (Hl p Hin). cbn in Hl. lia.
  - assert (Hn : ~ tl_next k < tl_room k).
    { intros Hlt. rewrite (proj2 (Z.ltb_lt _ _) Hp), (proj2 (Z.ltb_lt _ _) Hlt) in E. cbn in E.
      apply negb_false_iff, bool_decide_eq_true in E. specialize (Hl _ E). cbn in Hl. lia. }
    split; lia.
Qed.

Lemma tl_bio_slots k :
  (tl_free_slots k <= S (tl_free_slots (tl_bio k).2))%nat /\ ((0 < tl_free_slots k)%nat -> (tl_bio k).1 <> 0).
Proof.
  unfold tl_free_slots at 1 3. destruct (decide (tl_tidy k)) as [[Hp Hl]|]; [|lia].
  unfold tl_bio. destruct (_ && _) eqn:E; cbn [fst snd]; bool_to_prop.
  - split; [|lia]. unfold tl_free_slots. cbn [tl_room tl_next]. rewrite decide_True; [lia|].
    split; cbn [tl_next tl_live]; [lia|]. intros p Hin. specialize (Hl p Hin). cbn in Hl. lia.
  - assert (Hn : ~ tl_next k < tl_room k).
    { intros Hlt. by rewrite (proj2 (Z.ltb_lt _ _) Hp), (proj2 (Z.ltb_lt _ _) Hlt) in E. }
    split; lia.
Qed.

Lemma tl_free_more p k k' : tl_free p k = Ret k' -> (tl_free_slots k <= tl_free_slots k')%nat.
Proof.
  unfold tl_free. destruct (bool_decide _); [|done]. intros [= <-]. unfold tl_free_slots. cbn [tl_room tl_next].
  destruct (decide (tl_tidy k)) as [[Hp Hl]|]; [|lia]. rewrite decide_True; [done|].
  split; [done|]. intros q Hq. apply Hl. cbn in Hq. set_solver.
Qed.

Lemma tl_use_same p k k' : tl_use p k = Ret k' -> (tl_free_slots k <= tl_free_slots k')%nat.
Proof. unfold tl_use. destruct (bool_decide _); [|done]. by intros [= <-]. Qed.

#[export] Instance toy_libssl_room : LibsslRoom toy_lib.
Proof.
  refine {| room := tl_free_slots |}; cbn -[tl_use tl_free]; intros; try done.
  - apply tl_new_slots.
  - apply tl_new_slots.
  - apply tl_bio_slots.
  - destruct (tl_use p k) as [k1| |] eqn:E; [|done..]. cbn in H. simplify_eq. by eapply tl_use_same.
  - by eapply tl_use_same.
  - by eapply tl_free_more.
  - by eapply tl_use_same.
Defined.

Lemma tls_process_lifetime_witness :
  exists s s', TlsInit.uses "epoll" [TlsInit.use_init; TlsInit.use_bio 3; TlsInit.use_init; TlsInit.use_bio 4]
      (mkSt TlsInit.statics0 (mkLib ∅ 1 10 ∅)) = Ret (None, s) /\
    TlsInit.atexit (stat s) = 1%nat /\ TlsInit.g_tls_ctx (stat s) ∈ live (kern s) /\
    TlsInit.at_exit "epoll" s = Ret (tt, s') /\ live (kern s') = live (mkLib ∅ 1 10 ∅).
Proof.
  destruct (tls_process_lifetime "epoll" [TlsInit.use_bio 3; TlsInit.use_init; TlsInit.use_bio 4] (mkLib ∅ 1 10 ∅))
    as (e & s & Hrun & H).
  - vm_compute. lia.
  - destruct e as [msg|]; [vm_compute in Hrun; discriminate Hrun|].
    destruct H as (_ & H1 & H2 & s' & H3 & H4 & _). exists s, s'. auto.
Defined.

(** No room for a context; the calls on a single [SSL] are not reached. *)
#[local] Instance no_ssl : OpenSSL toy_lib := {
  SSL_new := fun k => (None, k);
  SSL_attach_socket := fun _ _ _ => UB;
  SSL_set_tlsext_host_name := fun _ _ _ => UB;
  SSL_set_verify_peer := fun _ _ => UB;
  SSL_set1_host := fun _ _ _ => UB;
  SSL_free := fun _ _ => UB;
  SSL_connect := fun _ _ => UB;
  SSL_read := fun _ _ _ => UB;
  SSL_write := fun _ _ _ => UB;
  SSL_shutdown := fun _ _ => UB;
  SSL_get_error := fun _ _ _ => UB
}.

Lemma tls_init_failure_terminates_witness :
  TlsInit.Endpoint_init 3 (str "host") (mkSt TlsInit.statics0 (mkLib ∅ 1 1 ∅)) =
    Ret (None, mkSt TlsInit.statics0 (mkLib ∅ 1 1 ∅)).
Proof.
  apply (tls_init_failure_terminates 3 (str "host") TlsInit.statics0 (mkLib ∅ 1 1 ∅) (mkLib ∅ 1 1 ∅)).
  - reflexivity.
  - reflexivity.
Defined.
