(* ===== verification/Connection.v ===== *)
(** * The connection state machine

    [reactor::Connection<Net, Transport, Protocol>]
    (include/manet/reactor/connection.hpp) over the three concepts it is
    generic in: [NetOps], [TransportOps] and [ProtocolOps].  Each private method
    is one definition in a state monad over the object and the outside world;
    [while (true)] loops are [loop fuel].  Logging is left out. *)

From S2P Require Import Prelude Status Buffer Net Transport.

(** [concept Protocol] with its optional parts
    (include/manet/protocol/concepts.hpp). *)
Class ProtocolOps (W P Cfg : Type) := {
  session_new : list Z -> Z -> Cfg -> P;
  proto_on_connect : option (P -> IO -> W -> outcome (protocol.Status * P * IO * W));
  proto_on_data : P -> IO -> W -> outcome (protocol.Status * P * IO * W);
  proto_on_shutdown : option (P -> IO -> W -> outcome (protocol.Status * P * IO * W));
  proto_heartbeat : option (P -> Buffer -> W -> outcome (P * Buffer * W));
  proto_teardown : option (P -> W -> outcome (P * W))
}.

Module state_t.
Inductive t : Set :=
| uninitialized | in_progress | transport | protocol | close_protocol
| drain_protocol | close_transport | closed | error.

#[global] Instance t_eq_dec : EqDecision t.
Proof. solve_decision. Defined.

Definition to_string (s : t) : string :=
  match s with
  | uninitialized => "uninitialized"
  | in_progress => "in_progress"
  | transport => "transport"
  | protocol => "Protocol"
  | close_protocol => "close_protocol"
  | drain_protocol => "drain_protocol"
  | close_transport => "close_transport"
  | closed => "closed"
  | error => "error"
  end.
End state_t.

Section connection.
Context {W Ev E TCfg P PCfg : Type}.
Context {net : NetOps W Ev} {tr : TransportOps W E TCfg} {pr : ProtocolOps W P PCfg}.
Context (fuel : nat).

(** [_transport] is [None] until an endpoint was assigned to it. *)
Record Connection := mkConn {
  _rx : Buffer;
  _tx : Buffer;
  _transport : option E;
  _protocol : P;
  _transport_config : TCfg;
  _protocol_config : PCfg;
  _host : list Z;
  _cookie : option Z;
  _fd : Z;
  _state : state_t.t;
  _port : Z
}.

(** The constructor. *)
Definition Connection_new (host : list Z) (port : Z) (tc : TCfg) (pc : PCfg) : Connection :=
  mkConn (Buffer_new RX_CAP) (Buffer_new TX_CAP) None (session_new host port pc) tc pc host None
         (-1) state_t.uninitialized port.

Record cst := mkCst { conn : Connection; world : W }.

Definition with_conn (f : Connection -> Connection) : M cst unit :=
  modify (fun s => mkCst (f (conn s)) (world s)).
Definition with_world (f : W -> W) : M cst unit :=
  modify (fun s => mkCst (conn s) (f (world s))).

Definition set_rx (b : Buffer) (c : Connection) : Connection :=
  mkConn b (_tx c) (_transport c) (_protocol c) (_transport_config c) (_protocol_config c)
         (_host c) (_cookie c) (_fd c) (_state c) (_port c).
Definition set_tx (b : Buffer) (c : Connection) : Connection :=
  mkConn (_rx c) b (_transport c) (_protocol c) (_transport_config c) (_protocol_config c)
         (_host c) (_cookie c) (_fd c) (_state c) (_port c).
Definition set_transport (e : option E) (c : Connection) : Connection :=
  mkConn (_rx c) (_tx c) e (_protocol c) (_transport_config c) (_protocol_config c)
         (_host c) (_cookie c) (_fd c) (_state c) (_port c).
Definition set_protocol (p : P) (c : Connection) : Connection :=
  mkConn (_rx c) (_tx c) (_transport c) p (_transport_config c) (_protocol_config c)
         (_host c) (_cookie c) (_fd c) (_state c) (_port c).
Definition set_cookie (k : option Z) (c : Connection) : Connection :=
  mkConn (_rx c) (_tx c) (_transport c) (_protocol c) (_transport_config c) (_protocol_config c)
         (_host c) k (_fd c) (_state c) (_port c).
Definition set_fd (fd : Z) (c : Connection) : Connection :=
  mkConn (_rx c) (_tx c) (_transport c) (_protocol c) (_transport_config c) (_protocol_config c)
         (_host c) (_cookie c) fd (_state c) (_port c).
Definition set_state (x : state_t.t) (c : Connection) : Connection :=
  mkConn (_rx c) (_tx c) (_transport c) (_protocol c) (_transport_config c) (_protocol_config c)
         (_host c) (_cookie c) (_fd c) x (_port c).

Definition get_state : M cst state_t.t := gets (fun s => _state (conn s)).
Definition get_fd : M cst Z := gets (fun s => _fd (conn s)).
Definition put_state (x : state_t.t) : M cst unit := with_conn (set_state x).

Definition rx_rbuf : M cst (list Z) := fun s => lift (rbuf (_rx (conn s))) s.
Definition tx_rbuf : M cst (list Z) := fun s => lift (rbuf (_tx (conn s))) s.

(** ** Calls into the three layers *)

Definition subscribe (want_read want_write : bool) : M cst unit := fun s =>
  Ret (tt, mkCst (conn s) (net_subscribe (_cookie (conn s)) (_fd (conn s)) want_read want_write (world s))).

Definition call_step (f : E -> W -> outcome (transport.Status * E * W)) : M cst transport.Status := fun s =>
  match _transport (conn s) with
  | None => UB
  | Some e =>
      match f e (world s) with
      | Ret (st, e', w) => Ret (st, mkCst (set_transport (Some e') (conn s)) w)
      | UB => UB
      | NoFuel => NoFuel
      end
  end.

(** [_transport.read(Output{&_rx})] and [_transport.write(Input{&_tx})]. *)
Definition call_read : M cst transport.Status := fun s =>
  match _transport (conn s) with
  | None => UB
  | Some e =>
      match ep_read e (_rx (conn s)) (world s) with
      | Ret (st, e', b, w) => Ret (st, mkCst (set_rx b (set_transport (Some e') (conn s))) w)
      | UB => UB
      | NoFuel => NoFuel
      end
  end.

Definition call_write : M cst transport.Status := fun s =>
  match _transport (conn s) with
  | None => UB
  | Some e =>
      match ep_write e (_tx (conn s)) (world s) with
      | Ret (st, e', b, w) => Ret (st, mkCst (set_tx b (set_transport (Some e') (conn s))) w)
      | UB => UB
      | NoFuel => NoFuel
      end
  end.

Definition call_destroy : M cst unit := fun s =>
  match ep_destroy (_transport (conn s)) (world s) with
  | Ret (e, w) => Ret (tt, mkCst (set_transport e (conn s)) w)
  | UB => UB
  | NoFuel => NoFuel
  end.

(** [(_protocol.*Handler)(IO{Input{&_rx}, Output{&_tx}})]. *)
Definition call_handler (h : P -> IO -> W -> outcome (protocol.Status * P * IO * W)) : M cst protocol.Status :=
  fun s =>
  match h (_protocol (conn s)) (mkIO (_rx (conn s)) (_tx (conn s))) (world s) with
  | Ret (st, p, io, w) =>
      Ret (st, mkCst (set_rx (io_rx io) (set_tx (io_tx io) (set_protocol p (conn s)))) w)
  | UB => UB
  | NoFuel => NoFuel
  end.

Definition call_heartbeat (h : P -> Buffer -> W -> outcome (P * Buffer * W)) : M cst unit := fun s =>
  match h (_protocol (conn s)) (_tx (conn s)) (world s) with
  | Ret (p, tx, w) => Ret (tt, mkCst (set_tx tx (set_protocol p (conn s))) w)
  | UB => UB
  | NoFuel => NoFuel
  end.

Definition call_teardown : M cst unit := fun s =>
  match proto_teardown with
  | None => Ret (tt, s)
  | Some h =>
      match h (_protocol (conn s)) (world s) with
      | Ret (p, w) => Ret (tt, mkCst (set_protocol p (conn s)) w)
      | UB => UB
      | NoFuel => NoFuel
      end
  end.

(** ** Leaving *)

(** [Net::clear(_fd); Net::close(_fd); _fd = -1;] *)
Definition release_fd : M cst unit :=
  fd ← get_fd;
  with_world (net_clear fd) ≫= fun _ =>
  with_world (net_close fd) ≫= fun _ =>
  with_conn (set_fd (-1)).

Definition teardown : M cst unit :=
  fd ← get_fd;
  if negb (fd =? -1) then
    call_teardown ≫= fun _ =>
    call_destroy ≫= fun _ =>
    release_fd
  else mret tt.

Definition enter_close_transport : M cst unit := put_state state_t.close_transport.
Definition enter_error : M cst unit := put_state state_t.error ≫= fun _ => teardown.
Definition enter_closed : M cst unit := put_state state_t.closed ≫= fun _ => teardown.

Definition arm (status : transport.Status) : M cst unit :=
  match status with
  | transport.want_read =>
      pending ← tx_rbuf;
      subscribe true (negb (zlen pending =? 0))
  | transport.want_write =>
      st ← get_state;
      subscribe (bool_decide (st = state_t.protocol) || bool_decide (st = state_t.close_protocol)) true
  | transport.error => enter_error
  | _ => mret tt
  end.

(** ** Writing *)

(** One round of the loop in [transport_write]; [Some b] leaves it. *)
Definition write_round : M cst (option bool) :=
  fd ← get_fd;
  if fd =? -1 then mret (Some true)
  else
    src ← tx_rbuf;
    if zlen src =? 0 then mret (Some true)
    else
      status ← call_write;
      st ← get_state;
      if bool_decide (status = transport.close) && negb (bool_decide (st = state_t.error)) then
        enter_close_transport ≫= fun _ => mret (Some false)
      else if negb (bool_decide (status = transport.ok)) then
        arm status ≫= fun _ => mret (Some false)
      else
        after ← tx_rbuf;
        if zlen after =? zlen src then
          arm transport.want_write ≫= fun _ => mret (Some false)
        else mret None.

Definition transport_write (re_arm : bool) : M cst bool :=
  drained ← loop fuel write_round;
  if (drained : bool) then
    fd ← get_fd;
    st ← get_state;
    (if re_arm && negb (fd =? -1) &&
        (bool_decide (st = state_t.protocol) || bool_decide (st = state_t.close_protocol))
     then subscribe true false else mret tt) ≫= fun _ =>
    mret true
  else mret false.

(** ** Protocol callbacks *)

(** One round of the shutdown loops; [Some b] leaves with [b], which the read
    callback of [step_close_protocol] returns. *)
Definition shutdown_round (h : P -> IO -> W -> outcome (protocol.Status * P * IO * W)) : M cst (option bool) :=
  before ← rx_rbuf;
  status ← call_handler h;
  match status with
  | protocol.ok =>
      transport_write true ≫= fun _ =>
      st ← get_state;
      if negb (bool_decide (st = state_t.close_protocol)) then mret (Some false)
      else
        after ← rx_rbuf;
        if zlen before <=? zlen after then mret (Some true) else mret None
  | protocol.close => put_state state_t.drain_protocol ≫= fun _ => mret (Some false)
  | protocol.error => enter_error ≫= fun _ => mret (Some false)
  end.

Definition enter_close_protocol : M cst unit :=
  match proto_on_shutdown with
  | Some h =>
      put_state state_t.close_protocol ≫= fun _ =>
      loop fuel (shutdown_round h) ≫= fun _ => mret tt
  | None => enter_close_transport
  end.

Definition bind_protocol (h : P -> IO -> W -> outcome (protocol.Status * P * IO * W)) : M cst unit :=
  status ← call_handler h;
  match status with
  | protocol.ok => transport_write true ≫= fun _ => mret tt
  | protocol.close =>
      transport_write true ≫= fun _ =>
      match proto_on_shutdown with
      | Some _ =>
          st ← get_state;
          if bool_decide (st = state_t.protocol) then enter_close_protocol else enter_close_transport
      | None =>
          flushed ← transport_write true;
          if (flushed : bool) then enter_close_transport else put_state state_t.drain_protocol
      end
  | protocol.error => enter_error
  end.

Definition enter_Protocol : M cst unit :=
  put_state state_t.protocol ≫= fun _ =>
  match proto_on_connect with
  | Some h => bind_protocol h
  | None => transport_write true ≫= fun _ => mret tt
  end.

Definition enter_connected : M cst unit :=
  r ← (fun s => match ep_init (_fd (conn s)) (_transport_config (conn s)) (world s) with
                | Ret (e, w) => Ret (e, mkCst (conn s) w)
                | UB => UB
                | NoFuel => NoFuel
                end);
  match r with
  | None =>
      put_state state_t.error ≫= fun _ =>
      fd ← get_fd;
      if negb (fd =? -1) then call_teardown ≫= fun _ => release_fd else mret tt
  | Some e =>
      with_conn (set_transport (Some e)) ≫= fun _ =>
      match ep_handshake_step with
      | Some _ => put_state state_t.transport
      | None => subscribe true false ≫= fun _ => enter_Protocol
      end
  end.

(** ** Reading *)

Definition consume_round : M cst (option unit) :=
  before ← rx_rbuf;
  if zlen before =? 0 then mret (Some tt)
  else
    bind_protocol proto_on_data ≫= fun _ =>
    st ← get_state;
    if negb (bool_decide (st = state_t.protocol)) then mret (Some tt)
    else
      after ← rx_rbuf;
      if zlen before <=? zlen after then mret (Some tt) else mret None.

Definition protocol_consume : M cst unit := loop fuel consume_round.

Definition read_round (consume : M cst bool) (on_close : M cst unit) : M cst (option unit) :=
  is_full ← gets (fun s => full (_rx (conn s)));
  if (is_full : bool) then enter_error ≫= fun _ => mret (Some tt)
  else
    before ← rx_rbuf;
    st ← call_read;
    after ← rx_rbuf;
    go ← (if negb (zlen after =? zlen before) then consume else mret true);
    if negb (go : bool) then mret (Some tt)
    else
      match st with
      | transport.ok => mret None
      | transport.close => on_close ≫= fun _ => mret (Some tt)
      | transport.want_read | transport.want_write => arm st ≫= fun _ => mret (Some tt)
      | transport.error => enter_error ≫= fun _ => mret (Some tt)
      end.

Definition transport_read (consume : M cst bool) (on_close : M cst unit) : M cst unit :=
  loop fuel (read_round consume on_close).

(** ** Steps *)

Definition step_in_progress (ev : Ev) : M cst unit :=
  if ev_writeable ev then
    r ← (fun s => let '(ret, err, w) := net_getsockopt_error (_fd (conn s)) (world s) in
                  Ret ((ret, err), mkCst (conn s) w));
    if (r : Z * Z).1 =? -1 then enter_error
    else if negb (r.2 =? 0) then enter_error
    else enter_connected
  else if ev_error ev || ev_close ev then enter_error
  else mret tt.

Definition step_Transport : M cst unit :=
  match ep_handshake_step with
  | None => mret tt
  | Some h =>
      status ← call_step h;
      match status with
      | transport.ok => enter_Protocol
      | transport.close => enter_error
      | _ => arm status
      end
  end.

Definition step_Protocol (ev : Ev) : M cst unit :=
  (if ev_readable ev then
     transport_read
       (protocol_consume ≫= fun _ => st ← get_state; mret (bool_decide (st = state_t.protocol)))
       enter_close_transport
   else mret tt) ≫= fun _ =>
  if ev_writeable ev then transport_write true ≫= fun _ => mret tt else mret tt.

Definition shutdown_consume : M cst bool :=
  match proto_on_shutdown with
  | Some h => loop fuel (shutdown_round h)
  | None => put_state state_t.drain_protocol ≫= fun _ => mret false
  end.

Definition step_close_protocol (ev : Ev) : M cst unit :=
  (if ev_readable ev then transport_read shutdown_consume enter_close_transport else mret tt) ≫= fun _ =>
  if ev_writeable ev then transport_write true ≫= fun _ => mret tt else mret tt.

Definition step_drain_protocol (ev : option Ev) : M cst unit :=
  (if match ev with Some ev => ev_readable ev | None => false end then
     transport_read (mret true) (mret tt) ≫= fun _ =>
     with_conn (fun c => set_rx (clear (_rx c)) c)
   else mret tt) ≫= fun _ =>
  flushed ← transport_write false;
  if (flushed : bool) then enter_close_transport else mret tt.

Definition step_close_transport : M cst unit :=
  match ep_shutdown_step with
  | Some h =>
      status ← call_step h;
      match status with
      | transport.ok => enter_closed
      | transport.error | transport.close => enter_error
      | _ => arm status
      end
  | None => enter_closed
  end.

(** One round of [steps]: [Some tt] returns. *)
Definition steps_round (ev : option Ev) : M cst (option unit) :=
  before ← get_state;
  let check (m : M cst unit) : M cst (option unit) :=
    m ≫= fun _ =>
    st ← get_state;
    mret (if decide (st = before) then Some tt else None) in
  let need (f : Ev -> M cst unit) : M cst (option unit) :=
    match ev with None => mret (Some tt) | Some e => check (f e) end in
  match before with
  | state_t.uninitialized => undef
  | state_t.in_progress => need step_in_progress
  | state_t.transport => check step_Transport
  | state_t.protocol => need step_Protocol
  | state_t.close_protocol => need step_close_protocol
  | state_t.drain_protocol => check (step_drain_protocol ev)
  | state_t.close_transport => check step_close_transport
  | state_t.closed | state_t.error => mret (Some tt)
  end.

Definition steps (ev : option Ev) : M cst unit := loop fuel (steps_round ev).

(** ** Entry points *)

Definition enter_uninitialized : M cst unit :=
  put_state state_t.uninitialized ≫= fun _ =>
  with_conn (fun c => set_rx (clear (_rx c)) c) ≫= fun _ =>
  with_conn (fun c => set_tx (clear (_tx c)) c) ≫= fun _ =>
  result ← (fun s => let (r, w) := dial (_host (conn s)) (_port (conn s)) (world s) in
                     Ret (r, mkCst (conn s) w));
  if dial_fd result =? -1 then
    with_conn (set_fd (-1)) ≫= fun _ => put_state state_t.error
  else
    with_conn (set_fd (dial_fd result)) ≫= fun _ =>
    if dial_err result =? EINPROGRESS then
      put_state state_t.in_progress ≫= fun _ => subscribe false true
    else enter_connected ≫= fun _ => steps None.

Definition attach (cookie : option Z) : M cst unit :=
  k ← gets (fun s => _cookie (conn s));
  match k with
  | Some _ => mret tt
  | None => with_conn (set_cookie cookie) ≫= fun _ => enter_uninitialized
  end.

Definition handle_event (ev : Ev) : M cst unit := steps (Some ev).

Definition heartbeat : M cst unit :=
  match proto_heartbeat with
  | None => mret tt
  | Some h =>
      st ← get_state;
      if bool_decide (st = state_t.protocol) then
        call_heartbeat h ≫= fun _ => transport_write true ≫= fun _ => mret tt
      else mret tt
  end.

Definition closed (c : Connection) : bool := bool_decide (_state c = state_t.closed).
Definition done_ (c : Connection) : bool :=
  bool_decide (_state c = state_t.error) || bool_decide (_state c = state_t.closed).

Definition restart : M cst unit :=
  d ← gets (fun s => done_ (conn s));
  if negb (d : bool) then mret tt
  else
    teardown ≫= fun _ =>
    with_conn (fun c => set_protocol (session_new (_host c) (_port c) (_protocol_config c)) c) ≫= fun _ =>
    enter_uninitialized.

Definition stop : M cst unit :=
  st ← get_state;
  match st with
  | state_t.uninitialized | state_t.in_progress => enter_closed
  | state_t.transport => enter_close_transport
  | state_t.protocol => enter_close_protocol
  | _ => mret tt
  end ≫= fun _ => steps None.

Definition destructor : M cst unit := teardown.
End connection.

Arguments Connection : clear implicits.
Arguments cst : clear implicits.

(** ** What a connection relies on

    [J fd e w]: the world [w] is fit for a connection that owns descriptor [fd]
    ([-1]: none) and endpoint [e]; [rem w] bounds how many more reads can succeed;
    [cookie k]: the connection may be registered under the user data [k].
    [nf] and [ub] say whether running out of fuel and undefined behaviour are
    accepted: the laws, and with them the theorems, hold at each strength. *)

Definition owp {A} (nf ub : Prop) (o : outcome A) (Q : A -> Prop) : Prop :=
  match o with Ret a => Q a | UB => ub | NoFuel => nf end.

Record env_rel (W E : Type) := mkEnv {
  env_inv : Z -> option E -> W -> Prop;
  env_rem : W -> nat;
  env_cookie : option Z -> Prop
}.
Arguments mkEnv {W E}. Arguments env_inv {W E}. Arguments env_rem {W E}. Arguments env_cookie {W E}.

Definition env_at {W E} (R : env_rel W E) (n : nat) (fd : Z) (e : option E) (w : W) : Prop :=
  env_inv R fd e w /\ (env_rem R w <= n)%nat.

Section env.
Context {W Ev E TCfg P PCfg : Type}.
Context {net : NetOps W Ev} {tr : TransportOps W E TCfg} {pr : ProtocolOps W P PCfg}.
Context (R : env_rel W E) (nf ub : Prop).

Definition handler_law (h : P -> IO -> W -> outcome (protocol.Status * P * IO * W)) : Prop :=
  forall n fd e p io w, env_at R n fd e w -> io_wf io ->
    owp nf ub (h p io w) (fun '(_, _, io', w') => (io_wf io' /\ progress io io') /\ env_at R n fd e w').

Definition step_law (h : E -> W -> outcome (transport.Status * E * W)) : Prop :=
  forall n fd e w, env_at R n fd (Some e) w ->
    owp nf ub (h e w) (fun '(_, e', w') => env_at R n fd (Some e') w').

Class NetLaws : Prop := {
  law_dial : forall n e w h p, env_at R n (-1) e w ->
    env_at R n (dial_fd (dial h p w).1) e (dial h p w).2;
  law_subscribe : forall n fd e w c r b, env_cookie R c -> env_at R n fd e w ->
    env_at R n fd e (net_subscribe c fd r b w);
  law_getsockopt : forall n fd e w, env_at R n fd e w -> env_at R n fd e (net_getsockopt_error fd w).2;
  law_clear : forall n fd e w, fd <> -1 -> env_at R n fd e w -> env_at R n fd e (net_clear fd w);
  law_close : forall n fd e w, fd <> -1 -> env_at R n fd e w -> env_at R n (-1) e (net_close fd w)
}.

Class TransportLaws : Prop := {
  law_init : forall n fd e cfg w, fd <> -1 -> env_at R n fd e w ->
    owp nf ub (ep_init fd cfg w) (fun '(o, w') =>
      env_at R n fd (match o with Some e' => Some e' | None => e end) w');
  law_read : forall n fd e b w, env_at R n fd (Some e) w -> buffer_wf b ->
    owp nf ub (ep_read e b w) (fun '(st, e', b', w') =>
      env_at R n fd (Some e') w' /\ buffer_wf b' /\ CAP b' = CAP b /\
      (exists d, contents b' = contents b ++ d) /\
      (st = transport.ok -> nf \/ (env_rem R w' < n)%nat));
  law_write : forall n fd e b w, env_at R n fd (Some e) w -> buffer_wf b -> zlen (contents b) <= INT_MAX ->
    owp nf ub (ep_write e b w) (fun '(_, e', b', w') =>
      env_at R n fd (Some e') w' /\ buffer_wf b' /\ CAP b' = CAP b /\
      (exists k, contents b' = drop k (contents b)));
  law_handshake : forall h, ep_handshake_step = Some h -> step_law h;
  law_shutdown : forall h, ep_shutdown_step = Some h -> step_law h;
  law_destroy : forall n fd e w, fd <> -1 -> env_at R n fd e w ->
    owp nf ub (ep_destroy e w) (fun '(e', w') => env_at R n fd e' w' /\ (is_Some e -> is_Some e'))
}.

Class ProtocolLaws : Prop := {
  law_on_connect : forall h, proto_on_connect = Some h -> handler_law h;
  law_on_data : handler_law proto_on_data;
  law_on_shutdown : forall h, proto_on_shutdown = Some h -> handler_law h;
  law_heartbeat : forall h n fd e p b w, proto_heartbeat = Some h -> env_at R n fd e w -> buffer_wf b ->
    owp nf ub (h p b w) (fun '(_, b', w') =>
      buffer_wf b' /\ CAP b' = CAP b /\ (exists bs, contents b' = contents b ++ bs) /\ env_at R n fd e w');
  law_teardown : forall h n fd e p w, proto_teardown = Some h -> env_at R n fd e w ->
    owp nf ub (h p w) (fun '(_, w') => env_at R n fd e w')
}.
End env.

(** ** The invariant *)

(** How far a connection still is from being done. *)
Definition rank (s : state_t.t) : nat :=
  match s with
  | state_t.uninitialized => 7
  | state_t.in_progress => 6
  | state_t.transport => 5
  | state_t.protocol => 4
  | state_t.close_protocol => 3
  | state_t.drain_protocol => 2
  | state_t.close_transport => 1
  | state_t.closed | state_t.error => 0
  end.

Section invariant.
Context {W Ev E TCfg P PCfg : Type}.
Context {net : NetOps W Ev} {tr : TransportOps W E TCfg} {pr : ProtocolOps W P PCfg}.
Context (R : env_rel W E) (nf ub : Prop).
Context {net_laws : NetLaws (net := net) R}.
Context {tr_laws : TransportLaws (tr := tr) R nf ub}.
Context {pr_laws : ProtocolLaws (pr := pr) R nf ub}.
Context (fuel : nat) (Hfuel : nf \/ (RX_CAP < Z.of_nat fuel /\ TX_CAP < Z.of_nat fuel)).
Abbreviation st_t := (cst W E TCfg P PCfg).
Implicit Types s : st_t.

(** Buffers and world, whatever the state of the machine. *)
Record base (n : nat) (s : st_t) : Prop := {
  base_rx : buffer_wf (_rx (conn s));
  base_rx_cap : CAP (_rx (conn s)) = RX_CAP;
  base_tx : buffer_wf (_tx (conn s));
  base_tx_cap : CAP (_tx (conn s)) = TX_CAP;
  base_cookie : env_cookie R (_cookie (conn s));
  base_env : env_at R n (_fd (conn s)) (_transport (conn s)) (world s)
}.

(** The descriptor and the endpoint fit the state. *)
Definition fits (c : Connection E TCfg P PCfg) : Prop :=
  match _state c with
  | state_t.uninitialized => True
  | state_t.in_progress => _fd c <> -1
  | state_t.transport | state_t.protocol | state_t.close_protocol =>
      _fd c <> -1 /\ is_Some (_transport c)
  | state_t.drain_protocol | state_t.close_transport => is_Some (_transport c)
  | state_t.closed | state_t.error => _fd c = -1
  end.

Definition inv (n : nat) (s : st_t) : Prop := base n s /\ fits (conn s).
Definition live (n : nat) (s : st_t) : Prop := inv n s /\ is_Some (_transport (conn s)).

Abbreviation rk s := (rank (_state (conn s))).
Abbreviation WP m Q s := (wp nf ub m Q s).

Lemma base_put_state n x s : base n s -> base n (mkCst (set_state x (conn s)) (world s)).
Proof. intros []. by split. Qed.

Lemma wp_tx_rbuf n s (Q : list Z -> st_t -> Prop) :
  base n s -> Q (contents (_tx (conn s))) s -> WP tx_rbuf Q s.
Proof. intros [] HQ. unfold wp, tx_rbuf, lift. by rewrite rbuf_wf. Qed.

Lemma wp_rx_rbuf n s (Q : list Z -> st_t -> Prop) :
  base n s -> Q (contents (_rx (conn s))) s -> WP rx_rbuf Q s.
Proof. intros [] HQ. unfold wp, rx_rbuf, lift. by rewrite rbuf_wf. Qed.

Lemma call_teardown_base n s :
  base n s -> WP call_teardown (fun _ s' => exists p w',
    s' = mkCst (set_protocol p (conn s)) w' /\ base n s') s.
Proof.
  intros Hb. unfold wp, call_teardown. destruct proto_teardown as [h|] eqn:Hh.
  - pose proof (law_teardown R nf ub h n _ _ (_protocol (conn s)) (world s) Hh (base_env _ _ Hb)) as Hl.
    unfold owp in Hl. destruct (h _ _) as [[p w']| |]; [|done..].
    exists p, w'. split; [done|]. destruct Hb. by split.
  - exists (_protocol (conn s)), (world s). split; [by destruct s as [[] ?]|done].
Qed.

Lemma release_fd_base n s :
  base n s -> _fd (conn s) <> -1 -> WP release_fd (fun _ s' => exists w',
    s' = mkCst (set_fd (-1) (conn s)) w' /\ base n s') s.
Proof.
  intros [] Hfd. unfold wp, release_fd, mbind, M_bind, get_fd, gets, with_world, with_conn, modify.
  eexists. split; [reflexivity|]. split; cbn; try done.
  apply (law_close R); [done|]. by apply (law_clear R).
Qed.

Lemma teardown_base n s :
  base n s -> WP teardown (fun _ s' => base n s' /\ _fd (conn s') = -1 /\
    _state (conn s') = _state (conn s) /\
    (is_Some (_transport (conn s)) -> is_Some (_transport (conn s')))) s.
Proof.
  intros Hb. unfold teardown. apply wp_bind, wp_gets, wp_if; intros E0; bool_to_prop; [|by apply wp_ret].
  apply wp_bind. eapply wp_mono; [by apply call_teardown_base|].
  intros _ s1 (p & w1 & Hs1 & Hb1). assert (Hfd : _fd (conn s1) = _fd (conn s)) by (by subst s1).
  assert (Ht : _transport (conn s1) = _transport (conn s)) by (by subst s1).
  assert (Hst : _state (conn s1) = _state (conn s)) by (by subst s1). clear Hs1.
  apply wp_bind. unfold wp at 1, call_destroy.
  assert (Hne : _fd (conn s1) <> -1) by congruence.
  pose proof (law_destroy R nf ub n _ _ _ Hne (base_env _ _ Hb1)) as Hl.
  unfold owp in Hl. destruct (ep_destroy _ _) as [[e' w']| |]; [|done..]. destruct Hl as [Henv Hsome].
  eapply wp_mono; [apply (release_fd_base n); [destruct Hb1; by split|done]|].
  intros _ s2 (w2 & -> & Hb2). cbn. rewrite <- Ht. done.
Qed.

Lemma enter_error_inv n s :
  base n s -> WP enter_error (fun _ s' => inv n s' /\ rk s' = 0%nat /\
    (is_Some (_transport (conn s)) -> is_Some (_transport (conn s')))) s.
Proof.
  intros Hb. apply wp_bind, wp_modify.
  eapply wp_mono; [apply (teardown_base n), base_put_state, Hb|]. cbn.
  intros _ s' (Hb' & Hfd & Hst & Hsome). rewrite Hst. split_and!; [|done|done].
  split; [done|]. unfold fits. by rewrite Hst.
Qed.

Lemma enter_closed_inv n s :
  base n s -> WP enter_closed (fun _ s' => inv n s' /\ rk s' = 0%nat /\
    (is_Some (_transport (conn s)) -> is_Some (_transport (conn s')))) s.
Proof.
  intros Hb. apply wp_bind, wp_modify.
  eapply wp_mono; [apply (teardown_base n), base_put_state, Hb|]. cbn.
  intros _ s' (Hb' & Hfd & Hst & Hsome). rewrite Hst. split_and!; [|done|done].
  split; [done|]. unfold fits. by rewrite Hst.
Qed.

(** The machine is alive and at most [k] steps from done. *)
Definition within (n k : nat) (s : st_t) : Prop := live n s /\ (rk s <= k)%nat.

Lemma within_mono n k k' s : within n k s -> (k <= k')%nat -> within n k' s.
Proof. intros [H1 H2] ?. split; [done|lia]. Qed.

Lemma within_self n s : live n s -> within n (rk s) s.
Proof. by split. Qed.

Lemma enter_error_within n k s : live n s -> WP enter_error (fun _ => within n k) s.
Proof.
  intros [[Hb _] Hl]. eapply wp_mono; [by apply (enter_error_inv n)|].
  intros _ s' (Hi & Hr & Hs). split; [|lia]. split; [done|by apply Hs].
Qed.

Lemma enter_closed_within n k s : live n s -> WP enter_closed (fun _ => within n k) s.
Proof.
  intros [[Hb _] Hl]. eapply wp_mono; [by apply (enter_closed_inv n)|].
  intros _ s' (Hi & Hr & Hs). split; [|lia]. split; [done|by apply Hs].
Qed.

Lemma enter_close_transport_within n k s :
  live n s -> (1 <= k)%nat -> WP enter_close_transport (fun _ => within n k) s.
Proof.
  intros [[Hb _] Hl] Hk. apply wp_modify. split; [|done]. split; [|done].
  split; [by apply base_put_state|done].
Qed.

Lemma put_drain_within n k s :
  live n s -> (2 <= k)%nat -> WP (put_state state_t.drain_protocol) (fun _ => within n k) s.
Proof.
  intros [[Hb _] Hl] Hk. apply wp_modify. split; [|done]. split; [|done].
  split; [by apply base_put_state|done].
Qed.

(** Registering interest changes only the world. *)
Lemma subscribe_base n s r b :
  base n s -> WP (subscribe r b) (fun _ s' => exists w', s' = mkCst (conn s) w' /\ base n s') s.
Proof.
  intros []. eexists. split; [reflexivity|]. split; try done. by apply (law_subscribe R).
Qed.

Lemma subscribe_inv n s r b :
  inv n s -> WP (subscribe r b) (fun _ s' => inv n s' /\ conn s' = conn s) s.
Proof.
  intros [Hb Hf]. eapply wp_mono; [by apply subscribe_base|]. by intros _ s' (w' & -> & ?).
Qed.

Lemma subscribe_within n s r b :
  live n s -> WP (subscribe r b) (fun _ s' => within n (rk s) s' /\ conn s' = conn s) s.
Proof.
  intros [Hi Hl]. eapply wp_mono; [by apply subscribe_inv|]. cbn.
  intros _ s' [? Heq]. unfold within, live. rewrite Heq. done.
Qed.

Lemma arm_within n s status : live n s -> WP (arm status) (fun _ => within n (rk s)) s.
Proof.
  intros Hl. pose proof Hl as [[Hb _] _]. destruct status; cbn [arm].
  - by apply within_self.
  - by apply within_self.
  - by apply enter_error_within.
  - apply wp_bind. eapply wp_tx_rbuf; [done|]. eapply wp_mono; [by apply subscribe_within|]. by intros _ s' [? _].
  - apply wp_bind, wp_gets. eapply wp_mono; [by apply subscribe_within|]. by intros _ s' [? _].
Qed.

(** *** Writing *)

Lemma call_write_base n s :
  base n s -> is_Some (_transport (conn s)) ->
  WP call_write (fun _ s' => exists e b w',
    s' = mkCst (set_tx b (set_transport (Some e) (conn s))) w' /\ base n s' /\
    exists k, contents b = drop k (contents (_tx (conn s)))) s.
Proof.
  intros [] [e He]. unfold wp, call_write. rewrite He in *.
  assert (Hmax : zlen (contents (_tx (conn s))) <= INT_MAX).
  { pose proof (contents_le_cap _ base_tx0). rewrite base_tx_cap0 in *.
    change INT_MAX with 2147483647. change TX_CAP with 1048576 in *. lia. }
  pose proof (law_write R nf ub n _ e _ _ base_env0 base_tx0 Hmax) as Hl. unfold owp in Hl.
  destruct (ep_write e _ _) as [[[[st e'] b] w']| |]; [|done..].
  destruct Hl as (Henv & Hb & HC & Hk). exists e', b, w'. split; [done|]. split; [|done].
  split; cbn; try done. by rewrite HC.
Qed.

Lemma write_round_within n s :
  live n s -> WP write_round (fun r s' =>
    match r with
    | None => (live n s' /\ _state (conn s') = _state (conn s)) /\
              (length (contents (_tx (conn s'))) < length (contents (_tx (conn s))))%nat
    | Some _ => within n (rk s) s'
    end) s.
Proof.
  intros Hl. pose proof Hl as [[Hb Hf] Hs]. unfold write_round.
  apply wp_bind, wp_gets, wp_if; intros E0; [by apply within_self|].
  apply wp_bind. eapply wp_tx_rbuf; [done|]. apply wp_if; intros E1; [by apply within_self|]. bool_to_prop.
  apply wp_bind. eapply wp_mono; [by apply (call_write_base n)|].
  intros status s1 (e & b & w' & -> & Hb1 & k & Hk).
  assert (Hl1 : live n (mkCst (set_tx b (set_transport (Some e) (conn s))) w')).
  { split; [split; [done|]|done]. unfold fits in *. cbn in *. by destruct (_state (conn s)). }
  apply wp_bind, wp_gets. apply wp_if; intros E2.
  { apply wp_bind. eapply wp_mono; [apply (enter_close_transport_within n (rk s)); [done|]|done].
    unfold fits in Hf. by destruct (_state (conn s)); cbn; try lia. }
  apply wp_if; intros E3.
  { apply wp_bind. by eapply wp_mono; [apply (arm_within n)|]. }
  apply wp_bind. eapply wp_tx_rbuf; [done|]. apply wp_if; intros E4.
  { apply wp_bind. by eapply wp_mono; [apply (arm_within n)|]. }
  apply wp_ret. split; [done|]. bool_to_prop. cbn in *. rewrite Hk in *.
  unfold zlen in *. rewrite length_drop in *. lia.
Qed.

Lemma fuel_tx n s : base n s -> nf \/ (length (contents (_tx (conn s))) < fuel)%nat.
Proof.
  intros []. destruct Hfuel as [?|[_ H]]; [by left|right].
  pose proof (contents_le_cap _ base_tx0) as Hc. unfold zlen in Hc. lia.
Qed.

Lemma fuel_rx n s : base n s -> nf \/ (length (contents (_rx (conn s))) < fuel)%nat.
Proof.
  intros []. destruct Hfuel as [?|[H _]]; [by left|right].
  pose proof (contents_le_cap _ base_rx0) as Hc. unfold zlen in Hc. lia.
Qed.

Lemma transport_write_within n s re_arm :
  live n s -> WP (transport_write fuel re_arm) (fun _ => within n (rk s)) s.
Proof.
  intros Hl. unfold transport_write. apply wp_bind.
  apply (wp_mono _ _ _ (fun _ => within n (rk s))).
  - apply wp_loop with (I := fun s' => live n s' /\ _state (conn s') = _state (conn s))
      (mu := fun s' => length (contents (_tx (conn s')))).
    + intros s1 [Hl1 Hst]. eapply wp_mono; [by apply (write_round_within n)|].
      intros [r|] s2; [by rewrite Hst|]. intros [[Hl2 Hst2] Hlt]. rewrite Hst2. auto.
    + done.
    + apply (fuel_tx n), Hl.
  - intros r s1 [Hl1 Hr1]. apply wp_if; intros E0; [|by apply wp_ret].
    apply wp_bind, wp_gets, wp_bind, wp_gets, wp_bind, wp_if; intros E1; [|by apply wp_ret, wp_ret].
    eapply wp_mono; [by apply (subscribe_within n)|]. intros _ s2 [Hw _]. apply wp_ret.
    eapply within_mono; [done|lia].
Qed.

(** *** Protocol callbacks *)

Lemma call_handler_live n h s :
  handler_law R nf ub h -> live n s ->
  WP (call_handler h) (fun _ s' => live n s' /\ _state (conn s') = _state (conn s) /\
    _fd (conn s') = _fd (conn s)) s.
Proof.
  intros Hh [[[] Hf] Hs]. unfold wp, call_handler.
  pose proof (Hh n _ _ (_protocol (conn s)) (mkIO (_rx (conn s)) (_tx (conn s))) _ base_env0 (conj base_rx0 base_tx0)) as Hl.
  unfold owp in Hl. destruct (h _ _ _) as [[[[st p] io] w']| |]; [|done..].
  destruct Hl as (((Hrx & Htx) & (HrC & HtC & _)) & Henv). cbn in *.
  split; [|done]. split; [|done]. split; [|done].
  split; cbn; try done; congruence.
Qed.

Lemma shutdown_round_within n h s :
  handler_law R nf ub h -> live n s -> _state (conn s) = state_t.close_protocol ->
  WP (shutdown_round fuel h) (fun r s' =>
    match r with
    | None => (live n s' /\ _state (conn s') = state_t.close_protocol) /\
              (length (contents (_rx (conn s'))) < length (contents (_rx (conn s))))%nat
    | Some go => within n 3 s' /\ (go = true -> _state (conn s') = state_t.close_protocol)
    end) s.
Proof.
  intros Hh Hl Hst. pose proof Hl as [[Hb _] _]. unfold shutdown_round.
  apply wp_bind. eapply wp_rx_rbuf; [done|].
  apply wp_bind. eapply wp_mono; [by apply (call_handler_live n)|].
  intros status s1 (Hl1 & Hst1 & _). destruct status.
  - apply wp_bind. eapply wp_mono; [by apply (transport_write_within n)|]. cbn.
    intros _ s2 [Hl2 Hr2]. apply wp_bind, wp_gets, wp_if; intros E0.
    { apply wp_ret. split; [|done]. split; [done|]. by rewrite Hst1, Hst in Hr2. }
    apply negb_false_iff, bool_decide_eq_true in E0. pose proof Hl2 as [[Hb2 _] _].
    apply wp_bind. eapply wp_rx_rbuf; [done|]. apply wp_if; intros E1; apply wp_ret.
    + split; [|done]. split; [done|]. by rewrite E0.
    + split; [done|]. bool_to_prop. unfold zlen in E1. lia.
  - apply wp_bind. eapply wp_mono; [by apply (put_drain_within n 3); [|lia]|].
    intros ? s2 Hw. by apply wp_ret.
  - apply wp_bind. eapply wp_mono; [by apply (enter_error_within n 3)|].
    intros ? s2 Hw. by apply wp_ret.
Qed.

Lemma shutdown_loop_within n h s :
  handler_law R nf ub h -> live n s -> _state (conn s) = state_t.close_protocol ->
  WP (loop fuel (shutdown_round fuel h)) (fun go s' =>
    within n 3 s' /\ (go = true -> _state (conn s') = state_t.close_protocol)) s.
Proof.
  intros Hh Hl Hst.
  apply wp_loop with (I := fun s' => live n s' /\ _state (conn s') = state_t.close_protocol)
    (mu := fun s' => length (contents (_rx (conn s')))); [|done|apply (fuel_rx n), Hl].
  intros s1 [Hl1 Hst1]. eapply wp_mono; [by apply (shutdown_round_within n)|].
  intros [go|] s2; [done|]. intros [? ?]. auto.
Qed.

Lemma enter_close_protocol_within n s :
  live n s -> _fd (conn s) <> -1 -> WP (enter_close_protocol fuel) (fun _ => within n 3) s.
Proof.
  intros Hl Hfd. unfold enter_close_protocol. destruct proto_on_shutdown as [h|] eqn:Hh.
  - apply wp_bind, wp_modify, wp_bind. eapply wp_mono; [apply (shutdown_loop_within n)|].
    + by eapply law_on_shutdown.
    + destruct Hl as [[Hb _] Hs]. split; [|done]. split; [by apply base_put_state|done].
    + done.
    + cbn. intros go s' [Hw _]. by apply wp_ret.
  - apply enter_close_transport_within; [done|lia].
Qed.

Lemma bind_protocol_within n h s :
  handler_law R nf ub h -> live n s -> _state (conn s) = state_t.protocol ->
  WP (bind_protocol fuel h) (fun _ => within n 4) s.
Proof.
  intros Hh Hl Hst. unfold bind_protocol.
  apply wp_bind. eapply wp_mono; [by apply (call_handler_live n)|].
  intros status s1 (Hl1 & Hst1 & _). rewrite Hst in Hst1.
  assert (Hw : WP (transport_write fuel true) (fun _ => within n 4) s1).
  { eapply wp_mono; [by apply (transport_write_within n)|]. cbn. by rewrite Hst1. }
  destruct status.
  - apply wp_bind. eapply wp_mono; [exact Hw|]. done.
  - apply wp_bind. eapply wp_mono; [exact Hw|]. cbn. intros _ s2 [Hl2 Hr2].
    destruct proto_on_shutdown as [g|].
    + apply wp_bind, wp_gets, wp_if; intros E0.
      * apply bool_decide_eq_true in E0. eapply wp_mono; [apply (enter_close_protocol_within n); [done|]|].
        { destruct Hl2 as [[_ Hf] _]. unfold fits in Hf. rewrite E0 in Hf. apply Hf. }
        cbn. intros _ s3 Hw3. eapply within_mono; [done|lia].
      * by apply enter_close_transport_within; [|lia].
    + apply wp_bind. eapply wp_mono; [by apply (transport_write_within n)|]. cbn.
      intros b s3 [Hl3 _]. apply wp_if; intros _.
      * by apply enter_close_transport_within; [|lia].
      * by apply put_drain_within; [|lia].
  - by apply enter_error_within.
Qed.

Lemma enter_Protocol_within n s :
  live n s -> _fd (conn s) <> -1 -> WP (enter_Protocol fuel) (fun _ => within n 4) s.
Proof.
  intros [[Hb _] Hs] Hfd. unfold enter_Protocol. apply wp_bind, wp_modify.
  assert (Hl : live n (mkCst (set_state state_t.protocol (conn s)) (world s))).
  { split; [|done]. split; [by apply base_put_state|done]. }
  destruct proto_on_connect as [h|] eqn:Hh.
  - apply bind_protocol_within; [|done|done]. by eapply law_on_connect.
  - apply wp_bind. eapply wp_mono; [by apply (transport_write_within n)|]. done.
Qed.

Lemma enter_connected_inv n s :
  base n s -> _fd (conn s) <> -1 -> WP (enter_connected fuel) (fun _ s' => inv n s' /\ (rk s' <= 5)%nat) s.
Proof.
  intros Hb Hfd. unfold enter_connected. apply wp_bind. unfold wp at 1.
  pose proof (law_init R nf ub n _ _ (_transport_config (conn s)) _ Hfd (base_env _ _ Hb)) as Hl.
  unfold owp in Hl. destruct (ep_init _ _ _) as [[[e|] w']| |]; [| |done..].
  - apply wp_bind, wp_modify.
    set (s1 := mkCst (set_transport (Some e) (conn s)) w') in *.
    assert (Hb1 : base n s1) by (destruct Hb; by split).
    destruct ep_handshake_step as [h|].
    + apply wp_modify. split; [|cbn; lia]. split; [by apply base_put_state|]. by split.
    + apply wp_bind. eapply wp_mono; [by apply (subscribe_base n)|]. cbn.
      intros _ s2 (w2 & -> & Hb2).
      (* the state is about to be overwritten *)
      unfold enter_Protocol.
      apply (wp_mono _ _ _ (fun _ => within n 4)); [|intros _ s' [[Hi _] Hr]; split; [done|lia]].
      pose proof (enter_Protocol_within n (mkCst (set_state state_t.protocol (conn s1)) w2)) as Hp.
      apply Hp; [|done]. split; [|done]. split; [by apply (base_put_state n _ (mkCst (conn s1) w2))|done].
  - apply wp_bind, wp_modify, wp_bind, wp_gets. cbn [conn _fd set_state].
    rewrite (proj2 (Z.eqb_neq _ _)) by done. cbn [negb].
    apply wp_bind. eapply wp_mono; [apply (call_teardown_base n); destruct Hb; by split|]. cbn.
    intros _ s1 (p & w1 & -> & Hb1).
    eapply wp_mono; [by apply (release_fd_base n)|]. cbn. intros _ s2 (w2 & -> & Hb2).
    split; [|cbn; lia]. by split.
Qed.

(** *** Reading *)

Lemma consume_round_within n s :
  live n s -> _state (conn s) = state_t.protocol ->
  WP (consume_round fuel) (fun r s' =>
    match r with
    | None => (live n s' /\ _state (conn s') = state_t.protocol) /\
              (length (contents (_rx (conn s'))) < length (contents (_rx (conn s))))%nat
    | Some _ => within n 4 s'
    end) s.
Proof.
  intros Hl Hst. pose proof Hl as [[Hb _] _]. unfold consume_round.
  apply wp_bind. eapply wp_rx_rbuf; [done|]. apply wp_if; intros E0.
  { apply wp_ret. split; [done|]. by rewrite Hst. }
  apply wp_bind. eapply wp_mono; [apply (bind_protocol_within n); [by eapply law_on_data|done|done]|].
  intros ? s1 [Hl1 Hr1]. apply wp_bind, wp_gets, wp_if; intros E1; [by apply wp_ret|].
  apply negb_false_iff, bool_decide_eq_true in E1. pose proof Hl1 as [[Hb1 _] _].
  apply wp_bind. eapply wp_rx_rbuf; [done|]. apply wp_if; intros E2; apply wp_ret; [done|].
  split; [done|]. bool_to_prop. unfold zlen in E2. lia.
Qed.

Lemma protocol_consume_within n s :
  live n s -> _state (conn s) = state_t.protocol -> WP (protocol_consume fuel) (fun _ => within n 4) s.
Proof.
  intros Hl Hst. unfold protocol_consume.
  apply wp_loop with (I := fun s' => live n s' /\ _state (conn s') = state_t.protocol)
    (mu := fun s' => length (contents (_rx (conn s')))); [|done|apply (fuel_rx n), Hl].
  intros s1 [Hl1 Hst1]. eapply wp_mono; [by apply (consume_round_within n)|].
  intros [go|] s2; [done|]. intros [? ?]. auto.
Qed.

Lemma call_read_base n s :
  base n s -> is_Some (_transport (conn s)) ->
  WP call_read (fun st s' => base n s' /\ is_Some (_transport (conn s')) /\
    _state (conn s') = _state (conn s) /\ _fd (conn s') = _fd (conn s) /\
    (st = transport.ok -> nf \/ (env_rem R (world s') < n)%nat)) s.
Proof.
  intros [] [e He]. unfold wp, call_read. rewrite He in *.
  pose proof (law_read R nf ub n _ e _ _ base_env0 base_rx0) as Hl. unfold owp in Hl.
  destruct (ep_read e _ _) as [[[[st e'] b] w']| |]; [|done..].
  destruct Hl as (Henv & Hb & HC & Hd & Hrem). cbn. split; [|done].
  split; cbn; try done. by rewrite HC.
Qed.

Lemma live_weaken n m s : live n s -> (env_rem R (world s) <= m)%nat -> live m s.
Proof.
  intros [[[] Hf] Hs] Hm. split; [|done]. split; [|done]. split; try done. by destruct base_env0.
Qed.

Lemma within_weaken n m k s : within n k s -> (n <= m)%nat -> within m k s.
Proof.
  intros [Hl Hr] Hm. split; [|done]. apply (live_weaken n); [done|].
  destruct Hl as [[[] _] _]. destruct base_env0. lia.
Qed.

(** What [transport_read] needs of its callbacks, from machine state [x]. *)
Definition consumes (x : state_t.t) (m : M st_t bool) : Prop :=
  forall n s, live n s -> _state (conn s) = x ->
    WP m (fun go s' => within n (rank x) s' /\ (go = true -> _state (conn s') = x)) s.

Definition closes (x : state_t.t) (m : M st_t unit) : Prop :=
  forall n s, live n s -> _state (conn s) = x -> WP m (fun _ => within n (rank x)) s.

Lemma read_round_within x consume on_close s :
  consumes x consume -> closes x on_close ->
  live (env_rem R (world s)) s -> _state (conn s) = x ->
  WP (read_round consume on_close) (fun r s' =>
    match r with
    | None => (live (env_rem R (world s)) s' /\ _state (conn s') = x) /\
              (nf \/ (env_rem R (world s') < env_rem R (world s))%nat)
    | Some _ => within (env_rem R (world s)) (rank x) s'
    end) s.
Proof.
  intros Hcon Hclo Hl Hx. set (n := env_rem R (world s)) in *. pose proof Hl as [[Hb Hf] Hs].
  unfold read_round. apply wp_bind, wp_gets, wp_if; intros E0.
  { apply wp_bind. eapply wp_mono; [by apply (enter_error_within n (rank x))|]. done. }
  apply wp_bind. eapply wp_rx_rbuf; [done|].
  apply wp_bind. eapply wp_mono; [by apply (call_read_base n)|].
  intros st s1 (Hb1 & Hs1 & Hst1 & Hfd1 & Hrem1).
  assert (Hl1 : live (env_rem R (world s1)) s1).
  { apply (live_weaken n); [|done]. split; [|done]. split; [done|].
    unfold fits in *. rewrite Hst1, Hfd1. destruct (_state (conn s)); intuition congruence. }
  apply wp_bind. eapply wp_rx_rbuf; [done|]. rewrite Hx in Hst1.
  apply wp_bind. apply (wp_mono _ _ _ (fun go s2 =>
    within (env_rem R (world s1)) (rank x) s2 /\ (go = true -> _state (conn s2) = x))).
  { apply wp_if; intros _; [by apply Hcon|]. apply wp_ret. split; [|done]. split; [done|by rewrite Hst1]. }
  assert (Hn1 : (env_rem R (world s1) <= n)%nat) by apply (base_env _ _ Hb1).
  intros go s2 [Hw2 Hgo]. pose proof Hw2 as [Hl2 Hr2].
  apply wp_if; intros E1; [apply wp_ret; by eapply within_weaken|].
  apply negb_false_iff in E1. specialize (Hgo E1).
  assert (Hl2' : live n s2) by (apply (within_weaken _ n) in Hw2; [apply Hw2|done]).
  destruct st.
  - apply wp_ret. split; [done|]. destruct (Hrem1 eq_refl) as [?|?]; [by left|right].
    destruct Hl2 as [[[] _] _]. destruct base_env0. lia.
  - apply wp_bind. eapply wp_mono; [by apply Hclo|]. intros ? s3 Hw3. by apply wp_ret.
  - apply wp_bind. eapply wp_mono; [by apply (enter_error_within n (rank x))|]. done.
  - apply wp_bind. eapply wp_mono; [by apply (arm_within n)|]. cbn. by rewrite Hgo.
  - apply wp_bind. eapply wp_mono; [by apply (arm_within n)|]. cbn. by rewrite Hgo.
Qed.

Lemma transport_read_within x consume on_close n s :
  consumes x consume -> closes x on_close -> live n s -> _state (conn s) = x ->
  nf \/ (n < fuel)%nat ->
  WP (transport_read fuel consume on_close) (fun _ => within n (rank x)) s.
Proof.
  intros Hcon Hclo Hl Hx Hn. unfold transport_read.
  assert (Hle : forall s', live n s' -> (env_rem R (world s') <= n)%nat).
  { intros s' [[[] _] _]. by destruct base_env0. }
  apply wp_loop with (I := fun s' => live n s' /\ _state (conn s') = x)
    (mu := fun s' => env_rem R (world s')); [|done|].
  - intros s1 [Hl1 Hx1].
    eapply wp_mono; [by apply (read_round_within x); [| |apply (live_weaken n)|]|].
    intros [r|] s2.
    + intros Hw. by apply (within_weaken _ n) in Hw; [|apply Hle].
    + intros [[Hl2 Hx2] Hlt]. split; [|done]. split; [|done].
      destruct (within_weaken _ n (rk s2) s2 (within_self _ _ Hl2)) as [? _]; [by apply Hle|done].
  - destruct Hn as [?|?]; [by left|right]. pose proof (Hle s Hl). lia.
Qed.

(** *** Steps *)

Lemma step_Protocol_within n s ev :
  live n s -> _state (conn s) = state_t.protocol -> nf \/ (n < fuel)%nat ->
  WP (step_Protocol fuel ev) (fun _ => within n 4) s.
Proof.
  intros Hl Hst Hn. unfold step_Protocol. apply wp_bind.
  apply (wp_mono _ _ _ (fun _ => within n 4)).
  - apply wp_if; intros E0; [|split; [done|by rewrite Hst]].
    apply (transport_read_within state_t.protocol); [| |done|done|done].
    + intros n1 s1 Hl1 Hst1. apply wp_bind. eapply wp_mono; [by apply (protocol_consume_within n1)|].
      intros ? s2 Hw. apply wp_bind, wp_gets, wp_ret. split; [done|]. apply bool_decide_eq_true.
    + intros n1 s1 Hl1 Hst1. apply enter_close_transport_within; [done|cbn; lia].
  - intros _ s1 [Hl1 Hr1]. apply wp_if; intros E1; [|by apply wp_ret].
    apply wp_bind. eapply wp_mono; [by apply (transport_write_within n)|].
    intros ? s2 Hw. apply wp_ret. by apply (within_mono _ (rk s1)).
Qed.

Lemma step_close_protocol_within n s ev :
  live n s -> _state (conn s) = state_t.close_protocol -> nf \/ (n < fuel)%nat ->
  WP (step_close_protocol fuel ev) (fun _ => within n 3) s.
Proof.
  intros Hl Hst Hn. unfold step_close_protocol. apply wp_bind.
  apply (wp_mono _ _ _ (fun _ => within n 3)).
  - apply wp_if; intros E0; [|split; [done|by rewrite Hst]].
    apply (transport_read_within state_t.close_protocol); [| |done|done|done].
    + intros n1 s1 Hl1 Hst1. unfold shutdown_consume. destruct proto_on_shutdown as [h|] eqn:Hh.
      * apply shutdown_loop_within; [by eapply law_on_shutdown|done|done].
      * apply wp_bind. eapply wp_mono; [by apply (put_drain_within n1 3); [|lia]|].
        intros ? s2 Hw. by apply wp_ret.
    + intros n1 s1 Hl1 Hst1. apply enter_close_transport_within; [done|cbn; lia].
  - intros _ s1 [Hl1 Hr1]. apply wp_if; intros E1; [|by apply wp_ret].
    apply wp_bind. eapply wp_mono; [by apply (transport_write_within n)|].
    intros ? s2 Hw. apply wp_ret. by apply (within_mono _ (rk s1)).
Qed.

Lemma clear_rx_within n k s :
  within n k s -> within n k (mkCst (set_rx (clear (_rx (conn s))) (conn s)) (world s)).
Proof.
  intros [[[[] Hf] Hs] Hr]. split; [|done]. split; [|done]. split; [|done].
  split; cbn; try done. by apply clear_wf.
Qed.

Lemma step_drain_protocol_within n s ev :
  live n s -> _state (conn s) = state_t.drain_protocol -> nf \/ (n < fuel)%nat ->
  WP (step_drain_protocol fuel ev) (fun _ => within n 2) s.
Proof.
  intros Hl Hst Hn. unfold step_drain_protocol. apply wp_bind.
  apply (wp_mono _ _ _ (fun _ => within n 2)).
  - apply wp_if; intros E0; [|split; [done|by rewrite Hst]].
    apply wp_bind. eapply wp_mono; [apply (transport_read_within state_t.drain_protocol); [| |done|done|done]|].
    + intros n1 s1 Hl1 Hst1. apply wp_ret. split; [|done]. split; [done|by rewrite Hst1].
    + intros n1 s1 Hl1 Hst1. apply wp_ret. split; [done|by rewrite Hst1].
    + intros ? s1 Hw. by apply wp_modify, clear_rx_within.
  - intros _ s1 [Hl1 Hr1]. apply wp_bind. eapply wp_mono; [by apply (transport_write_within n)|].
    intros ? s2 [Hl2 Hr2]. apply wp_if; intros _; [by apply enter_close_transport_within; [|lia]|].
    apply wp_ret. split; [done|lia].
Qed.

Lemma call_step_within n h s :
  step_law R nf ub h -> live n s ->
  WP (call_step h) (fun _ s' => live n s' /\ _state (conn s') = _state (conn s) /\ _fd (conn s') = _fd (conn s)) s.
Proof.
  intros Hh [[[] Hf] [e He]]. unfold wp, call_step. rewrite He in *.
  pose proof (Hh n _ e _ base_env0) as Hl. unfold owp in Hl.
  destruct (h e _) as [[[st e'] w']| |]; [|done..].
  split; [|done]. split; [|done]. split.
  - by split.
  - unfold fits in *. cbn. destruct (_state (conn s)); intuition eauto.
Qed.

Lemma step_close_transport_within n s :
  live n s -> _state (conn s) = state_t.close_transport ->
  WP step_close_transport (fun _ => within n 1) s.
Proof.
  intros Hl Hst. unfold step_close_transport. destruct ep_shutdown_step as [h|] eqn:Hh.
  - apply wp_bind. eapply wp_mono; [apply (call_step_within n); [by eapply law_shutdown|done]|].
    intros status s1 (Hl1 & Hst1 & _). destruct status.
    + by apply enter_closed_within.
    + by apply enter_error_within.
    + by apply enter_error_within.
    + eapply wp_mono; [by apply (arm_within n)|]. cbn. by rewrite Hst1, Hst.
    + eapply wp_mono; [by apply (arm_within n)|]. cbn. by rewrite Hst1, Hst.
  - by apply enter_closed_within.
Qed.

Lemma step_Transport_within n s :
  live n s -> _state (conn s) = state_t.transport -> WP (step_Transport fuel) (fun _ => within n 5) s.
Proof.
  intros Hl Hst. unfold step_Transport. destruct ep_handshake_step as [h|] eqn:Hh.
  - apply wp_bind. eapply wp_mono; [apply (call_step_within n); [by eapply law_handshake|done]|].
    intros status s1 (Hl1 & Hst1 & Hfd1). destruct status.
    + eapply wp_mono; [apply (enter_Protocol_within n); [done|]|].
      * rewrite Hfd1. destruct Hl as [[_ Hf] _]. unfold fits in Hf. rewrite Hst in Hf. apply Hf.
      * cbn. intros _ s2 Hw. eapply within_mono; [done|lia].
    + by apply enter_error_within.
    + by apply enter_error_within.
    + eapply wp_mono; [by apply (arm_within n)|]. cbn. by rewrite Hst1, Hst.
    + eapply wp_mono; [by apply (arm_within n)|]. cbn. by rewrite Hst1, Hst.
  - split; [done|by rewrite Hst].
Qed.

Lemma step_in_progress_inv n s ev :
  inv n s -> _state (conn s) = state_t.in_progress ->
  WP (step_in_progress fuel ev) (fun _ s' => inv n s' /\ (rk s' <= 6)%nat) s.
Proof.
  intros [Hb Hf] Hst. unfold fits in Hf. rewrite Hst in Hf. unfold step_in_progress.
  assert (He : forall s1, base n s1 -> WP enter_error (fun _ s' => inv n s' /\ (rk s' <= 6)%nat) s1).
  { intros s1 Hb1. eapply wp_mono; [by apply (enter_error_inv n)|]. cbn. intros _ s' (? & Hr & _).
    split; [done|lia]. }
  apply wp_if; intros E0.
  - apply wp_bind. unfold wp at 1.
    pose proof (law_getsockopt R n _ _ _ (base_env _ _ Hb)) as Hl.
    destruct (net_getsockopt_error _ _) as [[ret err] w'].
    assert (Hb1 : base n (mkCst (conn s) w')) by (destruct Hb; by split).
    apply wp_if; intros E1; [by apply He|]. apply wp_if; intros E2; [by apply He|].
    eapply wp_mono; [by apply (enter_connected_inv n)|]. cbn. intros _ s' [? ?]. split; [done|lia].
  - apply wp_if; intros E1; [by apply He|]. apply wp_ret. split; [split; [done|]|by rewrite Hst]. unfold fits. by rewrite Hst.
Qed.

(** *** The machine as a whole *)

Lemma live_of n s : inv n s ->
  match _state (conn s) with
  | state_t.transport | state_t.protocol | state_t.close_protocol
  | state_t.drain_protocol | state_t.close_transport => live n s
  | _ => True
  end.
Proof.
  intros [Hb Hf]. pose proof Hf as Hf'. unfold fits in Hf'. unfold live, inv.
  destruct (_state (conn s)); try done; destruct Hf'; done.
Qed.

(** After a step that changed the state, the machine is strictly closer to done. *)
Lemma steps_check n s (m : M st_t unit) :
  (0 < rk s)%nat -> WP m (fun _ s' => inv n s' /\ (rk s' <= rk s)%nat) s ->
  WP (m ≫= fun _ => st ← get_state; mret (if decide (st = _state (conn s)) then Some tt else None))
    (fun r s' => match r with
                 | Some _ => inv n s' /\ (rk s' <= rk s)%nat
                 | None => inv n s' /\ (rk s' < rk s)%nat
                 end) s.
Proof.
  intros Hpos Hm. apply wp_bind. eapply wp_mono; [exact Hm|]. cbn. intros _ s' [Hi Hr].
  apply wp_bind, wp_gets, wp_ret. destruct (decide _) as [Heq|Hne]; [done|]. split; [done|].
  enough (rk s' <> rk s) by lia. intros Heq. apply Hne.
  destruct (_state (conn s')), (_state (conn s)); cbn in *; try done; lia.
Qed.

Lemma steps_round_inv n s ev :
  inv n s -> (rk s < 7)%nat -> nf \/ (n < fuel)%nat ->
  WP (steps_round fuel ev) (fun r s' =>
    match r with
    | Some _ => inv n s' /\ (rk s' <= rk s)%nat
    | None => inv n s' /\ (rk s' < rk s)%nat
    end) s.
Proof.
  intros Hi Hr Hn. pose proof (live_of n s Hi) as Hl. unfold steps_round. apply wp_bind, wp_gets. cbv zeta.
  assert (Hw : forall k s', k = rk s -> within n k s' -> inv n s' /\ (rk s' <= rk s)%nat).
  { intros k s' -> [[Hi' _] Hr']. done. }
  assert (Hret : WP (mret (Some ())) (fun r s' => match r with
    | Some _ => inv n s' /\ (rk s' <= rk s)%nat | None => inv n s' /\ (rk s' < rk s)%nat end) s) by done.
  pose proof (steps_check n s) as Hck.
  destruct (_state (conn s)) eqn:Hst; cbn in Hr; try lia; try exact Hret; cbn [rank] in *.
  - destruct ev as [e|]; [|exact Hret]. apply Hck; [lia|].
    by eapply wp_mono; [apply (step_in_progress_inv n)|].
  - apply Hck; [lia|]. eapply wp_mono; [by apply (step_Transport_within n)|]. intros ? s'. by apply Hw.
  - destruct ev as [e|]; [|exact Hret]. apply Hck; [lia|].
    eapply wp_mono; [by apply (step_Protocol_within n)|]. intros ? s'. by apply Hw.
  - destruct ev as [e|]; [|exact Hret]. apply Hck; [lia|].
    eapply wp_mono; [by apply (step_close_protocol_within n)|]. intros ? s'. by apply Hw.
  - apply Hck; [lia|]. eapply wp_mono; [by apply (step_drain_protocol_within n)|]. intros ? s'. by apply Hw.
  - apply Hck; [lia|]. eapply wp_mono; [by apply (step_close_transport_within n)|]. intros ? s'. by apply Hw.
Qed.

Lemma steps_inv n s ev :
  inv n s -> (rk s < 7)%nat -> nf \/ (n < fuel)%nat ->
  WP (steps fuel ev) (fun _ s' => inv n s' /\ (rk s' <= rk s)%nat) s.
Proof.
  intros Hi Hr Hn. unfold steps.
  apply wp_loop with (I := fun s' => inv n s' /\ (rk s' <= rk s)%nat) (mu := fun s' => rk s').
  - intros s1 [Hi1 Hr1]. eapply wp_mono; [apply (steps_round_inv n); [done|lia|done]|].
    intros [r|] s2 [Hi2 Hr2]; [split; [done|lia]|]. split; [split; [done|lia]|]. right. lia.
  - done.
  - destruct Hfuel as [?|[H _]]; [by left|right]. change RX_CAP with 1048576 in H. lia.
Qed.

(** *** Entry points *)

Lemma enter_uninitialized_inv n s :
  base n s -> _fd (conn s) = -1 -> nf \/ (n < fuel)%nat ->
  WP (enter_uninitialized fuel) (fun _ s' => inv n s' /\ (rk s' < 7)%nat) s.
Proof.
  intros Hb Hfd Hn. unfold enter_uninitialized. do 3 apply wp_bind, wp_modify. cbn [conn world].
  apply wp_bind. unfold wp at 1. cbn [conn world _host _port set_tx set_rx set_state].
  pose proof (base_env _ _ Hb) as Henv. rewrite Hfd in Henv.
  pose proof (law_dial R n _ _ (_host (conn s)) (_port (conn s)) Henv) as Hd.
  destruct (dial _ _ _) as [r w']. cbn [fst snd] in Hd.
  set (c := set_tx _ _).
  assert (Hb1 : base n (mkCst (set_fd (dial_fd r) c) w')).
  { destruct Hb. split; cbn; try done; by apply clear_wf. }
  apply wp_if; intros E0; bool_to_prop.
  { rewrite E0 in Hb1. apply wp_bind, wp_modify, wp_modify. split; [|cbn; lia].
    split; [by apply (base_put_state n _ (mkCst (set_fd (-1) c) w'))|done]. }
  apply wp_bind, wp_modify. apply wp_if; intros E1.
  { apply wp_bind, wp_modify. eapply wp_mono; [apply (subscribe_inv n)|].
    - split; [by apply (base_put_state n _ (mkCst (set_fd (dial_fd r) c) w'))|done].
    - cbn. intros _ s' [Hi Heq]. split; [done|]. rewrite Heq. cbn. lia. }
  apply wp_bind. eapply wp_mono; [by apply (enter_connected_inv n)|]. cbn. intros _ s1 [Hi1 Hr1].
  eapply wp_mono; [apply (steps_inv n); [done|lia|done]|]. cbn. intros _ s2 [Hi2 Hr2]. split; [done|lia].
Qed.

Lemma restart_inv n s :
  inv n s -> (rk s < 7)%nat -> nf \/ (n < fuel)%nat ->
  WP (restart fuel) (fun _ s' => inv n s' /\ (rk s' < 7)%nat) s.
Proof.
  intros [Hb Hf] Hr Hn. unfold restart. apply wp_bind, wp_gets, wp_if; intros E0; [by apply wp_ret|].
  apply wp_bind. eapply wp_mono; [by apply (teardown_base n)|]. intros _ s1 (Hb1 & Hfd1 & _).
  apply wp_bind, wp_modify. apply enter_uninitialized_inv; [|done|done]. destruct Hb1. by split.
Qed.

Lemma heartbeat_inv n s :
  inv n s -> (rk s < 7)%nat -> WP (heartbeat fuel) (fun _ s' => inv n s' /\ (rk s' < 7)%nat) s.
Proof.
  intros Hi Hr. unfold heartbeat. destruct proto_heartbeat as [h|] eqn:Hh; [|done].
  apply wp_bind, wp_gets, wp_if; intros E0; [|done]. apply bool_decide_eq_true in E0.
  pose proof (live_of n s Hi) as Hl0. rewrite E0 in Hl0. destruct Hl0 as [[[] Hf] Hs].
  apply wp_bind. unfold wp at 1, call_heartbeat.
  pose proof (law_heartbeat R nf ub h n _ _ (_protocol (conn s)) _ _ Hh base_env0 base_tx0) as Hl.
  unfold owp in Hl. destruct (h _ _ _) as [[[p tx] w']| |]; [|done..].
  destruct Hl as (Htx & HC & _ & Henv).
  apply wp_bind. eapply wp_mono; [apply (transport_write_within n)|].
  - split; [|done]. split; [|done]. split; cbn; try done. by rewrite HC.
  - cbn. intros _ s1 [[Hi1 _] Hr1]. split; [done|lia].
Qed.

Lemma stop_inv n s :
  inv n s -> (rk s < 7)%nat -> nf \/ (n < fuel)%nat ->
  WP (stop fuel) (fun _ s' => inv n s' /\ (rk s' < 7)%nat) s.
Proof.
  intros Hi Hr Hn. pose proof (live_of n s Hi) as Hl. pose proof Hi as [Hb Hf]. unfold fits in Hf.
  unfold stop. apply wp_bind, wp_gets, wp_bind.
  apply (wp_mono _ _ _ (fun _ s' => inv n s' /\ (rk s' < 7)%nat)).
  - destruct (_state (conn s)) eqn:Hst; try (by apply wp_ret; rewrite Hst); try (cbn in Hr; lia).
    + eapply wp_mono; [by apply (enter_closed_inv n)|]. cbn. intros _ s1 (? & -> & _). split; [done|lia].
    + eapply wp_mono; [by apply (enter_close_transport_within n 1); [|lia]|]. cbn.
      intros _ s1 [[Hi1 _] Hr1]. split; [done|lia].
    + eapply wp_mono; [by apply (enter_close_protocol_within n); [|apply Hf]|]. cbn.
      intros _ s1 [[Hi1 _] Hr1]. split; [done|lia].
  - intros _ s1 [Hi1 Hr1]. eapply wp_mono; [by apply (steps_inv n)|]. cbn. intros _ s2 [Hi2 Hr2]. split; [done|lia].
Qed.
End invariant.
