(* ===== verification/PlainConnection.v ===== *)
(** * Connections over the plain transport

    The laws of Connection.v discharged for [transport::Plain] over any network
    that keeps the documented contract of the socket calls ([NetOk], [NetFinite]),
    and the theorems about whole runs of a connection: a call of [attach]
    followed by any sequence of events, heartbeats, restarts and stops. *)

From S2P Require Import Prelude Status Buffer Net Transport Connection.

Lemma owp_weaken {A} (nf ub nf' ub' : Prop) (o : outcome A) (Q : A -> Prop) :
  (nf -> nf') -> (ub -> ub') -> owp nf ub o Q -> owp nf' ub' o Q.
Proof. destruct o; cbn; auto. Qed.

Lemma owp_mono {A} (nf ub : Prop) (o : outcome A) (Q Q' : A -> Prop) :
  owp nf ub o Q -> (forall a, Q a -> Q' a) -> owp nf ub o Q'.
Proof. destruct o; cbn; auto. Qed.

Lemma transport_laws_weaken {W E TCfg} {tr : TransportOps W E TCfg} (Rl : env_rel W E) (ub : Prop) :
  TransportLaws Rl False False -> TransportLaws Rl False ub.
Proof.
  intros [H1 H2 H3 H4 H5 H6]. split.
  - intros. eapply owp_weaken; [..|by apply H1]; done.
  - intros. eapply owp_weaken; [..|by apply H2]; done.
  - intros. eapply owp_weaken; [..|by apply H3]; done.
  - intros h Hh n fd e w He. eapply owp_weaken; [..|by eapply H4]; done.
  - intros h Hh n fd e w He. eapply owp_weaken; [..|by eapply H5]; done.
  - intros. eapply owp_weaken; [..|by apply H6]; done.
Qed.

Section plain_env.
Context {W Ev : Type} {net : NetOps W Ev} {net_ok : NetOk W} {net_fin : NetFinite W}.
Context (fuel : nat) (base0 : gset Z).

(** The world of a plain connection: its descriptor is open besides [base0],
    and the fuel covers the budget. *)
Definition plain_env : env_rel W Plain.Endpoint :=
  mkEnv (fun fd _ w => owns base0 fd w /\ (budget w < fuel)%nat) budget (fun _ => True).

Lemma plain_env_step n fd e e' w w' :
  env_at plain_env n fd e w -> opened w' = opened w -> (budget w' <= budget w)%nat ->
  env_at plain_env n fd e' w'.
Proof.
  intros [[Ho Hf] Hn] Heq Hb. cbn in *. split; cbn; [|lia]. split; [|lia].
  unfold owns in *. by rewrite Heq.
Qed.

Lemma dial_budget h p w : (budget (dial h p w).2 <= budget w)%nat.
Proof.
  unfold dial. pose proof (fin_getaddrinfo h p w) as Hg.
  destruct (getaddrinfo h p w) as [[gai res] w0]. cbn [snd] in Hg.
  destruct (negb _); [done|]. etransitivity; [clear Hg|exact Hg]. clear w.
  generalize ECONNREFUSED. revert w0. induction res as [|ai ais IH]; intros w err; [done|]. cbn [dial_loop].
  pose proof (fin_socket (ai_family ai) (ai_socktype ai) (ai_protocol ai) w) as H1.
  destruct (net_socket _ _ _ w) as [fd w1]. cbn [snd] in H1.
  destruct (fd <? 0); [etransitivity; [apply IH|done]|].
  pose proof (fin_ioctl fd w1) as H2. destruct (net_ioctl_nonblock fd w1) as [r2 w2]. cbn [snd] in H2.
  destruct (r2 <? 0); [etransitivity; [apply IH|pose proof (fin_close fd w2); lia]|].
  pose proof (fin_connect fd (ai_addr ai) w2) as H3. destruct (net_connect fd _ w2) as [r3 w3]. cbn [snd] in H3.
  destruct (r3 =? 0); [cbn; lia|]. destruct (errno w3 =? EINPROGRESS); [cbn; lia|].
  etransitivity; [apply IH|pose proof (fin_close fd w3); lia].
Qed.

#[export] Instance plain_net_laws : NetLaws plain_env.
Proof.
  split.
  - intros n e w h p [[Ho Hf] Hn]. cbn in *. pose proof (dial_budget h p w).
    split; cbn; [|lia]. split; [|lia]. apply dial_owns. unfold owns in Ho. by rewrite decide_True in Ho.
  - intros. eapply plain_env_step; [done|apply subscribe_ok|apply fin_subscribe].
  - intros. eapply plain_env_step; [done|apply getsockopt_ok|apply fin_getsockopt].
  - intros. eapply plain_env_step; [done|apply clear_ok|apply fin_clear].
  - intros n fd e w Hfd [[Ho Hf] Hn]. cbn in *. pose proof (fin_close fd w).
    split; cbn; [|lia]. split; [|lia]. unfold owns in *. rewrite decide_True by done.
    rewrite decide_False in Ho by done. destruct Ho as [Hni Ho]. rewrite close_ok, Ho.
    rewrite difference_union_distr_l_L, difference_diag_L, union_empty_r_L.
    by apply difference_disjoint_L, disjoint_singleton_r.
Qed.

(** What a plain read or write does to the world, whatever its outcome. *)
Definition world_step (w w' : W) : Prop := opened w' = opened w /\ (budget w' <= budget w)%nat.

Lemma plain_read_total e b w :
  buffer_wf b -> (budget w < fuel)%nat ->
  exists st b' w', Plain.read fuel e (b, w) = Ret (st, (b', w')) /\ world_step w w' /\
    buffer_wf b' /\ CAP b' = CAP b /\ (exists d, contents b' = contents b ++ d) /\
    (st = transport.ok -> (budget w' < budget w)%nat).
Proof.
  intros Hb. revert w. induction fuel as [|f IH]; intros w Hf; [lia|].
  pose proof (room_nonneg b Hb) as Hroom.
  pose proof (fin_read (Plain.fd e) (room b) w Hroom) as Hr. pose proof (read_ok (Plain.fd e) (room b) w) as Ho.
  destruct (net_read (Plain.fd e) (room b) w) as [[len data] w'] eqn:Heq.
  destruct Hr as (Hlen & Hle & Hlt). cbn [snd] in Ho.
  destruct (decide (len < 0 /\ errno w' = EINTR)) as [[Hneg Herr]|Hno].
  - assert (Hstep : Plain.read (S f) e (b, w) = Plain.read f e (b, w')).
    { apply loop_again. unfold mbind, M_bind, lift, Plain.call_read. cbn [fst snd]. rewrite wbuf_wf by done.
      cbn [fst snd]. rewrite zlen_wbuf, Heq by done. cbn [fst snd].
      rewrite (proj2 (Z.ltb_ge _ _)), (proj2 (Z.eqb_neq _ _)) by lia.
      unfold gets. cbn [snd]. by rewrite Herr. }
    destruct (IH w') as (st & b' & w2 & Hrun & [Ho2 Hb2] & Hrest); [lia|].
    exists st, b', w2. rewrite Hstep. split_and!; try apply Hrest; [done|split; [congruence|lia]|].
    intros Hst. destruct Hrest as (_ & _ & _ & Hok). specialize (Hok Hst). lia.
  - destruct (plain_read_once f e b w len data w' Hb Heq) as (b' & Hrun & Hwf & HC & Hc).
    { done. } { intros ? ?. apply Hno. done. }
    do 3 eexists. split; [exact Hrun|]. split_and!; [by split|done|done|by eexists|].
    destruct (0 <? len) eqn:E; bool_to_prop; [intros _; apply Hlt; by left|].
    destruct (len =? 0); [done|]. unfold failure. by destruct (_ =? _).
Qed.

Lemma plain_write_total e b w :
  buffer_wf b -> (budget w < fuel)%nat -> zlen (contents b) <= INT_MAX ->
  exists st b' w', Plain.write fuel e (b, w) = Ret (st, (b', w')) /\ world_step w w' /\
    buffer_wf b' /\ CAP b' = CAP b /\ (exists k, contents b' = drop k (contents b)).
Proof.
  intros Hb. revert w. induction fuel as [|f IH]; intros w Hf Hmax; [lia|].
  pose proof (fin_write (Plain.fd e) (contents b) w) as Hr. pose proof (write_ok (Plain.fd e) (contents b) w) as Ho.
  destruct (net_write (Plain.fd e) (contents b) w) as [len w'] eqn:Heq.
  destruct Hr as (Hlen & Hle & Hlt). cbn [snd] in Ho.
  destruct (decide (len < 0 /\ errno w' = EINTR)) as [[Hneg Herr]|Hno].
  - assert (Hstep : Plain.write (S f) e (b, w) = Plain.write f e (b, w')).
    { apply loop_again. unfold mbind, M_bind, lift, Plain.call_write. cbn [fst snd]. rewrite rbuf_wf by done.
      cbn [fst snd]. rewrite Heq. cbn [fst snd]. replace len with (-1) by lia.
      change (0 <=? s32 (-1)) with false. cbv iota.
      unfold gets. cbn [snd]. by rewrite Herr. }
    destruct (IH w') as (st & b' & w2 & Hrun & [Ho2 Hb2] & Hrest); [lia|done|].
    exists st, b', w2. rewrite Hstep. split_and!; try apply Hrest; [done|split; [congruence|lia]].
  - destruct (plain_write_once f e b w len w' Hb Heq) as (b' & Hrun & Hwf & HC & Hc).
    { done. } { done. } { intros ? ?. apply Hno. done. }
    do 3 eexists. split; [exact Hrun|]. split_and!; [by split|done|done|by eexists].
Qed.

#[export] Instance plain_transport_laws :
  TransportLaws (tr := Plain.ops (net := net) fuel) plain_env False False.
Proof.
  split; try done.
  - intros n fd e b w He Hb. pose proof He as [[_ Hf] Hn]. cbn in Hn.
    destruct (plain_read_total e b w Hb Hf) as (st & b' & w' & Hrun & [Ho Hbu] & Hwf & HC & Hd & Hok).
    cbn. rewrite Hrun. split_and!; [by eapply plain_env_step|done|done|done|].
    intros Hst. right. specialize (Hok Hst). lia.
  - intros n fd e b w He Hb Hmax. pose proof He as [[_ Hf] Hn]. cbn in Hn.
    destruct (plain_write_total e b w Hb Hf Hmax) as (st & b' & w' & Hrun & [Ho Hbu] & Hwf & HC & Hk).
    cbn. rewrite Hrun. split_and!; [by eapply plain_env_step|done..].
Qed.
End plain_env.

(** ** Runs of a connection *)

Inductive call (Ev : Type) : Type :=
| Handle (ev : Ev)
| Heartbeat
| Restart
| Stop.
Arguments Handle {Ev} ev. Arguments Heartbeat {Ev}. Arguments Restart {Ev}. Arguments Stop {Ev}.

Section runs.
Context {W Ev E TCfg P PCfg : Type}.
Context {net : NetOps W Ev} {tr : TransportOps W E TCfg} {pr : ProtocolOps W P PCfg}.
Context (fuel : nat).

Definition run_call (c : call Ev) : M (cst W E TCfg P PCfg) unit :=
  match c with
  | Handle ev => handle_event fuel ev
  | Heartbeat => heartbeat fuel
  | Restart => restart fuel
  | Stop => stop fuel
  end.

Fixpoint run_calls (cs : list (call Ev)) : M (cst W E TCfg P PCfg) unit :=
  match cs with
  | [] => mret tt
  | c :: cs' => run_call c ≫= fun _ => run_calls cs'
  end.

(** A new connection is attached and then driven by [cs]. *)
Definition lifetime (host : list Z) (port : Z) (tc : TCfg) (pc : PCfg) (cookie : Z)
    (cs : list (call Ev)) (w : W) : outcome (unit * cst W E TCfg P PCfg) :=
  (attach fuel (Some cookie) ≫= fun _ => run_calls cs) (mkCst (Connection_new host port tc pc) w).

Context (R : env_rel W E) (nf ub : Prop).
Context {net_laws : NetLaws (net := net) R}.
Context {tr_laws : TransportLaws (tr := tr) R nf ub}.
Context {pr_laws : ProtocolLaws (pr := pr) R nf ub}.
Context (Hfuel : nf \/ (RX_CAP < Z.of_nat fuel /\ TX_CAP < Z.of_nat fuel)).

Lemma run_calls_inv n cs (s : cst W E TCfg P PCfg) :
  inv R n s -> (rank (_state (conn s)) < 7)%nat -> nf \/ (n < fuel)%nat ->
  wp nf ub (run_calls cs) (fun _ s' => inv R n s' /\ (rank (_state (conn s')) < 7)%nat) s.
Proof.
  intros Hi Hr Hn. revert s Hi Hr. induction cs as [|c cs IH]; intros s Hi Hr; [done|].
  apply wp_bind. apply (wp_mono _ _ _ (fun _ s' => inv R n s' /\ (rank (_state (conn s')) < 7)%nat)).
  - destruct c; cbn [run_call].
    + eapply wp_mono; [by apply (steps_inv R nf ub fuel Hfuel n)|]. cbn. intros _ s' [? ?]. split; [done|lia].
    + by apply (heartbeat_inv R nf ub).
    + by apply (restart_inv R nf ub).
    + by apply (stop_inv R nf ub).
  - intros _ s' [Hi' Hr']. by apply IH.
Qed.

Lemma base_new n host port tc pc k w :
  env_at R n (-1) None w -> env_cookie R k ->
  base R n (mkCst (set_cookie k (Connection_new host port tc pc)) w : cst W E TCfg P PCfg).
Proof.
  intros Henv Hk.
  assert (Hcap : 0 <= RX_CAP < 2 ^ 64 /\ 0 <= TX_CAP < 2 ^ 64) by (vm_compute; repeat split; discriminate).
  destruct (cap_new RX_CAP (proj1 Hcap)) as [Hr HrC]. destruct (cap_new TX_CAP (proj2 Hcap)) as [Ht HtC].
  unfold Connection_new. generalize dependent (Buffer_new RX_CAP). intros brx Hr HrC.
  generalize dependent (Buffer_new TX_CAP). intros btx Ht HtC. by split.
Qed.

Lemma lifetime_inv n host port tc pc cookie cs w :
  env_at R n (-1) None w -> env_cookie R (Some cookie) -> nf \/ (n < fuel)%nat ->
  owp nf ub (lifetime host port tc pc cookie cs w)
    (fun '(_, s') => inv R n s' /\ (rank (_state (conn s')) < 7)%nat).
Proof.
  intros Henv Hk Hn. set (s := mkCst (Connection_new host port tc pc) w : cst W E TCfg P PCfg).
  assert (Hw : wp nf ub (attach fuel (Some cookie) ≫= fun _ => run_calls cs)
    (fun _ s' => inv R n s' /\ (rank (_state (conn s')) < 7)%nat) s).
  { apply wp_bind, wp_bind, wp_gets. cbn [conn s _cookie Connection_new].
    apply wp_bind, wp_modify. eapply wp_mono; [apply (enter_uninitialized_inv R nf ub fuel Hfuel n)|].
    - by apply base_new.
    - done.
    - done.
    - cbn. intros _ s1 [Hi1 Hr1]. by apply run_calls_inv. }
  unfold wp in Hw. unfold lifetime, owp. fold s. by destruct ((attach fuel (Some cookie) ≫= _) s) as [[? ?]| |].
Qed.
End runs.

Section plain_runs.
Context {W Ev P PCfg : Type}.
Context {net : NetOps W Ev} {net_ok : NetOk W} {net_fin : NetFinite W}.
Context {pr : ProtocolOps W P PCfg}.
Context (fuel : nat).
#[local] Existing Instance Plain.ops.

End plain_runs.

(** ** Witness: an echo protocol over the toy network *)

Definition echo_data {W : Type} (p : unit) (io : IO) (w : W) : outcome (protocol.Status * unit * IO * W) :=
  inp ← io_rbuf io;
  out ← io_wbuf io;
  let d := take (length (out : list Z)) inp in
  io' ← io_put io d;
  Ret (protocol.ok, p, io_read (io_wrote io' (zlen d)) (zlen d), w).

#[export] Instance echo {W : Type} : ProtocolOps W unit unit := {
  session_new := fun _ _ _ => tt;
  proto_on_connect := None;
  proto_on_data := echo_data;
  proto_on_shutdown := None;
  proto_heartbeat := None;
  proto_teardown := None
}.

Lemma echo_law {W : Type} (R : env_rel W Plain.Endpoint) : handler_law R False False echo_data.
Proof.
  intros n fd e p io w Henv [Hrx Htx]. unfold echo_data, io_rbuf, io_wbuf, Input_rbuf, Output_wbuf.
  rewrite rbuf_wf, wbuf_wf by done. cbn [mbind outcome_bind]. set (d := take _ _).
  pose proof (zlen_wbuf _ Htx) as Hz. unfold zlen in Hz.
  assert (Hd : zlen d <= room (io_tx io)) by (unfold d, zlen; rewrite length_take; lia).
  assert (Hd' : 0 <= zlen d <= zlen (contents (io_rx io))) by (unfold d, zlen; rewrite length_take; lia).
  destruct (wbuf_write_spec (io_tx io) d Htx Hd) as (b & Hb & _ & HC & _ & _ & _ & Hwf & Hc).
  destruct (inc_rpos_spec (io_rx io) (zlen d) Hrx Hd') as [Hrx' Hrc].
  unfold io_put. rewrite Hb. cbn. split; [|done]. unfold io_wf, progress. cbn.
  unfold Input_read, Output_wrote. rewrite CAP_inc_rpos, CAP_inc_wpos, HC. split_and!; try done; by eexists.
Qed.

#[export] Instance echo_laws {W : Type} (R : env_rel W Plain.Endpoint) : ProtocolLaws R False False.
Proof. split; try done. apply echo_law. Qed.

(** Fuel for buffers of [RX_CAP] and [TX_CAP] bytes. *)
Definition big_fuel : nat := Z.to_nat (2 ^ 21).

Lemma big_fuel_of : Z.of_nat big_fuel = 2 ^ 21.
Proof. unfold big_fuel. apply Z2Nat.id. lia. Qed.

