(* ===== verification/ConnectionPaths.v ===== *)
(** * Particular paths through a connection

    - output reaches the transport in the order it was queued, with nothing lost
      or repeated ([transport_write]);
    - what happens when a read fails while a closing connection drains its input,
      over the plain transport and over TLS;
    - stopping a TLS connection that is still dialling. *)

From S2P Require Import Prelude Status Buffer Net Transport Connection PlainConnection.

(** ** Output order *)

Section fifo.
Context {W Ev E TCfg P PCfg : Type}.
Context {net : NetOps W Ev} {tr : TransportOps W E TCfg} {pr : ProtocolOps W P PCfg}.

(** [sent w]: the bytes handed to the transport so far.  Only a transport write
    extends it, by the bytes it takes off the front of the buffer. *)
Class SentLaws (sent : W -> list Z) : Prop := {
  sent_write : forall e b w st e' b' w', buffer_wf b -> zlen (contents b) <= INT_MAX ->
    ep_write e b w = Ret (st, e', b', w') ->
    buffer_wf b' /\
    exists k, sent w' = sent w ++ take k (contents b) /\ contents b' = drop k (contents b);
  sent_destroy : forall e w e' w', ep_destroy e w = Ret (e', w') -> sent w' = sent w;
  sent_teardown : forall h p w p' w', proto_teardown = Some h -> h p w = Ret (p', w') -> sent w' = sent w;
  sent_subscribe : forall c fd r b w, sent (net_subscribe c fd r b w) = sent w;
  sent_clear : forall fd w, sent (net_clear fd w) = sent w;
  sent_close : forall fd w, sent (net_close fd w) = sent w
}.

Context (sent : W -> list Z) {sent_laws : SentLaws sent}.
Abbreviation st_t := (cst W E TCfg P PCfg).

(** Everything queued so far: handed over, or still in the buffer. *)
Definition queued (s : st_t) : list Z := sent (world s) ++ contents (_tx (conn s)).

(** [m] neither loses, repeats nor reorders output. *)
Definition keeps {A} (m : M st_t A) : Prop :=
  forall s, wp True True m (fun _ s' => queued s' = queued s /\ _tx (conn s') = _tx (conn s)) s.

Lemma keeps_ret {A} (a : A) : keeps (mret a).
Proof. by intros s. Qed.

Lemma keeps_bind {A B} (m : M st_t A) (f : A -> M st_t B) :
  keeps m -> (forall a, keeps (f a)) -> keeps (m ≫= f).
Proof.
  intros Hm Hf s. apply wp_bind. eapply wp_mono; [apply Hm|]. intros a s1 [H1 H1'].
  eapply wp_mono; [apply Hf|]. cbn. intros _ s2 [H2 H2']. by rewrite H2, H2'.
Qed.

Lemma keeps_gets {A} (f : st_t -> A) : keeps (gets f).
Proof. by intros s. Qed.

Lemma keeps_subscribe r b : keeps (subscribe r b).
Proof. intros s. unfold wp, subscribe, queued. cbn. by rewrite sent_subscribe. Qed.

Lemma keeps_put_state x : keeps (put_state x).
Proof. by intros s. Qed.

Lemma keeps_teardown : keeps teardown.
Proof.
  apply keeps_bind; [apply keeps_gets|]. intros fd. destruct (negb _); [|apply keeps_ret].
  repeat (apply keeps_bind; [|intros ?]).
  - intros s. unfold wp, call_teardown. destruct proto_teardown as [h|] eqn:Hh; [|done].
    destruct (h _ _) as [[p w']| |] eqn:Hr; [|done..]. unfold queued. cbn. by erewrite sent_teardown.
  - intros s. unfold wp, call_destroy. destruct (ep_destroy _ _) as [[e' w']| |] eqn:Hr; [|done..].
    unfold queued. cbn. by erewrite sent_destroy.
  - apply keeps_gets.
  - intros s. unfold wp, with_world, modify, queued. cbn. by rewrite sent_clear.
  - intros s. unfold wp, with_world, modify, queued. cbn. by rewrite sent_close.
  - by intros s.
Qed.

Lemma keeps_arm status : keeps (arm status).
Proof.
  destruct status; cbn [arm]; try apply keeps_ret.
  - apply keeps_bind; [apply keeps_put_state|]. intros _. apply keeps_teardown.
  - apply keeps_bind; [|intros l; apply keeps_subscribe].
    intros s. unfold wp, tx_rbuf, lift. by destruct (rbuf _).
  - apply keeps_bind; [apply keeps_gets|]. intros st. apply keeps_subscribe.
Qed.

(** The transmit buffer is well formed and [q] is what was queued. *)
Definition fifo_at (q : list Z) (s : st_t) : Prop :=
  (buffer_wf (_tx (conn s)) /\ zlen (contents (_tx (conn s))) <= INT_MAX) /\ queued s = q.

Lemma keeps_fifo {A} (m : M st_t A) q s :
  keeps m -> fifo_at q s -> wp True True m (fun _ => fifo_at q) s.
Proof.
  intros Hm [Hb Hq]. eapply wp_mono; [apply Hm|]. cbn. intros _ s' [H1 H2]. split; [by rewrite H2|congruence].
Qed.

Lemma call_write_fifo q s :
  fifo_at q s -> wp True True call_write (fun _ => fifo_at q) s.
Proof.
  intros [[Hb Hz] Hq]. unfold wp, call_write. destruct (_transport (conn s)) as [e|]; [|done].
  destruct (ep_write e _ _) as [[[[st e'] b'] w']| |] eqn:Hr; [|done..].
  destruct (sent_write _ _ _ _ _ _ _ Hb Hz Hr) as (Hb' & k & Hs & Hc). split.
  { split; [done|]. cbn. rewrite Hc. unfold zlen in *. rewrite length_drop. lia. }
  unfold queued in *. cbn. by rewrite Hs, Hc, <- app_assoc, take_drop.
Qed.

Lemma write_round_fifo q s :
  fifo_at q s -> wp True True write_round (fun r s' => fifo_at q s' /\
    (r = Some true -> _fd (conn s') <> -1 -> contents (_tx (conn s')) = [])) s.
Proof.
  intros Hq. pose proof Hq as [[Hb _] _]. unfold write_round.
  assert (Hfalse : forall (m : M st_t unit) s1, keeps m -> fifo_at q s1 ->
    wp True True (m ≫= fun _ => mret (Some false)) (fun r s' => fifo_at q s' /\
      (r = Some true -> _fd (conn s') <> -1 -> contents (_tx (conn s')) = [])) s1).
  { intros m s1 Hm Hq1. apply wp_bind. eapply wp_mono; [by apply (keeps_fifo m q)|]. by intros ? s2 ?. }
  apply wp_bind, wp_gets, wp_if; intros E0; bool_to_prop; [by apply wp_ret|].
  apply wp_bind. unfold wp at 1, tx_rbuf, lift. rewrite rbuf_wf by done.
  apply wp_if; intros E1; bool_to_prop.
  { apply wp_ret. split; [done|]. intros _ _. by apply zlen_0_inv. }
  apply wp_bind. eapply wp_mono; [by apply (call_write_fifo q)|]. cbn. intros status s1 Hq1.
  apply wp_bind, wp_gets. apply wp_if; intros E2; [apply Hfalse; [apply keeps_put_state|done]|].
  apply wp_if; intros E3; [apply Hfalse; [apply keeps_arm|done]|].
  apply wp_bind. unfold wp at 1, tx_rbuf, lift. rewrite rbuf_wf by apply Hq1.
  apply wp_if; intros E4; [apply Hfalse; [apply (keeps_arm transport.want_write)|done]|].
  by apply wp_ret.
Qed.

Lemma transport_write_fifo_partial fuel re_arm q s :
  fifo_at q s -> wp True True (transport_write fuel re_arm) (fun b s' => fifo_at q s' /\
    (b = true -> _fd (conn s') <> -1 -> contents (_tx (conn s')) = [])) s.
Proof.
  intros Hq. unfold transport_write. apply wp_bind.
  apply (wp_mono _ _ _ (fun b s' => fifo_at q s' /\
    (b = true -> _fd (conn s') <> -1 -> contents (_tx (conn s')) = []))).
  - apply wp_loop with (I := fifo_at q) (mu := fun _ => 0%nat); [|done|by left].
    intros s1 Hq1. eapply wp_mono; [by apply (write_round_fifo q)|].
    intros [r|] s2 [H1 H2]; [|by auto]. split; [done|]. intros ->. by apply H2.
  - intros b s1 [Hq1 He]. apply wp_if; intros E0; [|by apply wp_ret].
    apply wp_bind, wp_gets, wp_bind, wp_gets, wp_bind.
    apply (wp_mono _ _ _ (fun _ s2 => fifo_at q s2 /\ conn s2 = conn s1)).
    + apply wp_if; intros _; [|by apply wp_ret]. unfold wp, subscribe.
      destruct Hq1 as [Hb1 Hq1]. split; [|done]. split; [done|]. unfold queued in *. cbn. by rewrite sent_subscribe.
    + intros _ s2 [Hq2 Heq]. apply wp_ret. split; [done|]. rewrite Heq. by intros _; apply He.
Qed.
End fifo.

(** The bytes written to a network, in order. *)
Class NetSent (W : Type) {Ev : Type} {net : NetOps W Ev} := {
  net_sent : W -> list Z;
  net_sent_write : forall fd l w,
    net_sent (net_write fd l w).2 = net_sent w ++ take (Z.to_nat (net_write fd l w).1) l;
  net_sent_subscribe : forall c fd r b w, net_sent (net_subscribe c fd r b w) = net_sent w;
  net_sent_clear : forall fd w, net_sent (net_clear fd w) = net_sent w;
  net_sent_close : forall fd w, net_sent (net_close fd w) = net_sent w
}.

Section plain_order.
Context {W Ev P PCfg : Type}.
Context {net : NetOps W Ev} {net_ok : NetOk W} {net_fin : NetFinite W} {net_snt : NetSent W}.
Context {pr : ProtocolOps W P PCfg}.
Context (fuel : nat) (Hpr : proto_teardown = None).

(** A plain write sends a prefix of the buffer and takes it off. *)
Lemma plain_write_sent f e b w st b' w' :
  buffer_wf b -> zlen (contents b) <= INT_MAX -> Plain.write f e (b, w) = Ret (st, (b', w')) ->
  buffer_wf b' /\ exists k, net_sent w' = net_sent w ++ take k (contents b) /\ contents b' = drop k (contents b).
Proof.
  intros Hb Hmax. revert w. induction f as [|f IH]; intros w Hrun; [done|].
  pose proof (fin_write (Plain.fd e) (contents b) w) as Hr.
  pose proof (net_sent_write (Plain.fd e) (contents b) w) as Hs.
  destruct (net_write (Plain.fd e) (contents b) w) as [len w1] eqn:Heq. cbn [fst snd] in Hs.
  destruct Hr as (Hlen & _ & _). destruct (decide (len < 0 /\ errno w1 = EINTR)) as [[Hneg Herr]|Hno].
  - assert (Hi : writes_interrupted 1 (Plain.fd e) (contents b) w = Some w1).
    { cbn [writes_interrupted]. rewrite Heq, Herr. by rewrite (proj2 (Z.eqb_eq len (-1))) by lia. }
    pose proof (plain_write_interrupted f 1 e b w w1 Hb Hi) as Hstep. cbn [Nat.add] in Hstep.
    rewrite Hstep in Hrun.
    replace (Z.to_nat len) with 0%nat in Hs by lia. rewrite app_nil_r in Hs. rewrite <- Hs. by apply IH.
  - destruct (plain_write_once f e b w len w1 Hb Heq) as (b1 & Hrun1 & Hwf & _ & Hc);
      [done|done|intros ? ?; by apply Hno|]. rewrite Hrun in Hrun1. simplify_eq. split; [done|by eexists].
Qed.

#[local] Instance plain_sent : SentLaws (tr := Plain.ops fuel) net_sent.
Proof.
  split.
  - intros e b w st e' b' w' Hb Hz. cbn. destruct (Plain.write fuel e (b, w)) as [[? [? ?]]| |] eqn:Hr; [|done..].
    intros ?. simplify_eq. by eapply plain_write_sent.
  - intros e w e' w'. cbn. unfold Plain.destroy. by intros ?; simplify_eq.
  - intros h p w p' w'. by rewrite Hpr.
  - intros. apply net_sent_subscribe.
  - intros. apply net_sent_clear.
  - intros. apply net_sent_close.
Qed.

(** C18: flushing the transmit buffer of a plain connection returns, and hands the
    queued bytes to the network in order, none lost and none twice, whatever
    partial writes and errors occur; when it reports success on an open
    connection, nothing is left. *)
Theorem plain_output_in_order (base0 : gset Z) (n : nat) (re_arm : bool)
    (s : cst W Plain.Endpoint unit P PCfg)
    (pr_laws : ProtocolLaws (plain_env fuel base0) False False)
    (Hfuel : RX_CAP < Z.of_nat fuel /\ TX_CAP < Z.of_nat fuel)
    (Hlive : live (plain_env fuel base0) n s) :
  exists b s', transport_write (tr := Plain.ops fuel) fuel re_arm s = Ret (b, s') /\
    net_sent (world s') ++ contents (_tx (conn s')) = net_sent (world s) ++ contents (_tx (conn s)) /\
    (b = true -> _fd (conn s') <> -1 -> contents (_tx (conn s')) = []).
Proof.
  pose proof (transport_write_within (tr := Plain.ops fuel) (plain_env fuel base0) False False fuel
    (or_intror Hfuel) n s re_arm Hlive) as Htot.
  pose proof (transport_write_fifo_partial (tr := Plain.ops fuel) net_sent fuel re_arm (queued net_sent s) s) as Hpart.
  unfold wp in *. destruct (transport_write fuel re_arm s) as [[b s']| |]; [|done..].
  destruct Hpart as [[_ Hq] He].
  { destruct Hlive as [[[] _] _]. split; [|done]. split; [done|]. pose proof (contents_le_cap _ base_tx) as Hc.
    rewrite base_tx_cap in Hc. change INT_MAX with 2147483647. change TX_CAP with 1048576 in Hc. lia. }
  by exists b, s'.
Qed.
End plain_order.

#[export] Instance toy_sent : NetSent toy.
Proof.
  refine {| net_sent := toy_out |}; try done.
  intros fd l w. cbn. unfold zlen. by rewrite Nat2Z.id, take_ge.
Defined.

(** An open plain connection of descriptor 3 with three bytes to send. *)
Definition sample_conn (st : state_t.t) : Connection Plain.Endpoint unit unit unit :=
  mkConn (Buffer_new RX_CAP) (inc_wpos (Buffer_new TX_CAP) 3) (Some (Plain.mkEndpoint 3)) tt tt tt
         (str "host") (Some 1) 3 st 80.

Definition sample_world : toy := mkToy {[ 3 ]} 4 false [] [] 0.

Lemma sample_live st :
  st <> state_t.closed -> st <> state_t.error ->
  live (plain_env big_fuel ∅) 0 (mkCst (sample_conn st) sample_world).
Proof.
  intros H1 H2.
  assert (Hcap : 0 <= RX_CAP < 2 ^ 64 /\ 0 <= TX_CAP < 2 ^ 64) by (vm_compute; repeat split; discriminate).
  destruct (cap_new RX_CAP (proj1 Hcap)) as [Hr HrC].
  assert (Htx : buffer_wf (inc_wpos (Buffer_new TX_CAP) 3) /\ CAP (inc_wpos (Buffer_new TX_CAP) 3) = TX_CAP).
  { destruct (cap_new TX_CAP (proj2 Hcap)) as [Ht HtC]. rewrite CAP_inc_wpos. split; [|done].
    apply inc_wpos_wf; [done|]. unfold room. rewrite HtC. change TX_CAP with 1048576. cbn [_wpos Buffer_new]. lia. }
  destruct Htx as [Ht HtC]. unfold sample_conn.
  generalize dependent (Buffer_new RX_CAP). intros brx Hr HrC.
  generalize dependent (inc_wpos (Buffer_new TX_CAP) 3). intros btx Ht HtC.
  split; [split|by eexists].
  - split; try done. cbn. split; [|done]. split; [|apply Nat2Z.inj_lt; rewrite big_fuel_of; vm_compute; reflexivity].
    unfold owns. rewrite decide_False by done. split; [set_solver|]. vm_compute. reflexivity.
  - unfold fits. cbn. destruct st; try done; by repeat split; try eexists.
Qed.

Lemma plain_output_in_order_witness :
  exists b s', transport_write (tr := Plain.ops big_fuel) (pr := echo) big_fuel true
      (mkCst (sample_conn state_t.protocol) sample_world) = Ret (b, s') /\
    (b = true -> _fd (conn s') <> -1 -> contents (_tx (conn s')) = []).
Proof.
  destruct (plain_output_in_order (pr := echo) big_fuel eq_refl ∅ 0 true
    (mkCst (sample_conn state_t.protocol) sample_world)) as (b & s' & Hrun & _ & He).
  - exact (echo_laws _).
  - rewrite big_fuel_of. split; vm_compute; reflexivity.
  - apply sample_live; discriminate.
  - exists b, s'. split; [exact Hrun|exact He].
Defined.

(** ** A read that fails while a closing connection drains *)

Section drain_fault.
Context {W Ev E TCfg P PCfg : Type}.
Context {net : NetOps W Ev} {tr : TransportOps W E TCfg} {pr : ProtocolOps W P PCfg}.
Context (rx tx : Buffer) (e e1 e2 : E) (p : P) (tc : TCfg) (pc : PCfg) (host : list Z)
        (ck : option Z) (fd port : Z) (w w1 w2 : W) (ev : Ev).
Hypothesis Hpr : proto_teardown = None.
Hypothesis Hrx : buffer_wf rx.
Hypothesis Hroom : full rx = false.
Hypothesis Hfd : fd <> -1.
Hypothesis Hev : ev_readable ev = true.
Hypothesis Hread : ep_read e rx w = Ret (transport.error, e1, rx, w1).
Hypothesis Hdestroy : ep_destroy (Some e1) w1 = Ret (Some e2, w2).

(** The connection in state [st] over endpoint [t] and descriptor [d]. *)
Definition at_state (b : Buffer) (t : E) (d : Z) (st : state_t.t) : Connection E TCfg P PCfg :=
  mkConn b tx (Some t) p tc pc host ck d st port.

(** The world once the endpoint was destroyed and the descriptor closed. *)
Definition released : W := net_close fd (net_clear fd w2).

Lemma drain_teardown st :
  teardown (mkCst (at_state rx e1 fd st) w1) = Ret (tt, mkCst (at_state rx e2 (-1) st) released).
Proof.
  unfold teardown, mbind, M_bind, get_fd, gets. cbn [conn _fd at_state].
  rewrite (proj2 (Z.eqb_neq _ _)) by done. cbn [negb].
  unfold call_teardown. rewrite Hpr. unfold call_destroy. cbn [conn _transport at_state world].
  rewrite Hdestroy. done.
Qed.

Lemma drain_read f :
  transport_read (S f) (mret true) (mret tt) (mkCst (at_state rx e fd state_t.drain_protocol) w) =
  Ret (tt, mkCst (at_state rx e2 (-1) state_t.error) released).
Proof.
  apply loop_done. unfold read_round, mbind, M_bind, gets. cbn [conn _rx at_state]. rewrite Hroom.
  unfold rx_rbuf, lift. cbn [conn _rx at_state]. rewrite rbuf_wf by done.
  unfold call_read. cbn [conn _transport at_state _rx world]. rewrite Hread.
  cbn [set_rx set_transport conn _rx _tx _transport _protocol _transport_config _protocol_config _host _cookie _fd _state _port at_state].
  rewrite rbuf_wf by done. rewrite Z.eqb_refl. cbn [negb].
  unfold mret at 1, M_ret at 1. cbn [negb].
  pose proof (drain_teardown state_t.error) as Ht. unfold at_state in Ht.
  unfold enter_error, mbind, M_bind, put_state, with_conn, modify.
  cbn [set_state conn world _rx _tx _transport _protocol _transport_config _protocol_config _host _cookie _fd _state _port].
  change (set_state state_t.error _) with (at_state rx e1 fd state_t.error). unfold at_state at 1.
  rewrite Ht. done.
Qed.

(** The flush that follows finds no descriptor, reports success, and the
    connection moves on from [error] to [close_transport]. *)
Lemma drain_step f :
  step_drain_protocol (S f) (Some ev) (mkCst (at_state rx e fd state_t.drain_protocol) w) =
  Ret (tt, mkCst (at_state (clear rx) e2 (-1) state_t.close_transport) released).
Proof.
  unfold step_drain_protocol. rewrite Hev. unfold mbind, M_bind. rewrite drain_read. done.
Qed.

Lemma drain_round f :
  steps_round (S f) (Some ev) (mkCst (at_state rx e fd state_t.drain_protocol) w) =
  Ret (None, mkCst (at_state (clear rx) e2 (-1) state_t.close_transport) released).
Proof.
  unfold steps_round, mbind, M_bind, get_state, gets. cbn [conn _state at_state].
  rewrite drain_step. done.
Qed.

(** Without a transport shutdown the connection ends up [closed]. *)
Lemma drain_fault_closed f :
  ep_shutdown_step = None ->
  steps (S (S (S f))) (Some ev) (mkCst (at_state rx e fd state_t.drain_protocol) w) =
  Ret (tt, mkCst (at_state (clear rx) e2 (-1) state_t.closed) released).
Proof.
  intros Hs. unfold steps. erewrite loop_again by apply drain_round.
  rewrite (loop_again _ _ _ (mkCst (at_state (clear rx) e2 (-1) state_t.closed) released)); [by apply loop_done|].
  unfold steps_round, mbind, M_bind, get_state, gets. cbn [conn _state at_state].
  unfold step_close_transport. rewrite Hs. done.
Qed.

(** With one it is run on the endpoint that was already destroyed. *)
Lemma drain_fault_undefined f h :
  ep_shutdown_step = Some h -> h e2 released = UB ->
  steps (S (S f)) (Some ev) (mkCst (at_state rx e fd state_t.drain_protocol) w) = UB.
Proof.
  intros Hs Hh. unfold steps. erewrite loop_again by apply drain_round.
  simpl. unfold steps_round, mbind, M_bind, get_state, gets. cbn [conn _state at_state].
  unfold step_close_transport. rewrite Hs. unfold mbind, M_bind, call_step.
  cbn [conn _transport at_state world]. by rewrite Hh.
Qed.
End drain_fault.

(** Over the plain transport, a read error while draining does not leave the
    connection in [error]: it ends up [closed], which the reactor restarts. *)
Lemma plain_drain_error_closes {W Ev P PCfg : Type} {net : NetOps W Ev} {pr : ProtocolOps W P PCfg}
    (fuel : nat) (rx tx : Buffer) (p : P) (pc : PCfg) (host : list Z) (ck : option Z) (fd efd port : Z)
    (w w1 : W) (ev : Ev) (len : Z) (data : list Z)
    (Hpr : proto_teardown = None) (Hrx : buffer_wf rx) (Hroom : full rx = false) (Hfd : fd <> -1)
    (Hev : ev_readable ev = true)
    (Hread : net_read efd (room rx) w = (len, data, w1)) (Hlen : len < 0)
    (Herr : errno w1 <> EINTR /\ errno w1 <> EAGAIN) :
  exists s', handle_event (tr := Plain.ops (S fuel)) (S (S (S fuel))) ev
      (mkCst (mkConn rx tx (Some (Plain.mkEndpoint efd)) p tt pc host ck fd state_t.drain_protocol port) w)
    = Ret (tt, s') /\ closed (conn s') = true /\ _fd (conn s') = -1.
Proof.
  assert (Heq : Plain.read (S fuel) (Plain.mkEndpoint efd) (rx, w) = Ret (transport.error, (rx, w1))).
  { apply loop_done. unfold mbind, M_bind, lift, Plain.call_read. cbn [fst snd]. rewrite wbuf_wf by done.
    cbn [fst snd Plain.fd]. rewrite zlen_wbuf, Hread by done. cbn [fst snd].
    rewrite (proj2 (Z.ltb_ge _ _)), (proj2 (Z.eqb_neq _ _)) by lia. unfold gets. cbn [snd].
    rewrite eagain_or, !(proj2 (Z.eqb_neq _ _)) by apply Herr. done. }
  eexists. split; [|split].
  - apply (drain_fault_closed (tr := Plain.ops (S fuel)) rx tx (Plain.mkEndpoint efd) (Plain.mkEndpoint efd)
      (Plain.mkEndpoint efd) p tt pc host ck fd port w w1 w1 ev Hpr Hrx Hroom Hfd Hev); [|done|done].
    unfold ep_read, Plain.ops. by rewrite Heq.
  - done.
  - done.
Qed.

(** C34: over TLS the same read error frees the [SSL] object and then calls
    [SSL_shutdown] on it: a use after free. *)
Theorem tls_drain_error_use_after_free {W Ev P PCfg : Type} {net : NetOps W Ev} {ssl : OpenSSL W}
    {pr : ProtocolOps W P PCfg}
    (fuel : nat) (rx tx : Buffer) (p : P) (tc : list Z) (pc : PCfg) (host : list Z) (ck : option Z) (fd port : Z)
    (w w1 w2 : W) (ev : Ev) (ptr err : Z)
    (Hpr : proto_teardown = None) (Hrx : buffer_wf rx) (Hroom : full rx = false) (Hfd : fd <> -1)
    (Hptr : ptr <> 0) (Hev : ev_readable ev = true)
    (Hread : SSL_read ptr (Tls.clamp (room rx)) w = Ret (-1, [], w1))
    (Herr : SSL_get_error ptr (-1) w1 = Ret err)
    (Hkind : err <> SSL_ERROR_WANT_READ /\ err <> SSL_ERROR_WANT_WRITE /\ err <> SSL_ERROR_ZERO_RETURN)
    (Hfree : SSL_free ptr w1 = Ret w2)
    (Hfreed : SSL_shutdown ptr (net_close fd (net_clear fd w2)) = UB) :
  handle_event (tr := Tls.ops) (S (S fuel)) ev
    (mkCst (mkConn rx tx (Some (Tls.mkTls ptr)) p tc pc host ck fd state_t.drain_protocol port) w) = UB.
Proof.
  destruct Hkind as (H1 & H2 & H3).
  apply (drain_fault_undefined (tr := Tls.ops) rx tx (Tls.mkTls ptr) (Tls.mkTls ptr) (Tls.mkTls ptr) p tc pc
    host ck fd port w w1 w2 ev Hpr Hrx Hroom Hfd Hev) with (h := Tls.shutdown_step).
  - cbn. unfold Tls.read. rewrite wbuf_wf by done. cbn [mbind outcome_bind Tls.ssl_ctx].
    rewrite zlen_wbuf, Hread by done. cbn [mbind outcome_bind]. change (0 <? -1) with false. cbv iota.
    rewrite Herr. cbn [mbind outcome_bind]. unfold Tls.error_status.
    by rewrite !(proj2 (Z.eqb_neq _ _)) by done.
  - cbn. rewrite (proj2 (Z.eqb_neq _ _)) by done. cbn [negb]. by rewrite Hfree.
  - done.
  - unfold Tls.shutdown_step, released. cbn [Tls.ssl_ctx]. by rewrite Hfreed.
Qed.

(** A fresh connection whose dial is in progress waits with no endpoint. *)
Lemma attach_in_progress `{NetOps W Ev, TransportOps W E TCfg, ProtocolOps W P PCfg}
    fuel host port (tc : TCfg) (pc : PCfg) cookie w :
  dial_fd (dial host port w).1 <> -1 -> dial_err (dial host port w).1 = EINPROGRESS ->
  wp False False (attach fuel (Some cookie)) (fun _ s => _state (conn s) = state_t.in_progress /\
    _fd (conn s) = dial_fd (dial host port w).1 /\ _transport (conn s) = None)
    (mkCst (Connection_new host port tc pc) w).
Proof.
  intros Hfd Herr. apply wp_bind, wp_gets.
  change (_cookie (conn (mkCst (Connection_new host port tc pc) w))) with (@None Z).
  apply wp_bind, wp_modify. unfold enter_uninitialized. do 3 apply wp_bind, wp_modify. apply wp_bind.
  unfold wp at 1. cbn [conn world _host _port set_tx set_rx set_state set_cookie Connection_new].
  destruct (dial host port w) as [r w']. cbn [fst] in *.
  rewrite (proj2 (Z.eqb_neq _ _)), Herr by done. apply wp_bind, wp_modify.
  change (EINPROGRESS =? EINPROGRESS) with true. apply wp_bind, wp_modify. done.
Qed.

(** C35: stopping a TLS connection that is still being dialled destroys an endpoint
    that was never initialised. *)
Theorem tls_stop_while_dialling_undefined {W Ev P PCfg : Type} {net : NetOps W Ev} {ssl : OpenSSL W}
    {pr : ProtocolOps W P PCfg}
    (fuel : nat) (host : list Z) (port : Z) (tc : list Z) (pc : PCfg) (cookie : Z) (w : W)
    (Hpr : proto_teardown = None)
    (Hfd : dial_fd (dial host port w).1 <> -1) (Herr : dial_err (dial host port w).1 = EINPROGRESS) :
  lifetime (tr := Tls.ops) fuel host port tc pc cookie [Stop] w = UB.
Proof.
  pose proof (attach_in_progress (W := W) fuel host port tc pc cookie w Hfd Herr) as Ha.
  unfold lifetime, mbind, M_bind. unfold wp in Ha.
  destruct (attach _ _ _) as [[[] s]| |]; [|done..]. destruct Ha as (Hst & Hs & Ht).
  cbn [run_calls run_call]. unfold stop, mbind, M_bind, get_state, gets. rewrite Hst.
  unfold enter_closed, teardown, put_state, with_conn, modify, get_fd, gets, mbind, M_bind.
  cbn [conn _fd set_state]. rewrite Hs, (proj2 (Z.eqb_neq _ _)) by done. cbn [negb].
  unfold call_teardown. rewrite Hpr. unfold call_destroy. cbn [conn _transport set_state]. by rewrite Ht.
Qed.

Lemma plain_drain_error_closes_witness :
  exists s', handle_event (tr := Plain.ops 1) (pr := echo) 3 (mkToyEvent false false true false)
      (mkCst (mkConn (Buffer_new 16) (Buffer_new 16) (Some (Plain.mkEndpoint 3)) tt tt tt (str "host")
                     (Some 1) 3 state_t.drain_protocol 80) (mkToy {[ 3 ]} 4 false [[-1]] [] 0))
    = Ret (tt, s') /\ closed (conn s') = true.
Proof.
  destruct (plain_drain_error_closes (pr := echo) 0 (Buffer_new 16) (Buffer_new 16) tt tt (str "host") (Some 1) 3 3 80
    (mkToy {[ 3 ]} 4 false [[-1]] [] 0) (mkToy {[ 3 ]} 4 false [[-1]] [] ECONNRESET)
    (mkToyEvent false false true false) (-1) []) as (s' & Hrun & Hc & _).
  - reflexivity.
  - apply Buffer_new_wf. lia.
  - reflexivity.
  - discriminate.
  - reflexivity.
  - reflexivity.
  - lia.
  - split; discriminate.
  - exists s'. split; [exact Hrun|exact Hc].
Defined.

(** A TLS library in which only pointer 7 can be live and every read fails. *)
Definition toy_ssl_live (w : toy * bool) {A} (a : A) : outcome A := if w.2 then Ret a else UB.

#[export] Instance toy_ssl : OpenSSL (toy * bool) := {
  SSL_new := fun w => (Some 7, (w.1, true));
  SSL_attach_socket := fun _ _ w => toy_ssl_live w w;
  SSL_set_tlsext_host_name := fun _ _ w => toy_ssl_live w (1, w);
  SSL_set_verify_peer := fun _ w => toy_ssl_live w w;
  SSL_set1_host := fun _ _ w => toy_ssl_live w (1, w);
  SSL_free := fun _ w => toy_ssl_live w (w.1, false);
  SSL_connect := fun _ w => toy_ssl_live w (1, w);
  SSL_read := fun _ _ w => toy_ssl_live w (-1, [], w);
  SSL_write := fun _ l w => toy_ssl_live w (zlen l, w);
  SSL_shutdown := fun _ w => toy_ssl_live w (1, w);
  SSL_get_error := fun _ _ w => toy_ssl_live w 5
}.

#[export] Instance toy_ssl_net : NetOps (toy * bool) toy_event := {
  net_socket := fun _ _ _ w => let (r, t) := toy_socket w.1 in (r, (t, w.2));
  net_ioctl_nonblock := fun _ w => (0, w);
  net_connect := fun _ _ w =>
    if toy_async w.1 then (-1, (toy_set_errno EINPROGRESS w.1, w.2)) else (0, w);
  net_close := fun fd w => (toy_set_open (toy_open w.1 ∖ {[ fd ]}) w.1, w.2);
  net_getsockopt_error := fun _ w => (0, 0, w);
  net_subscribe := fun _ _ _ _ w => w;
  net_clear := fun _ w => w;
  net_read := fun _ n w => let '(r, d, t) := toy_read n w.1 in (r, d, (t, w.2));
  net_write := fun _ l w => (zlen l, w);
  errno := fun w => toy_errno w.1;
  getaddrinfo := fun _ _ w => (0, [mkAddr 2 1 6 []], w);
  ev_close := te_close; ev_error := te_error; ev_readable := te_read; ev_writeable := te_write
}.

#[export] Instance silent : ProtocolOps (toy * bool) unit unit := {
  session_new := fun _ _ _ => tt;
  proto_on_connect := None;
  proto_on_data := fun p io w => Ret (protocol.ok, p, io, w);
  proto_on_shutdown := None;
  proto_heartbeat := None;
  proto_teardown := None
}.

Lemma tls_drain_error_use_after_free_witness :
  handle_event (tr := Tls.ops) (pr := silent) 2 (mkToyEvent false false true false)
    (mkCst (mkConn (Buffer_new 16) (Buffer_new 16) (Some (Tls.mkTls 7)) tt [] tt (str "host")
                   (Some 1) 3 state_t.drain_protocol 80) (toy0, true)) = UB.
Proof.
  apply (tls_drain_error_use_after_free (pr := silent) 0 (Buffer_new 16) (Buffer_new 16) tt [] tt (str "host") (Some 1)
    3 80 (toy0, true) (toy0, true) (toy0, false) (mkToyEvent false false true false) 7 5).
  - reflexivity.
  - apply Buffer_new_wf. lia.
  - reflexivity.
  - discriminate.
  - discriminate.
  - reflexivity.
  - reflexivity.
  - reflexivity.
  - split; [|split]; discriminate.
  - reflexivity.
  - reflexivity.
Defined.

Lemma tls_stop_while_dialling_undefined_witness :
  lifetime (tr := Tls.ops) (pr := silent) 8 (str "host") 443 [] tt 1 [Stop] (mkToy ∅ 3 true [] [] 0, false) = UB.
Proof.
  apply (tls_stop_while_dialling_undefined (pr := silent) 8 (str "host") 443 [] tt 1 (mkToy ∅ 3 true [] [] 0, false)).
  - reflexivity.
  - discriminate.
  - reflexivity.
Defined.
