(* ===== verification/WebSocketConnection.v ===== *)
(** * WebSocket sessions as connections

    [Connection<Net, Plain, WebSocket<Codec>>]: the session of WebSocket.v is an
    instance of the protocol interface of Connection.v, and keeps its laws; with
    the plain transport of PlainConnection.v this gives a theorem about whole
    runs of a WebSocket client. *)

From S2P Require Import Prelude Status Buffer Base64 Frame Handshake WebSocket.
From S2P Require Import Net Transport Connection PlainConnection.

(** Where the world keeps the random device. *)
Class HasRng (W R : Type) := { get_rng : W -> R; put_rng : R -> W -> W }.

Section websocket.
Context {W C R : Type} {codec_ops : MessageCodec C} {has_rng : HasRng W R}.
Context (rd : R -> Z * R) (SHA1 : list Z -> list Z).

(** Running a method of the session on a connection's buffers. *)
Definition run_session {A} (m : M (wst C R) A) (p : Session C) (io : IO) (w : W)
    : outcome (A * Session C * IO * W) :=
  match m (mkWst p io (get_rng w)) with
  | Ret (a, s) => Ret (a, ses s, sio s, put_rng (rng s) w)
  | UB => UB
  | NoFuel => NoFuel
  end.

(** The heartbeat only gets the output. *)
Definition run_heartbeat (p : Session C) (tx : Buffer) (w : W) : outcome (Session C * Buffer * W) :=
  match run_session (WebSocket.heartbeat rd) p (mkIO (Buffer_new 0) tx) w with
  | Ret (_, p', io, w') => Ret (p', io_tx io, w')
  | UB => UB
  | NoFuel => NoFuel
  end.

Definition websocket_ops : ProtocolOps W (Session C) (config_t C) := {|
  session_new := fun host port cfg => Session_new host cfg;
  proto_on_connect := Some (run_session (on_connect rd SHA1));
  proto_on_data := run_session (on_data rd);
  proto_on_shutdown := Some (run_session (on_shutdown rd));
  proto_heartbeat := Some run_heartbeat;
  proto_teardown := None
|}.

(** [m] keeps the buffers: what it consumes and appends is [progress]. *)
Definition keeps_io {A} (m : M (wst C R) A) : Prop :=
  forall s, io_wf (sio s) -> wp False True m (fun _ s' => io_wf (sio s') /\ progress (sio s) (sio s')) s.

Lemma keeps_io_ret {A} (a : A) : keeps_io (mret a).
Proof. intros s Hs. apply wp_ret. done. Qed.

Lemma keeps_io_bind {A B} (m : M (wst C R) A) (f : A -> M (wst C R) B) :
  keeps_io m -> (forall a, keeps_io (f a)) -> keeps_io (m ≫= f).
Proof.
  intros Hm Hf s Hs. apply wp_bind. eapply wp_mono; [by apply Hm|]. cbn. intros a s1 [H1 P1].
  eapply wp_mono; [by apply Hf|]. cbn. intros _ s2 [H2 P2]. split; [done|by etransitivity].
Qed.

Lemma keeps_io_gets {A} (f : wst C R -> A) : keeps_io (gets f).
Proof. intros s Hs. by apply wp_gets. Qed.

Lemma keeps_io_if {A} (b : bool) (m1 m2 : M (wst C R) A) : keeps_io m1 -> keeps_io m2 -> keeps_io (if b then m1 else m2).
Proof. by destruct b. Qed.

Lemma keeps_io_ses f : keeps_io (set_ses f).
Proof. intros s Hs. by apply wp_modify. Qed.

Lemma keeps_io_undef {A} : keeps_io (undef : M (wst C R) A).
Proof. done. Qed.

Lemma keeps_io_lift {A} (f : wst C R -> outcome A) :
  (forall s, f s <> NoFuel) -> keeps_io (fun s => lift (f s) s).
Proof. intros Hf s Hs. unfold wp, lift. specialize (Hf s). by destruct (f s). Qed.

Lemma memcpy_no_fuel {A} (l : list A) a b : memcpy l a b <> NoFuel.
Proof. unfold memcpy. by destruct (decide _). Qed.

Lemma keeps_io_rbuf : keeps_io do_rbuf.
Proof. apply (keeps_io_lift (fun s => io_rbuf (sio s))). intros s. apply subspan_no_fuel. Qed.

Lemma keeps_io_wbuf : keeps_io do_wbuf.
Proof. apply (keeps_io_lift (fun s => io_wbuf (sio s))). intros s. apply subspan_no_fuel. Qed.

Lemma keeps_io_rng {A} (f : R -> A * R) : keeps_io (with_rng f).
Proof. intros s Hs. unfold wp, with_rng. by destruct (f (rng s)). Qed.

Lemma keeps_io_emit bs : keeps_io (do_emit bs).
Proof.
  intros s Hs. destruct (decide (zlen bs <= room (io_tx (sio s)))) as [Hle|Hgt].
  - apply (wp_weaken False False); [done|done|]. eapply wp_mono; [by apply do_emit_safe|].
    cbn. intros _ s' (H1 & _ & H3). done.
  - unfold wp, do_emit, io_put, wbuf_write. rewrite wbuf_wf by apply Hs. cbn [mbind outcome_bind].
    rewrite zlen_wbuf by apply Hs. by rewrite decide_False.
Qed.

Context {codec_ok : CodecOk C}.

Lemma keeps_io_handle o pl : keeps_io (handle_frame rd o pl).
Proof.
  intros s Hs. apply (wp_weaken False False); [done|done|]. eapply wp_mono; [by apply handle_frame_safe|].
  cbn. intros _ s' (H1 & _ & H3). done.
Qed.

Lemma keeps_io_fragment fr : keeps_io (dispatch_fragment rd fr).
Proof.
  unfold dispatch_fragment. apply keeps_io_bind; [apply keeps_io_gets|]. intros ml.
  apply keeps_io_if; [apply keeps_io_ret|]. apply keeps_io_if; [apply keeps_io_ret|].
  apply keeps_io_bind; [apply keeps_io_gets|]. intros mb.
  apply keeps_io_bind; [apply (keeps_io_lift (fun _ => memcpy mb ml (payload fr))); intros; apply memcpy_no_fuel|].
  intros mb'. apply keeps_io_bind; [apply keeps_io_ses|]. intros _. apply keeps_io_if.
  - apply keeps_io_bind; [apply keeps_io_gets|]. intros [o|]; [|apply keeps_io_undef].
    apply keeps_io_bind; [apply (keeps_io_lift (fun s => subspan (msg_buf (ses s)) 0 (msg_len (ses s))));
      intros; apply subspan_no_fuel|]. intros msg.
    apply keeps_io_bind; [apply keeps_io_handle|]. intros st.
    apply keeps_io_bind; [apply keeps_io_ses|]. intros _. apply keeps_io_ret.
  - apply keeps_io_bind; [|intros _; apply keeps_io_ret].
    destruct (decide _); [apply keeps_io_ret|apply keeps_io_ses].
Qed.

Lemma keeps_io_dispatch : keeps_io (dispatch_frame rd).
Proof.
  intros s Hs. unfold dispatch_frame. apply wp_bind, wp_do_rbuf; [done|]. apply wp_bind.
  destruct (parse_frame (contents (io_rx (sio s)))) as [[ps out]| |] eqn:Hp;
    [|done|by destruct (parse_frame_no_fuel _ Hp)].
  unfold wp at 1, lift. destruct ps; [|by apply keeps_io_ret..].
  pose proof (proj1 (parse_frame_out _ _ _ Hp) eq_refl) as [o ->].
  destruct (parse_bounds _ _ Hp) as [Hcons _].
  destruct (do_read_wf (consumed o) s Hs Hcons) as [Hio1 Hc1].
  assert (Hpr1 : progress (sio s) (io_read (sio s) (consumed o))).
  { split_and!; [apply CAP_inc_rpos|done|by eexists|]. exists []. by rewrite app_nil_r. }
  apply wp_bind, wp_modify.
  set (s1 := mkWst (ses s) (io_read (sio s) (consumed o)) (rng s)).
  assert (Hk : keeps_io (if negb (fin (frame o)) || bool_decide (op (frame o) = OpCode.cont)
      then dispatch_fragment rd (frame o) else handle_frame rd (op (frame o)) (payload (frame o)))).
  { apply keeps_io_if; [apply keeps_io_fragment|apply keeps_io_handle]. }
  eapply wp_mono; [by apply (Hk s1)|]. cbn. intros _ s2 [H2 P2]. split; [done|by etransitivity].
Qed.

Lemma keeps_io_read_handshake : keeps_io do_read_handshake.
Proof.
  intros s Hs. unfold wp, do_read_handshake.
  destruct (read_handshake (accept_key (ses s)) (io_rx (sio s))) as [[st rx']| |] eqn:Hr;
    [|done|by destruct (read_handshake_no_fuel _ _ Hr)].
  destruct Hs as [Hrx Htx].
  destruct (read_handshake_consumes _ _ _ _ Hrx Hr) as [->|(n & -> & Hn)].
  - split; [done|]. split_and!; [done|done|by exists 0%nat|]. exists []. by rewrite app_nil_r.
  - destruct (inc_rpos_spec (io_rx (sio s)) n Hrx Hn) as [Hwf Hc]. split; [done|].
    split_and!; [apply CAP_inc_rpos|done|by eexists|]. exists []. by rewrite app_nil_r.
Qed.

Lemma keeps_io_data : keeps_io (on_data rd).
Proof.
  unfold on_data. apply keeps_io_bind; [apply keeps_io_gets|]. intros [].
  - apply keeps_io_ret.
  - do 3 (apply keeps_io_bind; [first [apply keeps_io_rbuf|apply keeps_io_read_handshake]|intros ?]).
    apply keeps_io_bind; [apply keeps_io_if; [apply keeps_io_ses|apply keeps_io_ret]|]. intros _. apply keeps_io_ret.
  - apply keeps_io_dispatch.
Qed.

Lemma keeps_io_connect : keeps_io (on_connect rd SHA1).
Proof.
  unfold on_connect. apply keeps_io_bind.
  { intros s Hs. by apply keeps_io_rng. }
  intros hs. apply keeps_io_bind; [apply keeps_io_wbuf|]. intros out.
  apply keeps_io_if; [apply keeps_io_ret|].
  do 3 (apply keeps_io_bind; [first [apply keeps_io_ses|apply keeps_io_emit]|intros _]). apply keeps_io_ret.
Qed.

Lemma keeps_io_shutdown : keeps_io (on_shutdown rd).
Proof.
  unfold on_shutdown. apply keeps_io_bind.
  { destruct codec_on_shutdown as [h|]; [|apply keeps_io_ret].
    intros s Hs. unfold wp. by destruct (h _). }
  intros code. apply keeps_io_bind; [apply keeps_io_wbuf|]. intros out.
  apply keeps_io_bind; [apply keeps_io_rng|]. intros bs.
  apply keeps_io_bind; [apply keeps_io_emit|]. intros _. apply keeps_io_ret.
Qed.

Lemma keeps_io_heartbeat : keeps_io (WebSocket.heartbeat rd).
Proof.
  unfold WebSocket.heartbeat. apply keeps_io_bind; [apply keeps_io_wbuf|]. intros out.
  apply keeps_io_bind; [apply keeps_io_rng|]. intros bs. apply keeps_io_emit.
Qed.
End websocket.

(** ** The laws, at the strength "defined runs" *)

(** Drawing random bytes touches neither descriptors nor the peer. *)
Class RngOk (W R : Type) {Ev : Type} {net : NetOps W Ev} {net_ok : NetOk W} {net_fin : NetFinite W}
    {has_rng : HasRng W R} : Prop := {
  rng_opened : forall r w, opened (put_rng r w) = opened w;
  rng_budget : forall r w, (budget (put_rng r w) <= budget w)%nat
}.

Section websocket_runs.
Context {W Ev C R : Type} {net : NetOps W Ev} {net_ok : NetOk W} {net_fin : NetFinite W}.
Context {codec_ops : MessageCodec C} {codec_ok : CodecOk C} {has_rng : HasRng W R} {rng_ok : RngOk W R}.
Context (rd : R -> Z * R) (SHA1 : list Z -> list Z) (fuel : nat).

Lemma run_session_law {A} (m : M (wst C R) A) base0 n fd e p io w :
  keeps_io m -> env_at (plain_env fuel base0) n fd e w -> io_wf io ->
  owp False True (run_session m p io w) (fun '(_, _, io', w') =>
    (io_wf io' /\ progress io io') /\ env_at (plain_env fuel base0) n fd e w').
Proof.
  intros Hm He Hio. pose proof (Hm (mkWst p io (get_rng w)) Hio) as Hw. unfold wp in Hw.
  unfold run_session, owp. destruct (m _) as [[a s']| |]; [|done..]. cbn in Hw. split; [done|].
  eapply plain_env_step; [done|apply rng_opened|apply rng_budget].
Qed.

Lemma buffer_wf_new0 : buffer_wf (Buffer_new 0).
Proof. apply Buffer_new_wf. lia. Qed.

Lemma websocket_laws base0 : ProtocolLaws (pr := websocket_ops rd SHA1) (plain_env fuel base0) False True.
Proof.
  split.
  - intros h [= <-] n fd e p io w He Hio. by apply run_session_law; [apply keeps_io_connect|..].
  - intros n fd e p io w He Hio. by apply run_session_law; [apply keeps_io_data|..].
  - intros h [= <-] n fd e p io w He Hio. by apply run_session_law; [apply keeps_io_shutdown|..].
  - intros h n fd e p b w [= <-] He Hb. unfold run_heartbeat.
    pose proof (run_session_law (WebSocket.heartbeat rd) base0 n fd e p (mkIO (Buffer_new 0) b) w
      (keeps_io_heartbeat rd) He (conj buffer_wf_new0 Hb)) as Hl.
    unfold owp in *. destruct (run_session _ _ _ _) as [[[[a p'] io'] w']| |]; [|done..].
    destruct Hl as (([_ Hwf] & (_ & HC & _ & Hbs)) & Henv). done.
  - done.
Qed.

(** C13: a WebSocket client over the plain transport, driven by any sequence of
    events, heartbeats, restarts and stops and whatever bytes the peer sends:
    every loop terminates (the fuel is never used up), and every run without
    undefined behaviour returns with its buffers well formed, its state
    consistent and exactly its own descriptor open.  The inputs on which the
    session's readers are undefined are delimited in Frame.v, WebSocket.v and
    Handshake.v. *)
Theorem websocket_connection_runs (host : list Z) (port : Z) (cfg : config_t C) (cookie : Z)
    (cs : list (call Ev)) (w : W)
    (Hfuel : RX_CAP < Z.of_nat fuel /\ TX_CAP < Z.of_nat fuel) (Hbudget : (budget w < fuel)%nat) :
  let run := lifetime (tr := Plain.ops fuel) (pr := websocket_ops rd SHA1) fuel
               host port tt cfg cookie cs w in
  run <> NoFuel /\
  forall s', run = Ret (tt, s') ->
    buffer_wf (_rx (conn s')) /\ buffer_wf (_tx (conn s')) /\ fits (conn s') /\
    owns (opened w) (_fd (conn s')) (world s').
Proof.
  pose proof (lifetime_inv (tr := Plain.ops fuel) (pr := websocket_ops rd SHA1)
    (net_laws := plain_net_laws fuel (opened w))
    (tr_laws := transport_laws_weaken _ True (plain_transport_laws fuel (opened w)))
    (pr_laws := websocket_laws (opened w))
    fuel (plain_env fuel (opened w)) False True (or_intror Hfuel) (budget w)
    host port tt cfg cookie cs w) as Hl.
  assert (Henv : env_at (plain_env fuel (opened w)) (budget w) (-1) None w).
  { split; cbn; [|lia]. split; [|done]. unfold owns. by rewrite decide_True. }
  specialize (Hl Henv I (or_intror Hbudget)). unfold owp in Hl. cbv zeta.
  destruct (lifetime _ _ _ _ _ _ _ _) as [[[] s1]| |]; [|done..].
  split; [done|]. intros s' [= <-]. destruct Hl as [[[] Hf] _].
  split_and!; [done..|]. by destruct base_env as [[Ho _] _].
Qed.
End websocket_runs.

(** Witness: the random device counts, and is kept in the error number. *)
#[local] Instance toy_rng : HasRng toy Z := { get_rng := toy_errno; put_rng := toy_set_errno }.

#[local] Instance toy_rng_ok : RngOk toy Z.
Proof. by split. Qed.

(** A client that is refused, dials again and is stopped. *)
Definition refused_calls : list (call toy_event) :=
  [Heartbeat; Handle (mkToyEvent true true false false); Restart; Stop].

Lemma refused_run :
  exists s', lifetime (tr := Plain.ops big_fuel) (pr := websocket_ops count_rd zero_sha1) big_fuel
    (str "host") 80 tt (mkConfig (C := unit) (str "/") [] tt) 1 refused_calls
    (mkToy ∅ 3 true [] [] 0) = Ret (tt, s') /\
    _state (conn s') = state_t.closed /\ _fd (conn s') = -1 /\ toy_next (world s') = 5.
Proof.
  assert (Hf : exists f, big_fuel = S (S f)).
  { pose proof big_fuel_of. exists (big_fuel - 2)%nat. lia. }
  destruct Hf as [f ->]. unfold lifetime, Connection_new, websocket_ops, Session_new.
  cbn [session_new]. unfold Session_new.
  generalize (Buffer_new RX_CAP) (Buffer_new TX_CAP) (replicate (Z.to_nat MSG_CAP) 0).
  intros rx tx mb. eexists. vm_compute. repeat split.
Qed.

Lemma websocket_connection_runs_witness :
  exists s', lifetime (tr := Plain.ops big_fuel) (pr := websocket_ops count_rd zero_sha1) big_fuel
      (str "host") 80 tt (mkConfig (C := unit) (str "/") [] tt) 1 refused_calls
      (mkToy ∅ 3 true [] [] 0) = Ret (tt, s') /\
    _state (conn s') = state_t.closed /\ fits (conn s') /\
    opened (world s') = (∅ : gset Z).
Proof.
  destruct refused_run as (s' & Hrun & Hst & Hfd & _). exists s'.
  destruct (websocket_connection_runs count_rd zero_sha1 big_fuel (str "host") 80
    (mkConfig (C := unit) (str "/") [] tt) 1 refused_calls (mkToy ∅ 3 true [] [] 0)) as [_ H].
  - rewrite big_fuel_of. split; vm_compute; reflexivity.
  - apply Nat2Z.inj_lt. rewrite big_fuel_of. vm_compute. reflexivity.
  - destruct (H s' Hrun) as (_ & _ & Hf & Ho). unfold owns in Ho. rewrite Hfd in Ho.
    split; [exact Hrun|]. split; [exact Hst|]. split; [exact Hf|exact Ho].
Defined.
