(* ===== verification/Epoll.v ===== *)
(** * The epoll backend

    [net::Epoll] (include/manet/net/epoll.hpp, src/manet/net/epoll.cc) over the
    system calls, which are parameters.  The static members are the state.  The
    backend is an instance of the interfaces of a network ([NetOps], [NetLoop],
    [NetLife]). *)

From S2P Require Import Prelude Net Sockets.

Definition EPOLLIN : Z := 1.
Definition EPOLLOUT : Z := 4.
Definition EPOLLERR : Z := 8.
Definition EPOLLHUP : Z := 16.
Definition EPOLLRDHUP : Z := 8192.
Definition EPOLLET : Z := Z.shiftl 1 31.

(** [data] is the 64-bit union; [data.fd] is its low 32 bits as an [int]. *)
Record epoll_event := mkEE { ee_events : Z; ee_data : Z }.

Inductive ctl_op := EPOLL_CTL_ADD | EPOLL_CTL_DEL | EPOLL_CTL_MOD.

Class Posix (K : Type) := {
  posix_sockets :: Sockets K;
  sys_epoll_create1 : K -> Z * K;
  sys_eventfd : K -> Z * K;
  sys_epoll_ctl : Z -> ctl_op -> Z -> option epoll_event -> K -> Z * K;
  sys_epoll_wait : Z -> Z -> Z -> K -> Z * list epoll_event * K
}.

Definition poll_frequency_ms : Z := 100.

(** The eight bytes of the [uint64_t] 1. *)
Definition one_u64 : list Z := [1; 0; 0; 0; 0; 0; 0; 0].

Module Epoll.
(** The static members. *)
Record statics := mkStatics { _event_fd : Z; _signal_fd : Z; _alive : bool }.

Definition statics0 : statics := mkStatics (-1) (-1) false.

(** The state of the backend: the static members over a kernel. *)
Abbreviation st K := (bst statics K).

Section epoll.
Context {K : Type} {posix : Posix K}.

Definition event_fd : M (st K) Z := gets (fun s => _event_fd (stat s)).
Definition signal_fd : M (st K) Z := gets (fun s => _signal_fd (stat s)).

(** *** Sockets *)

Definition socket (domain type proto : Z) : st K -> Z * st K :=
  on_kern (sk_socket domain (Z.lor type SOCK_NONBLOCK) proto).
Definition ioctl (fd req arg : Z) : st K -> Z * st K := on_kern (sk_ioctl fd req arg).
Definition connect (fd : Z) (sa : list Z) : st K -> Z * st K := on_kern (sk_connect fd sa).
Definition close (fd : Z) : st K -> Z * st K := on_kern (sk_close fd).
Definition getsockopt (fd level opt_name : Z) : st K -> Z * Z * st K := on_kern (sk_getsockopt fd level opt_name).
Definition read (fd len : Z) : st K -> Z * list Z * st K := on_kern (sk_read fd len).
Definition write (fd : Z) (buf : list Z) : st K -> Z * st K := on_kern (sk_write fd buf).

(** *** Subscriptions *)

(** The mask [subscribe] asks for. *)
Definition interest_mask (want_read want_write : bool) : Z :=
  let e := Z.lor (Z.lor EPOLLERR EPOLLHUP) EPOLLET in
  let e := if want_read then Z.lor e EPOLLIN else e in
  if want_write then Z.lor e EPOLLOUT else e.

Definition subscribe (ptr : Z) (fd : Z) (want_read want_write : bool) : M (st K) unit :=
  let ee := mkEE (interest_mask want_read want_write) ptr in
  ep ← event_fd;
  r ← sys (sys_epoll_ctl ep EPOLL_CTL_MOD fd (Some ee));
  if negb (r =? 0) then
    err ← gets (fun s => sk_errno (kern s));
    if err =? ENOENT then sys_ (sys_epoll_ctl ep EPOLL_CTL_ADD fd (Some ee))
    else if err =? EEXIST then sys_ (sys_epoll_ctl ep EPOLL_CTL_MOD fd (Some ee))
    else mret tt
  else mret tt.

Definition clear (fd : Z) : M (st K) unit :=
  ep ← event_fd;
  sys_ (sys_epoll_ctl ep EPOLL_CTL_DEL fd None).

(** *** Lifecycle *)

(** [init] throws: [Some msg] is the exception. *)
Definition init : M (st K) (option string) :=
  ep ← sys sys_epoll_create1;
  set_stat (fun c => mkStatics ep (_signal_fd c) (_alive c)) ≫= fun _ =>
  if ep <? 0 then mret (Some "failed to create epoll fd"%string)
  else
    sg ← sys sys_eventfd;
    set_stat (fun c => mkStatics (_event_fd c) sg (_alive c)) ≫= fun _ =>
    if sg <? 0 then mret (Some "failed to create kill eventfd"%string)
    else
      r ← sys (sys_epoll_ctl ep EPOLL_CTL_ADD sg (Some (mkEE EPOLLIN (u32 sg))));
      if r <? 0 then mret (Some "failed to subscribe to killfd"%string)
      else set_stat (fun c => mkStatics (_event_fd c) (_signal_fd c) true) ≫= fun _ => mret None.

(** [while (_alive) loop(arg);], the loop working on a state that contains the
    static members. *)
Fixpoint run {T : Type} (fuel : nat) (view : T -> st K) (loop_fn : M T Z) : M T unit :=
  match fuel with
  | O => fun _ => NoFuel
  | S f =>
      alive ← gets (fun s => _alive (stat (view s)));
      if (alive : bool) then loop_fn ≫= fun _ => run f view loop_fn else mret tt
  end.

Definition signal : M (st K) unit :=
  sg ← signal_fd;
  if negb (sg =? -1) then sys_ (sk_write sg one_u64) else mret tt.

Definition stop : M (st K) unit :=
  set_stat (fun c => mkStatics (_event_fd c) (_signal_fd c) false) ≫= fun _ =>
  sg ← signal_fd;
  (if negb (sg =? -1) then
     sys_ (sk_close sg) ≫= fun _ => set_stat (fun c => mkStatics (_event_fd c) (-1) (_alive c))
   else mret tt) ≫= fun _ =>
  ep ← event_fd;
  if negb (ep =? -1) then
    sys_ (sk_close ep) ≫= fun _ => set_stat (fun c => mkStatics (-1) (_signal_fd c) (_alive c))
  else mret tt.

(** The number of events and the events. *)
Definition poll (len : Z) : M (st K) (Z * list epoll_event) :=
  let len := if len <? INT_MAX then len else INT_MAX in
  ep ← event_fd;
  sys (sys_epoll_wait ep len poll_frequency_ms).

(** *** Events *)

Definition data_fd (ev : epoll_event) : Z := s32 (ee_data ev).

Definition ev_signal (ev : epoll_event) : M (st K) bool :=
  sg ← signal_fd;
  if (data_fd ev =? sg) && negb (Z.land (ee_events ev) EPOLLIN =? 0) then
    sys_ (sk_read sg 8) ≫= fun _ => mret true
  else mret false.

Definition ev_close (ev : epoll_event) : bool := negb (Z.land (ee_events ev) (Z.lor EPOLLHUP EPOLLRDHUP) =? 0).
Definition ev_error (ev : epoll_event) : bool := negb (Z.land (ee_events ev) EPOLLERR =? 0).
Definition ev_readable (ev : epoll_event) : bool := negb (Z.land (ee_events ev) EPOLLIN =? 0).
Definition ev_writeable (ev : epoll_event) : bool := negb (Z.land (ee_events ev) EPOLLOUT =? 0).
Definition get_user_data (ev : epoll_event) : Z := ee_data ev.

(** *** The backend as a network *)

#[global] Instance net : NetOps (st K) epoll_event := {
  net_socket := socket;
  net_ioctl_nonblock := fun fd => ioctl fd FIONBIO 1;
  net_connect := connect;
  net_close := fun fd s => (close fd s).2;
  net_getsockopt_error := fun fd => getsockopt fd SOL_SOCKET SO_ERROR;
  net_subscribe := fun ptr fd r w s => (exec tt (subscribe (default 0 ptr) fd r w) s).2;
  net_clear := fun fd s => (exec tt (clear fd) s).2;
  net_read := read;
  net_write := write;
  errno := fun s => sk_errno (kern s);
  getaddrinfo := fun h p => on_kern (sk_getaddrinfo h p);
  Net.ev_close := ev_close;
  Net.ev_error := ev_error;
  Net.ev_readable := ev_readable;
  Net.ev_writeable := ev_writeable
}.

#[global] Instance loop : NetLoop (st K) epoll_event := {
  net_poll := fun len => exec (-1, []) (poll len);
  net_stop := fun s => (exec tt stop s).2;
  net_ev_signal := fun ev => exec false (ev_signal ev);
  net_get_user_data := get_user_data
}.

(** The configuration is [std::monostate]. *)
#[global] Instance life : NetLife (st K) unit := {
  net_init := fun _ => exec None init;
  net_run := fun T => run
}.
End epoll.
End Epoll.

(** ** The interest lists

    What is relied on in the epoll calls.  [interest k ep] is the interest list
    of the instance [ep], [eventfds k] are the event descriptors. *)
Class EpollView (K : Type) := {
  interest : K -> Z -> gmap Z epoll_event;
  eventfds : K -> gset Z
}.

(** A step of the kernel that registers nothing: registrations may go away (a
    descriptor was closed), and an event descriptor stays one while it is open. *)
Definition evolves {K} {sk : Sockets K} {sk_ok : SocketsOk K} {view : EpollView K} (k k' : K) : Prop :=
  (forall ep fd ee, interest k' ep !! fd = Some ee -> interest k ep !! fd = Some ee) /\
  (forall fd, fd ∈ eventfds k -> fd ∈ fds k' -> fd ∈ eventfds k').

(** [epoll_ctl(2)] on an epoll instance and a descriptor it can watch
    ([watchable]): MOD changes a registered descriptor and fails with [ENOENT]
    on another, ADD registers one that is not, DEL removes.  [epoll_wait(2)]
    reports events of registered descriptors with the data they were registered
    with; an event descriptor registered for reading is reported as readable. *)
Class EpollOk (K : Type) {posix : Posix K} {sk_ok : SocketsOk K} := {
  epoll_view :: EpollView K;
  watchable : K -> Z -> Z -> Prop;
  ctl_mod_registered : forall ep fd ee old k, watchable k ep fd -> interest k ep !! fd = Some old ->
    let (r, k') := sys_epoll_ctl ep EPOLL_CTL_MOD fd (Some ee) k in
    r = 0 /\ interest k' ep = <[fd := ee]> (interest k ep) /\ watchable k' ep fd;
  ctl_mod_unknown : forall ep fd ee k, watchable k ep fd -> interest k ep !! fd = None ->
    let (r, k') := sys_epoll_ctl ep EPOLL_CTL_MOD fd (Some ee) k in
    r = -1 /\ sk_errno k' = ENOENT /\ interest k' ep = interest k ep /\ watchable k' ep fd;
  ctl_add_unknown : forall ep fd ee k, watchable k ep fd -> interest k ep !! fd = None ->
    let (r, k') := sys_epoll_ctl ep EPOLL_CTL_ADD fd (Some ee) k in
    r = 0 /\ interest k' ep = <[fd := ee]> (interest k ep) /\ watchable k' ep fd;
  ctl_del_registered : forall ep fd ee old k, watchable k ep fd -> interest k ep !! fd = Some old ->
    interest (sys_epoll_ctl ep EPOLL_CTL_DEL fd ee k).2 ep = delete fd (interest k ep);
  ctl_neutral : forall ep op fd ee k, fd_neutral k (sys_epoll_ctl ep op fd ee k).2;
  ctl_registers : forall ep op fd ee k ep' fd' e',
    interest (sys_epoll_ctl ep op fd ee k).2 ep' !! fd' = Some e' ->
    interest k ep' !! fd' = Some e' \/ (fd' = fd /\ ee = Some e');
  ctl_eventfds : forall ep op fd ee k, eventfds (sys_epoll_ctl ep op fd ee k).2 = eventfds k;
  wait_neutral : forall ep len t k, fd_neutral k (sys_epoll_wait ep len t k).2;
  wait_evolves : forall ep len t k, evolves k (sys_epoll_wait ep len t k).2;
  wait_events : forall ep len t k,
    Forall (fun ev => exists fd ee, interest k ep !! fd = Some ee /\ ee_data ev = ee_data ee /\
      (fd ∈ eventfds k -> Z.testbit (ee_events ee) 0 = true -> Z.testbit (ee_events ev) 0 = true))
      (sys_epoll_wait ep len t k).1.2;
  create1_fresh : forall k,
    let (fd, k') := sys_epoll_create1 k in
    (quota k' <= quota k)%nat /\
    if fd <? 0 then fds k' = fds k
    else (fd ∉ fds k) /\ fds k' = (fds k ∪ {[ fd ]}) /\ interest k' fd = ∅;
  eventfd_fresh : forall k,
    let (fd, k') := sys_eventfd k in
    (quota k' <= quota k)%nat /\ (forall ep, interest k' ep = interest k ep) /\
    if fd <? 0 then fds k' = fds k
    else fd < 2 ^ 31 /\ (fd ∉ fds k) /\ fds k' = (fds k ∪ {[ fd ]}) /\ fd ∈ eventfds k';
  socket_evolves : forall d t p k, evolves k (sk_socket d t p k).2;
  ioctl_evolves : forall fd r a k, evolves k (sk_ioctl fd r a k).2;
  connect_evolves : forall fd a k, evolves k (sk_connect fd a k).2;
  close_evolves : forall fd k, evolves k (sk_close fd k).2;
  getsockopt_evolves : forall fd l o k, evolves k (sk_getsockopt fd l o k).2;
  read_evolves : forall fd n k, evolves k (sk_read fd n k).2;
  write_evolves : forall fd l k, evolves k (sk_write fd l k).2;
  getaddrinfo_evolves : forall h p k, evolves k (sk_getaddrinfo h p k).2
}.

Section epoll_properties.
Context {K : Type} {posix : Posix K} {sk_ok : SocketsOk K} {epoll_ok : EpollOk K}.
Implicit Types s : Epoll.st K.

(** The interest list the reactor polls. *)
Definition polled s : gmap Z epoll_event := interest (kern s) (Epoll._event_fd (stat s)).

Lemma mask_flags r w d :
  let ev := mkEE (Epoll.interest_mask r w) d in
  Epoll.ev_readable ev = r /\ Epoll.ev_writeable ev = w /\
  Epoll.ev_error ev = true /\ Epoll.ev_close ev = true /\ Z.testbit (ee_events ev) 31 = true.
Proof. destruct r, w; vm_compute; done. Qed.

(** C30: subscribing registers exactly the wanted directions, edge triggered and
    with errors and hang-ups, under the given pointer, whether or not the
    descriptor was registered before; other registrations and the static
    members stay as they are.  Clearing removes it again. *)
Theorem epoll_subscribe_registers (ptr fd : Z) (r w : bool) (s : Epoll.st K)
    (Hfd : watchable (kern s) (Epoll._event_fd (stat s)) fd) :
  exists s', Epoll.subscribe ptr fd r w s = Ret (tt, s') /\ stat s' = stat s /\
    (exists ev, polled s' = <[fd := ev]> (polled s) /\ Epoll.get_user_data ev = ptr /\
       Epoll.ev_readable ev = r /\ Epoll.ev_writeable ev = w /\
       Epoll.ev_error ev = true /\ Epoll.ev_close ev = true /\ Z.testbit (ee_events ev) 31 = true) /\
    exists s'', Epoll.clear fd s' = Ret (tt, s'') /\ polled s'' = delete fd (polled s).
Proof.
  set (ee := mkEE (Epoll.interest_mask r w) ptr). set (ep := Epoll._event_fd (stat s)) in *.
  assert (Hsub : exists k', Epoll.subscribe ptr fd r w s = Ret (tt, mkSt (stat s) k') /\
    interest k' ep = <[fd := ee]> (interest (kern s) ep) /\ watchable k' ep fd).
  { unfold Epoll.subscribe, mbind, M_bind, Epoll.event_fd, gets, sys_, sys, on_kern, mbind, M_bind. fold ep ee.
    destruct (interest (kern s) ep !! fd) as [old|] eqn:Hold.
    - pose proof (ctl_mod_registered ep fd ee old (kern s) Hfd Hold) as Hm.
      destruct (sys_epoll_ctl ep EPOLL_CTL_MOD fd (Some ee) (kern s)) as [ret k'].
      destruct Hm as [-> Hi]. by exists k'.
    - pose proof (ctl_mod_unknown ep fd ee (kern s) Hfd Hold) as Hm.
      destruct (sys_epoll_ctl ep EPOLL_CTL_MOD fd (Some ee) (kern s)) as [ret k1].
      destruct Hm as (-> & Herr & Hi & Hfd1). cbn. rewrite Herr. cbn.
      rewrite <- Hi in Hold. pose proof (ctl_add_unknown ep fd ee k1 Hfd1 Hold) as Ha.
      destruct (sys_epoll_ctl ep EPOLL_CTL_ADD fd (Some ee) k1) as [ret k2].
      destruct Ha as (-> & Hi2 & Hfd2). exists k2. split_and!; [done|congruence|done]. }
  destruct Hsub as (k' & -> & Hi & Hfd'). eexists. split; [done|]. split; [done|]. split.
  - exists ee. split; [exact Hi|]. split; [done|]. apply mask_flags.
  - unfold Epoll.clear, mbind, M_bind, Epoll.event_fd, gets, sys_, sys, on_kern, mbind, M_bind.
    cbn [stat kern]. fold ep.
    pose proof (ctl_del_registered ep fd None ee k' Hfd') as Hd. rewrite Hi in Hd.
    destruct (sys_epoll_ctl ep EPOLL_CTL_DEL fd None k') as [ret k2]. eexists. split; [done|].
    unfold polled. cbn [stat kern] in *. fold ep. cbn [snd] in Hd.
    rewrite Hd by apply lookup_insert_eq. apply delete_insert_eq.
Qed.

Lemma s32_u32 x : 0 <= x < 2 ^ 31 -> s32 (u32 x) = x.
Proof. intros. unfold s32, swrap, u32. rewrite (Z.mod_small x), Z.mod_small; lia. Qed.

(** The event [init] registers is recognised as the kill signal, and drained;
    an event of a connection is taken for it only if it is readable and the low
    half of the connection's address equals the signal descriptor. *)
Lemma epoll_signal_recognised s (ptr : Z) (r w : bool) :
  let sg := Epoll._signal_fd (stat s) in
  0 <= sg < 2 ^ 31 ->
  Epoll.ev_signal (mkEE EPOLLIN (u32 sg)) s = Ret (true, mkSt (stat s) (sk_read sg 8 (kern s)).2) /\
  (exists s', Epoll.ev_signal (mkEE (Epoll.interest_mask r w) ptr) s = Ret (r && (s32 ptr =? sg), s')).
Proof.
  intros sg Hsg. unfold Epoll.ev_signal, mbind, M_bind, Epoll.signal_fd, gets, Epoll.data_fd, sys_, sys, on_kern, mbind, M_bind.
  cbn [ee_data ee_events].
  fold sg. rewrite s32_u32, Z.eqb_refl by done.
  split; [change (negb (Z.land EPOLLIN EPOLLIN =? 0)) with true; cbn; by destruct (sk_read sg 8 (kern s))|].
  change (negb (Z.land (Epoll.interest_mask r w) EPOLLIN =? 0))
    with (Epoll.ev_readable (mkEE (Epoll.interest_mask r w) ptr)).
  rewrite (proj1 (mask_flags r w ptr)), andb_comm. destruct (r && _); [|by eexists].
  destruct (sk_read sg 8 (kern s)). by eexists.
Qed.
End epoll_properties.

(** ** The backend keeps the contract of a network *)

Section epoll_net.
Context {K : Type} {posix : Posix K} {sk_ok : SocketsOk K} {epoll_ok : EpollOk K}.
Implicit Types s : Epoll.st K.

(** A relation on kernels that every [epoll_ctl] respects holds across
    [subscribe] and [clear]. *)
Lemma subscribe_steps (P : K -> K -> Prop) ptr fd r w :
  PreOrder P ->
  (forall ep op ee k, (forall e, ee = Some e -> ee_data e = ptr) -> P k (sys_epoll_ctl ep op fd ee k).2) ->
  steps_kern P (Epoll.subscribe ptr fd r w) /\ steps_kern P (Epoll.clear fd).
Proof.
  intros HP Hctl. split.
  - assert (Hsys : forall ep op, steps_kern P (sys (S := Epoll.statics)
      (sys_epoll_ctl ep op fd (Some (mkEE (Epoll.interest_mask r w) ptr))))).
    { intros ep op. apply steps_kern_sys. intros k. apply Hctl. by intros e [= <-]. }
    unfold Epoll.subscribe, sys_. apply steps_kern_bind; [apply _|by apply steps_kern_gets; apply _|].
    intros ep. apply steps_kern_bind; [apply _|apply Hsys|]. intros ret.
    destruct (negb _); [|by apply steps_kern_ret; apply _].
    apply steps_kern_bind; [apply _|by apply steps_kern_gets; apply _|]. intros err.
    repeat case_match; try (by apply steps_kern_ret; apply _);
      (apply steps_kern_bind; [apply _|apply Hsys|]; intros ?; by apply steps_kern_ret; apply _).
  - unfold Epoll.clear. apply steps_kern_bind; [apply _|by apply steps_kern_gets; apply _|].
    intros ep. apply steps_kern_sys_; [apply _|apply _|]. intros k. by apply Hctl.
Qed.

Lemma exec_subscribe (P : K -> K -> Prop) ptr fd r w s :
  PreOrder P ->
  (forall ep op ee k, (forall e, ee = Some e -> ee_data e = ptr) -> P k (sys_epoll_ctl ep op fd ee k).2) ->
  stat (exec tt (Epoll.subscribe ptr fd r w) s).2 = stat s /\ P (kern s) (kern (exec tt (Epoll.subscribe ptr fd r w) s).2).
Proof. intros ? Hctl. apply steps_kern_exec. by apply subscribe_steps. Qed.

Lemma exec_clear (P : K -> K -> Prop) fd s :
  PreOrder P -> (forall ep op k, P k (sys_epoll_ctl ep op fd None k).2) ->
  stat (exec tt (Epoll.clear fd) s).2 = stat s /\ P (kern s) (kern (exec tt (Epoll.clear fd) s).2).
Proof.
  intros ? Hctl. apply steps_kern_exec. unfold Epoll.clear.
  apply steps_kern_bind; [apply _|by apply steps_kern_gets; apply _|].
  intros ep. apply steps_kern_sys_; [apply _|apply _|]. intros k. apply Hctl.
Qed.

#[export] Instance epoll_net_ok : NetOk (Epoll.st K).
Proof.
  refine {| opened := fun s => fds (kern s) |}; intros; cbn;
    unfold Epoll.socket, Epoll.ioctl, Epoll.connect, Epoll.close, Epoll.getsockopt, Epoll.read, Epoll.write.
  - pose proof (sk_socket_fds d (Z.lor t SOCK_NONBLOCK) p (kern w)) as H. unfold on_kern.
    by destruct (sk_socket _ _ _ _).
  - rewrite on_kern_kern. apply sk_ioctl_fds.
  - rewrite on_kern_kern. apply sk_connect_fds.
  - rewrite on_kern_kern. apply sk_close_fds.
  - rewrite on_kern_kern. apply sk_getsockopt_fds.
  - apply (exec_subscribe fd_neutral); [apply _|]. intros. apply ctl_neutral.
  - apply (exec_clear fd_neutral); [apply _|]. intros. apply ctl_neutral.
  - rewrite on_kern_kern. apply sk_read_fds.
  - rewrite on_kern_kern. apply sk_write_fds.
  - rewrite on_kern_kern. apply sk_getaddrinfo_fds.
Defined.

#[export] Instance epoll_finite : NetFinite (Epoll.st K).
Proof.
  refine {| budget := fun s => quota (kern s) |}; intros; cbn;
    unfold Epoll.socket, Epoll.ioctl, Epoll.connect, Epoll.close, Epoll.getsockopt, Epoll.read, Epoll.write.
  - rewrite on_kern_kern. apply sk_socket_quota.
  - rewrite on_kern_kern. apply sk_ioctl_quota.
  - rewrite on_kern_kern. apply sk_connect_quota.
  - rewrite on_kern_kern. apply sk_close_quota.
  - rewrite on_kern_kern. apply sk_getsockopt_quota.
  - apply (exec_subscribe fd_neutral); [apply _|]. intros. apply ctl_neutral.
  - apply (exec_clear fd_neutral); [apply _|]. intros. apply ctl_neutral.
  - rewrite on_kern_kern. apply sk_getaddrinfo_quota.
  - pose proof (sk_read_quota fd n (kern w) H) as Hr. unfold on_kern.
    by destruct (sk_read fd n (kern w)) as [[len data] k'].
  - pose proof (sk_write_quota fd l (kern w)) as Hr. unfold on_kern.
    by destruct (sk_write fd l (kern w)) as [len k'].
Defined.
End epoll_net.

(** ** A small kernel, for the witnesses

    The sockets of the toy network, one interest list, and a script of polls:
    what a poll reports is cut down to what is registered. *)
Record toy_kernel := mkKern {
  tk_net : toy; tk_interest : gmap Z epoll_event; tk_eventfds : gset Z; tk_polls : list (list epoll_event)
}.

Definition tk_on {A} (f : toy -> A * toy) (k : toy_kernel) : A * toy_kernel :=
  let (a, n) := f (tk_net k) in (a, mkKern n (tk_interest k) (tk_eventfds k) (tk_polls k)).

Definition toy_ctl (op : ctl_op) (fd : Z) (ee : option epoll_event) (k : toy_kernel) : Z * toy_kernel :=
  let ok m := (0, mkKern (tk_net k) m (tk_eventfds k) (tk_polls k)) in
  let fail e := (-1, mkKern (toy_set_errno e (tk_net k)) (tk_interest k) (tk_eventfds k) (tk_polls k)) in
  match op, ee, tk_interest k !! fd with
  | EPOLL_CTL_MOD, Some ee, Some _ => ok (<[fd := ee]> (tk_interest k))
  | EPOLL_CTL_MOD, _, _ => fail ENOENT
  | EPOLL_CTL_ADD, Some ee, None => ok (<[fd := ee]> (tk_interest k))
  | EPOLL_CTL_ADD, _, _ => fail EEXIST
  | EPOLL_CTL_DEL, _, _ => ok (delete fd (tk_interest k))
  end.

(** The event can come from the registration [p]. *)
Definition toy_may_report (k : toy_kernel) (ev : epoll_event) (p : Z * epoll_event) : bool :=
  (ee_data ev =? ee_data p.2) &&
  (negb (bool_decide (p.1 ∈ tk_eventfds k) && Z.testbit (ee_events p.2) 0) || Z.testbit (ee_events ev) 0).

Definition toy_reports (k : toy_kernel) (ev : epoll_event) : bool :=
  existsb (toy_may_report k ev) (map_to_list (tk_interest k)).

Definition toy_wait (k : toy_kernel) : Z * list epoll_event * toy_kernel :=
  match tk_polls k with
  | [] => (0, [], k)
  | evs :: polls =>
      let evs := List.filter (toy_reports k) evs in
      (zlen evs, evs, mkKern (tk_net k) (tk_interest k) (tk_eventfds k) polls)
  end.

Definition toy_close (fd : Z) (k : toy_kernel) : Z * toy_kernel :=
  (0, mkKern (net_close fd (tk_net k)) (delete fd (tk_interest k)) (tk_eventfds k) (tk_polls k)).

Definition toy_create1 (k : toy_kernel) : Z * toy_kernel :=
  let (fd, k) := tk_on toy_socket k in (fd, mkKern (tk_net k) ∅ (tk_eventfds k) (tk_polls k)).

(** Event descriptors are below 2^31. *)
Definition toy_eventfd (k : toy_kernel) : Z * toy_kernel :=
  if toy_next (tk_net k) <? 2 ^ 31 then
    let (fd, k) := tk_on toy_socket k in
    (fd, mkKern (tk_net k) (tk_interest k) (tk_eventfds k ∪ {[ fd ]}) (tk_polls k))
  else (-1, k).

#[export] Instance toy_sockets : Sockets toy_kernel := {
  sk_socket := fun d t p => tk_on (net_socket d t p);
  sk_ioctl := fun fd _ _ => tk_on (net_ioctl_nonblock fd);
  sk_connect := fun fd a => tk_on (net_connect fd a);
  sk_close := toy_close;
  sk_getsockopt := fun fd _ _ => tk_on (net_getsockopt_error fd);
  sk_read := fun fd n => tk_on (net_read fd n);
  sk_write := fun fd l => tk_on (net_write fd l);
  sk_errno := fun k => toy_errno (tk_net k);
  sk_getaddrinfo := fun h p => tk_on (getaddrinfo h p)
}.

#[export] Instance toy_posix : Posix toy_kernel := {
  sys_epoll_create1 := toy_create1;
  sys_eventfd := toy_eventfd;
  sys_epoll_ctl := fun _ op fd ee => toy_ctl op fd ee;
  sys_epoll_wait := fun _ _ _ => toy_wait
}.

Lemma tk_on_net {A} (f : toy -> A * toy) k : tk_net (tk_on f k).2 = (f (tk_net k)).2.
Proof. unfold tk_on. by destruct (f (tk_net k)). Qed.

#[global] Arguments tk_on : simpl never.

#[export] Instance toy_sockets_ok : SocketsOk toy_kernel.
Proof.
  refine {| fds := fun k => toy_open (tk_net k); quota := fun k => budget (tk_net k) |}; intros; cbn -[budget];
    rewrite ?tk_on_net.
  - pose proof (socket_ok d t p (tk_net k)) as H. unfold tk_on. cbn in H. by destruct (toy_socket (tk_net k)).
  - exact (ioctl_ok fd (tk_net k)).
  - exact (connect_ok fd a (tk_net k)).
  - done.
  - exact (getsockopt_ok fd (tk_net k)).
  - exact (read_ok fd n (tk_net k)).
  - exact (write_ok fd l (tk_net k)).
  - exact (getaddrinfo_ok h p (tk_net k)).
  - exact (fin_socket d t p (tk_net k)).
  - exact (fin_ioctl fd (tk_net k)).
  - exact (fin_connect fd a (tk_net k)).
  - exact (fin_close fd (tk_net k)).
  - exact (fin_getsockopt fd (tk_net k)).
  - exact (fin_getaddrinfo h p (tk_net k)).
  - pose proof (fin_read fd n (tk_net k) H) as Hr. unfold tk_on.
    cbn -[budget] in Hr. by destruct (toy_read n (tk_net k)) as [[? ?] ?].
  - exact (fin_write fd l (tk_net k)).
Defined.

#[export] Instance toy_epoll_view : EpollView toy_kernel := {
  interest := fun k _ => tk_interest k;
  eventfds := tk_eventfds
}.

Lemma tk_on_evolves {A} (f : toy -> A * toy) k : evolves k (tk_on f k).2.
Proof. unfold tk_on. destruct (f (tk_net k)). by split. Qed.

Lemma toy_wait_events k :
  Forall (fun ev => exists fd ee, tk_interest k !! fd = Some ee /\ ee_data ev = ee_data ee /\
    (fd ∈ tk_eventfds k -> Z.testbit (ee_events ee) 0 = true -> Z.testbit (ee_events ev) 0 = true)) (toy_wait k).1.2.
Proof.
  unfold toy_wait. destruct (tk_polls k) as [|evs polls]; [done|]. cbn [fst snd].
  apply Forall_forall. intros ev [_ Hev]%list_elem_of_In%filter_In.
  apply existsb_exists in Hev as ([fd ee] & Hin%list_elem_of_In%elem_of_map_to_list & Hm).
  apply andb_true_iff in Hm as [Hd Hb]. bool_to_prop. exists fd, ee. split_and!; [done|done|].
  intros Hfd Hbit. cbn in *. rewrite bool_decide_true, Hbit in Hb by done. done.
Qed.

#[export] Instance toy_epoll_ok : EpollOk toy_kernel.
Proof.
  assert (Hctl : forall op fd ee k, fd_neutral k (toy_ctl op fd ee k).2).
  { intros op fd ee k. unfold toy_ctl. repeat case_match; done. }
  refine {| epoll_view := toy_epoll_view; watchable := fun _ _ _ => True |}; intros; cbn -[tk_on];
    try apply tk_on_evolves; try (unfold toy_ctl; by simplify_option_eq); try apply Hctl.
  - cbn in H. unfold toy_ctl in H. destruct op, ee, (tk_interest k !! fd); cbn in H; try (by left);
      try (apply lookup_insert_Some in H as [[-> ->]|[_ ?]]; [by right|by left]);
      (apply lookup_delete_Some in H as [_ ?]; by left).
  - unfold toy_ctl. by repeat case_match.
  - unfold toy_wait. by destruct (tk_polls k).
  - unfold toy_wait. by destruct (tk_polls k).
  - apply toy_wait_events.
  - unfold toy_create1, tk_on. pose proof (socket_ok 0 0 0 (tk_net k)) as H. pose proof (fin_socket 0 0 0 (tk_net k)) as H2.
    cbn -[budget] in H, H2. destruct (toy_socket (tk_net k)) as [fd n]. split; [done|]. destruct (fd <? 0); [done|].
    destruct H as [? ?]. done.
  - unfold toy_eventfd, tk_on. destruct (toy_next (tk_net k) <? 2 ^ 31) eqn:E; [|done].
    pose proof (socket_ok 0 0 0 (tk_net k)) as H. pose proof (fin_socket 0 0 0 (tk_net k)) as H2.
    cbn -[budget] in H, H2. assert (Hlt : (toy_socket (tk_net k)).1 < 2 ^ 31).
    { bool_to_prop. clear H H2. unfold toy_socket. destruct (_ || _); cbn [fst]; lia. }
    destruct (toy_socket (tk_net k)) as [fd n]. split; [done|]. split; [done|]. destruct (fd <? 0); [done|].
    destruct H as [? ?]. split_and!; [done..|]. cbn. set_solver.
  - split; [|done]. cbn. intros _ fd' ee [_ ?]%lookup_delete_Some. done.
Defined.

Definition sample_epoll : Epoll.st toy_kernel :=
  mkSt (Epoll.mkStatics 3 4 true) (mkKern (mkToy {[ 3; 4 ]} 5 false [] [] 0) ∅ {[ 4 ]} []).

Lemma epoll_subscribe_registers_witness :
  exists s', Epoll.subscribe 4096 7 true false sample_epoll = Ret (tt, s') /\
    exists ev, polled s' = <[7 := ev]> ∅ /\ Epoll.ev_readable ev = true /\ Epoll.ev_writeable ev = false.
Proof.
  destruct (epoll_subscribe_registers 4096 7 true false sample_epoll)
    as (s' & Hrun & _ & (ev & Hp & _ & Hr & Hw & _) & _); [exact I|].
  exists s'. split; [exact Hrun|]. exists ev. split; [exact Hp|]. split; [exact Hr|exact Hw].
Defined.
