(* ===== verification/FStack.v ===== *)
(** * The F-Stack backend

    [net::FStack] (include/manet/net/fstack.hpp, src/manet/net/fstack.cc) over the
    calls of the F-Stack library, which are parameters (class [FF]).  Like the
    epoll backend it is an instance of the interfaces of a network.  F-Stack's
    event queue is FreeBSD's kqueue: [KqueueOk] states its documented behaviour
    through a reference definition of what a list of changes does. *)

From S2P Require Import Prelude Net Sockets Epoll.

(** ** kqueue *)

Record kevent := mkKev {
  ident : Z; kfilter : Z; kflags : Z; fflags : Z; kdata : Z; udata : option Z
}.

Definition EVFILT_READ : Z := -1.
Definition EVFILT_WRITE : Z := -2.
Definition EVFILT_USER : Z := -11.
Definition EV_ADD : Z := 1.
Definition EV_DELETE : Z := 2.
Definition EV_ENABLE : Z := 4.
Definition EV_CLEAR : Z := 32.
Definition EV_ERROR : Z := 16384.
Definition EV_EOF : Z := 32768.
Definition NOTE_TRIGGER : Z := Z.shiftl 1 24.

(** The calls of the library: sockets, [ff_init], [ff_kqueue], [ff_kevent] (queue,
    changes, room for events, timeout) and [ff_run]. *)
Class FF (K : Type) := {
  ff_sockets :: Sockets K;
  ff_init : list (list Z) -> K -> Z * K;
  ff_kqueue : K -> Z * K;
  ff_kevent : Z -> list kevent -> Z -> option (Z * Z) -> K -> Z * list kevent * K;
  ff_run : forall S : Type, nat -> (S -> K) -> M S Z -> M S unit
}.

Definition KILL_IDENT : Z := 1.

Module FStack.
(** The static member [_kq]. *)
Record statics := mkStatics { _kq : Z }.

Definition statics0 : statics := mkStatics (-1).

Abbreviation st K := (bst statics K).

Section fstack.
Context {K : Type} {ff : FF K}.

Definition kq : M (st K) Z := gets (fun s => _kq (stat s)).

(** *** Sockets *)

Definition socket (domain type proto : Z) : st K -> Z * st K := on_kern (sk_socket domain type proto).
Definition ioctl (fd req arg : Z) : st K -> Z * st K := on_kern (sk_ioctl fd req arg).
Definition connect (fd : Z) (sa : list Z) : st K -> Z * st K := on_kern (sk_connect fd sa).
Definition close (fd : Z) : st K -> Z * st K := on_kern (sk_close fd).
Definition getsockopt (fd level opt_name : Z) : st K -> Z * Z * st K := on_kern (sk_getsockopt fd level opt_name).
Definition read (fd len : Z) : st K -> Z * list Z * st K := on_kern (sk_read fd len).
Definition write (fd : Z) (buf : list Z) : st K -> Z * st K := on_kern (sk_write fd buf).

(** *** Lifecycle *)

(** [Some msg] is the exception thrown. *)
Definition init (config_file : option (list Z)) : M (st K) (option string) :=
  let config_argv := match config_file with Some file => [str "-c"; file] | None => [] end in
  sys_ (ff_init config_argv) ≫= fun _ =>
  q ← sys ff_kqueue;
  set_stat (fun _ => mkStatics q) ≫= fun _ =>
  if q <? 0 then mret (Some "failed to create kqueue"%string) else mret None.

Definition run {T : Type} (fuel : nat) (view : T -> st K) (loop_fn : M T Z) : M T unit :=
  ff_run T fuel (fun s => kern (view s)) loop_fn.

(** A call of [ff_kevent] that only changes registrations. *)
Definition change (q : Z) (changes : list kevent) : M (st K) Z :=
  r ← sys (ff_kevent q changes 0 None); mret (r.1 : Z).

Definition poll (len : Z) : M (st K) (Z * list kevent) :=
  let ts := (0, poll_frequency_ms * 1000 * 1000) in
  let len := if len <? INT_MAX then len else INT_MAX in
  q ← kq;
  sys (ff_kevent q [] len (Some ts)).

Definition signal : M (st K) unit :=
  q ← kq;
  change q [mkKev KILL_IDENT EVFILT_USER 0 NOTE_TRIGGER 0 None] ≫= fun _ => mret tt.

Definition stop : M (st K) unit :=
  q ← kq;
  if 0 <=? q then sys_ (sk_close q) ≫= fun _ => set_stat (fun _ => mkStatics (-1)) else mret tt.

(** *** Events *)

Definition ev_signal (ev : kevent) : bool := (ident ev =? KILL_IDENT) && (kfilter ev =? EVFILT_USER).
Definition ev_close (ev : kevent) : bool := negb (Z.land (kflags ev) EV_EOF =? 0).
Definition ev_error (ev : kevent) : bool := negb (Z.land (kflags ev) EV_ERROR =? 0).
Definition ev_readable (ev : kevent) : bool := kfilter ev =? EVFILT_READ.
Definition ev_writeable (ev : kevent) : bool := kfilter ev =? EVFILT_WRITE.
Definition get_user_data (ev : kevent) : option Z := udata ev.

(** *** Subscriptions *)

Definition ev_delete (fd filter : Z) (ptr : option Z) : kevent := mkKev fd filter EV_DELETE 0 0 ptr.
Definition ev_add (fd filter : Z) (ptr : option Z) : kevent :=
  mkKev fd filter (Z.lor (Z.lor EV_ADD EV_ENABLE) EV_CLEAR) 0 0 ptr.

Definition subscribe (ptr : option Z) (fd : Z) (want_read want_write : bool) : M (st K) unit :=
  q ← kq;
  let dels := (if want_read then [] else [ev_delete fd EVFILT_READ ptr]) ++
              (if want_write then [] else [ev_delete fd EVFILT_WRITE ptr]) in
  (if 0 <? zlen dels then change q dels ≫= fun _ => mret tt else mret tt) ≫= fun _ =>
  let adds := (if want_read then [ev_add fd EVFILT_READ ptr] else []) ++
              (if want_write then [ev_add fd EVFILT_WRITE ptr] else []) in
  if zlen adds =? 0 then mret tt
  else
    r ← change q adds;
    if r <? 0 then
      err ← gets (fun s => sk_errno (kern s));
      if err =? EEXIST then
        change q (map (fun kev => mkKev fd (kfilter kev) EV_ENABLE 0 0 ptr) adds) ≫= fun _ => mret tt
      else mret tt
    else mret tt.

Definition clear (fd : Z) : M (st K) unit :=
  q ← kq;
  change q [ev_delete fd EVFILT_READ None; ev_delete fd EVFILT_WRITE None] ≫= fun _ => mret tt.

(** *** The backend as a network *)

#[global] Instance net : NetOps (st K) kevent := {
  net_socket := socket;
  net_ioctl_nonblock := fun fd => ioctl fd FIONBIO 1;
  net_connect := connect;
  net_close := fun fd s => (close fd s).2;
  net_getsockopt_error := fun fd => getsockopt fd SOL_SOCKET SO_ERROR;
  net_subscribe := fun ptr fd r w s => (exec tt (subscribe ptr fd r w) s).2;
  net_clear := fun fd s => (exec tt (clear fd) s).2;
  net_read := read;
  net_write := write;
  errno := fun s => sk_errno (kern s);
  getaddrinfo := fun h p => on_kern (sk_getaddrinfo h p);
  Net.ev_close := ev_close;
  Net.ev_error := ev_error;
  Net.ev_readable := ev_readable;
  Net.ev_writeable := ev_writeable
}.

#[global] Instance loop : NetLoop (st K) kevent := {
  net_poll := fun len => exec (-1, []) (poll len);
  net_stop := fun s => (exec tt stop s).2;
  net_ev_signal := fun ev s => (ev_signal ev, s);
  net_get_user_data := fun ev => default 0 (get_user_data ev)
}.

#[global] Instance life : NetLife (st K) (option (list Z)) := {
  net_init := fun file => exec None (init file);
  net_run := fun T => run
}.
End fstack.
End FStack.

(** ** What a list of changes does

    kqueue(2): a change without [EV_ADD] needs a registered event ([ENOENT]
    otherwise), [EV_ADD] registers or replaces, [EV_DELETE] removes; with no
    room for events the first change that fails ends the call with its error. *)

Definition has_flag (kev : kevent) (f : Z) : bool := negb (Z.land (kflags kev) f =? 0).

Definition knote_key (kev : kevent) : Z * Z := (ident kev, kfilter kev).

Definition change1 (m : gmap (Z * Z) kevent) (kev : kevent) : gmap (Z * Z) kevent + Z :=
  match m !! knote_key kev with
  | None => if has_flag kev EV_ADD then inl (<[knote_key kev := kev]> m) else inr ENOENT
  | Some _ =>
      if has_flag kev EV_DELETE then inl (delete (knote_key kev) m)
      else if has_flag kev EV_ADD then inl (<[knote_key kev := kev]> m)
      else inl m
  end.

Fixpoint changes (m : gmap (Z * Z) kevent) (l : list kevent) : gmap (Z * Z) kevent * option Z :=
  match l with
  | [] => (m, None)
  | kev :: l' =>
      match change1 m kev with
      | inl m' => changes m' l'
      | inr e => (m, Some e)
      end
  end.

(** [knotes k q]: the registrations of the queue [q]; [watched k q fd]: both exist. *)
Class KqueueOk (K : Type) {ff : FF K} := {
  knotes : K -> Z -> gmap (Z * Z) kevent;
  watched : K -> Z -> Z -> Prop;
  kevent_changes : forall q l k,
    Forall (fun kev => kfilter kev = EVFILT_USER \/ watched k q (ident kev)) l ->
    let '(r, _, k') := ff_kevent q l 0 None k in
    knotes k' q = (changes (knotes k q) l).1 /\
    match (changes (knotes k q) l).2 with
    | None => r = 0
    | Some e => r = -1 /\ sk_errno k' = e
    end /\
    (forall fd, watched k q fd -> watched k' q fd);
  kevent_registers : forall q l n t k key kev,
    knotes (ff_kevent q l n t k).2 q !! key = Some kev ->
    is_Some (knotes k q !! key) \/ exists c, c ∈ l /\ knote_key c = key /\ has_flag c EV_ADD = true;
  kevent_reports : forall q n t k,
    Forall (fun ev => is_Some (knotes k q !! knote_key ev)) (ff_kevent q [] n t k).1.2;
  kqueue_new : forall k, knotes (ff_kqueue k).2 (ff_kqueue k).1 = ∅;
  ff_socket_knotes : forall d t p k q, knotes (sk_socket d t p k).2 q ⊆ knotes k q;
  ff_ioctl_knotes : forall fd r a k q, knotes (sk_ioctl fd r a k).2 q ⊆ knotes k q;
  ff_connect_knotes : forall fd a k q, knotes (sk_connect fd a k).2 q ⊆ knotes k q;
  ff_close_knotes : forall fd k q, knotes (sk_close fd k).2 q ⊆ knotes k q;
  ff_getsockopt_knotes : forall fd l o k q, knotes (sk_getsockopt fd l o k).2 q ⊆ knotes k q;
  ff_read_knotes : forall fd n k q, knotes (sk_read fd n k).2 q ⊆ knotes k q;
  ff_write_knotes : forall fd l k q, knotes (sk_write fd l k).2 q ⊆ knotes k q
}.

Section fstack_properties.
Context {K : Type} {ff : FF K} {kq_ok : KqueueOk K}.
Implicit Types s : FStack.st K.

(** The registrations of the backend's queue. *)
Definition registered s : gmap (Z * Z) kevent := knotes (kern s) (FStack._kq (stat s)).

(** One filter of a descriptor, set or removed. *)
Definition set_filter (ptr : option Z) (fd filter : Z) (want : bool) (m : gmap (Z * Z) kevent) : gmap (Z * Z) kevent :=
  if want then <[(fd, filter) := FStack.ev_add fd filter ptr]> m else delete (fd, filter) m.

Lemma change_spec s l :
  Forall (fun kev => kfilter kev = EVFILT_USER \/ watched (kern s) (FStack._kq (stat s)) (ident kev)) l ->
  exists r k', FStack.change (FStack._kq (stat s)) l s = Ret (r, mkSt (stat s) k') /\
    registered (mkSt (stat s) k') = (changes (registered s) l).1 /\
    match (changes (registered s) l).2 with None => r = 0 | Some e => r = -1 /\ sk_errno k' = e end /\
    (forall fd, watched (kern s) (FStack._kq (stat s)) fd -> watched k' (FStack._kq (stat s)) fd).
Proof.
  intros Hl. unfold FStack.change, mbind, M_bind, sys, on_kern.
  pose proof (kevent_changes (FStack._kq (stat s)) l (kern s) Hl) as H.
  destruct (ff_kevent _ l 0 None (kern s)) as [[r evs] k']. exists r, k'. done.
Qed.

(** A failed deletion leaves the registrations alone, which is what it would have done. *)
Lemma changes_delete1 m fd filter ptr :
  (changes m [FStack.ev_delete fd filter ptr]).1 = delete (fd, filter) m.
Proof.
  cbn. unfold change1. change (knote_key (FStack.ev_delete fd filter ptr)) with (fd, filter).
  destruct (m !! (fd, filter)) eqn:E; [done|]. cbn. by rewrite delete_id.
Qed.

Lemma changes_add m fd filter ptr l :
  changes m (FStack.ev_add fd filter ptr :: l) = changes (<[(fd, filter) := FStack.ev_add fd filter ptr]> m) l.
Proof.
  cbn [changes]. unfold change1. change (knote_key (FStack.ev_add fd filter ptr)) with (fd, filter).
  by destruct (m !! (fd, filter)).
Qed.

(** The deletions and the additions of [subscribe]. *)
Definition sub_dels (ptr : option Z) (fd : Z) (r w : bool) : list kevent :=
  (if r then [] else [FStack.ev_delete fd EVFILT_READ ptr]) ++
  (if w then [] else [FStack.ev_delete fd EVFILT_WRITE ptr]).
Definition sub_adds (ptr : option Z) (fd : Z) (r w : bool) : list kevent :=
  (if r then [FStack.ev_add fd EVFILT_READ ptr] else []) ++
  (if w then [FStack.ev_add fd EVFILT_WRITE ptr] else []).

Lemma subscribe_dels s ptr fd r w :
  r || w = true -> watched (kern s) (FStack._kq (stat s)) fd ->
  exists k', (if 0 <? zlen (sub_dels ptr fd r w) then FStack.change (FStack._kq (stat s)) (sub_dels ptr fd r w) ≫= fun _ => mret tt
     else mret tt) s = Ret (tt, mkSt (stat s) k') /\ watched k' (FStack._kq (stat s)) fd /\
    registered (mkSt (stat s) k') =
      (if w then id else delete (fd, EVFILT_WRITE)) ((if r then id else delete (fd, EVFILT_READ)) (registered s)).
Proof.
  intros Hrw Hfd. assert (Hone : forall f, exists k',
    (FStack.change (FStack._kq (stat s)) [FStack.ev_delete fd f ptr] ≫= fun _ => mret tt) s = Ret (tt, mkSt (stat s) k') /\
    watched k' (FStack._kq (stat s)) fd /\ registered (mkSt (stat s) k') = delete (fd, f) (registered s)).
  { intros f. destruct (change_spec s [FStack.ev_delete fd f ptr]) as (ret & k' & Hrun & Hreg & _ & Hw).
    { constructor; [by right|done]. }
    exists k'. unfold mbind, M_bind. rewrite Hrun, Hreg, changes_delete1. auto. }
  destruct r, w; try done; unfold sub_dels; cbn [app].
  - exists (kern s). destruct s. done.
  - destruct (Hone EVFILT_WRITE) as (k' & Hk). by exists k'.
  - destruct (Hone EVFILT_READ) as (k' & Hk). by exists k'.
Qed.

Lemma subscribe_adds s ptr fd r w :
  watched (kern s) (FStack._kq (stat s)) fd ->
  exists k', FStack.change (FStack._kq (stat s)) (sub_adds ptr fd r w) s = Ret (0, mkSt (stat s) k') /\
    registered (mkSt (stat s) k') =
      (if w then set_filter ptr fd EVFILT_WRITE true else id)
        ((if r then set_filter ptr fd EVFILT_READ true else id) (registered s)).
Proof.
  intros Hfd. destruct (change_spec s (sub_adds ptr fd r w)) as (ret & k' & Hrun & Hreg & Hret & _).
  { destruct r, w; cbn; repeat first [apply Forall_nil_2|apply Forall_cons_2; [by right|]]. }
  exists k'. destruct r, w; unfold sub_adds in *; cbn [app] in *; rewrite ?changes_add in *; cbn in *; by subst ret.
Qed.

(** C31: subscribing on F-Stack to at least one direction leaves exactly the wanted
    filters of the descriptor registered, under the given pointer, whatever was
    registered before and although deleting a filter that is not there fails;
    the registrations of other descriptors and the static member are untouched. *)
Theorem fstack_subscribe_registers (ptr : option Z) (fd : Z) (r w : bool) (s : FStack.st K)
    (Hrw : r || w = true) (Hfd : watched (kern s) (FStack._kq (stat s)) fd) :
  exists s', FStack.subscribe ptr fd r w s = Ret (tt, s') /\ stat s' = stat s /\
    registered s' = set_filter ptr fd EVFILT_WRITE w (set_filter ptr fd EVFILT_READ r (registered s)).
Proof.
  destruct (subscribe_dels s ptr fd r w Hrw Hfd) as (k1 & Hdel & Hfd1 & Hreg1).
  destruct (subscribe_adds (mkSt (stat s) k1) ptr fd r w Hfd1) as (k2 & Hadd & Hreg2).
  exists (mkSt (stat s) k2). split_and!; [|done|].
  - unfold FStack.subscribe, mbind, M_bind, FStack.kq, gets. fold (sub_dels ptr fd r w) (sub_adds ptr fd r w).
    unfold mbind, M_bind in Hdel. rewrite Hdel.
    replace (zlen (sub_adds ptr fd r w) =? 0) with false by (by destruct r, w).
    cbn [stat] in Hadd. rewrite Hadd. done.
  - cbn [stat] in Hreg2. rewrite Hreg2, Hreg1. unfold set_filter. destruct r, w; try done; cbn.
    by rewrite delete_insert_ne.
Qed.

(** Clearing a descriptor on F-Stack removes both filters if it is registered
    for reading; if it is not, the failing first deletion ends the call and a
    registration for writing stays. *)
Lemma fstack_clear_outcomes (fd : Z) (s : FStack.st K)
    (Hfd : watched (kern s) (FStack._kq (stat s)) fd) :
  exists s', FStack.clear fd s = Ret (tt, s') /\ stat s' = stat s /\
    registered s' = if bool_decide (is_Some (registered s !! (fd, EVFILT_READ)))
      then delete (fd, EVFILT_WRITE) (delete (fd, EVFILT_READ) (registered s)) else registered s.
Proof.
  destruct (change_spec s [FStack.ev_delete fd EVFILT_READ None; FStack.ev_delete fd EVFILT_WRITE None])
    as (ret & k' & Hrun & Hreg & _).
  { repeat first [apply Forall_nil_2|apply Forall_cons_2; [by right|]]. }
  exists (mkSt (stat s) k'). split_and!; [|done|].
  - unfold FStack.clear, mbind, M_bind, FStack.kq, gets. by rewrite Hrun.
  - rewrite Hreg. cbn [changes]. unfold change1 at 1.
    change (knote_key (FStack.ev_delete fd EVFILT_READ None)) with (fd, EVFILT_READ).
    destruct (registered s !! (fd, EVFILT_READ)) as [kev|] eqn:E.
    + rewrite bool_decide_true by (by eexists). apply changes_delete1.
    + by rewrite bool_decide_false by (intros [? ?]; done).
Qed.

(** *** The kill signal *)

(** The calls of the backend that reach the queue or the sockets, in any order. *)
Inductive fcall : Type :=
| FSubscribe (ptr : option Z) (fd : Z) (r w : bool)
| FClear (fd : Z)
| FSignal
| FPoll (len : Z)
| FSocket (d t p : Z)
| FIoctl (fd req arg : Z)
| FConnect (fd : Z) (sa : list Z)
| FClose (fd : Z)
| FGetsockopt (fd l o : Z)
| FRead (fd n : Z)
| FWrite (fd : Z) (l : list Z).

(** One call; the events a poll reports. *)
Definition fcall_run (c : fcall) : M (FStack.st K) (list kevent) :=
  let quiet {A} (f : FStack.st K -> A * FStack.st K) : M (FStack.st K) (list kevent) := fun s => Ret ([], (f s).2) in
  match c with
  | FSubscribe ptr fd r w => FStack.subscribe ptr fd r w ≫= fun _ => mret []
  | FClear fd => FStack.clear fd ≫= fun _ => mret []
  | FSignal => FStack.signal ≫= fun _ => mret []
  | FPoll len => r ← FStack.poll len; mret (r.2 : list kevent)
  | FSocket d t p => quiet (FStack.socket d t p)
  | FIoctl fd r a => quiet (FStack.ioctl fd r a)
  | FConnect fd a => quiet (FStack.connect fd a)
  | FClose fd => quiet (FStack.close fd)
  | FGetsockopt fd l o => quiet (FStack.getsockopt fd l o)
  | FRead fd n => quiet (FStack.read fd n)
  | FWrite fd l => quiet (FStack.write fd l)
  end.

Fixpoint fcalls_run (cs : list fcall) : M (FStack.st K) (list kevent) :=
  match cs with
  | [] => mret []
  | c :: cs' => evs ← fcall_run c; evs' ← fcalls_run cs'; mret (evs ++ evs')
  end.

(** No user event is registered: only filters of descriptors are ever added. *)
Definition no_user s : Prop := forall i, registered s !! (i, EVFILT_USER) = None.

(** [m] returns, registers no user event on the queue [q] of the backend and
    reports none. *)
Definition stays_quiet (q : Z) {A} (evs : A -> list kevent) (m : M (FStack.st K) A) : Prop :=
  forall s, FStack._kq (stat s) = q -> no_user s ->
    exists a s', m s = Ret (a, s') /\ stat s' = stat s /\ no_user s' /\
    Forall (fun ev => FStack.ev_signal ev = false) (evs a).

(** The change can register no user event. *)
Definition no_user_add (c : kevent) : Prop := kfilter c <> EVFILT_USER \/ has_flag c EV_ADD = false.

Context (q : Z).
Abbreviation quiet m := (stays_quiet q (fun _ => []) m).

Lemma quiet_bind {A B} (e : A -> list kevent) (e' : B -> list kevent) m (f : A -> M (FStack.st K) B) :
  stays_quiet q e m -> (forall a, stays_quiet q e' (f a)) -> stays_quiet q e' (m ≫= f).
Proof.
  intros Hm Hf s Hq Hs. destruct (Hm s Hq Hs) as (a & s1 & H1 & E1 & N1 & _).
  destruct (Hf a s1) as (b & s2 & H2 & E2 & N2 & F2); [congruence|done|]. exists b, s2.
  unfold mbind, M_bind. rewrite H1, H2. split_and!; [done|congruence|done|done].
Qed.

Lemma quiet_kq {B} (e' : B -> list kevent) (f : Z -> M (FStack.st K) B) :
  stays_quiet q e' (f q) -> stays_quiet q e' (FStack.kq ≫= f).
Proof. intros Hf s Hq Hs. unfold mbind, M_bind, FStack.kq, gets. rewrite Hq. by apply Hf. Qed.

Lemma quiet_ret {A} (a : A) : quiet (mret a).
Proof. intros s Hq Hs. exists a, s. done. Qed.

Lemma quiet_gets {A} (f : FStack.st K -> A) : quiet (gets f).
Proof. intros s Hq Hs. eexists _, s. done. Qed.

Lemma quiet_kern {A} (f : K -> A * K) :
  (forall k p, knotes (f k).2 p ⊆ knotes k p) ->
  stays_quiet q (fun evs => evs) (fun s => Ret ([], (on_kern f s).2)).
Proof.
  intros Hf s Hq Hs. do 2 eexists. split; [done|]. rewrite on_kern_stat. split_and!; [done| |done].
  intros i. unfold registered. rewrite on_kern_stat, on_kern_kern.
  destruct (knotes _ _ !! _) as [kev|] eqn:E; [|done].
  eapply lookup_weaken in E; [|apply Hf]. specialize (Hs i). unfold registered in Hs. by rewrite Hs in E.
Qed.

Lemma quiet_kevent (l : list kevent) (n : Z) (t : option (Z * Z)) :
  Forall no_user_add l -> quiet (sys (ff_kevent q l n t)).
Proof.
  intros Hl s Hq Hs. unfold sys, on_kern. subst q.
  pose proof (kevent_registers (FStack._kq (stat s)) l n t (kern s)) as Hreg.
  destruct (ff_kevent _ l n t (kern s)) as [r k']. do 2 eexists. split; [done|]. split; [done|]. split; [|done].
  intros i. unfold registered. cbn [stat kern snd] in *. destruct (knotes k' _ !! _) as [kev|] eqn:E; [|done].
  destruct (Hreg _ _ E) as [[kev' Hk]|(c & Hc & Hkey & Hadd)].
  - specialize (Hs i). unfold registered in Hs. by rewrite Hs in Hk.
  - rewrite Forall_forall in Hl. destruct (Hl c Hc) as [Hf|Hf]; [|congruence].
    unfold knote_key in Hkey. by simplify_eq.
Qed.

(** A call without changes reports registered events. *)
Lemma quiet_wait (n : Z) (t : option (Z * Z)) :
  stays_quiet q (fun r : Z * list kevent => r.2) (sys (ff_kevent q [] n t)).
Proof.
  intros s Hq Hs. destruct (quiet_kevent [] n t (Forall_nil_2 _) s Hq Hs) as (r & s' & R & E & N & _).
  exists r, s'. split_and!; [done..|]. subst q. unfold sys, on_kern in R.
  pose proof (kevent_reports (FStack._kq (stat s)) n t (kern s)) as Hrep.
  destruct (ff_kevent _ [] n t (kern s)) as [r' k']. injection R as <- <-. cbn in Hrep.
  eapply Forall_impl; [exact Hrep|]. cbn. intros ev [kev Hkev]. unfold FStack.ev_signal.
  destruct (kfilter ev =? EVFILT_USER) eqn:E'; [|apply andb_false_r]. bool_to_prop.
  specialize (Hs (ident ev)). unfold registered in Hs. unfold knote_key in Hkev. rewrite E' in Hkev. by rewrite Hs in Hkev.
Qed.

Lemma quiet_change (l : list kevent) : Forall no_user_add l -> quiet (FStack.change q l).
Proof. intros Hl. eapply quiet_bind; [by apply quiet_kevent|]. intros r. apply quiet_ret. Qed.

Lemma quiet_change_ (l : list kevent) : Forall no_user_add l -> quiet (FStack.change q l ≫= fun _ => mret tt).
Proof. intros Hl. eapply quiet_bind; [by apply quiet_change|]. intros r. apply quiet_ret. Qed.

Ltac no_users := repeat first [apply Forall_nil_2 | apply Forall_cons_2; [first [by left | by right]|]].

Lemma quiet_subscribe ptr fd r w : quiet (FStack.subscribe ptr fd r w).
Proof.
  apply quiet_kq. cbv zeta. fold (sub_dels ptr fd r w) (sub_adds ptr fd r w). apply (quiet_bind (fun _ => [])).
  - destruct (0 <? zlen (sub_dels ptr fd r w)); [|apply quiet_ret]. apply quiet_change_. destruct r, w; no_users.
  - intros _. destruct (zlen (sub_adds ptr fd r w) =? 0); [apply quiet_ret|]. eapply quiet_bind; [apply quiet_change; destruct r, w; no_users|].
    intros ret. destruct (ret <? 0); [|apply quiet_ret]. eapply quiet_bind; [apply quiet_gets|]. intros err.
    destruct (err =? EEXIST); [|apply quiet_ret]. apply quiet_change_. destruct r, w; no_users.
Qed.

Lemma fcall_quiet c : stays_quiet q (fun evs => evs) (fcall_run c).
Proof.
  assert (Hend : forall m : M (FStack.st K) unit, quiet m -> stays_quiet q (fun evs => evs) (m ≫= fun _ => mret [])).
  { intros m Hm. eapply quiet_bind; [exact Hm|]. intros _ s Hq Hs. by exists [], s. }
  destruct c; cbn [fcall_run].
  - apply Hend, quiet_subscribe.
  - apply Hend, quiet_kq, quiet_change_. no_users.
  - apply Hend, quiet_kq, quiet_change_. no_users.
  - intros s Hq Hs. assert (Hp : stays_quiet q (fun r : Z * list kevent => r.2) (FStack.poll len)).
    { apply quiet_kq, quiet_wait. }
    destruct (Hp s Hq Hs) as (r & s' & R & E & N & F).
    exists r.2, s'. split_and!; [|done..]. unfold mbind, M_bind. by rewrite R.
  - apply quiet_kern, ff_socket_knotes.
  - apply quiet_kern, ff_ioctl_knotes.
  - apply quiet_kern, ff_connect_knotes.
  - apply quiet_kern, ff_close_knotes.
  - apply quiet_kern, ff_getsockopt_knotes.
  - apply quiet_kern, ff_read_knotes.
  - apply quiet_kern, ff_write_knotes.
Qed.

Lemma fcalls_quiet cs : stays_quiet q (fun evs => evs) (fcalls_run cs).
Proof.
  induction cs as [|c cs IH]; [intros s Hq Hs; by exists [], s|].
  intros s Hq Hs. destruct (fcall_quiet c s Hq Hs) as (a & s1 & R1 & E1 & N1 & F1).
  destruct (IH s1) as (b & s2 & R2 & E2 & N2 & F2); [congruence|done|].
  exists (a ++ b), s2. cbn [fcalls_run]. unfold mbind, M_bind. rewrite R1, R2.
  split_and!; [done|congruence|done|by apply Forall_app].
Qed.
End fstack_properties.

Section fstack_signal.
Context {K : Type} {ff : FF K} {kq_ok : KqueueOk K}.

(** C32: on F-Stack the kill signal is never delivered: after [init], whatever calls
    are made on the backend, [signal] among them, no poll reports an event that
    [ev_signal] recognises, because the user event it triggers was never added. *)
Theorem fstack_signal_never_reported (file : option (list Z)) (s0 s1 : FStack.st K) (cs : list fcall)
    (Hinit : FStack.init file s0 = Ret (None, s1)) :
  exists evs s2, fcalls_run (cs ++ [FSignal; FPoll 1]) s1 = Ret (evs, s2) /\
    Forall (fun ev => FStack.ev_signal ev = false) evs.
Proof.
  assert (Hno : no_user s1).
  { unfold FStack.init, mbind, M_bind, sys_, sys, on_kern, mbind, M_bind in Hinit.
    destruct (ff_init _ (kern s0)) as [r k1]. unfold set_stat, modify, mret, M_ret in Hinit. cbn in Hinit.
    pose proof (kqueue_new k1) as Hnew. destruct (ff_kqueue k1) as [q k2]. cbn [fst snd] in Hnew.
    destruct (q <? 0); simplify_eq. intros i. unfold registered. cbn. by rewrite Hnew. }
  destruct (fcalls_quiet (FStack._kq (stat s1)) (cs ++ [FSignal; FPoll 1]) s1 eq_refl Hno) as (evs & s2 & R & _ & _ & F).
  by exists evs, s2.
Qed.
End fstack_signal.


(** ** A small kqueue, for the witnesses: the toy sockets and one queue *)

Record toy_ff := mkFF { tf_net : toy; tf_notes : gmap (Z * Z) kevent }.

Definition tf_on {A} (f : toy -> A * toy) (k : toy_ff) : A * toy_ff :=
  let (a, n) := f (tf_net k) in (a, mkFF n (tf_notes k)).

Definition tf_kevent (l : list kevent) (n : Z) (k : toy_ff) : Z * list kevent * toy_ff :=
  let (m, err) := changes (tf_notes k) l in
  let evs := if n =? 0 then [] else
    (fun '(key, kev) => mkKev key.1 key.2 0 0 0 (udata kev)) <$> map_to_list (tf_notes k) in
  match err with
  | None => (zlen evs, evs, mkFF (tf_net k) m)
  | Some e => (-1, [], mkFF (toy_set_errno e (tf_net k)) m)
  end.

#[export] Instance toy_ff_sockets : Sockets toy_ff := {
  sk_socket := fun d t p => tf_on (net_socket d t p);
  sk_ioctl := fun fd _ _ => tf_on (net_ioctl_nonblock fd);
  sk_connect := fun fd a => tf_on (net_connect fd a);
  sk_close := fun fd => tf_on (fun w => (0, net_close fd w));
  sk_getsockopt := fun fd _ _ => tf_on (net_getsockopt_error fd);
  sk_read := fun fd n => tf_on (net_read fd n);
  sk_write := fun fd l => tf_on (net_write fd l);
  sk_errno := fun k => toy_errno (tf_net k);
  sk_getaddrinfo := fun h p => tf_on (getaddrinfo h p)
}.

#[export] Instance toy_ff_calls : FF toy_ff := {
  ff_init := fun _ k => (0, k);
  ff_kqueue := fun k => (5, mkFF (tf_net k) ∅);
  ff_kevent := fun _ l n _ => tf_kevent l n;
  ff_run := fun S fuel _ body => loop fuel (body ≫= fun _ => mret None)
}.

Lemma changes_registers l m key kev :
  (changes m l).1 !! key = Some kev ->
  is_Some (m !! key) \/ exists c, c ∈ l /\ knote_key c = key /\ has_flag c EV_ADD = true.
Proof.
  revert m. induction l as [|c l IH]; intros m H; cbn in H; [by left; eexists|].
  assert (Hc : forall m', change1 m c = inl m' -> is_Some (m' !! key) ->
    is_Some (m !! key) \/ (knote_key c = key /\ has_flag c EV_ADD = true)).
  { intros m'. unfold change1. destruct (m !! knote_key c) eqn:E.
    - destruct (has_flag c EV_DELETE); [intros [= <-] [? [_ ?]%lookup_delete_Some]; left; by eexists|].
      destruct (has_flag c EV_ADD) eqn:Ea; [|intros [= <-] ?; by left].
      intros [= <-] [? [[<- _]|[_ ?]]%lookup_insert_Some]; [by right|left; by eexists].
    - destruct (has_flag c EV_ADD) eqn:Ea; [|done].
      intros [= <-] [? [[<- _]|[_ ?]]%lookup_insert_Some]; [by right|left; by eexists]. }
  destruct (change1 m c) as [m'|e] eqn:E1; [|left; by eexists].
  destruct (IH m' H) as [Hs|(c' & ? & ?)].
  - destruct (Hc m' eq_refl Hs) as [?|?]; [by left|]. right. exists c. split; [left|done].
  - right. exists c'. split; [by right|done].
Qed.

Lemma tf_on_notes {A} (f : toy -> A * toy) k : tf_notes (tf_on f k).2 = tf_notes k.
Proof. unfold tf_on. by destruct (f (tf_net k)). Qed.

#[export] Instance toy_kqueue_ok : KqueueOk toy_ff.
Proof.
  refine {| knotes := fun k _ => tf_notes k; watched := fun _ _ _ => True |}; intros; cbn -[tf_on changes];
    rewrite ?tf_on_notes; try done.
  - unfold tf_kevent. destruct (changes (tf_notes k) l) as [m [e|]]; done.
  - apply changes_registers with (kev := kev). cbn -[changes] in H. unfold tf_kevent in H.
    by destruct (changes (tf_notes k) l) as [m [e|]].
  - cbn.
    destruct (n =? 0); [done|]. apply Forall_fmap, Forall_forall. intros [[i f] kev] Hin%elem_of_map_to_list.
    cbn. by eexists.
Defined.

(** Descriptor 7 is registered for writing only. *)
Definition sample_fstack : FStack.st toy_ff :=
  mkSt (FStack.mkStatics 5) (mkFF toy0 {[ (7, EVFILT_WRITE) := FStack.ev_add 7 EVFILT_WRITE (Some 4096) ]}).

Lemma fstack_subscribe_registers_witness :
  exists s', FStack.subscribe (Some 4096) 7 true false sample_fstack = Ret (tt, s') /\
    registered s' = {[ (7, EVFILT_READ) := FStack.ev_add 7 EVFILT_READ (Some 4096) ]}.
Proof.
  destruct (fstack_subscribe_registers (Some 4096) 7 true false sample_fstack) as (s' & Hrun & _ & Hreg).
  - reflexivity.
  - exact I.
  - exists s'. split; [exact Hrun|]. rewrite Hreg. vm_compute. reflexivity.
Defined.

Lemma fstack_clear_outcomes_witness :
  exists s', FStack.clear 7 sample_fstack = Ret (tt, s') /\ registered s' = registered sample_fstack.
Proof.
  destruct (fstack_clear_outcomes 7 sample_fstack) as (s' & Hrun & _ & Hreg); [exact I|].
  exists s'. split; [exact Hrun|]. rewrite Hreg. vm_compute. reflexivity.
Defined.

Lemma fstack_signal_never_reported_witness :
  exists evs s2, fcalls_run [FSubscribe (Some 4096) 7 true true; FSignal; FPoll 1]
      (mkSt (FStack.mkStatics 5) (mkFF toy0 ∅)) = Ret (evs, s2) /\
    Forall (fun ev => FStack.ev_signal ev = false) evs.
Proof.
  exact (fstack_signal_never_reported None (mkSt FStack.statics0 (mkFF toy0 ∅)) (mkSt (FStack.mkStatics 5) (mkFF toy0 ∅))
    [FSubscribe (Some 4096) 7 true true] eq_refl).
Defined.
