(* ===== verification/Reactor.v ===== *)
(** * The reactor

    [reactor::Reactor] (include/manet/reactor.hpp) over the type-erased
    [BaseConnection] interface of include/manet/reactor/connection.hpp and the
    event-loop part of the [Net] concept.  The connection of the state machine
    is an instance of the interface. *)

From S2P Require Import Prelude Status Buffer Net Sockets Transport Connection PlainConnection.

(** [BaseConnection], with the members the reactor calls on the concrete types. *)
Class BaseConnection (B W Ev : Type) := {
  bc_attach : Z -> B -> W -> outcome (B * W);
  bc_handle_event : Ev -> B -> W -> outcome (B * W);
  bc_restart : B -> W -> outcome (B * W);
  bc_stop : B -> W -> outcome (B * W);
  bc_heartbeat : B -> W -> outcome (B * W);
  bc_closed : B -> bool;
  bc_done : B -> bool
}.

(** Where the connections of the reactor are: the address of each one's
    [BaseConnection] subobject, which is what events carry. *)
Class Layout := {
  addr : nat -> Z;
  addr_inj : forall i j, addr i = addr j -> i = j
}.

(** The state machine implements the interface. *)
Section connection_base.
Context {W Ev E TCfg P PCfg : Type}.
Context {net : NetOps W Ev} {tr : TransportOps W E TCfg} {pr : ProtocolOps W P PCfg}.
Context (fuel : nat).

Definition on_conn (m : M (cst W E TCfg P PCfg) unit) (c : Connection E TCfg P PCfg) (w : W)
    : outcome (Connection E TCfg P PCfg * W) :=
  match m (mkCst c w) with
  | Ret (_, s) => Ret (conn s, world s)
  | UB => UB
  | NoFuel => NoFuel
  end.

Definition connection_base : BaseConnection (Connection E TCfg P PCfg) W Ev := {|
  bc_attach := fun k => on_conn (attach fuel (Some k));
  bc_handle_event := fun ev => on_conn (handle_event fuel ev);
  bc_restart := on_conn (restart fuel);
  bc_stop := on_conn (stop fuel);
  bc_heartbeat := on_conn (heartbeat fuel);
  bc_closed := closed;
  bc_done := done_
|}.
End connection_base.

Section reactor.
Context {B W Ev : Type} {bc : BaseConnection B W Ev} {nl : NetLoop W Ev} {layout : Layout}.

(** [counter] is a static member, shared by all reactors of the type. *)
Record Reactor := mkReactor {
  connections : list (option B);
  stopping : bool;
  counter : Z
}.

Record rst := mkRst { reactor : Reactor; rworld : W }.

Definition set_conns (cs : list (option B)) (r : Reactor) : Reactor :=
  mkReactor cs (stopping r) (counter r).

Definition NUM_EVENTS (r : Reactor) : Z := zlen (connections r) + 1.

(** Calling a member on connection [i]; an empty slot is not called. *)
Definition on_slot (f : B -> W -> outcome (B * W)) (i : nat) : M rst unit := fun s =>
  match connections (reactor s) !! i with
  | Some (Some b) =>
      match f b (rworld s) with
      | Ret (b', w) => Ret (tt, mkRst (set_conns (<[i := Some b']> (connections (reactor s))) (reactor s)) w)
      | UB => UB
      | NoFuel => NoFuel
      end
  | _ => Ret (tt, s)
  end.

(** A fold expression over the tuple: every slot in order. *)
Fixpoint on_slots (f : B -> W -> outcome (B * W)) (slots : list nat) : M rst unit :=
  match slots with
  | [] => mret tt
  | i :: slots' => on_slot f i ≫= fun _ => on_slots f slots'
  end.

Definition for_all_slots (f : B -> W -> outcome (B * W)) : M rst unit := fun s =>
  on_slots f (seq 0 (length (connections (reactor s)))) s.

Definition heartbeat : M rst unit := for_all_slots bc_heartbeat.
Definition stop_all : M rst unit := for_all_slots bc_stop.

Definition all_done (r : Reactor) : bool :=
  forallb (fun o => match o with None => true | Some b => bc_done b end) (connections r).

(** [init_connection<I>]: emplace and attach. *)
Definition init_connection (i : nat) (b : B) : M rst unit :=
  modify (fun s => mkRst (set_conns (<[i := Some b]> (connections (reactor s))) (reactor s)) (rworld s)) ≫= fun _ =>
  on_slot (bc_attach (addr i)) i.

(** The constructors of the tuple in order; [inl msg] is one that throws. *)
Fixpoint init_from (i : nat) (bs : list (string + B)) : M rst (option string) :=
  match bs with
  | [] => mret None
  | inl msg :: _ => mret (Some msg)
  | inr b :: bs' => init_connection i b ≫= fun _ => init_from (S i) bs'
  end.

Definition init (bs : list (string + B)) : M rst (option string) := init_from 0 bs.

(** The slot a user-data pointer points to. *)
Definition slot_of (ptr : Z) (n : nat) : option nat := snd <$> list_find (fun i => addr i = ptr) (seq 0 n).

Definition do_stop : M rst unit := modify (fun s => mkRst (reactor s) (net_stop (rworld s))).

Definition set_stopping : M rst unit :=
  modify (fun s => mkRst (mkReactor (connections (reactor s)) true (counter (reactor s))) (rworld s)).

(** The branch of [loop] for an event of a connection. *)
Definition dispatch (ev : Ev) : M rst unit :=
  slot ← gets (fun s => slot_of (net_get_user_data ev) (length (connections (reactor s))));
  match slot with
  | None => undef
  | Some i =>
      c ← gets (fun s => connections (reactor s) !! i);
      match c with
      | Some (Some b) =>
          if negb (bc_done b) then
            on_slot (bc_handle_event ev) i ≫= fun _ =>
            stp ← gets (fun s => stopping (reactor s));
            c' ← gets (fun s => connections (reactor s) !! i);
            if negb stp && match c' with Some (Some b') => bc_closed b' | _ => false end
            then on_slot bc_restart i else mret tt
          else mret tt
      | _ => undef
      end
  end.

(** One round of the event loop. *)
Definition handle_one (ev : Ev) : M rst unit :=
  kill ← (fun s => let (k, w) := net_ev_signal ev (rworld s) in Ret (k, mkRst (reactor s) w));
  (if (kill : bool) then
     stp ← gets (fun s => stopping (reactor s));
     if negb stp then set_stopping ≫= fun _ => stop_all else mret tt
   else dispatch ev) ≫= fun _ =>
  fin ← gets (fun s => stopping (reactor s) && all_done (reactor s));
  if (fin : bool) then do_stop else mret tt.

Fixpoint handle_all (evs : list Ev) : M rst unit :=
  match evs with
  | [] => mret tt
  | ev :: evs' => handle_one ev ≫= fun _ => handle_all evs'
  end.

Definition loop_ : M rst Z :=
  r ← (fun s => let '(n, evs, w) := net_poll (NUM_EVENTS (reactor s)) (rworld s) in
                Ret ((n, evs), mkRst (reactor s) w));
  (if r.1 <? 0 then do_stop else mret tt) ≫= fun _ =>
  handle_all (take (Z.to_nat r.1) r.2) ≫= fun _ =>
  modify (fun s => mkRst (mkReactor (connections (reactor s)) (stopping (reactor s))
                            (u64 (counter (reactor s) + 1))) (rworld s)) ≫= fun _ =>
  c ← gets (fun s => counter (reactor s));
  (if Z.land c 63 =? 0 then heartbeat else mret tt) ≫= fun _ =>
  mret 0.

(** [Net::init], the connections under a handler that stops the network and
    throws again, and the event loop; [Some msg] is an exception that leaves
    [run]. *)
Definition run {Cfg : Type} {life : NetLife W Cfg} (fuel : nat) (config : Cfg) (configs : list (string + B))
    : M rst (option string) :=
  e ← (fun s => let (e, w) := net_init config (rworld s) in Ret (e, mkRst (reactor s) w));
  match e with
  | Some msg => mret (Some msg)
  | None =>
      e' ← init configs;
      match e' with
      | Some msg => do_stop ≫= fun _ => mret (Some msg)
      | None => net_run rst fuel rworld loop_ ≫= fun _ => mret None
      end
  end.
End reactor.

Arguments Reactor : clear implicits.
Arguments rst : clear implicits.

Section reactor_lemmas.
Context {B W Ev : Type} {bc : BaseConnection B W Ev} {nl : NetLoop W Ev} {layout : Layout}.
Implicit Types (cs : list (option B)) (w : W).

(** Calling a member on every connection of a list, the world threaded. *)
Fixpoint map_slots (f : B -> W -> outcome (B * W)) cs w : outcome (list (option B) * W) :=
  match cs with
  | [] => Ret ([], w)
  | None :: cs' => r ← map_slots f cs' w; Ret (None :: r.1, r.2)
  | Some b :: cs' =>
      r ← f b w;
      r' ← map_slots f cs' r.2;
      Ret (Some r.1 :: r'.1, r'.2)
  end.

Definition with_slots (st : bool) (c : Z) (r : outcome (list (option B) * W)) : outcome (unit * rst B W) :=
  match r with
  | Ret (cs, w) => Ret (tt, mkRst (mkReactor cs st c) w)
  | UB => UB
  | NoFuel => NoFuel
  end.

Lemma on_slots_map f pre cs st c w :
  on_slots f (seq (length pre) (length cs)) (mkRst (mkReactor (pre ++ cs) st c) w) =
  with_slots st c (match map_slots f cs w with
                   | Ret (cs', w') => Ret (pre ++ cs', w') | UB => UB | NoFuel => NoFuel
                   end).
Proof.
  revert pre w. induction cs as [|o cs IH]; intros pre w; [done|].
  cbn [length seq on_slots]. unfold mbind, M_bind, on_slot. cbn [reactor connections rworld].
  rewrite (list_lookup_middle _ _ _ (length pre)) by done.
  assert (Hlen : forall o' : option B, S (length pre) = length (pre ++ [o'])).
  { intros o'. rewrite length_app. cbn. lia. }
  destruct o as [b|].
  - cbn [map_slots]. destruct (f b w) as [[b' w']| |]; [|done..]. cbn [mbind outcome_bind fst snd].
    unfold set_conns. cbn [connections stopping counter].
    rewrite <- (Nat.add_0_r (length pre)) at 2. rewrite insert_app_r. cbn [insert list_insert].
    rewrite (cons_middle (Some b')), app_assoc, (Hlen (Some b')), IH.
    destruct (map_slots f cs w') as [[cs' w2]| |]; [|done..]. cbn. by rewrite <- app_assoc.
  - cbn [map_slots]. rewrite (cons_middle None), app_assoc, (Hlen None), IH.
    destruct (map_slots f cs w) as [[cs' w2]| |]; [|done..]. cbn. by rewrite <- app_assoc.
Qed.

(** The fold over the tuple is the threaded map. *)
Lemma for_all_slots_map f cs st c w :
  for_all_slots f (mkRst (mkReactor cs st c) w) = with_slots st c (map_slots f cs w).
Proof.
  unfold for_all_slots. cbn [reactor connections]. rewrite (on_slots_map f [] cs). cbn [app].
  by destruct (map_slots f cs w) as [[? ?]| |].
Qed.

Lemma slot_of_addr i n : (i < n)%nat -> slot_of (addr i) n = Some i.
Proof.
  intros Hi. unfold slot_of.
  assert (H : list_find (fun j => addr j = addr i) (seq 0 n) = Some (i, i)).
  { apply list_find_Some. split_and!; [by apply lookup_seq|done|].
    intros j y [-> _]%lookup_seq Hlt Heq%addr_inj. lia. }
  by rewrite H.
Qed.

(** [done], as the reactor counts it, of a list of slots. *)
Definition slots_done cs : bool :=
  forallb (fun o => match o with None => true | Some b => bc_done b end) cs.

(** The first kill signal stops every connection, once each and in order, and
    the network is stopped as soon as all of them are done; further signals
    change nothing in the connections. *)
Lemma signal_stops_all (ev : Ev) (cs cs' : list (option B)) (st : bool) (c : Z) (w w1 w2 : W)
    (Hsig : net_ev_signal ev w = (true, w1))
    (Hstop : if st then cs' = cs /\ w2 = w1 else map_slots bc_stop cs w1 = Ret (cs', w2)) :
  handle_one ev (mkRst (mkReactor cs st c) w) =
    Ret (tt, mkRst (mkReactor cs' true c) (if slots_done cs' then net_stop w2 else w2)).
Proof.
  unfold handle_one, mbind, M_bind. cbn [rworld reactor]. rewrite Hsig. cbn [reactor rworld].
  unfold gets. cbn [reactor stopping]. destruct st; cbn [negb].
  - destruct Hstop as [-> ->]. cbn. fold (slots_done cs). unfold all_done. cbn [connections].
    fold (slots_done cs). by destruct (slots_done cs).
  - unfold set_stopping, modify. cbn [reactor connections counter rworld].
    unfold stop_all. rewrite for_all_slots_map, Hstop. cbn. unfold all_done. cbn [connections].
    fold (slots_done cs'). by destruct (slots_done cs').
Qed.

(** The treatment of an event of a connection. *)
Lemma handle_one_dispatch (ev : Ev) (pre post : list (option B)) (b b1 b2 : B) (st : bool) (c : Z)
    (w w1 w2 w3 : W)
    (Hi : net_get_user_data ev = addr (length pre))
    (Hsig : net_ev_signal ev w = (false, w1))
    (Hev : bc_handle_event ev b w1 = Ret (b1, w2))
    (Hre : if negb st && bc_closed b1 then bc_restart b1 w2 = Ret (b2, w3) else b2 = b1 /\ w3 = w2) :
  let b' := if bc_done b then b else b2 in
  let w' := if bc_done b then w1 else w3 in
  handle_one ev (mkRst (mkReactor (pre ++ Some b :: post) st c) w) =
    Ret (tt, mkRst (mkReactor (pre ++ Some b' :: post) st c)
      (if st && slots_done (pre ++ Some b' :: post) then net_stop w' else w')).
Proof.
  intros b' w'.
  assert (Hins : forall x y : option B, <[length pre := x]> (pre ++ y :: post) = pre ++ x :: post).
  { intros x y. rewrite <- (Nat.add_0_r (length pre)). by rewrite insert_app_r. }
  assert (Hd : dispatch ev (mkRst (mkReactor (pre ++ Some b :: post) st c) w1) =
    Ret (tt, mkRst (mkReactor (pre ++ Some b' :: post) st c) w')).
  { unfold dispatch, mbind, M_bind, gets. cbn [reactor connections]. rewrite Hi.
    rewrite slot_of_addr by (rewrite length_app; cbn; lia). cbn [reactor connections].
    rewrite (list_lookup_middle _ _ _ (length pre)) by done.
    unfold b', w'. destruct (bc_done b); cbn [negb]; [done|].
    unfold on_slot at 1. cbn [reactor connections rworld].
    rewrite (list_lookup_middle _ _ _ (length pre)), Hev, Hins by done.
    unfold set_conns. cbn [reactor connections stopping counter].
    rewrite (list_lookup_middle _ _ _ (length pre)) by done.
    destruct (negb st && bc_closed b1); [|by destruct Hre as [-> ->]].
    unfold on_slot. cbn [reactor connections rworld].
    by rewrite (list_lookup_middle _ _ _ (length pre)), Hre, Hins by done. }
  unfold handle_one, mbind, M_bind. cbn [rworld reactor]. rewrite Hsig. cbn [reactor rworld].
  rewrite Hd. unfold gets. cbn [reactor stopping]. unfold all_done. cbn [connections].
  fold (slots_done (pre ++ Some b' :: post)). by destruct (st && _).
Qed.

(** C26: an event of a connection goes to that connection alone, and to none once
    it is done; a connection that it closes is restarted, unless the reactor is
    stopping; when it is and every connection is done, the network is stopped. *)
Theorem event_dispatched (ev : Ev) (pre post : list (option B)) (b b1 b2 : B) (st : bool) (c : Z)
    (w w1 w2 w3 : W)
    (Hi : net_get_user_data ev = addr (length pre))
    (Hsig : net_ev_signal ev w = (false, w1))
    (Hev : bc_handle_event ev b w1 = Ret (b1, w2))
    (Hre : if negb st && bc_closed b1 then bc_restart b1 w2 = Ret (b2, w3) else b2 = b1 /\ w3 = w2) :
  let b' := if bc_done b then b else b2 in
  let w' := if bc_done b then w1 else w3 in
  handle_one ev (mkRst (mkReactor (pre ++ Some b :: post) st c) w) =
    Ret (tt, mkRst (mkReactor (pre ++ Some b' :: post) st c)
      (if st && slots_done (pre ++ Some b' :: post) then net_stop w' else w')).
Proof. exact (handle_one_dispatch ev pre post b b1 b2 st c w w1 w2 w3 Hi Hsig Hev Hre). Qed.

(** A failing poll stops the network at once, without stopping the
    connections: none of them is told to shut down. *)
Lemma poll_failure_skips_shutdown (cs : list (option B)) (st : bool) (c n : Z) (w w1 : W) (evs : list Ev)
    (Hpoll : net_poll (zlen cs + 1) w = (n, evs, w1)) (Hn : n < 0)
    (Hc : Z.land (u64 (c + 1)) 63 <> 0) :
  loop_ (mkRst (mkReactor cs st c) w) = Ret (0, mkRst (mkReactor cs st (u64 (c + 1))) (net_stop w1)).
Proof.
  unfold loop_, mbind, M_bind. cbn [reactor rworld]. unfold NUM_EVENTS. cbn [connections]. rewrite Hpoll.
  cbn [fst snd]. rewrite (proj2 (Z.ltb_lt _ _)) by done. unfold do_stop, modify.
  replace (Z.to_nat n) with 0%nat by lia. change (take 0 evs) with (@nil Ev).
  cbn [handle_all reactor rworld]. unfold mret, M_ret, gets.
  cbn [reactor connections stopping counter]. by rewrite (proj2 (Z.eqb_neq _ _)) by done.
Qed.

(** ** The heartbeat *)

(** [n] rounds of the event loop in a row. *)
Fixpoint rounds (n : nat) : M (rst B W) unit :=
  match n with
  | O => mret tt
  | S n' => loop_ ≫= fun _ => rounds n'
  end.

Lemma land_63 x : Z.land x 63 = x mod 64.
Proof. by apply (land_ones_mod x 6 63). Qed.

Lemma idle_round cs st c w w1 :
  net_poll (zlen cs + 1) w = (0, [], w1) -> 0 <= c < 2 ^ 64 - 1 ->
  loop_ (mkRst (mkReactor cs st c) w) =
    if (c + 1) mod 64 =? 0 then
      match map_slots bc_heartbeat cs w1 with
      | Ret (cs', w2) => Ret (0, mkRst (mkReactor cs' st (c + 1)) w2) | UB => UB | NoFuel => NoFuel
      end
    else Ret (0, mkRst (mkReactor cs st (c + 1)) w1).
Proof.
  intros Hpoll Hc. unfold loop_, mbind, M_bind. cbn [reactor rworld]. unfold NUM_EVENTS. cbn [connections].
  rewrite Hpoll. cbn [fst snd]. change (0 <? 0) with false. cbv iota. change (take (Z.to_nat 0) []) with (@nil Ev).
  cbn [handle_all]. unfold mret, M_ret, modify, gets. cbn [reactor connections stopping counter rworld].
  rewrite u64_small, land_63 by lia. destruct (_ =? 0); [|done].
  unfold heartbeat. rewrite for_all_slots_map. by destruct (map_slots _ _ _) as [[? ?]| |].
Qed.

(** The world after [n] polls that report nothing. *)
Fixpoint idle_polls (k : Z) (n : nat) w : option W :=
  match n with
  | O => Some w
  | S n' =>
      match net_poll k w with
      | (0, [], w') => idle_polls k n' w'
      | _ => None
      end
  end.

Lemma idle_rounds n m cs st c w w1 :
  idle_polls (zlen cs + 1) n w = Some w1 -> 0 <= c -> c + Z.of_nat n < 2 ^ 64 ->
  c mod 64 + Z.of_nat n < 64 ->
  rounds (n + m) (mkRst (mkReactor cs st c) w) = rounds m (mkRst (mkReactor cs st (c + Z.of_nat n)) w1).
Proof.
  revert c w. induction n as [|n IH]; intros c w Hi Hc Hmax Hmod.
  { cbn in Hi. simplify_eq. by rewrite Z.add_0_r. }
  cbn [idle_polls] in Hi. destruct (net_poll (zlen cs + 1) w) as [[r evs] w'] eqn:Hp.
  destruct r, evs; try done. cbn [Nat.add rounds]. unfold mbind, M_bind.
  rewrite (idle_round cs st c w w') by (done || lia).
  assert (Hs : (c + 1) mod 64 = c mod 64 + 1) by divmod_lia.
  rewrite (proj2 (Z.eqb_neq _ _)) by (rewrite Hs; divmod_lia).
  rewrite (IH (c + 1) w') by (done || lia). do 3 f_equal. lia.
Qed.

(** An idle reactor sends one heartbeat to every connection in every 64 rounds
    of the event loop, at the end of the 64th, and leaves them alone in the
    others. *)
Lemma heartbeat_every_64_rounds (cs cs' : list (option B)) (st : bool) (c : Z) (w w1 w2 w3 : W)
    (Hc : 0 <= c < 2 ^ 64 - 64) (Hc64 : c mod 64 = 0)
    (Hidle : idle_polls (zlen cs + 1) 63 w = Some w1)
    (Hlast : net_poll (zlen cs + 1) w1 = (0, [], w2))
    (Hbeat : map_slots bc_heartbeat cs w2 = Ret (cs', w3)) :
  rounds 63 (mkRst (mkReactor cs st c) w) = Ret (tt, mkRst (mkReactor cs st (c + 63)) w1) /\
  rounds 64 (mkRst (mkReactor cs st c) w) = Ret (tt, mkRst (mkReactor cs' st (c + 64)) w3).
Proof.
  split.
  - pose proof (idle_rounds 63 0 cs st c w w1 Hidle) as H. cbn [Nat.add] in H. rewrite H by lia. done.
  - pose proof (idle_rounds 63 1 cs st c w w1 Hidle) as H. cbn [Nat.add] in H. rewrite H by lia.
    cbn [rounds]. unfold mbind, M_bind.
    rewrite (idle_round cs st (c + Z.of_nat 63) w1 w2) by (done || lia).
    replace (c + Z.of_nat 63 + 1) with (c + 64) by lia.
    rewrite (proj2 (Z.eqb_eq _ _)) by divmod_lia. rewrite Hbeat. done.
Qed.
End reactor_lemmas.

(** ** Witnesses: plain echo connections over the toy network

    The event with every flag set is the kill signal; stopping the network
    clears its error number; polls fail when the error number is [EINTR] and
    report nothing otherwise. *)

#[export] Instance toy_layout : Layout.
Proof. refine {| addr := fun i => 4096 * (Z.of_nat i + 1) |}. intros i j H. lia. Defined.

#[export] Instance toy_loop : NetLoop toy toy_event := {
  net_poll := fun _ w => if toy_errno w =? EINTR then (-1, [], w) else (0, [], w);
  net_stop := toy_set_errno 0;
  net_ev_signal := fun ev w => (te_close ev && te_error ev && te_read ev && te_write ev, w);
  net_get_user_data := fun _ => 4096
}.

Definition sample_kill : toy_event := mkToyEvent true true true true.
Definition sample_hup : toy_event := mkToyEvent false false true false.

(** A plain echo connection with small buffers. *)
Definition small_conn (fd : Z) (st : state_t.t) : Connection Plain.Endpoint unit unit unit :=
  mkConn (Buffer_new 8) (Buffer_new 8) (Some (Plain.mkEndpoint 3)) tt tt tt (str "h") (Some 1) fd st 80.

#[local] Instance small_base : BaseConnection (Connection Plain.Endpoint unit unit unit) toy toy_event :=
  connection_base (tr := Plain.ops 5) (pr := echo) 5.

Lemma signal_stops_all_witness :
  handle_one sample_kill
    (mkRst (mkReactor [Some (small_conn 3 state_t.protocol)] false 0) (mkToy {[ 3 ]} 4 false [] [] 11)) =
  Ret (tt, mkRst (mkReactor [Some (small_conn (-1) state_t.closed)] true 0) (mkToy ∅ 4 false [] [] 0)).
Proof.
  eapply eq_trans; [apply (signal_stops_all sample_kill [Some (small_conn 3 state_t.protocol)]
    [Some (small_conn (-1) state_t.closed)] false 0
    (mkToy {[ 3 ]} 4 false [] [] 11) (mkToy {[ 3 ]} 4 false [] [] 11) (mkToy ∅ 4 false [] [] 11))|reflexivity].
  - reflexivity.
  - vm_compute. reflexivity.
Defined.

Lemma event_dispatched_witness :
  handle_one sample_hup
    (mkRst (mkReactor [Some (small_conn 3 state_t.protocol)] true 0) (mkToy {[ 3 ]} 4 false [[]] [] 11)) =
  Ret (tt, mkRst (mkReactor [Some (small_conn (-1) state_t.closed)] true 0) (mkToy ∅ 4 false [] [] 0)).
Proof.
  eapply eq_trans; [apply (event_dispatched sample_hup [] [] (small_conn 3 state_t.protocol) (small_conn (-1) state_t.closed)
    (small_conn (-1) state_t.closed) true 0 (mkToy {[ 3 ]} 4 false [[]] [] 11) (mkToy {[ 3 ]} 4 false [[]] [] 11)
    (mkToy ∅ 4 false [] [] 11) (mkToy ∅ 4 false [] [] 11))|reflexivity].
  - reflexivity.
  - reflexivity.
  - vm_compute. reflexivity.
  - split; reflexivity.
Defined.

Lemma poll_failure_skips_shutdown_witness :
  loop_ (mkRst (mkReactor [Some (small_conn 3 state_t.protocol)] false 0) (mkToy {[ 3 ]} 4 false [] [] EINTR)) =
  Ret (0, mkRst (mkReactor [Some (small_conn 3 state_t.protocol)] false 1) (mkToy {[ 3 ]} 4 false [] [] 0)).
Proof.
  eapply eq_trans; [apply (poll_failure_skips_shutdown [Some (small_conn 3 state_t.protocol)] false 0 (-1)
    (mkToy {[ 3 ]} 4 false [] [] EINTR) (mkToy {[ 3 ]} 4 false [] [] EINTR) [])|reflexivity].
  - reflexivity.
  - lia.
  - vm_compute. discriminate.
Defined.

Lemma heartbeat_every_64_rounds_witness :
  rounds 64 (mkRst (mkReactor [Some (small_conn 3 state_t.protocol)] false 0) (mkToy {[ 3 ]} 4 false [] [] 0)) =
  Ret (tt, mkRst (mkReactor [Some (small_conn 3 state_t.protocol)] false 64) (mkToy {[ 3 ]} 4 false [] [] 0)).
Proof.
  apply (heartbeat_every_64_rounds [Some (small_conn 3 state_t.protocol)] [Some (small_conn 3 state_t.protocol)]
    false 0 (mkToy {[ 3 ]} 4 false [] [] 0) (mkToy {[ 3 ]} 4 false [] [] 0) (mkToy {[ 3 ]} 4 false [] [] 0)
    (mkToy {[ 3 ]} 4 false [] [] 0)).
  - lia.
  - reflexivity.
  - reflexivity.
  - reflexivity.
  - reflexivity.
Defined.
