(* ===== verification/ReactorRun.v ===== *)
(** * Runs of a reactor

    Several plain connections under one reactor and one network.  The laws of a
    connection are strengthened by what the event loop keeps ([env_and]), the
    descriptors of the connections and of the loop are told apart, and the
    invariant is carried over [init], every round of the event loop, the stop
    and the end of [run].  The epoll backend discharges what is assumed of the
    network. *)

From S2P Require Import Prelude Status Buffer Net Sockets Transport Connection PlainConnection Epoll Reactor.

(** ** An environment with more to keep *)

Definition env_and {W E} (R : env_rel W E) (K : W -> Prop) (C : option Z -> Prop) : env_rel W E :=
  mkEnv (fun fd e w => env_inv R fd e w /\ K w) (env_rem R) (fun c => env_cookie R c /\ C c).

(** [K] survives every call of the network; registrations are made under
    cookies in [C] only, and only descriptors in [D] are closed: new ones are. *)
Class NetKeeps {W Ev : Type} {net : NetOps W Ev} (K : W -> Prop) (C : option Z -> Prop) (D : Z -> Prop) : Prop := {
  keep_socket : forall d t p w, K w -> K (net_socket d t p w).2;
  keep_fresh : forall d t p w, K w -> 0 <= (net_socket d t p w).1 -> D (net_socket d t p w).1;
  keep_ioctl : forall fd w, K w -> K (net_ioctl_nonblock fd w).2;
  keep_connect : forall fd a w, K w -> K (net_connect fd a w).2;
  keep_close : forall fd w, D fd -> K w -> K (net_close fd w);
  keep_getsockopt : forall fd w, K w -> K (net_getsockopt_error fd w).2;
  keep_subscribe : forall c fd r b w, C c -> K w -> K (net_subscribe c fd r b w);
  keep_clear : forall fd w, K w -> K (net_clear fd w);
  keep_read : forall fd n w, K w -> K (net_read fd n w).2;
  keep_write : forall fd l w, K w -> K (net_write fd l w).2;
  keep_getaddrinfo : forall h p w, K w -> K (getaddrinfo h p w).2
}.

Section keeps.
Context {W Ev : Type} {net : NetOps W Ev} (K : W -> Prop) (C : option Z -> Prop) (D : Z -> Prop) {keeps : NetKeeps K C D}.

Lemma dial_keeps h p w : K w -> K (dial h p w).2.
Proof.
  intros Hw. unfold dial. apply (keep_getaddrinfo h p) in Hw.
  destruct (getaddrinfo h p w) as [[gai res] w0]. cbn [snd] in Hw. destruct (negb _); [done|].
  generalize ECONNREFUSED. revert w0 Hw. induction res as [|ai ais IH]; intros w0 Hw err; [done|]. cbn [dial_loop].
  pose proof (keep_fresh (ai_family ai) (ai_socktype ai) (ai_protocol ai) w0 Hw) as Hf.
  apply (keep_socket (ai_family ai) (ai_socktype ai) (ai_protocol ai)) in Hw.
  destruct (net_socket _ _ _ w0) as [fd w1]. cbn [fst snd] in *. destruct (fd <? 0) eqn:E; [by apply IH|].
  bool_to_prop. specialize (Hf E).
  apply (keep_ioctl fd) in Hw. destruct (net_ioctl_nonblock fd w1) as [r2 w2]. cbn [snd] in Hw.
  destruct (r2 <? 0); [by apply IH, keep_close|].
  apply (keep_connect fd (ai_addr ai)) in Hw. destruct (net_connect fd _ w2) as [r3 w3]. cbn [snd] in Hw.
  destruct (r3 =? 0); [done|]. destruct (errno w3 =? EINPROGRESS); [done|]. by apply IH, keep_close.
Qed.

Lemma plain_read_keeps fuel e b w :
  K w -> wp True True (Plain.read fuel e) (fun _ s => K s.2) (b, w).
Proof.
  intros Hw. unfold Plain.read. eapply wp_loop with (I := fun s => K s.2) (mu := fun _ => 0%nat); [|done|by left].
  intros [b' w'] Hw'. apply wp_bind. unfold wp at 1, lift. cbn [fst]. destruct (wbuf b') as [dst| |]; [|done..].
  apply wp_bind. unfold wp at 1, Plain.call_read. cbn [snd fst].
  pose proof (keep_read (Plain.fd e) (zlen dst) w' Hw') as Hr.
  destruct (net_read _ _ w') as [[len data] w1]. cbn [fst snd] in *.
  apply wp_if; intros _.
  - apply wp_bind. unfold wp at 1, deliver_bytes. cbn [fst snd]. by destruct (wbuf_write b' data).
  - apply wp_if; intros _; [done|]. apply wp_bind, wp_gets.
    apply wp_if; intros _; [done|]. apply wp_if; intros _; apply wp_ret; [|done]. split; [done|by left].
Qed.

Lemma plain_write_keeps fuel e b w :
  K w -> wp True True (Plain.write fuel e) (fun _ s => K s.2) (b, w).
Proof.
  intros Hw. unfold Plain.write. eapply wp_loop with (I := fun s => K s.2) (mu := fun _ => 0%nat); [|done|by left].
  intros [b' w'] Hw'. apply wp_bind. unfold wp at 1, lift. cbn [fst]. destruct (rbuf b') as [src| |]; [|done..].
  apply wp_bind. unfold wp at 1, Plain.call_write. cbn [snd fst].
  pose proof (keep_write (Plain.fd e) src w' Hw') as Hr.
  destruct (net_write _ _ w') as [len w1]. cbn [fst snd] in *.
  apply wp_if; intros _; [done|]. apply wp_bind, wp_gets.
  apply wp_if; intros _; [done|]. apply wp_if; intros _; apply wp_ret; [|done]. split; [done|by left].
Qed.

Lemma env_at_and {E} (R : env_rel W E) n fd e w :
  env_at (env_and R K C) n fd e w <-> env_at R n fd e w /\ K w.
Proof. unfold env_at. cbn. tauto. Qed.

Lemma and_net_laws {E} (R : env_rel W E) :
  (forall fd e w, fd <> -1 -> env_inv R fd e w -> K w -> D fd) -> NetLaws R -> NetLaws (env_and R K C).
Proof.
  intros HD Hn. split; intros *; rewrite ?env_at_and.
  - intros [He Hw]. split; [by apply law_dial|by apply dial_keeps].
  - intros [? ?] [He Hw]. split; [by apply law_subscribe|by apply keep_subscribe].
  - intros [He Hw]. split; [by apply law_getsockopt|by apply keep_getsockopt].
  - intros Hfd [He Hw]. split; [by apply law_clear|by apply keep_clear].
  - intros Hfd [He Hw]. split; [by apply law_close|apply keep_close; [|done]]. by eapply HD, Hw; [|apply He].
Qed.

Lemma and_plain_laws (R : env_rel W Plain.Endpoint) fuel nf ub :
  TransportLaws (tr := Plain.ops fuel) R nf ub -> TransportLaws (tr := Plain.ops fuel) (env_and R K C) nf ub.
Proof.
  intros [H1 H2 H3 H4 H5 H6]. split; try done.
  - intros n fd e cfg w Hfd [He Hw]%env_at_and. specialize (H1 n fd e cfg w Hfd He). cbn in *. by rewrite env_at_and.
  - intros n fd e b w [He Hw]%env_at_and Hb. specialize (H2 n fd e b w He Hb).
    pose proof (plain_read_keeps fuel e b w Hw) as Hk. cbn in *. unfold wp in Hk.
    destruct (Plain.read fuel e (b, w)) as [[st [b' w']]| |]; [|done..]. cbn in *. rewrite env_at_and. tauto.
  - intros n fd e b w [He Hw]%env_at_and Hb Hmax. specialize (H3 n fd e b w He Hb Hmax).
    pose proof (plain_write_keeps fuel e b w Hw) as Hk. cbn in *. unfold wp in Hk.
    destruct (Plain.write fuel e (b, w)) as [[st [b' w']]| |]; [|done..]. cbn in *. rewrite env_at_and. tauto.
Qed.
End keeps.

(** ** Descriptors *)

(** The descriptor of a connection, if it has one. *)
Definition fd_list (fd : Z) : list Z := if decide (fd = -1) then [] else [fd].

Section descriptors.
Context {W Ev : Type} {net : NetOps W Ev} {net_ok : NetOk W}.

(** The open descriptors are those of [X] and, besides them and once each, [l]. *)
Definition fd_inv (X : gset Z) (l : list Z) (w : W) : Prop :=
  NoDup l /\ (forall x, x ∈ l -> x ∉ X) /\ opened w = X ∪ list_to_set l.

(** What one owner sees of it, and how its steps change it. *)
Lemma fd_inv_owns X l1 l2 fd w :
  fd_inv X (l1 ++ fd_list fd ++ l2) w ->
  owns (X ∪ list_to_set l1 ∪ list_to_set l2) fd w.
Proof.
  intros (Hnd & Hx & Ho). unfold owns, fd_list in *. destruct (decide (fd = -1)).
  { rewrite Ho. cbn [app]. rewrite list_to_set_app_L. by rewrite assoc_L by apply _. }
  cbn [app] in *. apply NoDup_app in Hnd as (_ & H1 & [H2 _]%NoDup_cons). split.
  - assert (fd ∉ X) by (apply Hx; set_solver). assert (fd ∉ l1) by (intros ?; eapply H1; set_solver). set_solver.
  - rewrite Ho, list_to_set_app_L. cbn. set_solver.
Qed.

Lemma owns_fd_inv X l1 l2 fd fd' w w' :
  fd_inv X (l1 ++ fd_list fd ++ l2) w ->
  owns (X ∪ list_to_set l1 ∪ list_to_set l2) fd' w' ->
  fd_inv X (l1 ++ fd_list fd' ++ l2) w'.
Proof.
  intros (Hnd & Hx & _) Ho.
  assert (Hnd' : NoDup (l1 ++ l2)).
  { apply NoDup_app in Hnd as (H1 & H2 & (_ & _ & H3)%NoDup_app). apply NoDup_app. set_solver. }
  assert (Hx' : forall x, x ∈ l1 ++ l2 -> x ∉ X) by set_solver.
  unfold owns, fd_list in *. destruct (decide (fd' = -1)).
  { cbn [app]. split_and!; [done|done|]. rewrite Ho, list_to_set_app_L. by rewrite assoc_L by apply _. }
  destruct Ho as [Hni Ho]. cbn [app]. split_and!.
  - rewrite <- Permutation_middle. apply NoDup_cons. split; [|done]. rewrite elem_of_app. set_solver.
  - intros x Hin. apply elem_of_app in Hin as [?|[->|?]%elem_of_cons]; [apply Hx'|set_solver|apply Hx']; set_solver.
  - rewrite Ho, list_to_set_app_L. cbn. set_solver.
Qed.
End descriptors.

(** ** What the reactor relies on in the network's event loop *)

(** [running]: [run] goes on; [loop_fds]: the descriptors the loop itself has
    open; [kill]: the events of the kill signal; [world_ok]: an invariant of the
    world. *)
Class LoopView (W Ev : Type) := {
  running : W -> bool;
  loop_fds : W -> gset Z;
  world_ok : W -> Prop;
  kill : W -> Ev -> bool
}.

(** Nothing happened to the event loop between [w0] and [w]. *)
Definition same_loop `{LoopView W Ev} (w0 w : W) : Prop :=
  world_ok w /\ running w = running w0 /\ loop_fds w = loop_fds w0 /\ forall ev, kill w ev = kill w0 ev.

Section loop_laws.
Context {W Ev : Type} {net : NetOps W Ev} {net_ok : NetOk W} {net_fin : NetFinite W}.
Context {nl : NetLoop W Ev} {view : LoopView W Ev} {layout : Layout}.

(** A call on behalf of the event loop: no descriptor is opened or closed. *)
Definition loop_step (w w' : W) : Prop :=
  same_loop w w' /\ opened w' = opened w /\ (budget w' <= budget w)%nat.

(** The user data of one of [N] connections. *)
Definition user_data_ok (N : nat) (ev : Ev) : Prop := exists i, (i < N)%nat /\ net_get_user_data ev = addr i.

Definition cookie_ok (N : nat) (c : option Z) : Prop := exists i, (i < N)%nat /\ c = Some (addr i).

(** A poll reports the kill signal or events of registered connections; both are
    recognised; stopping closes the descriptors of the loop and ends it. *)
Class NetLoopOk (N : nat) : Prop := {
  loop_keeps : forall w0, NetKeeps (same_loop w0) (cookie_ok N) (fun fd => fd ∉ loop_fds w0);
  loop_poll : forall n w, world_ok w -> running w = true ->
    loop_step w (net_poll n w).2 /\ Forall (fun ev => kill w ev = true \/ user_data_ok N ev) (net_poll n w).1.2;
  loop_kill : forall ev w, kill w ev = true -> world_ok w -> running w = true ->
    (net_ev_signal ev w).1 = true /\ loop_step w (net_ev_signal ev w).2;
  loop_event : forall ev w, (running w = true -> kill w ev = false) -> user_data_ok N ev -> world_ok w ->
    (net_ev_signal ev w).1 = false /\ loop_step w (net_ev_signal ev w).2;
  loop_stop : forall w, world_ok w ->
    world_ok (net_stop w) /\ running (net_stop w) = false /\ loop_fds (net_stop w) = ∅ /\
    opened (net_stop w) = opened w ∖ loop_fds w /\ (budget (net_stop w) <= budget w)%nat;
  loop_stopped : forall w, world_ok w -> running w = false -> loop_fds w = ∅
}.
End loop_laws.

(** ** The invariant of a reactor *)

Section reactor_inv.
Context {W Ev P PCfg : Type}.
Context {net : NetOps W Ev} {net_ok : NetOk W} {net_fin : NetFinite W}.
Context {nl : NetLoop W Ev} {view : LoopView W Ev} {layout : Layout}.
Context {pr : ProtocolOps W P PCfg}.
Context (fuel : nat) (N : nat) {loop_ok : NetLoopOk N}.
Context (Hfuel : RX_CAP < Z.of_nat fuel /\ TX_CAP < Z.of_nat fuel).

Abbreviation Conn := (Connection Plain.Endpoint unit P PCfg).
Abbreviation rstate := (rst Conn W).

#[local] Instance plain_base : BaseConnection Conn W Ev :=
  connection_base (net := net) (tr := Plain.ops fuel) (pr := pr) fuel.

(** The environment of one connection among others, when the loop is as in [w0]. *)
Definition slot_env (base0 : gset Z) (w0 : W) : env_rel W Plain.Endpoint :=
  env_and (plain_env fuel base0) (fun w => same_loop w0 w /\ loop_fds w0 ⊆ base0) (cookie_ok N).

Context {pr_laws : forall base0 w0, ProtocolLaws (pr := pr) (slot_env base0 w0) False False}.

#[local] Instance slot_keeps base0 w0 :
  NetKeeps (fun w => same_loop w0 w /\ loop_fds w0 ⊆ base0) (cookie_ok N) (fun fd => fd ∉ loop_fds w0).
Proof.
  destruct (loop_keeps (N := N) w0) as [H1 H2 H3 H4 H5 H6 H7 H8 H9 H10 H11]. split.
  - intros ???? [? ?]. split; [by apply H1|done].
  - intros ???? [? ?]. by apply H2.
  - intros ?? [? ?]. split; [by apply H3|done].
  - intros ??? [? ?]. split; [by apply H4|done].
  - intros ??? [? ?]. split; [by apply H5|done].
  - intros ?? [? ?]. split; [by apply H6|done].
  - intros ?????? [? ?]. split; [by apply H7|done].
  - intros ?? [? ?]. split; [by apply H8|done].
  - intros ??? [? ?]. split; [by apply H9|done].
  - intros ??? [? ?]. split; [by apply H10|done].
  - intros ??? [? ?]. split; [by apply H11|done].
Qed.

#[local] Instance slot_net_laws base0 w0 : NetLaws (slot_env base0 w0).
Proof.
  apply (and_net_laws _ _ (fun fd => fd ∉ loop_fds w0)); [|apply plain_net_laws].
  intros fd e w Hfd [Ho _] [_ Hsub]. unfold owns in Ho. rewrite decide_False in Ho by done.
  destruct Ho as [Ho _]. intros Hin. apply Ho. by apply Hsub.
Qed.

#[local] Instance slot_transport_laws base0 w0 :
  TransportLaws (tr := Plain.ops fuel) (slot_env base0 w0) False False.
Proof.
  apply (and_plain_laws _ _ (fun fd => fd ∉ loop_fds w0)). apply transport_laws_weaken, plain_transport_laws.
Qed.

(** What is known of a connection, apart from the world. *)
Record conn_ok (c : Conn) : Prop := {
  ok_rx : buffer_wf (_rx c);
  ok_rx_cap : CAP (_rx c) = RX_CAP;
  ok_tx : buffer_wf (_tx c);
  ok_tx_cap : CAP (_tx c) = TX_CAP;
  ok_cookie : cookie_ok N (_cookie c);
  ok_fits : fits c;
  ok_state : _state c <> state_t.uninitialized
}.

Definition slot_ok (o : option Conn) : Prop := match o with Some c => conn_ok c | None => True end.

Definition own_fds (cs : list (option Conn)) : list Z :=
  concat ((fun o => match o with Some c => fd_list (_fd c) | None => [] end) <$> cs).

(** [base]: the descriptors that belong neither to the loop nor to a connection. *)
Record rinv (base : gset Z) (s : rstate) : Prop := {
  rinv_world : world_ok (rworld s);
  rinv_budget : (budget (rworld s) < fuel)%nat;
  rinv_slots : Forall slot_ok (connections (reactor s));
  rinv_fds : fd_inv (base ∪ loop_fds (rworld s)) (own_fds (connections (reactor s))) (rworld s);
  rinv_base : base ## loop_fds (rworld s)
}.

Lemma own_fds_app cs1 cs2 : own_fds (cs1 ++ cs2) = own_fds cs1 ++ own_fds cs2.
Proof. unfold own_fds. by rewrite fmap_app, concat_app. Qed.

Lemma conn_ok_inv base0 w0 c w n :
  conn_ok c -> owns base0 (_fd c) w -> same_loop w0 w -> loop_fds w0 ⊆ base0 ->
  (budget w < fuel)%nat -> (budget w <= n)%nat ->
  inv (slot_env base0 w0) n (mkCst c w) /\ (rank (_state c) < 7)%nat.
Proof.
  intros [] Ho Hs Hsub Hb Hn. split; [split; [split; cbn|]|]; try done.
  destruct (_state c); cbn; try done; lia.
Qed.

Lemma inv_conn_ok base0 w0 n (s : cst W Plain.Endpoint unit P PCfg) :
  inv (slot_env base0 w0) n s -> (rank (_state (conn s)) < 7)%nat ->
  conn_ok (conn s) /\ owns base0 (_fd (conn s)) (world s) /\ same_loop w0 (world s) /\ (budget (world s) < fuel)%nat /\
  (budget (world s) <= n)%nat.
Proof.
  intros [[] Hf] Hr. destruct base_env as [[[Ho Hb] [Hs _]] Hn]. destruct base_cookie as [_ Hc]. cbn in *.
  split_and!; try done. split; try done. intros E. rewrite E in Hr. cbn in Hr. lia.
Qed.

(** A member of a connection that keeps its invariant. *)
Definition keeps_inv (m : M (cst W Plain.Endpoint unit P PCfg) unit) : Prop :=
  forall base0 w0 n s, inv (slot_env base0 w0) n s -> (rank (_state (conn s)) < 7)%nat -> (n < fuel)%nat ->
    wp False False m (fun _ s' => inv (slot_env base0 w0) n s' /\ (rank (_state (conn s')) < 7)%nat) s.

Abbreviation ptr := (Plain.ops (net := net) fuel).

Lemma keeps_handle_event (ev : Ev) : keeps_inv (handle_event (tr := ptr) fuel ev).
Proof.
  intros base0 w0 n s Hi Hr Hn.
  eapply wp_mono; [apply (steps_inv (tr := ptr) (slot_env base0 w0) False False fuel (or_intror Hfuel) n); auto|].
  cbn. intros _ s' [? ?]. split; [done|lia].
Qed.

Lemma keeps_heartbeat : keeps_inv (Connection.heartbeat (net := net) (tr := ptr) fuel).
Proof.
  intros base0 w0 n s Hi Hr Hn. by apply (heartbeat_inv (tr := ptr) (slot_env base0 w0) False False fuel (or_intror Hfuel) n).
Qed.

Lemma keeps_restart : keeps_inv (restart (net := net) (tr := ptr) fuel).
Proof.
  intros base0 w0 n s Hi Hr Hn. apply (restart_inv (tr := ptr) (slot_env base0 w0) False False fuel (or_intror Hfuel) n); auto.
Qed.

Lemma keeps_stop : keeps_inv (Connection.stop (net := net) (tr := ptr) fuel).
Proof.
  intros base0 w0 n s Hi Hr Hn. apply (stop_inv (tr := ptr) (slot_env base0 w0) False False fuel (or_intror Hfuel) n); auto.
Qed.

(** *** Slots *)

(** A member as the reactor calls it. *)
Definition slot_law (f : Conn -> W -> outcome (Conn * W)) : Prop :=
  forall base0 c w, conn_ok c -> owns base0 (_fd c) w -> world_ok w -> loop_fds w ⊆ base0 -> (budget w < fuel)%nat ->
    owp False False (f c w) (fun '(c', w') =>
      conn_ok c' /\ owns base0 (_fd c') w' /\ same_loop w w' /\ (budget w' < fuel)%nat).

Lemma on_conn_law m : keeps_inv m -> slot_law (on_conn m).
Proof.
  intros Hm base0 c w Hc Ho Hw Hsub Hb.
  destruct (conn_ok_inv base0 w c w (budget w)) as [Hi Hr]; [done..|].
  specialize (Hm base0 w (budget w) (mkCst c w) Hi Hr Hb). unfold wp in Hm. unfold on_conn, owp.
  destruct (m (mkCst c w)) as [[[] s']| |]; [|done..]. destruct Hm as [Hi' Hr'].
  destruct (inv_conn_ok _ _ _ _ Hi' Hr') as (? & ? & ? & ? & ?). done.
Qed.

(** Every slot holds a connection. *)
Definition slots_full (cs : list (option Conn)) : Prop := Forall is_Some cs /\ length cs = N.

Lemma same_loop_trans w1 w2 w3 : same_loop w1 w2 -> same_loop w2 w3 -> same_loop w1 w3.
Proof.
  intros (A1 & A2 & A3 & A4) (B1 & B2 & B3 & B4). split_and!; [done|congruence|congruence|].
  intros ev. by rewrite B4.
Qed.

(** What a call on one or all connections leaves alone. *)
Definition frame (s s' : rstate) : Prop :=
  stopping (reactor s') = stopping (reactor s) /\ same_loop (rworld s) (rworld s') /\
  (slots_full (connections (reactor s)) -> slots_full (connections (reactor s'))) /\
  length (connections (reactor s')) = length (connections (reactor s)).

Lemma frame_trans s1 s2 s3 : frame s1 s2 -> frame s2 s3 -> frame s1 s3.
Proof.
  intros (H1 & L1 & H2 & H3) (H4 & L2 & H5 & H6).
  split_and!; [congruence|by eapply same_loop_trans|auto|congruence].
Qed.

Lemma frame_refl base s : rinv base s -> frame s s.
Proof. intros []. by split_and!; [|split_and!|..]. Qed.

Lemma on_slot_step base f (Q : Conn -> Prop) l1 l2 c s :
  connections (reactor s) = l1 ++ Some c :: l2 -> Forall slot_ok l1 -> Forall slot_ok l2 ->
  world_ok (rworld s) -> base ## loop_fds (rworld s) ->
  fd_inv (base ∪ loop_fds (rworld s)) (own_fds l1 ++ fd_list (_fd c) ++ own_fds l2) (rworld s) ->
  (forall base0, owns base0 (_fd c) (rworld s) -> loop_fds (rworld s) ⊆ base0 -> owp False False (f c (rworld s)) (fun '(c', w') =>
    (conn_ok c' /\ owns base0 (_fd c') w' /\ same_loop (rworld s) w' /\ (budget w' < fuel)%nat) /\ Q c')) ->
  wp False False (on_slot f (length l1)) (fun _ s' => rinv base s' /\ frame s s' /\
    exists c', Q c' /\ connections (reactor s') = l1 ++ Some c' :: l2) s.
Proof.
  intros Hcs F1 F2 Hok Hbase Hfds Hf. unfold wp, on_slot.
  assert (Hi : connections (reactor s) !! length l1 = Some (Some c)) by (rewrite Hcs; by apply list_lookup_middle).
  rewrite Hi. pose proof (Hf _ (fd_inv_owns _ _ _ _ _ Hfds) ltac:(set_solver)) as Hl.
  unfold owp in Hl. destruct (f c (rworld s)) as [[c' w']| |]; [|done..].
  destruct Hl as ((Hc' & Ho' & Hsl & Hb') & HQ).
  assert (Hins : <[length l1 := Some c']> (connections (reactor s)) = l1 ++ Some c' :: l2).
  { rewrite Hcs, <- (Nat.add_0_r (length l1)). by rewrite insert_app_r. }
  pose proof Hsl as (Hok' & Hrun & Hlf & _).
  split; [|split; [|by exists c']].
  - split; cbn [reactor rworld connections set_conns]; rewrite ?Hins, ?Hlf; try done.
    + by apply Forall_app; split; [|apply Forall_cons].
    + rewrite own_fds_app. by eapply owns_fd_inv.
  - split_and!; cbn [reactor rworld connections set_conns stopping]; try done; rewrite Hins, Hcs, ?length_app; try done.
    intros [Hf1 Hl1]. split.
    + apply Forall_app in Hf1 as [? [_ ?]%Forall_cons_1]. by apply Forall_app; split; [|apply Forall_cons; eauto].
    + rewrite length_app in *. done.
Qed.

Lemma on_slot_rinv base f i s :
  slot_law f -> rinv base s -> wp False False (on_slot f i) (fun _ s' => rinv base s' /\ frame s s') s.
Proof.
  intros Hf Hs. destruct (connections (reactor s) !! i) as [[c|]|] eqn:Hi;
    [|unfold wp, on_slot; rewrite Hi; split; [done|by eapply frame_refl]..].
  pose proof Hs as []. apply list_elem_of_split_length in Hi as (l1 & l2 & Hcs & ->).
  rewrite Hcs in *. apply Forall_app in rinv_slots0 as [F1 [Hc F2]%Forall_cons_1].
  rewrite own_fds_app in rinv_fds0.
  eapply wp_mono; [eapply (on_slot_step base f (fun _ => True) l1 l2 c); try done|].
  - intros base0 Ho Hsub. pose proof (Hf base0 c (rworld s) Hc Ho rinv_world0 Hsub rinv_budget0) as Hl. unfold owp in *.
    by destruct (f c (rworld s)) as [[c' w']| |].
  - cbn. by intros _ s' (? & ? & _).
Qed.

Lemma on_slots_rinv base f l s :
  slot_law f -> rinv base s -> wp False False (on_slots f l) (fun _ s' => rinv base s' /\ frame s s') s.
Proof.
  intros Hf. revert s. induction l as [|i l IH]; intros s Hs; [split; [done|by eapply frame_refl]|].
  cbn [on_slots]. apply wp_bind. eapply wp_mono; [by apply (on_slot_rinv base)|]. cbn.
  intros _ s1 [H1 F1]. eapply wp_mono; [by apply IH|]. cbn. intros _ s2 [H2 F2].
  split; [done|by eapply frame_trans].
Qed.

Lemma for_all_slots_rinv base f s :
  slot_law f -> rinv base s -> wp False False (for_all_slots f) (fun _ s' => rinv base s' /\ frame s s') s.
Proof. intros Hf Hs. unfold for_all_slots. apply (on_slots_rinv base f _ s Hf Hs). Qed.

(** *** Stopping *)

Lemma do_stop_rinv base s :
  rinv base s ->
  wp False False do_stop (fun _ s' => rinv base s' /\ running (rworld s') = false /\ loop_fds (rworld s') = ∅ /\
    reactor s' = reactor s) s.
Proof.
  intros []. apply wp_modify. destruct (loop_stop (N := N) (rworld s) rinv_world0) as (H1 & H2 & H3 & H4 & H5).
  split_and!; try done. split; cbn [reactor rworld]; rewrite ?H3; try done; [lia|].
  destruct rinv_fds0 as (Hnd & Hx & Ho). split_and!; [done|set_solver|]. rewrite H4, Ho.
  clear -Hx rinv_base0. apply set_eq. intros x. rewrite !elem_of_difference, !elem_of_union, elem_of_list_to_set.
  split; [tauto|]. intros [[?|?]|?]; [|done|].
  - split; [by left; left|]. set_solver.
  - split; [by right|]. intros ?. apply (Hx x); [done|set_solver].
Qed.

(** *** Events *)

(** After the first event of a round the kill signal is reported at most once,
    and not at all once the reactor is stopping: [stop] closes the signal's
    descriptor, after which the event would be taken for a connection's. *)
Definition orderly_rest (k : Ev -> bool) (st : bool) (evs : list Ev) : Prop :=
  (length (List.filter k evs) <= if st then 0 else 1)%nat.

Definition orderly (k : Ev -> bool) (st : bool) (evs : list Ev) : Prop :=
  match evs with
  | [] => True
  | ev :: evs' => orderly_rest k (st || k ev) evs'
  end.

(** Between two events of a round whose kill signals were [k]. *)
Definition ready (k : Ev -> bool) (base : gset Z) (s : rstate) : Prop :=
  rinv base s /\ slots_full (connections (reactor s)) /\
  (stopping (reactor s) = false -> running (rworld s) = true) /\
  (running (rworld s) = true -> forall ev, kill (rworld s) ev = k ev).

Lemma rinv_loop_step base s w' :
  rinv base s -> loop_step (rworld s) w' -> rinv base (mkRst (reactor s) w').
Proof.
  intros [] ((Hok & Hrun & Hlf & _) & Ho & Hb). split; cbn [reactor rworld]; rewrite ?Hlf; try done; [lia|].
  unfold fd_inv in *. by rewrite Ho.
Qed.

Lemma ready_frame k base s s' : ready k base s -> rinv base s' -> frame s s' -> ready k base s'.
Proof.
  intros (_ & Hfull & Hrun & Hk) Hs' (H1 & (_ & H2 & _ & H4) & H3 & _). split_and!; [done|auto| |].
  - rewrite H1, H2. auto.
  - rewrite H2. intros Hr ev. rewrite H4. auto.
Qed.

Lemma dispatch_ready k base ev s :
  ready k base s -> user_data_ok N ev ->
  wp False False (dispatch ev) (fun _ s' => ready k base s' /\ frame s s') s.
Proof.
  intros Hs (i & Hi & Hu). pose proof Hs as (Hinv & [Hfull Hlen] & _).
  unfold dispatch. apply wp_bind, wp_gets. rewrite Hu, slot_of_addr by (by rewrite Hlen).
  apply wp_bind, wp_gets. destruct (lookup_lt_is_Some_2 (connections (reactor s)) i) as [o Ho]; [by rewrite Hlen|].
  rewrite Ho. pose proof (Forall_lookup_1 _ _ _ _ Hfull Ho) as [c ->].
  assert (Hrefl : frame s s) by (by eapply frame_refl).
  apply wp_if; intros _; [|by apply wp_ret].
  apply wp_bind. eapply wp_mono; [apply (on_slot_rinv base); [apply on_conn_law, keeps_handle_event|done]|]. cbn.
  intros _ s1 [H1 F1]. pose proof (ready_frame _ _ _ _ Hs H1 F1) as R1.
  apply wp_bind, wp_gets, wp_bind, wp_gets, wp_if; intros _; [|by apply wp_ret].
  eapply wp_mono; [apply (on_slot_rinv base); [apply on_conn_law, keeps_restart|done]|]. cbn.
  intros _ s2 [H2 F2]. split; [by eapply ready_frame|by eapply frame_trans].
Qed.

(** The end of the treatment of one event. *)
Lemma finish_ready k base evs s (st : bool) :
  ready k base s -> stopping (reactor s) = st -> orderly_rest k st evs ->
  wp False False (fin ← gets (fun s => stopping (reactor s) && all_done (reactor s)); if (fin : bool) then do_stop else mret tt)
    (fun _ s' => ready k base s' /\ reactor s' = reactor s /\
      (stopping (reactor s) && all_done (reactor s) = true -> running (rworld s') = false)) s.
Proof.
  intros R1 Hst Hrest. apply wp_bind, wp_gets, wp_if; intros E; rewrite E; [|by apply wp_ret].
  apply andb_true_iff in E as [E _]. destruct R1 as (I1 & F1 & _).
  eapply wp_mono; [by apply (do_stop_rinv base)|]. cbn. intros _ s2 (I2 & Hr2 & _ & Hr). rewrite Hr.
  split_and!; [split_and!; [done|by rewrite Hr|by rewrite Hr, E|by rewrite Hr2]|done|done].
Qed.

Lemma handle_one_ready k base ev evs s :
  ready k base s -> k ev = true \/ user_data_ok N ev -> (k ev = true -> running (rworld s) = true) ->
  orderly_rest k (stopping (reactor s) || k ev) evs ->
  wp False False (handle_one ev) (fun _ s' => ready k base s' /\ orderly_rest k (stopping (reactor s')) evs /\
    stopping (reactor s') = stopping (reactor s) || k ev) s.
Proof.
  intros Hs Hev Hkrun Hrest. pose proof Hs as (Hinv & Hfull & Hrun & Hkill). pose proof Hinv as [Hok _ _ _ _].
  assert (Hfin : forall s1, ready k base s1 -> stopping (reactor s1) = stopping (reactor s) || k ev ->
    wp False False (fin ← gets (fun s => stopping (reactor s) && all_done (reactor s)); if (fin : bool) then do_stop else mret tt)
      (fun _ s' => ready k base s' /\ orderly_rest k (stopping (reactor s')) evs /\
        stopping (reactor s') = stopping (reactor s) || k ev) s1).
  { intros s1 R1 Hst. eapply wp_mono; [by apply (finish_ready k base evs s1 _ R1 Hst)|].
    cbn beta. intros _ s2 (R2 & -> & _). by rewrite Hst. }
  unfold handle_one. apply wp_bind. unfold wp at 1. destruct (k ev) eqn:Hk.
  - specialize (Hkrun eq_refl). specialize (Hkill Hkrun).
    destruct (loop_kill (N := N) ev (rworld s)) as [Hsig Hstep]; [by rewrite Hkill|done|done|].
    destruct (net_ev_signal ev (rworld s)) as [b w1]. cbn [fst snd] in *. subst b.
    pose proof (rinv_loop_step base s w1 Hinv Hstep) as I1. destruct Hstep as ((_ & Hr1 & _ & Hk1) & _).
    apply wp_bind, wp_bind, wp_gets. cbn [reactor].
    destruct (stopping (reactor s)) eqn:Hst; cbn [negb].
    { apply wp_ret, Hfin; [|done]. split_and!; [done|done|by cbn; rewrite Hr1|].
      cbn. intros _ ev'. by rewrite Hk1. }
    apply wp_bind, wp_modify. cbn [reactor rworld].
    set (s1 := mkRst (mkReactor (connections (reactor s)) true (counter (reactor s))) w1).
    assert (I1' : rinv base s1) by (destruct I1; by split).
    eapply wp_mono; [apply (for_all_slots_rinv base (on_conn (Connection.stop (tr := ptr) fuel))); [apply on_conn_law, keeps_stop|exact I1']|].
    cbn beta. intros _ s2 [I2 F2]. pose proof F2 as (S2 & _). cbn in S2. apply Hfin; [|by rewrite S2].
    eapply (ready_frame k base s1); [|done|done]. split_and!; [done|done|done|]. cbn. intros _ ev'. by rewrite Hk1.
  - destruct Hev as [?|Hu]; [congruence|].
    destruct (loop_event (N := N) ev (rworld s)) as [Hsig Hstep]; [intros ?; by rewrite Hkill|done|done|].
    destruct (net_ev_signal ev (rworld s)) as [b w1]. cbn [fst snd] in *. subst b.
    pose proof (rinv_loop_step base s w1 Hinv Hstep) as I1. destruct Hstep as ((_ & Hr1 & _ & Hk1) & _).
    apply wp_bind. eapply wp_mono; [apply (dispatch_ready k base ev (mkRst (reactor s) w1)); [|done]|].
    + split_and!; [done|done| |]; cbn; rewrite Hr1; [done|]. intros Hr ev'. rewrite Hk1. auto.
    + cbn beta. intros _ s2 [R2 (S2 & _)]. apply Hfin; [done|]. cbn in S2. by rewrite S2, orb_false_r.
Qed.

Lemma handle_rest_ready k base evs s :
  ready k base s -> Forall (fun ev => k ev = true \/ user_data_ok N ev) evs ->
  orderly_rest k (stopping (reactor s)) evs ->
  wp False False (handle_all evs) (fun _ s' => ready k base s' /\
    stopping (reactor s') = stopping (reactor s) || existsb k evs) s.
Proof.
  intros Hs Hevs. revert s Hs. induction Hevs as [|ev evs Hev Hevs IH]; intros s Hs Hord.
  { split; [done|]. by rewrite orb_false_r. }
  unfold orderly_rest in Hord. cbn [List.filter] in Hord.
  cbn [handle_all]. apply wp_bind. eapply wp_mono; [apply (handle_one_ready k base ev evs); [done|done|..]|].
  - intros Hk. rewrite Hk in Hord. apply Hs. by destruct (stopping (reactor s)); [cbn in Hord; lia|].
  - unfold orderly_rest. destruct (k ev), (stopping (reactor s)); cbn in *; lia.
  - cbn beta. intros _ s1 (R1 & O1 & S1). eapply wp_mono; [by apply IH|]. cbn. intros _ s2 [R2 S2].
    split; [done|]. by rewrite S2, S1, <- orb_assoc.
Qed.

Lemma handle_all_ready k base evs s :
  ready k base s -> Forall (fun ev => k ev = true \/ user_data_ok N ev) evs ->
  running (rworld s) = true -> orderly k (stopping (reactor s)) evs ->
  wp False False (handle_all evs) (fun _ s' => ready k base s' /\
    stopping (reactor s') = stopping (reactor s) || existsb k evs) s.
Proof.
  intros Hs Hevs Hrun Hord. destruct Hevs as [|ev evs Hev Hevs].
  { split; [done|]. by rewrite orb_false_r. }
  cbn [handle_all]. apply wp_bind. eapply wp_mono; [by apply (handle_one_ready k base ev evs)|].
  cbn beta. intros _ s1 (R1 & O1 & S1). eapply wp_mono; [by apply handle_rest_ready|]. cbn. intros _ s2 [R2 S2].
  split; [done|]. by rewrite S2, S1, <- orb_assoc.
Qed.

(** *** Rounds *)

(** The events of the next poll. *)
Definition next_events (s : rstate) : list Ev :=
  let '(n, evs, _) := net_poll (NUM_EVENTS (reactor s)) (rworld s) in take (Z.to_nat n) evs.

Lemma loop_round base s :
  rinv base s -> slots_full (connections (reactor s)) -> running (rworld s) = true ->
  orderly (kill (rworld s)) (stopping (reactor s)) (next_events s) ->
  wp False False loop_ (fun _ s' => rinv base s' /\ slots_full (connections (reactor s'))) s.
Proof.
  intros Hinv Hfull Hrun Hord. unfold loop_, next_events in *. apply wp_bind.
  unfold wp at 1. destruct (loop_poll (N := N) (NUM_EVENTS (reactor s)) (rworld s)) as [Hstep Hevs];
    [by destruct Hinv|done|].
  destruct (net_poll (NUM_EVENTS (reactor s)) (rworld s)) as [[n evs] w1]. cbn [fst snd] in *.
  pose proof (rinv_loop_step base s w1 Hinv Hstep) as I1.
  assert (Hlast : forall s2, rinv base s2 -> slots_full (connections (reactor s2)) ->
    wp False False (modify (fun s => mkRst (mkReactor (connections (reactor s)) (stopping (reactor s))
        (u64 (counter (reactor s) + 1))) (rworld s)) ≫= fun _ =>
      c ← gets (fun s => counter (reactor s)); (if Z.land c 63 =? 0 then heartbeat else mret tt) ≫= fun _ => mret 0)
      (fun _ s' => rinv base s' /\ slots_full (connections (reactor s'))) s2).
  { intros s2 I2 F2. apply wp_bind, wp_modify.
    assert (I3 : rinv base (mkRst (mkReactor (connections (reactor s2)) (stopping (reactor s2))
      (u64 (counter (reactor s2) + 1))) (rworld s2))) by (destruct I2; by split).
    apply wp_bind, wp_gets, wp_bind, wp_if; intros _; [|by apply wp_ret, wp_ret].
    eapply wp_mono; [apply (for_all_slots_rinv base (on_conn (Connection.heartbeat (tr := ptr) fuel)));
      [apply on_conn_law, keeps_heartbeat|exact I3]|].
    cbn beta. intros _ s4 [I4 (_ & _ & F4 & _)]. apply wp_ret. auto. }
  destruct (n <? 0) eqn:En.
  - apply wp_bind. eapply wp_mono; [by apply (do_stop_rinv base)|]. cbn beta. intros _ s2 (I2 & _ & _ & Hr).
    bool_to_prop. replace (Z.to_nat n) with 0%nat by lia. change (take 0 evs) with (@nil Ev). cbn [handle_all].
    apply wp_bind, wp_ret, Hlast; [done|]. by rewrite Hr.
  - apply wp_bind, wp_ret, wp_bind. eapply wp_mono; [apply (handle_all_ready (kill (rworld s)) base)|].
    + destruct Hstep as ((_ & Hr & _ & Hk) & _). split_and!; [done|done| |]; cbn; rewrite Hr; done.
    + by apply Forall_take.
    + cbn. destruct Hstep as ((_ & Hr & _) & _). by rewrite Hr.
    + exact Hord.
    + cbn beta. intros _ s2 ((I2 & F2 & _) & _). by apply Hlast.
Qed.

(** At most [n] rounds: what [run] does while the network runs. *)
Fixpoint serve (n : nat) : M rstate unit :=
  match n with
  | O => mret tt
  | S n' =>
      go ← gets (fun s => running (rworld s));
      if (go : bool) then loop_ ≫= fun _ => serve n' else mret tt
  end.

(** The first [n] rounds from [s] are orderly: in each, the kill signal is
    reported at most once, and only as the first event when the reactor was
    already stopping.  So no round sees a kill signal that it can no longer
    tell from a connection. *)
Fixpoint orderly_rounds (n : nat) (s : rstate) : Prop :=
  match n with
  | O => True
  | S n' =>
      running (rworld s) = true ->
      orderly (kill (rworld s)) (stopping (reactor s)) (next_events s) /\
      forall r s', loop_ s = Ret (r, s') -> orderly_rounds n' s'
  end.

Lemma serve_rinv base n s :
  rinv base s -> slots_full (connections (reactor s)) -> orderly_rounds n s ->
  wp False False (serve n) (fun _ s' => rinv base s' /\ slots_full (connections (reactor s'))) s.
Proof.
  revert s. induction n as [|n IH]; intros s Hs Hfull Hord; [done|].
  cbn [serve]. apply wp_bind, wp_gets, wp_if; intros Hrun; [|done].
  cbn [orderly_rounds] in Hord. destruct (Hord Hrun) as [Ho Hnext].
  apply wp_bind. pose proof (loop_round base s Hs Hfull Hrun Ho) as Hl.
  unfold wp in Hl |- * at 1. destruct (loop_ s) as [[r s1]| |] eqn:Hr; [|done..].
  destruct Hl as [I1 F1]. apply IH; [done|done|]. by eapply Hnext.
Qed.

(** *** Stopping for good *)

(** [f] brings a connection in [Pre] to one that is done. *)
Definition finishes (Pre : Conn -> Prop) (f : Conn -> W -> outcome (Conn * W)) : Prop :=
  forall base0 c w, conn_ok c -> Pre c -> owns base0 (_fd c) w -> world_ok w -> loop_fds w ⊆ base0 -> (budget w < fuel)%nat ->
    owp False False (f c w) (fun '(c', w') =>
      (conn_ok c' /\ owns base0 (_fd c') w' /\ same_loop w w' /\ (budget w' < fuel)%nat) /\ done_ c' = true).

Definition slot_in (Pre : Conn -> Prop) (o : option Conn) : Prop :=
  match o with Some c => Pre c | None => True end.

Lemma on_slots_finish base f Pre l1 l2 s :
  finishes Pre f -> rinv base s -> connections (reactor s) = l1 ++ l2 -> Forall (slot_in Pre) l2 ->
  wp False False (on_slots f (seq (length l1) (length l2))) (fun _ s' => rinv base s' /\ frame s s' /\
    exists l2', connections (reactor s') = l1 ++ l2' /\ Forall (slot_in (fun c => done_ c = true)) l2') s.
Proof.
  intros Hf Hs Hcs Hpre. revert l1 s Hs Hcs. induction Hpre as [|o l2 Ho Hpre IH]; intros l1 s Hs Hcs.
  { split_and!; [done|by eapply frame_refl|]. by exists []. }
  pose proof Hs as []. rewrite Hcs in rinv_slots0, rinv_fds0.
  apply Forall_app in rinv_slots0 as [F1 [Hc F2]%Forall_cons_1]. rewrite own_fds_app in rinv_fds0.
  cbn [length seq on_slots]. apply wp_bind.
  apply (wp_mono _ _ _ (fun _ s' => rinv base s' /\ frame s s' /\
    exists o', slot_in (fun c => done_ c = true) o' /\ connections (reactor s') = l1 ++ o' :: l2)).
  - destruct o as [c|].
    + eapply wp_mono; [eapply (on_slot_step base f (fun c => done_ c = true) l1 l2 c); try done|].
      * intros base0 Hown Hsub. by apply Hf.
      * cbn beta. intros _ s1 (I1 & Fr1 & c' & Hd & Hcs1). split_and!; [done|done|]. by exists (Some c').
    + unfold wp, on_slot. rewrite Hcs, list_lookup_middle by done. split_and!; [done|by eapply frame_refl|]. by exists None.
  - cbn beta. intros _ s1 (I1 & Fr1 & o' & Hd & Hcs1). rewrite cons_middle, app_assoc in Hcs1.
    replace (S (length l1)) with (length (l1 ++ [o'])) by (rewrite length_app; cbn; lia).
    eapply wp_mono; [by apply IH|]. cbn beta. intros _ s2 (I2 & Fr2 & l2' & Hcs2 & Hd2).
    split_and!; [done|by eapply frame_trans|]. exists (o' :: l2'). by rewrite Hcs2, <- app_assoc; split; [|constructor].
Qed.

Lemma rank0_done (c : Conn) : rank (_state c) = 0%nat -> done_ c = true.
Proof. unfold done_. by destruct (_state c). Qed.

Lemma fuel_two : (2 <= fuel)%nat.
Proof. destruct Hfuel as [H _]. change RX_CAP with 1048576 in H. lia. Qed.

Lemma steps_done_ Q (s : cst W Plain.Endpoint unit P PCfg) f :
  (0 < f)%nat -> done_ (conn s) = true -> Q tt s ->
  wp False False (loop f (steps_round (net := net) (tr := ptr) fuel None)) Q s.
Proof.
  intros Hf Hd HQ. apply wp_loop_unfold; [done|]. unfold steps_round. apply wp_bind, wp_gets. cbv zeta.
  unfold done_ in Hd. by destruct (_state (conn s)).
Qed.

Lemma close_transport_finishes base0 w0 n s :
  base (slot_env base0 w0) n s -> _state (conn s) = state_t.close_transport ->
  wp False False (steps (tr := ptr) fuel (None : option Ev))
    (fun _ s' => inv (slot_env base0 w0) n s' /\ rank (_state (conn s')) = 0%nat) s.
Proof.
  intros Hb Hst. pose proof fuel_two. apply wp_loop_unfold; [lia|].
  unfold steps_round at 1. apply wp_bind, wp_gets. rewrite Hst. cbv zeta. cbn [step_close_transport ep_shutdown_step Plain.ops].
  apply wp_bind. eapply wp_mono; [by apply (enter_closed_inv (tr := ptr) (slot_env base0 w0) False False n)|].
  cbn beta. intros _ s1 (Hi & Hr & _). apply wp_bind, wp_gets, wp_ret.
  rewrite decide_False by (intros E; by rewrite E in Hr). apply steps_done_; [lia|by apply rank0_done|done].
Qed.

(** A connection is not waiting for its last bytes or the peer's goodbye. *)
Definition prompt (c : Conn) : Prop :=
  _state c <> state_t.drain_protocol /\ _state c <> state_t.close_protocol.

(** Without a shutdown handshake [stop] ends a prompt connection at once. *)
Lemma stop_finishes :
  proto_on_shutdown = None -> finishes prompt (bc_stop (BaseConnection := plain_base)).
Proof.
  intros Hsh base0 c w Hc [Hd Hcp] Ho Hw Hsub Hb. destruct (conn_ok_inv base0 w c w (budget w)) as [[Hbase Hf] Hr]; [done..|].
  assert (Hwp : wp False False (Connection.stop (net := net) (tr := ptr) fuel)
    (fun _ s' => inv (slot_env base0 w) (budget w) s' /\ rank (_state (conn s')) = 0%nat) (mkCst c w)).
  { unfold Connection.stop. apply wp_bind, wp_gets, wp_bind. cbn [conn].
    pose proof (ok_state _ Hc) as Hst. pose proof fuel_two.
    destruct (_state c) eqn:E; try done.
    - eapply wp_mono; [by apply (enter_closed_inv (tr := ptr) (slot_env base0 w) False False (budget w))|].
      cbn beta. intros _ s1 (Hi & Hr1 & _). apply steps_done_; [lia|by apply rank0_done|done].
    - apply wp_modify, close_transport_finishes; [by apply base_put_state|done].
    - unfold enter_close_protocol. rewrite Hsh. apply wp_modify, close_transport_finishes; [by apply base_put_state|done].
    - apply wp_ret, close_transport_finishes; done.
    - apply wp_ret, steps_done_; [lia|cbn; unfold done_; by rewrite E|]. split; [by split|cbn; by rewrite E].
    - apply wp_ret, steps_done_; [lia|cbn; unfold done_; by rewrite E|]. split; [by split|cbn; by rewrite E]. }
  cbn [bc_stop plain_base connection_base]. unfold on_conn, owp. unfold wp in Hwp.
  destruct (Connection.stop fuel (mkCst c w)) as [[[] s']| |]; [|done..]. destruct Hwp as [Hi Hr0].
  destruct (inv_conn_ok _ _ _ _ Hi ltac:(rewrite Hr0; lia)) as (? & ? & ? & ? & ?).
  split; [done|]. by apply rank0_done.
Qed.

Lemma all_done_slots (r : Reactor Conn) :
  all_done r = true <-> Forall (slot_in (fun c => done_ c = true)) (connections r).
Proof.
  unfold all_done. rewrite forallb_forall, Forall_forall. split; intros H o Ho.
  - specialize (H o). rewrite <- list_elem_of_In in H. specialize (H Ho). by destruct o.
  - specialize (H o). rewrite list_elem_of_In in H. specialize (H Ho). by destruct o.
Qed.

(** A reactor whose connections are all done and whose network has stopped. *)
Definition finished (base : gset Z) (s : rstate) : Prop :=
  rinv base s /\ slots_full (connections (reactor s)) /\ stopping (reactor s) = true /\
  all_done (reactor s) = true /\ running (rworld s) = false.

Lemma for_all_finish base f Pre s :
  finishes Pre f -> rinv base s -> Forall (slot_in Pre) (connections (reactor s)) ->
  wp False False (for_all_slots f) (fun _ s' => rinv base s' /\ frame s s' /\ all_done (reactor s') = true) s.
Proof.
  intros Hf Hs Hpre. unfold for_all_slots.
  eapply wp_mono; [apply (on_slots_finish base f Pre [] (connections (reactor s)) s Hf Hs eq_refl Hpre)|].
  cbn beta. intros _ s' (I & F & l2' & Hcs & Hd). split_and!; [done|done|]. apply all_done_slots. by rewrite Hcs.
Qed.

Lemma kill_finishes base k ev s :
  proto_on_shutdown = None -> ready k base s -> Forall (slot_in prompt) (connections (reactor s)) ->
  k ev = true -> stopping (reactor s) = false ->
  wp False False (handle_one ev) (fun _ s' => finished base s') s.
Proof.
  intros Hsh (Hinv & Hfull & Hrun & Hkill) Hpre Hk Hns. pose proof Hinv as [Hok _ _ _ _].
  specialize (Hrun Hns). specialize (Hkill Hrun).
  unfold handle_one. apply wp_bind. unfold wp at 1.
  destruct (loop_kill (N := N) ev (rworld s)) as [Hsig Hstep]; [by rewrite Hkill|done|done|].
  destruct (net_ev_signal ev (rworld s)) as [b w1]. cbn [fst snd] in *. subst b.
  pose proof (rinv_loop_step base s w1 Hinv Hstep) as I1.
  apply wp_bind, wp_bind, wp_gets. cbn [reactor]. rewrite Hns. cbn [negb].
  apply wp_bind, wp_modify. cbn [reactor rworld].
  set (s1 := mkRst (mkReactor (connections (reactor s)) true (counter (reactor s))) w1).
  assert (I1' : rinv base s1) by (destruct I1; by split).
  eapply wp_mono; [apply (for_all_finish base _ prompt s1 (stop_finishes Hsh) I1' Hpre)|].
  cbn beta. intros _ s2 (I2 & (S2 & _ & F2 & _) & D2). cbn in S2.
  apply wp_bind, wp_gets. rewrite S2, D2. cbn [andb].
  eapply wp_mono; [by apply (do_stop_rinv base)|]. cbn beta. intros _ s3 (I3 & R3 & _ & E3).
  split_and!; rewrite ?E3; auto.
Qed.

Lemma handle_all_finished base evs s :
  finished base s -> Forall (user_data_ok N) evs -> wp False False (handle_all evs) (fun _ s' => finished base s') s.
Proof.
  intros Hs Hevs. revert s Hs. induction Hevs as [|ev evs (i & Hi & Hu) Hevs IH]; intros s Hs; [done|].
  pose proof Hs as (Hinv & [Hfull Hlen] & Hst & Hd & Hrun). pose proof Hinv as [Hok _ _ _ _].
  cbn [handle_all]. apply wp_bind. unfold handle_one. apply wp_bind. unfold wp at 1.
  destruct (loop_event (N := N) ev (rworld s)) as [Hsig Hstep]; [by rewrite Hrun|by exists i|done|].
  destruct (net_ev_signal ev (rworld s)) as [b w1]. cbn [fst snd] in *. subst b.
  pose proof (rinv_loop_step base s w1 Hinv Hstep) as I1.
  apply wp_bind. unfold dispatch. apply wp_bind, wp_gets. cbn [reactor]. rewrite Hu, slot_of_addr by (by rewrite Hlen).
  apply wp_bind, wp_gets. cbn [reactor].
  destruct (lookup_lt_is_Some_2 (connections (reactor s)) i) as [o Ho]; [by rewrite Hlen|].
  rewrite Ho. pose proof (Forall_lookup_1 _ _ _ _ Hfull Ho) as [c ->].
  pose proof (proj1 (all_done_slots _) Hd) as Hds. pose proof (Forall_lookup_1 _ _ _ _ Hds Ho) as Hdc. cbn in Hdc.
  cbn [bc_done plain_base connection_base]. rewrite Hdc. cbn [negb].
  apply wp_ret, wp_bind, wp_gets. cbn [reactor]. rewrite Hst, Hd. cbn [andb].
  eapply wp_mono; [by apply (do_stop_rinv base)|]. cbn beta. intros _ s3 (I3 & R3 & _ & E3). cbn [reactor] in E3.
  apply IH. unfold finished. rewrite E3. split_and!; [done|by split|done|done|done].
Qed.

(** Heartbeats leave connections that are done alone. *)
Lemma heartbeat_finishes : finishes (fun c => done_ c = true) (bc_heartbeat (BaseConnection := plain_base)).
Proof.
  intros base0 c w Hc Hd Ho Hw Hsub Hb. cbn [bc_heartbeat plain_base connection_base].
  assert (H : on_conn (Connection.heartbeat (net := net) (tr := ptr) fuel) c w = Ret (c, w)).
  { unfold on_conn, Connection.heartbeat. destruct proto_heartbeat as [h|]; [|done].
    unfold mbind, M_bind, get_state, gets. cbn [conn]. unfold done_ in Hd. by destruct (_state c). }
  rewrite H. cbn. done.
Qed.

Lemma loop_signal base s ev evs :
  proto_on_shutdown = None -> rinv base s -> slots_full (connections (reactor s)) -> running (rworld s) = true ->
  stopping (reactor s) = false -> Forall (slot_in prompt) (connections (reactor s)) ->
  next_events s = ev :: evs -> kill (rworld s) ev = true ->
  Forall (fun ev' => kill (rworld s) ev' = false) evs ->
  wp False False loop_ (fun _ s' => finished base s') s.
Proof.
  intros Hsh Hinv Hfull Hrun Hns Hpre Hev Hk Hord. unfold loop_, next_events in *. apply wp_bind.
  unfold wp at 1. destruct (loop_poll (N := N) (NUM_EVENTS (reactor s)) (rworld s)) as [Hstep Hevs]; [by destruct Hinv|done|].
  destruct (net_poll (NUM_EVENTS (reactor s)) (rworld s)) as [[n evs0] w1]. cbn [fst snd] in *.
  pose proof (rinv_loop_step base s w1 Hinv Hstep) as I1.
  assert (En : (n <? 0) = false).
  { apply Z.ltb_ge. destruct (decide (n < 0)); [|lia]. by replace (Z.to_nat n) with 0%nat in Hev by lia. }
  rewrite En. apply wp_bind, wp_ret, wp_bind. apply (Forall_take _ (Z.to_nat n)) in Hevs. rewrite Hev in *.
  cbn [handle_all]. apply wp_bind. eapply wp_mono; [apply (kill_finishes base (kill (rworld s)) ev); [done| |done|done|]|].
  - destruct Hstep as ((_ & Hr & _ & Hk') & _). split_and!; [done|done| |]; cbn; rewrite Hr; done.
  - done.
  - cbn beta. intros _ s2 F2. eapply wp_mono; [apply (handle_all_finished base evs s2 F2)|].
    + apply Forall_cons_1 in Hevs as [_ Hevs]. clear -Hevs Hord Hk.
      induction Hevs as [|e evs He Hevs IH]; [done|].
      apply Forall_cons_1 in Hord as [E Hord]. destruct He as [?|?]; [congruence|]. constructor; auto.
    + cbn beta. intros _ s3 (I3 & F3 & St3 & D3 & R3). apply wp_bind, wp_modify.
      set (s4 := mkRst (mkReactor (connections (reactor s3)) (stopping (reactor s3)) _) (rworld s3)).
      assert (I4 : rinv base s4) by (destruct I3; by split).
      apply wp_bind, wp_gets, wp_bind, wp_if; intros _; [|apply wp_ret, wp_ret; by split_and!].
      eapply wp_mono; [apply (for_all_finish base _ (fun c => done_ c = true) s4 heartbeat_finishes I4)|].
      * by apply all_done_slots in D3.
      * cbn beta. intros _ s5 (I5 & (S5 & (_ & R5 & _) & F5 & _) & D5). apply wp_ret.
        split_and!; [done|by apply F5|by rewrite S5|done|by rewrite R5].
Qed.

(** *** Starting *)

(** A connection as its constructor leaves it. *)
Record conn_fresh (c : Conn) : Prop := {
  fresh_rx : buffer_wf (_rx c);
  fresh_rx_cap : CAP (_rx c) = RX_CAP;
  fresh_tx : buffer_wf (_tx c);
  fresh_tx_cap : CAP (_tx c) = TX_CAP;
  fresh_cookie : _cookie c = None;
  fresh_fd : _fd c = -1
}.

Lemma Connection_new_fresh host port pc : conn_fresh (Connection_new (TCfg := unit) (E := Plain.Endpoint) host port tt pc).
Proof.
  assert (Hcap : 0 <= RX_CAP < 2 ^ 64 /\ 0 <= TX_CAP < 2 ^ 64) by (vm_compute; repeat split; discriminate).
  destruct (cap_new RX_CAP (proj1 Hcap)) as [Hr HrC]. destruct (cap_new TX_CAP (proj2 Hcap)) as [Ht HtC].
  unfold Connection_new. generalize dependent (Buffer_new RX_CAP). intros brx Hr HrC.
  generalize dependent (Buffer_new TX_CAP). intros btx Ht HtC. by split.
Qed.

Lemma attach_fresh base0 c i w :
  conn_fresh c -> (i < N)%nat -> owns base0 (_fd c) w -> world_ok w -> loop_fds w ⊆ base0 -> (budget w < fuel)%nat ->
  owp False False (bc_attach (addr i) c w) (fun '(c', w') =>
    conn_ok c' /\ owns base0 (_fd c') w' /\ same_loop w w' /\ (budget w' < fuel)%nat).
Proof.
  intros [] Hi Ho Hw Hsub Hb. cbn [bc_attach plain_base connection_base]. unfold on_conn, attach, mbind, M_bind, gets.
  cbn [conn]. rewrite fresh_cookie0. unfold with_conn, modify. cbn [conn world].
  pose proof (enter_uninitialized_inv (tr := ptr) (slot_env base0 w) False False fuel (or_intror Hfuel) (budget w)
    (mkCst (set_cookie (Some (addr i)) c) w)) as He. unfold wp in He.
  assert (Hbase : base (slot_env base0 w) (budget w) (mkCst (set_cookie (Some (addr i)) c) w)).
  { split; cbn; try done. split; [done|by exists i]. }
  specialize (He Hbase fresh_fd0 (or_intror Hb)).
  destruct (enter_uninitialized fuel _) as [[[] s']| |]; [|done..]. destruct He as [Hi' Hr'].
  destruct (inv_conn_ok _ _ _ _ Hi' Hr') as (? & ? & ? & ? & ?). done.
Qed.

Lemma own_fds_none n : own_fds (replicate n None) = [].
Proof. induction n; [done|]. cbn. done. Qed.

Lemma init_from_rinv base bs l1 s :
  Forall conn_fresh bs -> Forall is_Some l1 -> (length l1 + length bs = N)%nat ->
  connections (reactor s) = l1 ++ replicate (length bs) None -> rinv base s ->
  wp False False (init_from (length l1) (inr <$> bs)) (fun e s' => e = None /\ rinv base s' /\
    slots_full (connections (reactor s')) /\ stopping (reactor s') = stopping (reactor s) /\
    same_loop (rworld s) (rworld s')) s.
Proof.
  intros Hbs. revert l1 s. induction Hbs as [|b bs Hb Hbs IH]; intros l1 s Hl1 HN Hcs Hs.
  { cbn [length replicate app] in *. rewrite app_nil_r in Hcs. apply wp_ret. pose proof Hs as [].
    split_and!; try done. rewrite Hcs. split; [done|lia]. }
  cbn [length replicate fmap list_fmap init_from] in *. pose proof Hs as [].
  apply wp_bind. unfold init_connection. apply wp_bind, wp_modify.
  assert (Hins : <[length l1 := Some b]> (connections (reactor s)) = l1 ++ Some b :: replicate (length bs) None).
  { rewrite Hcs, <- (Nat.add_0_r (length l1)). by rewrite insert_app_r. }
  set (s1 := mkRst _ (rworld s)). rewrite Hcs in rinv_slots0, rinv_fds0.
  rewrite own_fds_app in rinv_fds0.
  eapply wp_mono; [eapply (on_slot_step base (bc_attach (addr (length l1))) (fun _ => True) l1 (replicate (length bs) None) b s1)|].
  - exact Hins.
  - by apply Forall_app in rinv_slots0 as [? _].
  - apply Forall_replicate. done.
  - done.
  - done.
  - unfold fd_list. rewrite (fresh_fd b Hb). cbn [app decide]. exact rinv_fds0.
  - intros base0 Ho Hsub. pose proof (attach_fresh base0 b (length l1) (rworld s) Hb) as Ha. unfold owp in *.
    cbn [rworld s1] in Ho, Hsub. destruct (bc_attach _ b (rworld s)) as [[c' w']| |] eqn:E;
      change (rworld s1) with (rworld s); rewrite E; cbn in Ha; [split; [|done]|..]; apply Ha; done || lia.
  - cbn beta. intros _ s2 (I2 & (St2 & Sl2 & _ & _) & c' & Hc' & Hcs2).
    rewrite cons_middle, app_assoc in Hcs2.
    replace (S (length l1)) with (length (l1 ++ [Some c'])) by (rewrite length_app; cbn; lia).
    eapply wp_mono; [apply (IH (l1 ++ [Some c']) s2)|].
    + apply Forall_app. split; [done|]. by repeat constructor.
    + rewrite length_app. cbn. lia.
    + done.
    + done.
    + cbn beta. intros e s3 (-> & I3 & F3 & St3 & Sl3).
      change (stopping (reactor s1)) with (stopping (reactor s)) in St2.
      split_and!; [done|done|done|congruence|]. by eapply same_loop_trans.
Qed.

(** [NetLife]: a successful [init] opens the descriptors of the loop and nothing
    else; [run] calls the loop function while the network runs. *)
Class NetLifeOk {Cfg : Type} {life : NetLife W Cfg} : Prop := {
  life_init : forall cfg w w', net_init cfg w = (None, w') ->
    world_ok w' /\ running w' = true /\ opened w' = opened w ∪ loop_fds w' /\
    opened w ## loop_fds w' /\ (budget w' <= budget w)%nat;
  life_run : forall (n : nat) (body : M rstate Z) s,
    net_run rstate (S n) rworld body s =
      if running (rworld s) then (body ≫= fun _ => net_run rstate n rworld body) s else Ret (tt, s)
}.

Section starting.
Context {Cfg : Type} {life : NetLife W Cfg} {life_ok : NetLifeOk}.

(** [run] up to the first [n] rounds of its loop. *)
Definition launch (n : nat) (config : Cfg) (configs : list Conn) : M rstate (option string) :=
  e ← (fun s => let (e, w) := net_init config (rworld s) in Ret (e, mkRst (reactor s) w));
  match e with
  | Some msg => mret (Some msg)
  | None =>
      e' ← init (inr <$> configs);
      match e' with
      | Some msg => do_stop ≫= fun _ => mret (Some msg)
      | None => serve n ≫= fun _ => mret None
      end
  end.

(** A reactor before [run]. *)
Definition new_reactor (c : Z) : Reactor Conn := mkReactor (replicate N None) false c.

(** The state in which the loop starts. *)
Definition started (config : Cfg) (configs : list Conn) (s s1 : rstate) : Prop :=
  exists w1, net_init config (rworld s) = (None, w1) /\
    init (inr <$> configs) (mkRst (reactor s) w1) = Ret (None, s1).

Lemma launch_rinv n config configs c w :
  Forall conn_fresh configs -> length configs = N -> (budget w < fuel)%nat ->
  (forall s1, started config configs (mkRst (new_reactor c) w) s1 -> orderly_rounds n s1) ->
  wp False False (launch n config configs) (fun e s' =>
    e = None -> rinv (opened w) s' /\ slots_full (connections (reactor s'))) (mkRst (new_reactor c) w).
Proof.
  intros Hc HN Hb Hord. unfold launch. apply wp_bind. unfold wp at 1. cbn [rworld reactor].
  destruct (net_init config w) as [[msg|] w1] eqn:Hinit; [done|].
  destruct (life_init config w w1 Hinit) as (H1 & H2 & H3 & H4 & H5).
  assert (I1 : rinv (opened w) (mkRst (new_reactor c) w1)).
  { split; cbn [reactor rworld connections new_reactor]; try done; [lia|by apply Forall_replicate|].
    rewrite own_fds_none. split_and!; [constructor|set_solver|]. rewrite H3. set_solver. }
  pose proof (init_from_rinv (opened w) configs [] (mkRst (new_reactor c) w1) Hc (Forall_nil_2 _)) as Hi.
  cbn [length app] in Hi. rewrite HN in Hi. specialize (Hi eq_refl eq_refl I1).
  apply wp_bind. unfold wp in Hi |- * at 1. unfold init at 1.
  destruct (init_from 0 (inr <$> configs) _) as [[e s1]| |] eqn:Hr; [|done..].
  destruct Hi as (-> & I2 & F2 & _ & _). apply wp_bind.
  eapply wp_mono; [apply (serve_rinv (opened w) n s1); [done|done|]|].
  - apply Hord. exists w1. split; [done|exact Hr].
  - cbn beta. intros _ s2 ?. by apply wp_ret.
Qed.

(** When the network has stopped after at most [n] rounds, [run] returns. *)
Lemma launch_run n config configs s s' :
  launch n config configs s = Ret (None, s') -> running (rworld s') = false ->
  Reactor.run (S n) config (inr <$> configs) s = Ret (None, s').
Proof.
  assert (Hserve : forall n s s', serve n s = Ret (tt, s') -> running (rworld s') = false ->
    net_run rstate (S n) rworld loop_ s = Ret (tt, s')).
  { clear n s s'. induction n as [|n IH]; intros s s' Hr Hstop.
    - cbn in Hr. injection Hr as ->. by rewrite life_run, Hstop.
    - rewrite life_run. cbn [serve] in Hr. unfold mbind, M_bind, gets in Hr.
      destruct (running (rworld s)); [|by simplify_eq].
      unfold mbind, M_bind. destruct (loop_ s) as [[r s1]| |]; [|done..]. by apply IH. }
  unfold launch, Reactor.run, mbind, M_bind. destruct (net_init config (rworld s)) as [[msg|] w1]; [by intros [=]|].
  destruct (init (inr <$> configs) _) as [[[msg|] s1]| |]; [by intros [=]| |done..].
  intros Hl Hstop. destruct (serve n s1) as [[[] s2]| |] eqn:Hs; [|done..].
  unfold mret, M_ret in *. injection Hl as ->. by rewrite (Hserve n s1 s' Hs Hstop).
Qed.

(** The connection of a configuration: host, port and protocol configuration. *)
Definition build (cfg : list Z * Z * PCfg) : Conn := Connection_new cfg.1.1 cfg.1.2 tt cfg.2.

Lemma all_done_fds (s : rstate) :
  Forall slot_ok (connections (reactor s)) -> all_done (reactor s) = true -> own_fds (connections (reactor s)) = [].
Proof.
  unfold all_done, own_fds. induction 1 as [|[c|] cs Hc Hcs IH]; cbn; [done| |done].
  intros [Hd H]%andb_true_iff. rewrite IH by done. rewrite app_nil_r. destruct Hc as [_ _ _ _ _ Hf _].
  unfold fits in Hf. unfold fd_list. cbn in Hd. unfold done_ in Hd.
  destruct (_state c); cbn in Hd; try done; by rewrite decide_True.
Qed.

(** C4: [Reactor::run] over any network that keeps its contract, with any number of
    plain connections and a protocol whose handlers are always defined: as long
    as each round is orderly (the kill signal is reported at most once in it,
    and only as its first event when the reactor was already stopping), any
    number of rounds return without undefined behaviour, each connection keeps
    its invariant, and the open descriptors are those from before the run, those
    of the event loop and, once each, those of the connections; when the loop
    was stopped [run] returns, and if all connections are done every descriptor
    it ever opened is closed.  A failing [init] of the network is reported. *)
Theorem reactor_run_safe (n : nat) (config : Cfg) (cfgs : list (list Z * Z * PCfg)) (c : Z) (w : W)
    (HN : length cfgs = N) (Hb : (budget w < fuel)%nat)
    (Hord : forall s1, started config (build <$> cfgs) (mkRst (new_reactor c) w) s1 -> orderly_rounds n s1) :
  exists e s', launch n config (build <$> cfgs) (mkRst (new_reactor c) w) = Ret (e, s') /\
  match e with
  | Some msg => net_init config w = (Some msg, rworld s')
  | None =>
      Forall slot_ok (connections (reactor s')) /\
      fd_inv (opened w ∪ loop_fds (rworld s')) (own_fds (connections (reactor s'))) (rworld s') /\
      (running (rworld s') = false ->
       Reactor.run (S n) config (inr <$> (build <$> cfgs)) (mkRst (new_reactor c) w) = Ret (None, s') /\
       (all_done (reactor s') = true -> opened (rworld s') = opened w))
  end.
Proof.
  assert (Hfresh : Forall conn_fresh (build <$> cfgs)).
  { apply Forall_fmap, Forall_forall. intros [[h p] pc] _. apply Connection_new_fresh. }
  pose proof (launch_rinv n config (build <$> cfgs) c w Hfresh) as Hl. rewrite length_fmap in Hl.
  specialize (Hl HN Hb Hord). unfold wp in Hl.
  destruct (launch n config (build <$> cfgs) (mkRst (new_reactor c) w)) as [[[msg|] s']| |] eqn:Hr; [| |done..].
  - exists (Some msg), s'. split; [done|].
    unfold launch, mbind, M_bind in Hr. cbn [rworld reactor] in Hr.
    destruct (net_init config w) as [[msg'|] w1] eqn:Hi; [by unfold mret, M_ret in Hr; simplify_eq|].
    exfalso. destruct (life_init config w w1 Hi) as (H1 & H2 & H3 & H4 & H5).
    pose proof (init_from_rinv (opened w) (build <$> cfgs) [] (mkRst (new_reactor c) w1) Hfresh (Forall_nil_2 _)) as Hin.
    unfold wp in Hin. unfold init in Hr. cbn [length app] in Hin. rewrite length_fmap, HN in Hin.
    destruct (init_from 0 _ _) as [[e s1]| |]; [|done..].
    destruct Hin as (-> & _).
    + done.
    + done.
    + split; cbn [reactor rworld connections new_reactor]; try done; [lia|by apply Forall_replicate|].
      rewrite own_fds_none. split_and!; [constructor|set_solver|]. rewrite H3. set_solver.
    + destruct (serve n s1) as [[[] s2]| |]; done.
  - exists None, s'. split; [done|].
    destruct (Hl eq_refl) as [[] Hfull]. split_and!; [done|done|]. intros Hstop. split; [by apply launch_run|].
    intros Hdone. destruct rinv_fds0 as (_ & _ & Ho). rewrite all_done_fds in Ho by done.
    rewrite (loop_stopped (N := N)) in Ho by done. rewrite Ho. set_solver.
Qed.

(** C5: the kill signal ends a run of connections whose protocol has no shutdown
    handler: when a round of a running reactor that is not stopping reports the
    kill signal as its first event and its only kill event, and no connection is
    still flushing or closing its protocol, then every connection is stopped,
    the event loop is left at the end of that round, [run] returns, and the open
    descriptors are those from before the run. *)
Theorem reactor_signal_ends_run (base : gset Z) (s : rstate) (ev : Ev) (evs : list Ev) (n : nat)
    (Hsh : proto_on_shutdown = None)
    (Hinv : rinv base s) (Hfull : slots_full (connections (reactor s)))
    (Hrun : running (rworld s) = true) (Hns : stopping (reactor s) = false)
    (Hpre : Forall (slot_in prompt) (connections (reactor s)))
    (Hev : next_events s = ev :: evs) (Hk : kill (rworld s) ev = true)
    (Hord : Forall (fun ev' => kill (rworld s) ev' = false) evs) :
  exists s', net_run rstate (S (S n)) rworld loop_ s = Ret (tt, s') /\
    all_done (reactor s') = true /\ opened (rworld s') = base.
Proof.
  pose proof (loop_signal base s ev evs Hsh Hinv Hfull Hrun Hns Hpre Hev Hk Hord) as Hl.
  unfold wp in Hl. rewrite life_run, Hrun. unfold mbind, M_bind.
  destruct (loop_ s) as [[r s1]| |]; [|done..]. destruct Hl as ([] & F1 & St1 & D1 & R1).
  exists s1. rewrite life_run, R1. split_and!; [done|done|].
  destruct rinv_fds0 as (_ & _ & Ho). rewrite all_done_fds in Ho by done.
  rewrite (loop_stopped (N := N)) in Ho by done. rewrite Ho. set_solver.
Qed.
End starting.
End reactor_inv.
