(* ===== verification/EpollReactor.v ===== *)
(** * The reactor over epoll

    The epoll backend keeps what ReactorRun.v relies on in the event loop of a
    network, so its theorems hold of [Reactor<Epoll, Connection<Epoll, Plain, P>...>]
    over any kernel with the documented behaviour of the socket and epoll calls. *)

From S2P Require Import Prelude Status Buffer Net Sockets Transport Connection PlainConnection Epoll Reactor ReactorRun.

Lemma epollin_testbit x : negb (Z.land x EPOLLIN =? 0) = Z.testbit x 0.
Proof.
  change EPOLLIN with (Z.ones 1). rewrite Z.land_ones by lia. rewrite Z.bit0_odd, Zodd_mod.
  change (2 ^ 1) with 2. pose proof (Z.mod_pos_bound x 2).
  destruct (decide (x mod 2 = 0)) as [->|]; [done|]. by replace (x mod 2) with 1 by lia.
Qed.

(** Stopping closes the signal descriptor, then the epoll instance. *)
Lemma epoll_stop_eq {K : Type} {posix : Posix K} ep sg alive (k : K) :
  0 <= ep -> 0 <= sg ->
  net_stop (mkSt (Epoll.mkStatics ep sg alive) k) = mkSt Epoll.statics0 (sk_close ep (sk_close sg k).2).2.
Proof.
  intros Hep Hsg. cbn [net_stop Epoll.loop].
  unfold exec, Epoll.stop, mbind, M_bind, set_stat, modify, Epoll.signal_fd, Epoll.event_fd, gets.
  cbn [stat kern Epoll._event_fd Epoll._signal_fd Epoll._alive].
  rewrite (proj2 (Z.eqb_neq sg (-1))) by lia. cbn [negb].
  unfold sys_, sys, on_kern, mbind, M_bind. cbn [stat kern Epoll._event_fd Epoll._signal_fd Epoll._alive].
  destruct (sk_close sg k) as [r1 k1]. unfold mret, M_ret.
  cbn [stat kern Epoll._event_fd Epoll._signal_fd Epoll._alive].
  rewrite (proj2 (Z.eqb_neq ep (-1))) by lia. cbn [negb stat kern fst snd]. by destruct (sk_close ep k1).
Qed.

(** A stopped backend has nothing left to close. *)
Lemma epoll_stop_again {K : Type} {posix : Posix K} alive (k : K) :
  net_stop (mkSt (Epoll.mkStatics (-1) (-1) alive) k) = mkSt Epoll.statics0 k.
Proof. reflexivity. Qed.

Section epoll_loop.
Context {K : Type} {posix : Posix K} {sk_ok : SocketsOk K} {epoll_ok : EpollOk K}.
Context {layout : Layout} (N : nat) (Haddr : forall i, (i < N)%nat -> s32 (addr i) <> -1).
Implicit Types (s : Epoll.st K) (k : K).

(** Only the signal descriptor and connections are registered. *)
Definition registrations_ok (ep sg : Z) k : Prop :=
  forall fd ee, interest k ep !! fd = Some ee ->
    (fd = sg /\ ee_data ee = u32 sg /\ Z.testbit (ee_events ee) 0 = true) \/
    exists i, (i < N)%nat /\ ee_data ee = addr i.

Definition epoll_world_ok s : Prop :=
  let ep := Epoll._event_fd (stat s) in
  let sg := Epoll._signal_fd (stat s) in
  if Epoll._alive (stat s) then
    0 <= ep /\ 0 <= sg < 2 ^ 31 /\ ep ∈ fds (kern s) /\ sg ∈ fds (kern s) /\ sg ∈ eventfds (kern s) /\
    registrations_ok ep sg (kern s)
  else ep = -1 /\ sg = -1.

#[export] Instance epoll_loop_view : LoopView (Epoll.st K) epoll_event := {
  running := fun s => Epoll._alive (stat s);
  loop_fds := fun s => list_to_set (fd_list (Epoll._event_fd (stat s)) ++ fd_list (Epoll._signal_fd (stat s)));
  world_ok := epoll_world_ok;
  kill := fun s ev => (Epoll.data_fd ev =? Epoll._signal_fd (stat s)) && negb (Z.land (ee_events ev) EPOLLIN =? 0)
}.

(** A step of the kernel that keeps the loop's descriptors and adds only
    registrations of connections. *)
Definition quiet_step (ep : Z) (D : Z -> Prop) k k' : Prop :=
  (forall fd, D fd -> fd ∈ fds k -> fd ∈ fds k' /\ (fd ∈ eventfds k -> fd ∈ eventfds k')) /\
  (forall fd ee, interest k' ep !! fd = Some ee ->
    interest k ep !! fd = Some ee \/ exists i, (i < N)%nat /\ ee_data ee = addr i).

Lemma evolves_quiet ep (D : Z -> Prop) k k' :
  evolves k k' -> (forall fd, D fd -> fd ∈ fds k -> fd ∈ fds k') -> quiet_step ep D k k'.
Proof. intros [H1 H2] Hd. split; [intros fd ? ?; split; auto|]. intros fd ee H. left. by eapply H1. Qed.

#[local] Instance quiet_preorder ep D : PreOrder (quiet_step ep D).
Proof.
  split; [intros k; split; auto|]. intros k1 k2 k3 [A1 A2] [B1 B2]. split.
  - intros fd HD Hin. destruct (A1 fd HD Hin) as [Hin2 He2]. destruct (B1 fd HD Hin2) as [Hin3 He3]. auto.
  - intros fd ee H. destruct (B2 fd ee H) as [?|?]; [by apply A2|by right].
Qed.

Lemma quiet_same_loop s0 s s' :
  stat s' = stat s -> quiet_step (Epoll._event_fd (stat s)) (fun fd => fd ∈ loop_fds s0) (kern s) (kern s') ->
  same_loop s0 s -> same_loop s0 s'.
Proof.
  intros Hst (Hfd & Hreg) (Hok & Hrun & Hlf & Hk).
  split_and!; cbn in *; rewrite ?Hst; try done.
  unfold epoll_world_ok in *. rewrite Hst. destruct (Epoll._alive (stat s)); [|done].
  destruct Hok as (H1 & H2 & H3 & H4 & H5 & H6).
  assert (Hin : Epoll._event_fd (stat s) ∈ loop_fds s0 /\ Epoll._signal_fd (stat s) ∈ loop_fds s0).
  { cbn. rewrite <- Hlf. unfold fd_list. rewrite !decide_False by lia. set_solver. }
  destruct Hin as [Hin1 Hin2]. destruct (Hfd _ Hin1 H3), (Hfd _ Hin2 H4). split_and!; try done; try lia; auto.
  intros fd ee He. destruct (Hreg fd ee He) as [?|?]; [by apply H6|by right].
Qed.

(** A kernel call that neither opens nor closes. *)
Lemma neutral_quiet ep D k k' : evolves k k' -> fd_neutral k k' -> quiet_step ep D k k'.
Proof. intros He [Hf _]. apply evolves_quiet; [done|]. intros fd _. by rewrite Hf. Qed.

Lemma on_kern_same_loop {A} (f : K -> A * K) s0 s :
  (forall k, quiet_step (Epoll._event_fd (stat s)) (fun fd => fd ∈ loop_fds s0) k (f k).2) ->
  same_loop s0 s -> same_loop s0 (on_kern f s).2.
Proof. intros Hf. apply quiet_same_loop; [apply on_kern_stat|]. rewrite on_kern_kern. apply Hf. Qed.

(** Registering a connection, or removing a registration, is a quiet step. *)
Lemma subscribe_same_loop s0 i fd r b s :
  (i < N)%nat -> same_loop s0 s -> same_loop s0 (exec tt (Epoll.subscribe (addr i) fd r b) s).2.
Proof.
  intros Hi Hs. set (Q := quiet_step (Epoll._event_fd (stat s)) (fun fd => fd ∈ loop_fds s0)).
  destruct (exec_subscribe Q (addr i) fd r b s) as [Hst Hq].
  - apply quiet_preorder.
  - intros ep op ee k Hee. split.
    + intros fd' _. rewrite (proj1 (ctl_neutral ep op fd ee k)), ctl_eventfds. done.
    + intros fd' e' [?|[_ ->]]%ctl_registers; [by left|]. right. exists i. split; [done|]. by apply Hee.
  - eapply quiet_same_loop; [exact Hst|exact Hq|exact Hs].
Qed.

Lemma clear_same_loop s0 fd s : same_loop s0 s -> same_loop s0 (exec tt (Epoll.clear fd) s).2.
Proof.
  intros Hs. set (Q := quiet_step (Epoll._event_fd (stat s)) (fun fd => fd ∈ loop_fds s0)).
  destruct (exec_clear Q fd s) as [Hst Hq].
  - apply quiet_preorder.
  - intros ep op k. split.
    + intros fd' _. rewrite (proj1 (ctl_neutral ep op fd None k)), ctl_eventfds. done.
    + intros fd' e' [?|[_ ?]]%ctl_registers; [by left|done].
  - eapply quiet_same_loop; [exact Hst|exact Hq|exact Hs].
Qed.

Lemma epoll_keeps s0 : NetKeeps (same_loop s0) (cookie_ok N) (fun fd => fd ∉ loop_fds s0).
Proof.
  split.
  - intros d t p s. apply on_kern_same_loop. intros k. apply evolves_quiet; [apply socket_evolves|].
    intros fd _ Hin. pose proof (sk_socket_fds d (Z.lor t SOCK_NONBLOCK) p k) as H.
    destruct (sk_socket _ _ _ k) as [fd' k']. cbn. destruct (fd' <? 0); [by rewrite H|]. destruct H as [_ ->]. set_solver.
  - intros d t p s (Hok & Hrun & Hlf & _). cbn. unfold Epoll.socket, on_kern.
    pose proof (sk_socket_fds d (Z.lor t SOCK_NONBLOCK) p (kern s)) as H.
    destruct (sk_socket _ _ _ (kern s)) as [fd' k']. cbn [fst]. intros Hpos.
    rewrite (proj2 (Z.ltb_ge _ _)) in H by done. destruct H as [Hni _].
    cbn in Hlf, Hrun, Hok. cbn. rewrite <- Hlf. unfold epoll_world_ok in Hok.
    destruct (Epoll._alive (stat s)).
    + destruct Hok as (H1 & H2 & H3 & H4 & _). unfold fd_list. rewrite !decide_False by lia. set_solver.
    + destruct Hok as [-> ->]. done.
  - intros fd s. apply on_kern_same_loop. intros k. apply neutral_quiet; [apply ioctl_evolves|].
    split; [apply sk_ioctl_fds|apply sk_ioctl_quota].
  - intros fd a s. apply on_kern_same_loop. intros k. apply neutral_quiet; [apply connect_evolves|].
    split; [apply sk_connect_fds|apply sk_connect_quota].
  - intros fd s Hfd. apply on_kern_same_loop. intros k. apply evolves_quiet; [apply close_evolves|].
    intros fd' Hin Hk. rewrite sk_close_fds. apply elem_of_difference. split; [done|]. set_solver.
  - intros fd s. apply on_kern_same_loop. intros k. apply neutral_quiet; [apply getsockopt_evolves|].
    split; [apply sk_getsockopt_fds|apply sk_getsockopt_quota].
  - intros c fd r b s (i & Hi & ->). by apply subscribe_same_loop.
  - intros fd s. apply clear_same_loop.
  - intros fd n s. apply on_kern_same_loop. intros k. apply evolves_quiet; [apply read_evolves|].
    intros fd' _. by rewrite sk_read_fds.
  - intros fd l s. apply on_kern_same_loop. intros k. apply evolves_quiet; [apply write_evolves|].
    intros fd' _. by rewrite sk_write_fds.
  - intros h p s. apply on_kern_same_loop. intros k. apply neutral_quiet; [apply getaddrinfo_evolves|].
    split; [apply sk_getaddrinfo_fds|apply sk_getaddrinfo_quota].
Qed.

Lemma same_loop_refl s : world_ok s -> same_loop s s.
Proof. done. Qed.

Lemma exec_poll len s : exists k' r,
  net_poll len s = (r, mkSt (stat s) k') /\ fd_neutral (kern s) k' /\ evolves (kern s) k' /\
  Forall (fun ev => exists fd ee, interest (kern s) (Epoll._event_fd (stat s)) !! fd = Some ee /\ ee_data ev = ee_data ee /\
    (fd ∈ eventfds (kern s) -> Z.testbit (ee_events ee) 0 = true -> Z.testbit (ee_events ev) 0 = true)) r.2.
Proof.
  cbn [net_poll Epoll.loop]. unfold exec, Epoll.poll, mbind, M_bind, Epoll.event_fd, gets, sys, on_kern.
  set (n := if len <? INT_MAX then len else INT_MAX). set (ep := Epoll._event_fd (stat s)).
  pose proof (wait_neutral ep n poll_frequency_ms (kern s)) as H1.
  pose proof (wait_evolves ep n poll_frequency_ms (kern s)) as H2.
  pose proof (wait_events ep n poll_frequency_ms (kern s)) as H3.
  destruct (sys_epoll_wait ep n poll_frequency_ms (kern s)) as [r k']. by exists k', r.
Qed.

Lemma epoll_poll_ok n s :
  world_ok s -> running s = true ->
  loop_step s (net_poll n s).2 /\ Forall (fun ev => kill s ev = true \/ user_data_ok N ev) (net_poll n s).1.2.
Proof.
  intros Hok Hrun. destruct (exec_poll n s) as (k' & r & -> & Hne & Hev & Hevs). cbn [fst snd]. split.
  - split; [|exact Hne]. apply (quiet_same_loop s s); [done|by apply neutral_quiet|done].
  - eapply Forall_impl; [exact Hevs|]. cbn beta. intros ev (fd & ee & Hreg & Hdata & Hbit).
    cbn in Hok, Hrun. unfold epoll_world_ok in Hok. rewrite Hrun in Hok.
    destruct Hok as (_ & H2 & _ & _ & H5 & H6). destruct (H6 fd ee Hreg) as [(-> & Hd & Hb)|(i & Hi & Hd)].
    + left. cbn [kill epoll_loop_view]. rewrite epollin_testbit, (Hbit H5 Hb). unfold Epoll.data_fd.
      by rewrite Hdata, Hd, s32_u32, Z.eqb_refl.
    + right. exists i. split; [done|]. change (ee_data ev = addr i). congruence.
Qed.

Lemma epoll_signal_ok ev s :
  kill s ev = true -> world_ok s ->
  (net_ev_signal ev s).1 = true /\ loop_step s (net_ev_signal ev s).2.
Proof.
  intros Hk Hok. cbn [kill epoll_loop_view] in Hk. cbn [net_ev_signal Epoll.loop].
  unfold exec, Epoll.ev_signal, mbind, M_bind, Epoll.signal_fd, gets. rewrite Hk.
  unfold sys_, sys, on_kern, mbind, M_bind.
  pose proof (sk_read_fds (Epoll._signal_fd (stat s)) 8 (kern s)) as H1.
  pose proof (sk_read_quota (Epoll._signal_fd (stat s)) 8 (kern s) ltac:(lia)) as H2.
  pose proof (read_evolves (Epoll._signal_fd (stat s)) 8 (kern s)) as H3.
  destruct (sk_read _ 8 (kern s)) as [[len data] k']. cbn [fst snd] in *. split; [done|].
  destruct H2 as (_ & H2 & _). split; [|by split].
  apply (quiet_same_loop s s); [done|by apply neutral_quiet|done].
Qed.

Lemma epoll_other_ok ev s :
  (running s = true -> kill s ev = false) -> user_data_ok N ev -> world_ok s ->
  (net_ev_signal ev s).1 = false /\ loop_step s (net_ev_signal ev s).2.
Proof.
  intros Hk (i & Hi & Hu) Hok. cbn [net_ev_signal Epoll.loop].
  assert (Hc : (Epoll.data_fd ev =? Epoll._signal_fd (stat s)) && negb (Z.land (ee_events ev) EPOLLIN =? 0) = false).
  { cbn in Hk, Hok. unfold epoll_world_ok in Hok. destruct (Epoll._alive (stat s)); [by apply Hk|].
    destruct Hok as [_ ->]. apply andb_false_iff. left. apply Z.eqb_neq. unfold Epoll.data_fd.
    cbn in Hu. unfold Epoll.get_user_data in Hu. rewrite Hu. by apply Haddr. }
  unfold exec, Epoll.ev_signal, mbind, M_bind, Epoll.signal_fd, gets. rewrite Hc. cbn. by split.
Qed.

Lemma epoll_stop_ok s :
  world_ok s ->
  world_ok (net_stop s) /\ running (net_stop s) = false /\ loop_fds (net_stop s) = ∅ /\
  opened (net_stop s) = opened s ∖ loop_fds s /\ (budget (net_stop s) <= budget s)%nat.
Proof.
  intros Hok. destruct s as [[ep sg alive] k]. cbn in Hok. unfold epoll_world_ok in Hok.
  cbn [stat kern Epoll._event_fd Epoll._signal_fd Epoll._alive] in Hok.
  destruct alive.
  - destruct Hok as (H1 & H2 & _). rewrite epoll_stop_eq by lia. cbn.
    pose proof (sk_close_fds sg k). pose proof (sk_close_quota sg k).
    pose proof (sk_close_fds ep (sk_close sg k).2) as F2. pose proof (sk_close_quota ep (sk_close sg k).2).
    split_and!; [done..| |lia]. unfold fd_list. rewrite !decide_False by lia. rewrite F2. set_solver.
  - destruct Hok as [-> ->]. rewrite epoll_stop_again. cbn. split_and!; [done..| |lia]. set_solver.
Qed.

#[export] Instance epoll_loop_ok : NetLoopOk N.
Proof.
  split.
  - apply epoll_keeps.
  - apply epoll_poll_ok.
  - intros ev s Hk Hok _. by apply epoll_signal_ok.
  - apply epoll_other_ok.
  - apply epoll_stop_ok.
  - intros s Hok Hrun. cbn in *. unfold epoll_world_ok in Hok. rewrite Hrun in Hok. destruct Hok as [-> ->]. done.
Qed.
End epoll_loop.

Section epoll_life.
Context {K : Type} {posix : Posix K} {sk_ok : SocketsOk K} {epoll_ok : EpollOk K}.
Context {layout : Layout} (N : nat) {P PCfg : Type}.
#[local] Existing Instance epoll_loop_view.

(** A successful [init]. *)
Lemma epoll_init_ok (s s' : Epoll.st K) :
  net_init tt s = (None, s') ->
  epoll_world_ok N s' /\ Epoll._alive (stat s') = true /\
  fds (kern s') = fds (kern s) ∪ loop_fds (LoopView := epoll_loop_view N) s' /\
  fds (kern s) ## loop_fds (LoopView := epoll_loop_view N) s' /\ (quota (kern s') <= quota (kern s))%nat.
Proof.
  cbn [net_init Epoll.life]. unfold exec, Epoll.init, mbind, M_bind, sys, on_kern, set_stat, modify, mret, M_ret.
  pose proof (create1_fresh (kern s)) as H1. destruct (sys_epoll_create1 (kern s)) as [ep k1].
  cbn [stat kern Epoll._event_fd Epoll._signal_fd Epoll._alive]. destruct (ep <? 0) eqn:E1; [done|].
  cbn [stat kern Epoll._event_fd Epoll._signal_fd Epoll._alive]. destruct H1 as (Q1 & N1 & F1 & I1).
  pose proof (eventfd_fresh k1) as H2. destruct (sys_eventfd k1) as [sg k2].
  cbn [stat kern Epoll._event_fd Epoll._signal_fd Epoll._alive]. destruct (sg <? 0) eqn:E2; [done|].
  cbn [stat kern Epoll._event_fd Epoll._signal_fd Epoll._alive]. destruct H2 as (Q2 & I2 & L2 & N2 & F2 & V2).
  pose proof (ctl_neutral ep EPOLL_CTL_ADD sg (Some (mkEE EPOLLIN (u32 sg))) k2) as [F3 Q3].
  pose proof (ctl_registers ep EPOLL_CTL_ADD sg (Some (mkEE EPOLLIN (u32 sg))) k2 ep) as I3.
  pose proof (ctl_eventfds ep EPOLL_CTL_ADD sg (Some (mkEE EPOLLIN (u32 sg))) k2) as V3.
  destruct (sys_epoll_ctl ep EPOLL_CTL_ADD sg (Some (mkEE EPOLLIN (u32 sg))) k2) as [r k3]. cbn [fst snd stat kern] in *.
  destruct (r <? 0); [done|]. intros [= <-]. bool_to_prop.
  cbn [stat kern Epoll._event_fd Epoll._signal_fd Epoll._alive loop_fds epoll_loop_view].
  unfold epoll_world_ok. cbn [stat kern Epoll._event_fd Epoll._signal_fd Epoll._alive].
  unfold fd_list. rewrite !decide_False by lia. cbn [app list_to_set].
  assert (Hf : fds k3 = fds (kern s) ∪ {[ ep ]} ∪ {[ sg ]}) by (by rewrite F3, F2, F1).
  assert (Hsg : sg ∉ fds (kern s)) by (clear -N2 F1; rewrite F1 in N2; set_solver).
  rewrite Hf, V3. clear F1 F2 F3. split_and!; try lia; try done.
  - clear. set_solver.
  - clear. set_solver.
  - intros fd ee [Hold|[-> [= <-]]]%I3; [|by left]. by rewrite I2, I1 in Hold.
  - clear. set_solver.
  - clear -N1 Hsg. set_solver.
Qed.

#[export] Instance epoll_life_ok : NetLifeOk (P := P) (PCfg := PCfg) (view := epoll_loop_view N).
Proof.
  split.
  - intros [] w w' H. by apply epoll_init_ok.
  - intros n body s. cbn [net_run Epoll.life Epoll.run]. unfold mbind at 1, M_bind at 1, gets. cbn [running epoll_loop_view].
    by destruct (Epoll._alive (stat (rworld s))).
Qed.
End epoll_life.

(** ** A second kill signal

    [Net::stop] forgets the signal descriptor while the events of the round are
    still being handled. *)
Section late_signal.
Context {K : Type} {posix : Posix K} {B : Type} {bc : BaseConnection B (Epoll.st K) epoll_event} {layout : Layout}.

Lemma slot_of_none ptr n : (forall i, addr i <> ptr) -> slot_of ptr n = None.
Proof.
  intros H. unfold slot_of. rewrite (proj2 (list_find_None _ _)); [done|]. apply Forall_forall. intros i _. apply H.
Qed.

(** C36: when a stopping reactor finishes its last connection and the kill signal is
    reported again later in the same round, the event is no longer recognised:
    its user data, the signal descriptor, is taken for a connection. *)
Theorem late_signal_undefined (pre post : list (option B)) (b b1 : B) (c ep sg : Z) (k k1 : K)
    (e1 : epoll_event)
    (Hsg : 0 <= sg < 2 ^ 31) (Hep : 0 <= ep)
    (Hu : Epoll.get_user_data e1 = addr (length pre)) (Hsig : s32 (addr (length pre)) <> sg)
    (Hnd : bc_done b = false) (Hd : bc_done b1 = true) (Hall : slots_done (pre ++ post) = true)
    (Hev : bc_handle_event e1 b (mkSt (Epoll.mkStatics ep sg true) k) =
           Ret (b1, mkSt (Epoll.mkStatics ep sg true) k1))
    (Hlay : forall i, addr i <> u32 sg) :
  handle_all [e1; mkEE EPOLLIN (u32 sg)]
    (mkRst (mkReactor (pre ++ Some b :: post) true c) (mkSt (Epoll.mkStatics ep sg true) k)) = UB.
Proof.
  assert (H1 : net_ev_signal e1 (mkSt (Epoll.mkStatics ep sg true) k) = (false, mkSt (Epoll.mkStatics ep sg true) k)).
  { cbn [net_ev_signal Epoll.loop]. unfold exec, Epoll.ev_signal, mbind, M_bind, Epoll.signal_fd, gets.
    cbn [stat Epoll._signal_fd]. unfold Epoll.data_fd. unfold Epoll.get_user_data in Hu. rewrite Hu.
    by rewrite (proj2 (Z.eqb_neq _ _)) by done. }
  pose proof (handle_one_dispatch e1 pre post b b1 b1 true c _ _ _ _ Hu H1 Hev (conj eq_refl eq_refl)) as H2.
  cbv zeta in H2. rewrite Hnd in H2. assert (Hds : slots_done (pre ++ Some b1 :: post) = true).
  { unfold slots_done in *. rewrite forallb_app in *. apply andb_true_iff in Hall as [H3 H4]. cbn. by rewrite H3, H4, Hd. }
  rewrite Hds in H2. cbn [andb] in H2. cbn [handle_all]. unfold mbind, M_bind. rewrite H2.
  rewrite epoll_stop_eq by lia. generalize (sk_close ep (sk_close sg k1).2).2. intros k2.
  unfold handle_one, mbind, M_bind. cbn [rworld reactor net_ev_signal Epoll.loop].
  assert (H3 : exec false (Epoll.ev_signal (mkEE EPOLLIN (u32 sg))) (mkSt Epoll.statics0 k2) = (false, mkSt Epoll.statics0 k2)).
  { unfold exec, Epoll.ev_signal, mbind, M_bind, Epoll.signal_fd, gets. cbn [stat Epoll._signal_fd Epoll.statics0].
    unfold Epoll.data_fd. cbn [ee_data]. rewrite s32_u32 by done. by rewrite (proj2 (Z.eqb_neq sg (-1))) by lia. }
  rewrite H3. unfold dispatch, mbind, M_bind, gets. cbn [reactor connections net_get_user_data Epoll.loop].
  change (Epoll.get_user_data (mkEE EPOLLIN (u32 sg))) with (u32 sg). by rewrite slot_of_none.
Qed.
End late_signal.

(** ** Witnesses: one plain echo connection over the small kernel

    Descriptor 3 is the epoll instance, 4 the event descriptor, 5 the socket. *)

Definition sample_kernel : toy_kernel :=
  mkKern (mkToy ∅ 3 true [] [] 0) ∅ ∅ [[mkEE EPOLLIN 4]].
#[local] Instance sample_view : LoopView (Epoll.st toy_kernel) epoll_event := epoll_loop_view 1.
#[local] Instance sample_base : BaseConnection (Connection Plain.Endpoint unit unit unit) (Epoll.st toy_kernel) epoll_event :=
  plain_base (net := Epoll.net) (pr := echo) big_fuel.
Lemma toy_addr i : (i < 1)%nat -> s32 (addr i) <> -1.
Proof. intros H. replace i with 0%nat by lia. vm_compute. discriminate. Qed.
#[local] Instance sample_loop_ok : NetLoopOk 1 := epoll_loop_ok 1 toy_addr.
Definition sample_world : Epoll.st toy_kernel := (mkSt Epoll.statics0 sample_kernel).
Abbreviation echo_epoll := (@echo (Epoll.st toy_kernel)).


Lemma big_fuel_caps : RX_CAP < Z.of_nat big_fuel /\ TX_CAP < Z.of_nat big_fuel.
Proof. rewrite big_fuel_of. split; vm_compute; reflexivity. Qed.

Lemma sample_budget : (budget sample_world < big_fuel)%nat.
Proof. apply Nat2Z.inj_lt. rewrite big_fuel_of. vm_compute. reflexivity. Qed.

Lemma sample_orderly s1 :
  started (net := Epoll.net) (pr := echo_epoll) big_fuel tt (build (pr := echo_epoll) <$> [(str "host", 80, tt)])
    (mkRst (new_reactor 1 0) sample_world) s1 ->
  orderly_rounds (net := Epoll.net) (pr := echo_epoll) big_fuel 1 s1.
Proof.
  unfold started, build, Connection_new. generalize (Buffer_new RX_CAP) (Buffer_new TX_CAP) big_fuel.
  intros brx btx fuel (w1 & H1 & H2). vm_compute in H1. injection H1 as <-.
vm_compute in H2. injection H2 as <-.
  intros _. split; [|done]. vm_compute. lia.
Qed.

Lemma reactor_run_safe_witness :
  exists e s', launch (net := Epoll.net) (pr := echo_epoll) big_fuel 1 tt (build (pr := echo_epoll) <$> [(str "host", 80, tt)])
    (mkRst (new_reactor 1 0) sample_world) = Ret (e, s') /\
  match e with
  | Some msg => net_init tt sample_world = (Some msg, rworld s')
  | None => running (rworld s') = false -> all_done (reactor s') = true -> opened (rworld s') = opened sample_world
  end.
Proof.
  destruct (reactor_run_safe (net := Epoll.net) (pr := echo_epoll) big_fuel 1 big_fuel_caps 1 tt
    [(str "host", 80, tt)] 0 sample_world eq_refl sample_budget sample_orderly) as (e & s' & Hr & H).
  exists e, s'. split; [exact Hr|]. destruct e as [msg|]; [exact H|].
  intros Hs Hd. exact (proj2 (proj2 (proj2 H) Hs) Hd).
Defined.

(** A connection with an open transport, and the kill signal pending. *)
Definition sample_serving : rst (Connection Plain.Endpoint unit unit unit) (Epoll.st toy_kernel) :=
  mkRst (mkReactor [Some (mkConn (Buffer_new RX_CAP) (Buffer_new TX_CAP) (Some (Plain.mkEndpoint 5)) tt tt tt
      (str "host") (Some 4096) 5 state_t.protocol 80)] false 0)
    (mkSt (Epoll.mkStatics 3 4 true)
      (mkKern (mkToy {[ 3; 4; 5 ]} 6 true [] [] 0)
        (<[4 := mkEE EPOLLIN 4]> (<[5 := mkEE EPOLLIN 4096]> ∅)) {[ 4 ]} [[mkEE EPOLLIN 4]])).

Lemma sample_serving_inv : rinv (net := Epoll.net) big_fuel 1 ∅ sample_serving.
Proof.
  split.
  - cbn. unfold epoll_world_ok. cbn. split_and!; try lia; try set_solver.
    intros fd ee H. cbn in H. revert H. intros [[<- <-]|[_ [[<- <-]|[_ ?]]%lookup_insert_Some]]%lookup_insert_Some; [by left| |done].
    right. exists 0%nat. split; [lia|reflexivity].
  - exact sample_budget.
  - destruct (Connection_new_fresh (pr := echo_epoll) (str "host") 80 tt) as [H1 H2 H3 H4 _ _].
    cbn [Connection_new _rx _tx] in *. unfold sample_serving. cbn [reactor connections].
    generalize dependent (Buffer_new RX_CAP). intros brx H1 H2.
    generalize dependent (Buffer_new TX_CAP). intros btx H3 H4.
    constructor; [|done]. split; try done. exists 0%nat. split; [lia|reflexivity].
  - cbn -[Buffer_new]. split_and!; [by apply NoDup_singleton|set_solver|]. cbn. set_solver.
  - set_solver.
Qed.

Lemma reactor_signal_ends_run_witness :
  exists s', net_run _ 2 rworld (loop_ (bc := plain_base (net := Epoll.net) (pr := echo_epoll) big_fuel)) sample_serving = Ret (tt, s') /\
    all_done (bc := plain_base (net := Epoll.net) (pr := echo_epoll) big_fuel) (reactor s') = true /\
    opened (rworld s') = (∅ : gset Z).
Proof.
  refine (reactor_signal_ends_run (net := Epoll.net) (pr := echo_epoll) big_fuel 1 big_fuel_caps ∅ sample_serving
    (mkEE EPOLLIN 4) [] 0 _ _ _ _ _ _ _ _ _).
  - reflexivity.
  - exact sample_serving_inv.
  - split; [|reflexivity]. repeat constructor. by eexists.
  - reflexivity.
  - reflexivity.
  - constructor; [|constructor]. split; discriminate.
  - reflexivity.
  - reflexivity.
  - constructor.
Defined.

#[local] Instance late_base : BaseConnection (Connection Plain.Endpoint unit unit unit) (Epoll.st toy_kernel) epoll_event :=
  connection_base (net := Epoll.net) (tr := Plain.ops 5) (pr := echo_epoll) 5.

Definition late_world (ins : list (list Z)) (open_ : gset Z) (reg : gmap Z epoll_event) : toy_kernel :=
  mkKern (mkToy open_ 6 false ins [] 0) reg {[ 4 ]} [].

(** The peer hangs up on the last connection of a stopping reactor, then the kill
    signal comes again. *)
Lemma late_signal_undefined_witness :
  handle_all [mkEE EPOLLIN 4096; mkEE EPOLLIN 4]
    (mkRst (mkReactor [Some (small_conn 5 state_t.protocol)] true 0)
      (mkSt (Epoll.mkStatics 3 4 true) (late_world [[]] {[ 3; 4; 5 ]} (<[4 := mkEE EPOLLIN 4]> {[ 5 := mkEE EPOLLIN 4096 ]})))) = UB.
Proof.
  refine (late_signal_undefined [] [] (small_conn 5 state_t.protocol) (small_conn (-1) state_t.closed) 0 3 4
    (late_world [[]] {[ 3; 4; 5 ]} (<[4 := mkEE EPOLLIN 4]> {[ 5 := mkEE EPOLLIN 4096 ]}))
    (late_world [] {[ 3; 4 ]} {[ 4 := mkEE EPOLLIN 4 ]}) (mkEE EPOLLIN 4096) _ _ _ _ _ _ _ _ _).
  - lia.
  - lia.
  - reflexivity.
  - vm_compute. discriminate.
  - reflexivity.
  - reflexivity.
  - reflexivity.
  - vm_compute. reflexivity.
  - intros i. cbn. change (u32 4) with 4. lia.
Defined.
