(* ===== verification/Hexdump.v ===== *)
(** * Dumps of bytes for the log

    [utils::readable_ascii] and [utils::hexdump] (src/manet/utils/hexdump.cc).
    Plain [char] is signed on the supported targets, and [std::isprint] and the
    digit table are indexed with it. *)

From S2P Require Import Prelude.

Definition hex : list Z := str "0123456789abcdef".

(** [std::isprint] in the C locale, defined on [unsigned char] values and [EOF]. *)
Definition isprint (c : Z) : outcome bool :=
  if (c =? -1) || ((0 <=? c) && (c <=? 255)) then Ret ((32 <=? c) && (c <=? 126)) else UB.

(** One character of the input, given as its byte. *)
Definition readable_char (b : Z) : outcome (list Z) :=
  let c := s8 b in
  p ← isprint c;
  if negb (p : bool) then
    hi ← span_at hex (Z.shiftr c 4);
    lo ← span_at hex (Z.land c 15);
    Ret (str "%" ++ [hi] ++ [lo])
  else if c =? chr "%" then Ret (str "%%")
  else Ret [b].

Fixpoint readable_ascii (input : list Z) : outcome (list Z) :=
  match input with
  | [] => Ret []
  | b :: input' =>
      s ← readable_char b;
      rest ← readable_ascii input';
      Ret ((s : list Z) ++ rest)
  end.

(** [{:02x}] of a byte, and [{:08x}] of an unsigned. *)
Definition hex_digit (d : Z) : Z := nth (Z.to_nat d) hex 0.
Definition hex2 (b : Z) : list Z := [hex_digit (b / 16); hex_digit (b mod 16)].
Definition hex8 (x : Z) : list Z :=
  (fun k => hex_digit ((x / 16 ^ k) mod 16)) <$> [7; 6; 5; 4; 3; 2; 1; 0].

(** Columns [j..15] of a line; [row] holds the bytes from column [j] on. *)
Fixpoint hex_columns (cols : nat) (j : Z) (row : list Z) : list Z :=
  match cols with
  | O => []
  | S cols' =>
      (match row with b :: _ => hex2 b ++ str " " | [] => str "   " end) ++
      (if j =? 7 then str " " else []) ++ hex_columns cols' (j + 1) (tail row)
  end.

Definition gutter_char (b : Z) : Z := if (32 <=? b) && (b <=? 126) then b else chr ".".

Definition hexdump_line (base i : Z) (row : list Z) : list Z :=
  hex8 (u32 (base + i)) ++ str "  " ++ hex_columns 16 0 row ++
  str " |" ++ (gutter_char <$> row) ++ str "|" ++ [10].

(** Lines of 16 bytes; [fuel] bounds their number. *)
Fixpoint hexdump_from (fuel : nat) (s : list Z) (base i : Z) : list Z :=
  match fuel with
  | O => []
  | S f => if zlen s =? 0 then [] else hexdump_line base i (take 16 s) ++ hexdump_from f (drop 16 s) base (i + 16)
  end.

Definition hexdump (s : list Z) (base : Z) : list Z := hexdump_from (length s) s base 0.

(** ** Properties *)

(** The reverse of [readable_ascii] on its own output. *)
Definition unhex (c : Z) : option Z :=
  if (48 <=? c) && (c <=? 57) then Some (c - 48)
  else if (97 <=? c) && (c <=? 102) then Some (c - 87) else None.

Fixpoint unreadable (fuel : nat) (l : list Z) : option (list Z) :=
  match fuel with
  | O => None
  | S f =>
      match l with
      | [] => Some []
      | 37 :: 37 :: l' => cons 37 <$> unreadable f l'
      | 37 :: h :: d :: l' =>
          match unhex h, unhex d with
          | Some x, Some y => cons (x * 16 + y) <$> unreadable f l'
          | _, _ => None
          end
      | c :: l' => cons c <$> unreadable f l'
      end
  end.

(** The shown form of [b] is read back as [b]. *)
Definition shown_back (b : Z) : Prop :=
  exists s, readable_char b = Ret s /\
    forall f l, unreadable (S f) (s ++ l) = cons b <$> unreadable f l.

Lemma readable_char_ascii b : 0 <= b < 128 -> shown_back b.
Proof.
  intros Hb. assert (Hin : b ∈ seqZ 0 128) by (apply elem_of_seqZ; lia).
  assert (Hall : Forall shown_back (seqZ 0 128)).
  { let l := eval vm_compute in (seqZ 0 128) in change (seqZ 0 128) with l.
    repeat (constructor; [eexists; split; [vm_compute; reflexivity|intros; reflexivity]|]). constructor. }
  exact (proj1 (Forall_forall shown_back _) Hall b Hin).
Qed.

Lemma readable_char_high b : 128 <= b < 256 -> readable_char b = UB.
Proof.
  intros Hb. unfold readable_char, isprint.
  assert (Hc : s8 b = b - 256) by (unfold s8, swrap; divmod_lia). rewrite Hc.
  destruct (Z.eq_dec b 255) as [->|Hne].
  - reflexivity.
  - rewrite (proj2 (Z.eqb_neq (b - 256) (-1))), (proj2 (Z.leb_gt 0 (b - 256))) by lia. done.
Qed.

(** C40: on ASCII input [readable_ascii] is defined and loses nothing: the text can
    be decoded back.  A byte from 0x80 on, anywhere in the input, makes the call
    undefined: it is used as a negative index. *)
Theorem readable_ascii_outcomes (l : list Z) (Hl : is_bytes l) :
  (Forall (fun b => b < 128) l ->
     exists s, readable_ascii l = Ret s /\ unreadable (S (length l)) s = Some l) /\
  (Exists (fun b => 128 <= b) l -> readable_ascii l = UB).
Proof.
  induction Hl as [|b l Hb Hl [IH1 IH2]].
  { split; [by exists []|by intros ?%Exists_nil]. }
  unfold is_byte in Hb. split.
  - intros [Hlt Hrest]%Forall_cons. destruct (IH1 Hrest) as (s & Hs & Hu).
    destruct (readable_char_ascii b) as (t & Ht & Hback); [lia|].
    exists (t ++ s). cbn [readable_ascii]. rewrite Ht, Hs. split; [done|].
    cbn [length]. by rewrite Hback, Hu.
  - intros [Hge|Hge]%Exists_cons; cbn [readable_ascii]; [by rewrite readable_char_high by lia|].
    destruct (decide (b < 128)).
    + destruct (readable_char_ascii b) as (t & -> & _); [lia|]. cbn. by rewrite IH2.
    + by rewrite readable_char_high by lia.
Qed.

Lemma readable_ascii_outcomes_witness :
  (exists s, readable_ascii [104; 105; 37; 10] = Ret s /\ unreadable 5 s = Some [104; 105; 37; 10]) /\
  readable_ascii [104; 200] = UB.
Proof.
  split.
  - apply (readable_ascii_outcomes [104; 105; 37; 10]); apply (bool_decide_unpack _); vm_compute; exact I.
  - apply (readable_ascii_outcomes [104; 200]); apply (bool_decide_unpack _); vm_compute; exact I.
Defined.
