(* ===== verification/Logging.v ===== *)
(** * Logging

    include/manet/logging.hpp: the level, the wrappers and [log], as the actions
    of the calling thread on the mutexes and on the error stream.  The mutex is a
    static of the function template [log<Args...>], so there is one for each list
    of argument types ([inst], the instantiation a call belongs to).
    [std::vformat] is a parameter.  Threads are interleaved by a step relation; a
    [write] can be cut short, which the code ignores. *)

From stdpp Require Import relations gmap.
From S2P Require Import Prelude.

Module LogLevel.
Inductive t : Set := trace | info | warn | error.

(** The value of the enumerator. *)
Definition to_Z (l : t) : Z := match l with trace => 0 | info => 1 | warn => 2 | error => 3 end.
End LogLevel.

(** What a thread does to the outside, in the instantiation [k] of [log]. *)
Inductive action (I : Type) := Lock (k : I) | Write (k : I) (bytes : list Z) | Unlock (k : I).
Arguments Lock {I} k. Arguments Write {I} k bytes. Arguments Unlock {I} k.

Definition action_inst {I} (a : action I) : I := match a with Lock k | Write k _ | Unlock k => k end.

Module log.
Section log.
(** [log::enabled], a build flag; the formatter of a message, [None] when it
    throws; the types of the arguments. *)
Context (enabled : bool) {Args I : Type} `{Countable I}.
Context (vformat : list Z -> Args -> option (list Z)) (inst : Args -> I).

Definition prefixes : list (list Z) :=
  [str "[Debug]   "; str "[Info]    "; str "[Warning] "; str "[Error]   "].

Definition prefix (level : LogLevel.t) : list Z := nth (Z.to_nat (LogLevel.to_Z level)) prefixes [].

(** [detail::log] when the level is [g]. *)
Definition log (g level : LogLevel.t) (fmt : list Z) (args : Args) : list (action I) :=
  if negb enabled then []
  else if LogLevel.to_Z level <? LogLevel.to_Z g then []
  else
    let formatted := match vformat fmt args with Some s => s | None => fmt end in
    let mutex := inst args in
    [Lock mutex; Write mutex (prefix level); Write mutex formatted; Write mutex [10]; Unlock mutex].

Definition trace (g : LogLevel.t) := log g LogLevel.trace.
Definition info (g : LogLevel.t) := log g LogLevel.info.
Definition warn (g : LogLevel.t) := log g LogLevel.warn.
Definition error (g : LogLevel.t) := log g LogLevel.error.

(** The level after [set_level]. *)
Definition set_level (g level : LogLevel.t) : LogLevel.t := if enabled then level else g.

(** ** Threads *)

Inductive call :=
| Trace (fmt : list Z) (args : Args)
| Info (fmt : list Z) (args : Args)
| Warn (fmt : list Z) (args : Args)
| Error (fmt : list Z) (args : Args)
| SetLevel (level : LogLevel.t).

Definition actions (g : LogLevel.t) (c : call) : list (action I) :=
  match c with
  | Trace fmt args => trace g fmt args
  | Info fmt args => info g fmt args
  | Warn fmt args => warn g fmt args
  | Error fmt args => error g fmt args
  | SetLevel _ => []
  end.

(** The calls a thread has still to make, and what is left of the current one. *)
Record thread := mkThread { todo : list call; doing : list (action I) }.

(** [_g_level], the mutexes that are held with their owners, what was written to
    the error stream (one entry per [write], with the instantiation that made
    it), and the threads. *)
Record state := mkState {
  _g_level : LogLevel.t; mutex : gmap I nat; stderr_ : list (I * list Z); threads : list thread
}.

(** The bytes on the stream. *)
Definition bytes (s : state) : list Z := concat (snd <$> stderr_ s).

Definition level_after (g : LogLevel.t) (c : call) : LogLevel.t :=
  match c with SetLevel l => set_level g l | _ => g end.

Inductive step : state -> state -> Prop :=
| step_call i g m out ts c cs :
    ts !! i = Some (mkThread (c :: cs) []) ->
    step (mkState g m out ts) (mkState (level_after g c) m out (<[i := mkThread cs (actions g c)]> ts))
| step_lock i g m out ts cs k acts :
    ts !! i = Some (mkThread cs (Lock k :: acts)) -> m !! k = None ->
    step (mkState g m out ts) (mkState g (<[k := i]> m) out (<[i := mkThread cs acts]> ts))
| step_write i g m out ts cs k bytes acts (n : nat) :
    ts !! i = Some (mkThread cs (Write k bytes :: acts)) ->
    step (mkState g m out ts) (mkState g m (out ++ [(k, take n bytes)]) (<[i := mkThread cs acts]> ts))
| step_unlock i g m out ts cs k acts :
    ts !! i = Some (mkThread cs (Unlock k :: acts)) ->
    step (mkState g m out ts) (mkState g (delete k m) out (<[i := mkThread cs acts]> ts)).

Definition start (g : LogLevel.t) (programs : list (list call)) : state :=
  mkState g ∅ [] ((fun p => mkThread p []) <$> programs).

Definition reachable (g : LogLevel.t) (programs : list (list call)) (s : state) : Prop :=
  rtc step (start g programs) s.
End log.
End log.

(** ** Lines of one instantiation are not torn *)
Section lines.
Context (enabled : bool) {Args I : Type} `{Countable I}.
Context (vformat : list Z -> Args -> option (list Z)) (inst : Args -> I).
Abbreviation call := (log.call (Args := Args)).
Abbreviation state := (log.state (Args := Args) (I := I)).
Abbreviation acts := (log.actions enabled vformat inst).

(** The instantiation that is looked at. *)
Context (k : I).

Definition written (out : list (I * list Z)) : list Z := concat (snd <$> filter (fun w => w.1 = k) out).

(** The bytes a list of actions can leave on the stream. *)
Inductive emits : list (action I) -> list Z -> Prop :=
| emits_nil : emits [] []
| emits_lock l o k' : emits l o -> emits (Lock k' :: l) o
| emits_unlock l o k' : emits l o -> emits (Unlock k' :: l) o
| emits_write l o k' bytes n : emits l o -> emits (Write k' bytes :: l) (take n bytes ++ o).

Lemma emits_snoc l o k' bytes n : emits l o -> emits (l ++ [Write k' bytes]) (o ++ take n bytes).
Proof.
  induction 1; cbn; try by constructor.
  - rewrite <- (app_nil_r (take n bytes)). repeat constructor.
  - rewrite <- app_assoc. by constructor.
Qed.

Lemma emits_snoc_unlock l o k' : emits l o -> emits (l ++ [Unlock k']) o.
Proof. induction 1; cbn; by repeat constructor. Qed.

(** A finished line: who wrote it, which call of this instantiation, and the
    bytes. *)
Definition line_ok (l : nat * call * list Z) : Prop :=
  exists g, acts g l.1.2 <> [] /\ Forall (fun a => action_inst a = k) (acts g l.1.2) /\ emits (acts g l.1.2) l.2.

Definition calls_of (i : nat) (lines : list (nat * call * list Z)) : list call :=
  (fun l => l.1.2) <$> filter (fun l => l.1.1 = i) lines.

(** A message is a locked group of three writes, or nothing. *)
Lemma actions_shape g c :
  acts g c = [] \/
  exists q b1 b2 b3, acts g c = [Lock q; Write q b1; Write q b2; Write q b3; Unlock q].
Proof.
  destruct c; cbn; unfold log.trace, log.info, log.warn, log.error, log.log; repeat case_match; eauto 6.
Qed.

(** A call belongs to one instantiation. *)
Lemma actions_inst g c :
  Forall (fun a => action_inst a <> k) (acts g c) \/
  acts g c <> [] /\ Forall (fun a => action_inst a = k) (acts g c).
Proof.
  destruct (actions_shape g c) as [->|(q & b1 & b2 & b3 & ->)]; [by left|].
  destruct (decide (q = k)); [right; split; [done|]|left]; by repeat constructor.
Qed.

(** Where a thread is: outside of this instantiation, waiting for its mutex, or
    inside a message. *)
Inductive thread_ok (lines : list (nat * call * list Z)) (cur : list Z) (m : option nat) (i : nat) (issued : list call) :
    list (action I) -> Prop :=
| outside l : m <> Some i -> Forall (fun a => action_inst a <> k) l -> calls_of i lines `sublist_of` issued ->
    thread_ok lines cur m i issued l
| waiting c g : m <> Some i -> acts g c <> [] -> Forall (fun a => action_inst a = k) (acts g c) ->
    calls_of i lines ++ [c] `sublist_of` issued -> thread_ok lines cur m i issued (acts g c)
| holding c g pre post : m = Some i -> acts g c = pre ++ post -> pre <> [] -> post <> [] ->
    Forall (fun a => action_inst a = k) (acts g c) -> emits pre cur ->
    calls_of i lines ++ [c] `sublist_of` issued -> thread_ok lines cur m i issued post.

(** What the holder of the mutex has written of its message. *)
Definition current (m : option nat) (cur : list Z) : Prop :=
  match m with
  | None => cur = []
  | Some _ => exists c g pre post, acts g c = pre ++ post /\ emits pre cur
  end.

Definition log_inv (programs : list (list call)) (s : state) : Prop :=
  exists lines cur,
    written (log.stderr_ s) = concat (snd <$> lines) ++ cur /\ Forall line_ok lines /\
    current (log.mutex s !! k) cur /\ length (log.threads s) = length programs /\
    forall i t, log.threads s !! i = Some t -> exists issued,
      programs !! i = Some (issued ++ log.todo t) /\ thread_ok lines cur (log.mutex s !! k) i issued (log.doing t).

Lemma written_snoc out k' bs :
  written (out ++ [(k', bs)]) = if decide (k' = k) then written out ++ bs else written out.
Proof.
  unfold written. rewrite filter_app, fmap_app, concat_app. destruct (decide (k' = k)) as [->|Hne].
  - rewrite filter_cons_True by done. cbn. by rewrite app_nil_r.
  - rewrite filter_cons_False by done. cbn. by rewrite app_nil_r.
Qed.

Lemma calls_of_snoc i j c o lines :
  calls_of i (lines ++ [(j, c, o)]) = if decide (j = i) then calls_of i lines ++ [c] else calls_of i lines.
Proof.
  unfold calls_of. rewrite filter_app, fmap_app. destruct (decide (j = i)) as [->|].
  - by rewrite filter_cons_True.
  - rewrite filter_cons_False by done. cbn. by rewrite app_nil_r.
Qed.

(** A thread that does not hold the mutex before or after sees no difference. *)
Lemma thread_ok_other lines lines' cur cur' m m' i issued l :
  m <> Some i -> m' <> Some i -> calls_of i lines' = calls_of i lines ->
  thread_ok lines cur m i issued l -> thread_ok lines' cur' m' i issued l.
Proof. intros Hm Hm' Hc Hok. destruct Hok; [apply outside|apply waiting|]; rewrite ?Hc; congruence || done. Qed.

Lemma log_inv_update programs g (m m' : gmap I nat) out' ts i t' issued' lines cur lines' cur' :
  length ts = length programs ->
  (forall j t, ts !! j = Some t -> exists issued,
    programs !! j = Some (issued ++ log.todo t) /\ thread_ok lines cur (m !! k) j issued (log.doing t)) ->
  (forall j, j <> i -> m !! k <> Some j /\ m' !! k <> Some j /\ calls_of j lines' = calls_of j lines \/
    m' !! k = m !! k /\ lines' = lines /\ cur' = cur) ->
  programs !! i = Some (issued' ++ log.todo t') -> thread_ok lines' cur' (m' !! k) i issued' (log.doing t') ->
  written out' = concat (snd <$> lines') ++ cur' -> Forall line_ok lines' -> current (m' !! k) cur' ->
  log_inv programs (log.mkState g m' out' (<[i := t']> ts)).
Proof.
  intros Hlen Hts Hfr Hp Hok Hout Hl Hm. exists lines', cur'. cbn [log.threads log.mutex log.stderr_].
  split_and!; [done|done|done|by rewrite length_insert|].
  intros j t [(-> & <- & _)|[Hne Ht]]%list_lookup_insert_Some; [by exists issued'|].
  destruct (Hts j t Ht) as (issued & Hpj & Hokj). exists issued. split; [done|].
  destruct (Hfr j) as [(H1 & H2 & H3)|(-> & -> & ->)]; [done| |done].
  exact (thread_ok_other lines lines' cur cur' _ _ j issued _ H1 H2 H3 Hokj).
Qed.

(** The next action of a thread says where it is. *)
Lemma thread_ok_elsewhere lines cur m i issued a l :
  action_inst a <> k -> thread_ok lines cur m i issued (a :: l) -> thread_ok lines cur m i issued l.
Proof.
  intros Ha Hok. inversion Hok as [l' Hm Hf Hc|c g Hm Hne Hf Hc Heq|c g pre post Hm E Hpre Hpost Hf He Hc]; subst.
  - apply outside; [done| |done]. by apply Forall_cons in Hf as [_ ?].
  - rewrite Heq in Hf. by apply Forall_cons in Hf as [? _].
  - rewrite E in Hf. apply Forall_app in Hf as [_ Hf]. by apply Forall_cons in Hf as [? _].
Qed.

Lemma thread_ok_lock lines cur i issued l :
  thread_ok lines cur None i issued (Lock k :: l) ->
  exists c g, acts g c = Lock k :: l /\ Forall (fun a => action_inst a = k) (acts g c) /\
    calls_of i lines ++ [c] `sublist_of` issued.
Proof.
  intros Hok. inversion Hok as [l' Hm Hf Hc|c g Hm Hne Hf Hc Heq|]; subst; [|by exists c, g|done].
  by apply Forall_cons in Hf as [? _].
Qed.

Lemma thread_ok_inside lines cur m i issued a l :
  (forall q, a <> Lock q) -> action_inst a = k -> thread_ok lines cur m i issued (a :: l) ->
  m = Some i /\ exists c g pre, acts g c = pre ++ a :: l /\ pre <> [] /\
    Forall (fun a => action_inst a = k) (acts g c) /\ emits pre cur /\
    calls_of i lines ++ [c] `sublist_of` issued.
Proof.
  intros Ha Hk Hok. inversion Hok as [l' Hm Hf Hc|c g Hm Hne Hf Hc Heq|c g pre post Hm E Hpre Hpost Hf He Hc]; subst.
  - by apply Forall_cons in Hf as [? _].
  - destruct (actions_shape g c) as [E|(q & b1 & b2 & b3 & E)]; rewrite E in Heq; [done|].
    by injection Heq as <- _; destruct (Ha q).
  - split; [done|]. by exists c, g, pre.
Qed.

Lemma after_unlock g c pre q l : acts g c = pre ++ Unlock q :: l -> l = [].
Proof.
  destruct (actions_shape g c) as [->|(q' & b1 & b2 & b3 & ->)]; intros E; [by destruct pre|].
  do 5 (destruct pre as [|? pre]; [by simplify_list_eq|simplify_list_eq]). by destruct pre.
Qed.

Lemma before_end g c pre a l : acts g c = pre ++ a :: l -> (forall q, a <> Unlock q) -> l <> [].
Proof.
  intros E Ha ->. destruct (actions_shape g c) as [E'|(q & b1 & b2 & b3 & E')]; rewrite E' in E; [by destruct pre|].
  apply (f_equal last) in E. rewrite last_snoc in E. cbn in E. injection E as <-. by destruct (Ha q).
Qed.

(** A step of a thread in another instantiation. *)
Lemma log_inv_elsewhere programs g (m m' : gmap I nat) out out' ts i cs a l :
  log_inv programs (log.mkState g m out ts) -> ts !! i = Some (log.mkThread cs (a :: l)) ->
  action_inst a <> k -> m' !! k = m !! k -> written out' = written out ->
  log_inv programs (log.mkState g m' out' (<[i := log.mkThread cs l]> ts)).
Proof.
  intros (lines & cur & Hout & Hl & Hm & Hlen & Hts) Hi Ha Hm' Ho.
  cbn [log.stderr_ log.mutex log.threads] in *. destruct (Hts i _ Hi) as (issued & Hp & Hok).
  apply (log_inv_update programs g m m' out' ts i _ issued lines cur lines cur); try done.
  - intros j _. right. done.
  - rewrite Hm'. by eapply thread_ok_elsewhere.
  - congruence.
  - by rewrite Hm'.
Qed.

Lemma log_inv_call programs g m out ts i c cs :
  log_inv programs (log.mkState g m out ts) -> ts !! i = Some (log.mkThread (c :: cs) []) ->
  log_inv programs (log.mkState (log.level_after enabled g c) m out (<[i := log.mkThread cs (acts g c)]> ts)).
Proof.
  intros (lines & cur & Hout & Hl & Hm & Hlen & Hts) Hi.
  cbn [log.stderr_ log.mutex log.threads] in *. destruct (Hts i _ Hi) as (issued & Hp & Hok).
  apply (log_inv_update programs _ m m out ts i _ (issued ++ [c]) lines cur lines cur); try done.
  - intros j _. by right.
  - cbn. by rewrite <- app_assoc.
  - assert (Hsub : m !! k <> Some i /\ calls_of i lines `sublist_of` issued) by (inversion Hok; subst; done).
    destruct Hsub as [H1 H2]. cbn [log.doing]. destruct (actions_inst g c) as [Hf|[Hne Hf]].
    + apply outside; [done|done|]. etrans; [exact H2|]. by apply sublist_inserts_r.
    + apply waiting; [done..|]. by apply sublist_app.
Qed.

Lemma log_inv_lock programs g (m : gmap I nat) out ts i cs l :
  log_inv programs (log.mkState g m out ts) -> ts !! i = Some (log.mkThread cs (Lock k :: l)) -> m !! k = None ->
  log_inv programs (log.mkState g (<[k := i]> m) out (<[i := log.mkThread cs l]> ts)).
Proof.
  intros (lines & cur & Hout & Hl & Hm & Hlen & Hts) Hi Hk.
  cbn [log.stderr_ log.mutex log.threads] in *. destruct (Hts i _ Hi) as (issued & Hp & Hok).
  rewrite Hk in Hm, Hok. apply thread_ok_lock in Hok as (c & g' & E & Hf & Hsub). cbn in Hm. subst cur.
  apply (log_inv_update programs _ m (<[k := i]> m) out ts i _ issued lines [] lines []); rewrite ?lookup_insert_eq; try done.
  - intros j Hj. left. rewrite Hk. split_and!; [done|congruence|done].
  - cbn [log.doing]. apply (holding lines [] (Some i) i issued c g' [Lock k]); try done; [|by repeat constructor].
    by apply (before_end g' c [] (Lock k)).
  - exists c, g', [Lock k], l. split; [done|]. by repeat constructor.
Qed.

Lemma log_inv_write programs g (m : gmap I nat) out ts i cs bs l n :
  log_inv programs (log.mkState g m out ts) -> ts !! i = Some (log.mkThread cs (Write k bs :: l)) ->
  log_inv programs (log.mkState g m (out ++ [(k, take n bs)]) (<[i := log.mkThread cs l]> ts)).
Proof.
  intros (lines & cur & Hout & Hl & Hm & Hlen & Hts) Hi.
  cbn [log.stderr_ log.mutex log.threads] in *. destruct (Hts i _ Hi) as (issued & Hp & Hok).
  apply thread_ok_inside in Hok as (Hk & c & g' & pre & E & Hpre & Hf & Hem & Hsub); [|done..].
  apply (log_inv_update programs _ m m _ ts i _ issued lines cur lines (cur ++ take n bs)); try done.
  - intros j Hj. left. rewrite Hk. split_and!; [congruence..|done].
  - cbn [log.doing]. apply (holding lines _ _ i issued c g' (pre ++ [Write k bs])); try done.
    + by rewrite <- app_assoc.
    + by destruct pre.
    + by apply (before_end g' c pre (Write k bs)).
    + by apply emits_snoc.
  - rewrite written_snoc, decide_True by done. rewrite Hout. by rewrite app_assoc.
  - rewrite Hk. exists c, g', (pre ++ [Write k bs]), l. split; [by rewrite <- app_assoc|by apply emits_snoc].
Qed.

Lemma log_inv_unlock programs g (m : gmap I nat) out ts i cs l :
  log_inv programs (log.mkState g m out ts) -> ts !! i = Some (log.mkThread cs (Unlock k :: l)) ->
  log_inv programs (log.mkState g (delete k m) out (<[i := log.mkThread cs l]> ts)).
Proof.
  intros (lines & cur & Hout & Hl & Hm & Hlen & Hts) Hi.
  cbn [log.stderr_ log.mutex log.threads] in *. destruct (Hts i _ Hi) as (issued & Hp & Hok).
  apply thread_ok_inside in Hok as (Hk & c & g' & pre & E & Hpre & Hf & Hem & Hsub); [|done..].
  pose proof (after_unlock g' c pre k l E) as ->.
  apply (log_inv_update programs _ m (delete k m) out ts i _ issued lines cur (lines ++ [(i, c, cur)]) []);
    rewrite ?lookup_delete_eq; try done.
  - intros j Hj. left. rewrite Hk. split_and!; [congruence|done|].
    rewrite calls_of_snoc. by rewrite decide_False.
  - apply outside; [done|done|]. rewrite calls_of_snoc. by rewrite decide_True.
  - rewrite fmap_app, concat_app. cbn. by rewrite !app_nil_r.
  - apply Forall_app. split; [done|]. constructor; [|done]. exists g'. cbn. split_and!; [rewrite E; by destruct pre|done|].
    rewrite E. by apply emits_snoc_unlock.
Qed.

Lemma log_inv_step programs s s' :
  log_inv programs s -> log.step enabled vformat inst s s' -> log_inv programs s'.
Proof.
  intros Hinv Hstep.
  destruct Hstep as [i g m out ts c cs Hi|i g m out ts cs q l Hi Hq|i g m out ts cs q bs l n Hi|i g m out ts cs q l Hi].
  - by apply log_inv_call.
  - destruct (decide (q = k)) as [->|Hne]; [by apply log_inv_lock|].
    eapply log_inv_elsewhere; [done|done|done|by rewrite lookup_insert_ne|done].
  - destruct (decide (q = k)) as [->|Hne]; [by eapply log_inv_write|].
    eapply log_inv_elsewhere; [done|done|done|done|]. by rewrite written_snoc, decide_False.
  - destruct (decide (q = k)) as [->|Hne]; [by apply log_inv_unlock|].
    eapply log_inv_elsewhere; [done|done|done|by rewrite lookup_delete_ne|done].
Qed.

Lemma log_inv_reachable g programs s :
  log.reachable enabled vformat inst g programs s -> log_inv programs s.
Proof.
  unfold log.reachable. intros Hreach. assert (H0 : log_inv programs (log.start g programs)).
  { exists [], []. cbn. split_and!; [done|done|by rewrite lookup_empty|by rewrite length_fmap|].
    intros i t Hi. apply list_lookup_fmap_Some in Hi as (p & -> & Hp). exists []. split; [done|].
    rewrite lookup_empty. by apply outside. }
  revert H0. induction Hreach as [|s1 s2 s3 Hs _ IH]; [done|]. intros H0. apply IH. by eapply log_inv_step.
Qed.

End lines.

(** ** Lines of different instantiations can be torn *)
Section torn.
Context {Args I : Type} `{Countable I}.
Context (vformat : list Z -> Args -> option (list Z)) (inst : Args -> I).

Definition text (fmt : list Z) (args : Args) : list Z :=
  match vformat fmt args with Some s => s | None => fmt end.

(** C37: the mutex does not protect a line from the calls of other instantiations:
    in a debug build, two threads that log an error each, with arguments of
    different types, can both return with the second line in the middle of the
    first. *)
Theorem log_lines_torn (g : LogLevel.t) (fmt1 fmt2 : list Z) (a1 a2 : Args) (Htypes : inst a1 <> inst a2) :
  exists s, log.reachable true vformat inst g [[log.Error fmt1 a1]; [log.Error fmt2 a2]] s /\
    Forall (fun t => log.todo t = [] /\ log.doing t = []) (log.threads s) /\
    log.bytes s = log.prefix LogLevel.error ++
      (log.prefix LogLevel.error ++ text fmt2 a2 ++ [10]) ++ text fmt1 a1 ++ [10].
Proof.
  assert (Hacts : forall fmt a, log.actions true vformat inst g (log.Error fmt a) =
    [Lock (inst a); Write (inst a) (log.prefix LogLevel.error); Write (inst a) (text fmt a);
     Write (inst a) [10]; Unlock (inst a)]) by (intros; by destruct g).
  eexists (log.mkState g ∅ _ [log.mkThread [] []; log.mkThread [] []]). split; [|split].
  - unfold log.reachable, log.start. cbn [fmap list_fmap].
    eapply rtc_l; [apply (log.step_call _ _ _ 0); reflexivity|]. rewrite Hacts. cbn [log.level_after].
    eapply rtc_l; [apply (log.step_call _ _ _ 1); reflexivity|]. rewrite Hacts. cbn [log.level_after].
    eapply rtc_l; [eapply (log.step_lock _ _ _ 0); [reflexivity|apply lookup_empty]|].
    eapply rtc_l; [eapply (log.step_write _ _ _ 0) with (n := length _); reflexivity|].
    eapply rtc_l; [eapply (log.step_lock _ _ _ 1); [reflexivity|by rewrite lookup_insert_ne, lookup_empty]|].
    eapply rtc_l; [eapply (log.step_write _ _ _ 1) with (n := length _); reflexivity|].
    eapply rtc_l; [eapply (log.step_write _ _ _ 1) with (n := length _); reflexivity|].
    eapply rtc_l; [eapply (log.step_write _ _ _ 1) with (n := length _); reflexivity|].
    eapply rtc_l; [eapply (log.step_unlock _ _ _ 1); reflexivity|].
    eapply rtc_l; [eapply (log.step_write _ _ _ 0) with (n := length _); reflexivity|].
    eapply rtc_l; [eapply (log.step_write _ _ _ 0) with (n := length _); reflexivity|].
    eapply rtc_l; [eapply (log.step_unlock _ _ _ 0); reflexivity|].
    rewrite delete_insert_id, delete_insert_id by (by rewrite ?lookup_insert_ne, ?lookup_empty).
    cbn [insert list_insert]. apply rtc_refl.
  - by repeat constructor.
  - unfold log.bytes. cbn [log.stderr_ app fmap list_fmap snd concat]. rewrite !firstn_all.
    by rewrite app_nil_r, <- !app_assoc.
Qed.
End torn.

(** ** Witnesses: arguments are numbers, or there are none *)

Definition sample_format (fmt : list Z) (args : option Z) : option (list Z) :=
  Some (match args with Some n => fmt ++ [n] | None => fmt end).

Definition sample_inst (args : option Z) : bool := bool_decide (is_Some args).

Definition sample_programs : list (list (log.call (Args := option Z))) :=
  [[log.Warn (str "a") None]; [log.Error (str "b") None]].


Lemma log_lines_torn_witness :
  exists s, log.reachable true sample_format sample_inst LogLevel.warn
      [[log.Error (str "one") None]; [log.Error (str "two") (Some 50)]] s /\
    log.bytes s = str "[Error]   [Error]   two2" ++ [10] ++ str "one" ++ [10].
Proof.
  destruct (log_lines_torn sample_format sample_inst LogLevel.warn (str "one") (str "two") None (Some 50))
    as (s & Hreach & _ & Hb).
  - discriminate.
  - exists s. split; [exact Hreach|exact Hb].
Defined.
