(* ===== verification/Numerals.v ===== *)
(** * Decimal numerals

    What the example program uses of the C and C++ libraries for numbers: the
    text [printf] gives for a 64-bit integer ([dec]) and [std::stoi]. *)

From S2P Require Import Prelude.

Definition is_digit (c : Z) : bool := (48 <=? c) && (c <=? 57).

(** The digits of a non-negative number; the fuel is more than their count. *)
Fixpoint digits (fuel : nat) (n : Z) : list Z :=
  match fuel with
  | O => []
  | S f => (if n <? 10 then [] else digits f (n / 10)) ++ [48 + n mod 10]
  end.

(** ["%" PRId64]. *)
Definition dec (n : Z) : list Z :=
  if n <? 0 then chr "-" :: digits (S (Z.to_nat (Z.log2 (- n)))) (- n)
  else digits (S (Z.to_nat (Z.log2 n))) n.

Definition dec_value (l : list Z) : Z := foldl (fun a c => 10 * a + (c - 48)) 0 l.

Fixpoint span_digits (l : list Z) : list Z * list Z :=
  match l with
  | c :: l' => if is_digit c then let (d, r) := span_digits l' in (c :: d, r) else ([], l)
  | [] => ([], [])
  end.

Definition is_space (c : Z) : bool := (c =? 32) || ((9 <=? c) && (c <=? 13)).

Fixpoint skip_space (l : list Z) : list Z :=
  match l with c :: l' => if is_space c then skip_space l' else l | [] => [] end.

(** [std::stoi(s)]: leading space, a sign, digits; the rest is ignored. *)
Inductive stoi_result := stoi_ok (n : Z) | invalid_argument | out_of_range.

Definition stoi (s : list Z) : stoi_result :=
  let s := skip_space s in
  let '(neg, s) :=
    match s with
    | c :: s' => if c =? chr "-" then (true, s') else if c =? chr "+" then (false, s') else (false, s)
    | [] => (false, [])
    end in
  match (span_digits s).1 with
  | [] => invalid_argument
  | d => let n := if (neg : bool) then - dec_value d else dec_value d in
         if (- 2 ^ 31 <=? n) && (n <=? INT_MAX) then stoi_ok n else out_of_range
  end.

(** ** Reading back what was printed *)

Lemma dec_value_snoc l c : dec_value (l ++ [c]) = 10 * dec_value l + (c - 48).
Proof. unfold dec_value. by rewrite foldl_app. Qed.

Lemma digits_ok fuel n :
  0 <= n < 10 ^ Z.of_nat fuel -> (0 < fuel)%nat ->
  dec_value (digits fuel n) = n /\ Forall is_digit (digits fuel n) /\ digits fuel n <> [].
Proof.
  revert n. induction fuel as [|f IH]; intros n Hn Hf; [lia|]. cbn [digits].
  assert (Hmod : Forall is_digit [48 + n mod 10]).
  { repeat constructor. pose proof (Z.mod_pos_bound n 10). apply Is_true_true, andb_true_iff.
    rewrite !Z.leb_le. lia. }
  destruct (n <? 10) eqn:E; bool_to_prop.
  - rewrite app_nil_l. split_and!; [|done|done]. unfold dec_value. cbn [foldl]. rewrite Z.mod_small by lia. lia.
  - rewrite Nat2Z.inj_succ, Z.pow_succ_r in Hn by lia.
    assert (Hf' : (0 < f)%nat) by (destruct f; [cbn in Hn; lia|lia]).
    destruct (IH (n / 10)) as (H1 & H2 & H3); [split; [|apply Z.div_lt_upper_bound]; divmod_lia || lia|done|].
    rewrite dec_value_snoc, H1. split_and!; [divmod_lia|by apply Forall_app|by destruct (digits f _)].
Qed.

(** The fuel of [dec] is enough. *)
Lemma digits_fuel n : 0 <= n -> 0 <= n < 10 ^ Z.of_nat (S (Z.to_nat (Z.log2 n))).
Proof.
  intros Hn. split; [done|]. rewrite Nat2Z.inj_succ, Z2Nat.id by apply Z.log2_nonneg.
  destruct (decide (n = 0)) as [->|]; [done|]. pose proof (Z.log2_spec n ltac:(lia)) as [_ H].
  eapply Z.lt_le_trans; [exact H|]. apply Z.pow_le_mono_l. split; [lia|done].
Qed.

Lemma span_digits_app d r :
  Forall is_digit d -> match r with c :: _ => is_digit c = false | [] => True end -> span_digits (d ++ r) = (d, r).
Proof.
  intros Hd Hr. induction Hd as [|c d Hc Hd IH]; cbn; [|by rewrite (Is_true_true_1 _ Hc), IH].
  destruct r as [|c r]; [done|]. cbn. by rewrite Hr.
Qed.

(** A numeral that starts with a digit has no space or sign to skip. *)
Lemma digit_first c : is_digit c -> is_space c = false /\ (c =? chr "-") = false /\ (c =? chr "+") = false.
Proof.
  intros H%Is_true_true%andb_true_iff. destruct H as [H1 H2]. bool_to_prop.
  change (chr "-") with 45. change (chr "+") with 43. unfold is_space.
  split_and!; [apply orb_false_iff; split; [|apply andb_false_iff]|..]; rewrite ?Z.eqb_neq, ?Z.leb_gt; lia.
Qed.

Lemma stoi_dec n r :
  - 2 ^ 31 <= n <= INT_MAX -> match r with c :: _ => is_digit c = false | [] => True end ->
  stoi (dec n ++ r) = stoi_ok n.
Proof.
  intros Hn Hr. unfold dec, stoi. assert (Hin : (- 2 ^ 31 <=? n) && (n <=? INT_MAX) = true).
  { apply andb_true_iff. rewrite !Z.leb_le. lia. }
  destruct (Z.ltb_spec n 0) as [E|E].
  - destruct (digits_ok _ (- n) (digits_fuel (- n) ltac:(lia)) ltac:(lia)) as (Hv & Hd & Hne).
    set (d := digits _ _) in *. clearbody d. change (chr "-") with 45.
    change (skip_space ((45 :: d) ++ r)) with (45 :: (d ++ r)). cbv iota. rewrite Z.eqb_refl. cbv iota. rewrite span_digits_app by done. cbn [fst].
    destruct d as [|c d]; [done|]. rewrite Hv, Z.opp_involutive. by rewrite Hin.
  - destruct (digits_ok _ n (digits_fuel n ltac:(lia)) ltac:(lia)) as (Hv & Hd & Hne).
    set (d := digits _ _) in *. clearbody d. destruct d as [|c d]; [done|].
    pose proof (Forall_inv Hd) as Hc. destruct (digit_first c Hc) as (H1 & H2 & H3).
    cbn [app skip_space]. rewrite H1, H2, H3.
    change (c :: d ++ r) with ((c :: d) ++ r). rewrite span_digits_app by done. cbn [fst]. rewrite Hv. by rewrite Hin.
Qed.
