(* ===== verification/Config.v ===== *)
(** * Configuration of the example program

    examples/config.hpp and config.cc.  [getopt_long] is a parameter: the options
    it reports for an argument vector, in order, until it returns -1.  The build
    flags [MANET_USE_FSTACK] and [log::enabled] are parameters, too. *)

From S2P Require Import Prelude Numerals Logging.

(** The end of a process before its time: [exit] with what was printed, or an
    exception nobody catches. *)
Inductive stopped := exit_ (status : Z) (out err : list Z) | terminate.

Inductive has_arg := no_argument | required_argument.

Record option_ := mkOption { opt_name : list Z; opt_arg : has_arg; opt_val : Z }.

(** [Net::config_t] is the configuration file for F-Stack, and says nothing for
    epoll. *)
Record Args := mkArgs { args_net_config : option (list Z); net_cpu : option Z; worker_cpu : option Z }.

Record Config := mkConfig {
  net_config : option (list Z); api_key : list Z; net_cpu_id : option Z; worker_cpu_id : option Z
}.

Section config.
Context (fstack enabled : bool) (Net_name : list Z).
Context (getopt_long : list Z -> list option_ -> list (list Z) -> list (Z * list Z)).

Definition short_opts : list Z :=
  if fstack then (if enabled then str "+hc:v" else str "+hc:")
  else (if enabled then str "+hv" else str "+h").

Definition long_opts : list option_ :=
  [mkOption (str "help") no_argument (chr "h")] ++
  (if fstack then [mkOption (str "config") required_argument (chr "c")] else []) ++
  [mkOption (str "net-cpu") required_argument (chr "n");
   mkOption (str "worker-cpu") required_argument (chr "w")].

Definition usage (pname : list Z) : list Z :=
  str "usage: " ++ pname ++ str " [options]" ++ [10; 10] ++
  str "net: " ++ Net_name ++ [10; 10] ++
  str "options:" ++ [10] ++
  str "  -h, --help            show help" ++ [10] ++
  (if fstack then str "  -c <conf>             F-Stack config file" ++ [10] else []) ++
  str "  --net-cpu <id>        pin network thread to CPU <id>" ++ [10] ++
  str "  --worker-cpu <id>     pin worker thread to CPU <id>" ++ [10] ++
  (if enabled then str "  -v|-vv              set verbose" ++ [10] else []).

Definition helpful_exit (pname : list Z) (status : Z) : stopped :=
  if status =? 0 then exit_ status (usage pname) [] else exit_ status [] (usage pname).

(** The loop over the options, with [args] and [v_count] so far. *)
Fixpoint read_opts (pname : list Z) (opts : list (Z * list Z)) (args : Args) (v_count : Z)
    : stopped + (Args * Z) :=
  match opts with
  | [] => inr (args, v_count)
  | (c, optarg) :: opts =>
      if c =? chr "w" then
        match stoi optarg with
        | stoi_ok n => read_opts pname opts (mkArgs (args_net_config args) (net_cpu args) (Some n)) v_count
        | _ => inl terminate
        end
      else if c =? chr "n" then
        match stoi optarg with
        | stoi_ok n => read_opts pname opts (mkArgs (args_net_config args) (Some n) (worker_cpu args)) v_count
        | _ => inl terminate
        end
      else if c =? chr "h" then inl (helpful_exit pname 0)
      else if fstack && (c =? chr "c") then
        read_opts pname opts (mkArgs (Some optarg) (net_cpu args) (worker_cpu args)) v_count
      else if c =? chr "v" then read_opts pname opts args (v_count + 1)
      else inl (helpful_exit pname (-1))
  end.

(** The arguments, and the log level they set. *)
Definition read_args (argv : list (list Z)) (g : LogLevel.t) : stopped + (Args * LogLevel.t) :=
  match read_opts (default [] (head argv)) (getopt_long short_opts long_opts argv) (mkArgs None None None) 0 with
  | inl e => inl e
  | inr (args, v_count) =>
      inr (args, if negb (v_count =? 0) then
                   log.set_level enabled g (if v_count =? 1 then LogLevel.info else LogLevel.trace)
                 else g)
  end.

(** [MBX_APIKEY] is the environment variable. *)
Definition get_config (argv : list (list Z)) (MBX_APIKEY : option (list Z)) (g : LogLevel.t)
    : stopped + (Config * LogLevel.t) :=
  match read_args argv g with
  | inl e => inl e
  | inr (args, g) =>
      let api_key := default [] MBX_APIKEY in
      if decide (api_key = []) then inl (exit_ 1 [] (str "MBX_APIKEY is not set!" ++ [10]))
      else inr (mkConfig (args_net_config args) api_key (net_cpu args) (worker_cpu args), g)
  end.

(** ** Reference: the first bad option ends the program, the last value counts *)

Definition known (c : Z) : bool :=
  (c =? chr "w") || (c =? chr "n") || (fstack && (c =? chr "c")) || (c =? chr "v").

Definition takes_number (c : Z) : bool := (c =? chr "w") || (c =? chr "n").

Definition good (o : Z * list Z) : bool :=
  known o.1 && (negb (takes_number o.1) || match stoi o.2 with stoi_ok _ => true | _ => false end).

(** What a bad option does. *)
Definition complain (pname : list Z) (o : Z * list Z) : stopped :=
  if takes_number o.1 then terminate
  else helpful_exit pname (if o.1 =? chr "h" then 0 else -1).

Definition number (s : list Z) : option Z := match stoi s with stoi_ok n => Some n | _ => None end.

(** The argument of the last option [c]. *)
Definition last_arg (c : Z) (opts : list (Z * list Z)) : option (list Z) :=
  last (snd <$> filter (fun o => o.1 = c) opts).

Definition summary (opts : list (Z * list Z)) : Args :=
  mkArgs (if fstack then last_arg (chr "c") opts else None)
    (last_arg (chr "n") opts ≫= number) (last_arg (chr "w") opts ≫= number).

Definition verbosity (opts : list (Z * list Z)) : Z := zlen (filter (fun o => o.1 = chr "v") opts).

Lemma last_arg_snoc c pre o :
  last_arg c (pre ++ [o]) = if decide (o.1 = c) then Some o.2 else last_arg c pre.
Proof.
  unfold last_arg. rewrite filter_app, fmap_app. destruct (decide (o.1 = c)).
  - rewrite filter_cons_True by done. cbn. by rewrite last_snoc.
  - rewrite filter_cons_False by done. cbn. by rewrite app_nil_r.
Qed.

Lemma verbosity_snoc pre o :
  verbosity (pre ++ [o]) = verbosity pre + if decide (o.1 = chr "v") then 1 else 0.
Proof.
  unfold verbosity. rewrite filter_app, zlen_app. destruct (decide (o.1 = chr "v")).
  - by rewrite filter_cons_True.
  - by rewrite filter_cons_False.
Qed.

(** One option more. *)
Lemma summary_snoc pre c arg :
  summary (pre ++ [(c, arg)]) =
    mkArgs (if fstack && (c =? chr "c") then Some arg else args_net_config (summary pre))
      (if c =? chr "n" then number arg else net_cpu (summary pre))
      (if c =? chr "w" then number arg else worker_cpu (summary pre)).
Proof.
  unfold summary. rewrite !last_arg_snoc. cbn [fst snd args_net_config net_cpu worker_cpu].
  change (chr "w") with 119. change (chr "n") with 110. change (chr "c") with 99.
  destruct (Z.eqb_spec c 110), (Z.eqb_spec c 119), (Z.eqb_spec c 99); try (exfalso; lia);
    repeat case_decide; try (exfalso; lia); by destruct fstack.
Qed.

Lemma read_opts_from pname pre opts :
  read_opts pname opts (summary pre) (verbosity pre) =
    match list_find (fun o => good o = false) opts with
    | Some (_, o) => inl (complain pname o)
    | None => inr (summary (pre ++ opts), verbosity (pre ++ opts))
    end.
Proof.
  revert pre. induction opts as [|[c arg] opts IH]; intros pre; [cbn; by rewrite app_nil_r|].
  cbn [read_opts]. rewrite (cons_middle (c, arg) pre opts), app_assoc.
  pose proof (summary_snoc pre c arg) as Hs. pose proof (verbosity_snoc pre (c, arg)) as Hv. cbn [fst] in Hv.
  specialize (IH (pre ++ [(c, arg)])).
  assert (Hgo : good (c, arg) = true -> read_opts pname opts (summary (pre ++ [(c, arg)])) (verbosity (pre ++ [(c, arg)])) =
    match list_find (fun o => good o = false) ((c, arg) :: opts) with
    | Some (_, o) => inl (complain pname o)
    | None => inr (summary ((pre ++ [(c, arg)]) ++ opts), verbosity ((pre ++ [(c, arg)]) ++ opts))
    end).
  { intros Hg. rewrite IH. cbn [list_find]. rewrite decide_False by (by rewrite Hg). by destruct (list_find _ opts) as [[]|]. }
  assert (Hbad : good (c, arg) = false -> list_find (fun o => good o = false) ((c, arg) :: opts) = Some (0%nat, (c, arg))).
  { intros Hg. cbn. by rewrite decide_True. }
  clear IH. unfold good, known, takes_number, complain, number in *. cbn [fst snd] in *. rewrite Hs, Hv in Hgo. clear Hs Hv.
  destruct (summary pre) as [a n w]. generalize dependent (verbosity pre). intros v Hgo.
  change (chr "w") with 119 in *. change (chr "n") with 110 in *. change (chr "h") with 104 in *.
  change (chr "c") with 99 in *. change (chr "v") with 118 in *.
  destruct (Z.eqb_spec c 119) as [->|Hw].
  { cbn in *. destruct (stoi arg); [|by rewrite Hbad..]. rewrite <- Hgo by done. destruct fstack; by rewrite Z.add_0_r. }
  destruct (Z.eqb_spec c 110) as [->|Hn'].
  { cbn in *. destruct (stoi arg); [|by rewrite Hbad..]. rewrite <- Hgo by done. destruct fstack; by rewrite Z.add_0_r. }
  destruct (Z.eqb_spec c 104) as [->|Hh]; [rewrite Hbad by (by destruct fstack); done|].
  destruct (Z.eqb_spec c 99) as [->|Hc].
  { destruct fstack; cbn in *; [|by rewrite Hbad]. rewrite <- Hgo by done. by rewrite Z.add_0_r. }
  rewrite andb_false_r in *. cbn [orb] in *. destruct (Z.eqb_spec c 118) as [->|Hv].
  { destruct fstack; cbn in *; by rewrite <- Hgo. }
  rewrite Hbad by done. cbn [fst]. unfold takes_number. change (chr "w") with 119.
  change (chr "n") with 110. by rewrite !(proj2 (Z.eqb_neq _ _)) by done.
Qed.

(** C17: [get_config] is decided by the first bad option: it ends the program, with
    the usage on the right stream or by an uncaught exception when the number of
    a CPU is not one.  Without one the last value of each option counts, the
    verbosity sets the level, and a missing or empty API key ends the program. *)
Theorem get_config_decides (argv : list (list Z)) (MBX_APIKEY : option (list Z)) (g : LogLevel.t) :
  let opts := getopt_long short_opts long_opts argv in
  get_config argv MBX_APIKEY g =
    match list_find (fun o => good o = false) opts with
    | Some (_, o) => inl (complain (default [] (head argv)) o)
    | None =>
        if decide (default [] MBX_APIKEY = []) then inl (exit_ 1 [] (str "MBX_APIKEY is not set!" ++ [10]))
        else inr (mkConfig (args_net_config (summary opts)) (default [] MBX_APIKEY)
                    (net_cpu (summary opts)) (worker_cpu (summary opts)),
                  if verbosity opts =? 0 then g
                  else log.set_level enabled g (if verbosity opts =? 1 then LogLevel.info else LogLevel.trace))
    end.
Proof.
  intros opts. unfold get_config, read_args. fold opts.
  pose proof (read_opts_from (default [] (head argv)) [] opts) as H. rewrite app_nil_l in H.
  assert (H0 : summary [] = mkArgs None None None) by (unfold summary; by destruct fstack).
  rewrite H0 in H. change (verbosity []) with 0 in H. rewrite H.
  destruct (list_find _ opts) as [[i o]|]; [done|]. by destruct (verbosity opts =? 0).
Qed.
End config.

(** ** The private key, which the program does not load yet *)
Section key.
Context (enabled : bool) {K I : Type} (vformat : list Z -> list Z -> option (list Z)) (inst : list Z -> I).
Context (fopen : list Z -> K -> Z * K) (PEM_read_PrivateKey : Z -> K -> Z * K) (fclose EVP_PKEY_free : Z -> K -> K).

Definition EVP_PKEY_delete (pkey : Z) (k : K) : K := if negb (pkey =? 0) then EVP_PKEY_free pkey k else k.

(** The key, or null, and what is logged at level [g]. *)
Definition load_ed25519_key (g : LogLevel.t) (path : list Z) (k : K) : Z * list (action I) * K :=
  let (file, k) := fopen path k in
  if file =? 0 then (0, log.error enabled vformat inst g (str "invalid PEM file: {}") path, k)
  else
    let (private_key, k) := PEM_read_PrivateKey file k in
    (private_key, [], fclose file k).

(** No file is left open. *)
Lemma load_ed25519_key_closes (files : K -> gset Z) g path k :
  (forall p k, let (f, k') := fopen p k in
    if f =? 0 then files k' = files k else (f ∉ files k) /\ files k' = files k ∪ {[ f ]}) ->
  (forall f k, files (PEM_read_PrivateKey f k).2 = files k) -> (forall f k, files (fclose f k) = files k ∖ {[ f ]}) ->
  files (load_ed25519_key g path k).2 = files k.
Proof.
  intros Ho Hr Hc. unfold load_ed25519_key. specialize (Ho path k). destruct (fopen path k) as [f k1].
  destruct (f =? 0); [done|]. destruct Ho as [Hf Ho]. specialize (Hr f k1).
  destruct (PEM_read_PrivateKey f k1) as [p k2]. cbn in *. rewrite Hc, Hr, Ho. set_solver.
Qed.
End key.

(** What [dec] prints is what [stoi] reads: a CPU printed as a number is accepted. *)
Lemma cpu_option_good fstack n : - 2 ^ 31 <= n <= INT_MAX -> good fstack (chr "n", dec n) = true.
Proof.
  intros Hn. unfold good, known. cbn [fst snd]. rewrite Z.eqb_refl, orb_true_r. pose proof (stoi_dec n [] Hn I) as H.
  rewrite app_nil_r in H. rewrite H. cbn. by destruct (takes_number _).
Qed.
