(* ===== verification/BinanceDepth.v ===== *)
(** * The depth codec of the example

    examples/binance_codec.hpp: [BinanceDepth] turns a depth message into one
    event per price level and pushes the events to a queue.  The message views
    generated by sbepp (class [Sbe]) are a parameter without laws, any read may
    be undefined; the queue (class [SPSCQueue]) is a parameter with its
    documented behaviour as laws. *)

From S2P Require Import Prelude Status Buffer Frame Handshake WebSocket.

Inductive Side : Set := bid | ask.
Inductive Symbol : Set := BTC.

#[export] Instance Side_eq_dec : EqDecision Side.
Proof. solve_decision. Defined.
#[export] Instance Symbol_eq_dec : EqDecision Symbol.
Proof. solve_decision. Defined.

Record DepthEvent := mkDepthEvent {
  symbol : Symbol; side : Side; event_time_ns : Z; update_id : Z;
  price_exp : Z; price : Z; qty_exp : Z; qty : Z
}.

#[export] Instance DepthEvent_eq_dec : EqDecision DepthEvent.
Proof. solve_decision. Defined.

(** What the codec reads of a [DepthDiffStreamEvent]; a level is a price and a
    quantity. *)
Record DepthDiff := mkDiff {
  eventTime : Z; lastBookUpdateId : Z; priceExponent : Z; qtyExponent : Z;
  asks : list (Z * Z); bids : list (Z * Z)
}.

(** The generated views: the template id of the message header, the size check
    and the fields of a depth message.  Reading outside the payload is [UB]. *)
Class Sbe := {
  templateId : list Z -> outcome Z;
  size_bytes_checked : list Z -> bool;
  diff_view : list Z -> outcome DepthDiff
}.

(** Message ids of examples/binance-spot-sbe.xml. *)
Definition TradesStreamEvent : Z := 10000.
Definition BestBidAskStreamEvent : Z := 10001.
Definition DepthSnapshotStreamEvent : Z := 10002.
Definition DepthDiffStreamEvent : Z := 10003.

(** [rigtorp::SPSCQueue<DepthEvent>]; [front] is null when the queue is empty, and
    [pop] then is not allowed ([None]). *)
Class SPSCQueue (Q : Type) := {
  try_push : DepthEvent -> Q -> bool * Q;
  front : Q -> option DepthEvent;
  pop : Q -> option Q
}.

(** A bounded queue: a push fails exactly when it is full, and elements leave in
    the order in which they came. *)
Class SPSCQueueOk (Q : Type) {spsc : SPSCQueue Q} := {
  items : Q -> list DepthEvent;
  capacity : Q -> nat;
  push_items : forall e q,
    items (try_push e q).2 = (if (length (items q) <? capacity q)%nat then items q ++ [e] else items q) /\
    (try_push e q).1 = (length (items q) <? capacity q)%nat /\ capacity (try_push e q).2 = capacity q;
  front_items : forall q, front q = head (items q);
  pop_items : forall e es q, items q = e :: es ->
    exists q', pop q = Some q' /\ items q' = es /\ capacity q' = capacity q
}.

Section codec.
Context {sbe : Sbe} {Q : Type} {spsc : SPSCQueue Q}.

(** The queue is owned by the program; the codec points to it. *)
Record BinanceDepth := mkBinanceDepth { _queue : Q }.

(** The event of a level. *)
Definition level_event (s : Side) (diff : DepthDiff) (level : Z * Z) : DepthEvent :=
  mkDepthEvent BTC s (eventTime diff) (lastBookUpdateId diff) (priceExponent diff) level.1 (qtyExponent diff) level.2.

(** One of the two loops; [false] when a push failed. *)
Fixpoint push_levels (s : Side) (diff : DepthDiff) (levels : list (Z * Z)) (q : Q) : bool * Q :=
  match levels with
  | [] => (true, q)
  | l :: levels =>
      let (ok, q) := try_push (level_event s diff l) q in
      if negb ok then (false, q) else push_levels s diff levels q
  end.

Definition push_diff (diff : DepthDiff) (c : BinanceDepth) : protocol.Status * BinanceDepth :=
  let (ok, q) := push_levels ask diff (asks diff) (_queue c) in
  if negb ok then (protocol.ok, mkBinanceDepth q)
  else
    let (ok, q) := push_levels bid diff (bids diff) q in
    if negb ok then (protocol.ok, mkBinanceDepth q)
    else (protocol.ok, mkBinanceDepth q).

Definition on_binary_ (c : BinanceDepth) (tx : IO) (payload : list Z) : outcome (protocol.Status * BinanceDepth * IO) :=
  id ← templateId payload;
  if id =? DepthDiffStreamEvent then
    if negb (size_bytes_checked payload) then Ret (protocol.error, c, tx)
    else
      diff ← diff_view payload;
      let (st, c) := push_diff diff c in Ret (st, c, tx)
  else if id =? BestBidAskStreamEvent then Ret (protocol.ok, c, tx)
  else if id =? DepthSnapshotStreamEvent then Ret (protocol.ok, c, tx)
  else if id =? TradesStreamEvent then Ret (protocol.ok, c, tx)
  else Ret (protocol.error, c, tx).

#[export] Instance depth_codec : MessageCodec BinanceDepth := {
  on_text := None;
  on_binary := Some on_binary_;
  codec_on_shutdown := None
}.
End codec.
Arguments BinanceDepth : clear implicits.

(** ** What reaches the queue *)
Section published.
Context {sbe : Sbe} {Q : Type} {spsc : SPSCQueue Q} {spsc_ok : SPSCQueueOk Q}.

(** The events of a message, in the order in which they are pushed. *)
Definition events_of (d : DepthDiff) : list DepthEvent :=
  (level_event ask d <$> asks d) ++ (level_event bid d <$> bids d).

Definition free (q : Q) : nat := capacity q - length (items q).

Lemma push_levels_items s d ls q :
  let (ok, q') := push_levels s d ls q in
  items q' = items q ++ take (free q) (level_event s d <$> ls) /\ capacity q' = capacity q /\
  ok = (length ls <=? free q)%nat.
Proof.
  revert q. induction ls as [|l ls IH]; intros q; cbn [push_levels].
  { cbn [fmap list_fmap]. rewrite take_nil, app_nil_r. done. }
  destruct (push_items (level_event s d l) q) as (H1 & H2 & H3).
  destruct (try_push _ q) as [ok q1]. cbn [fst snd] in *. subst ok. specialize (IH q1). unfold free in *.
  destruct (Nat.ltb_spec (length (items q)) (capacity q)) as [Hlt|Hge]; cbn [negb].
  - destruct (push_levels s d ls q1) as [ok q']. destruct IH as (I1 & I2 & ->).
    rewrite H1, length_app, H3 in *. cbn [length] in *.
    replace (capacity q - length (items q))%nat with (S (capacity q - (length (items q) + 1))) by lia.
    cbn [fmap list_fmap take]. rewrite I1, <- app_assoc. split_and!; [done|congruence|done].
  - replace (capacity q - length (items q))%nat with 0%nat by lia. rewrite take_0, app_nil_r. done.
Qed.

(** The queue gets the events of a message as far as there is room. *)
Lemma push_diff_items d c :
  exists q', push_diff d c = (protocol.ok, mkBinanceDepth q') /\
    items q' = items (_queue c) ++ take (free (_queue c)) (events_of d) /\ capacity q' = capacity (_queue c).
Proof.
  unfold push_diff, events_of. pose proof (push_levels_items ask d (asks d) (_queue c)) as H1.
  destruct (push_levels ask d (asks d) (_queue c)) as [ok q1]. destruct H1 as (I1 & C1 & ->).
  destruct (Nat.leb_spec (length (asks d)) (free (_queue c))) as [Hle|Hgt]; cbn [negb].
  - pose proof (push_levels_items bid d (bids d) q1) as H2.
    destruct (push_levels bid d (bids d) q1) as [ok q2]. destruct H2 as (I2 & C2 & ->).
    exists q2. split; [by destruct (_ <=? _)%nat|]. split; [|congruence].
    rewrite I2, I1, <- app_assoc. f_equal. rewrite (take_ge (level_event ask d <$> asks d)) by (rewrite length_fmap; lia).
    rewrite take_app, (take_ge (level_event ask d <$> asks d)) by (rewrite length_fmap; lia).
    f_equal. f_equal. unfold free in *. rewrite C1, I1, take_ge by (rewrite length_fmap; lia).
    rewrite length_app, !length_fmap. lia.
  - exists q1. split; [done|]. split; [|done]. rewrite I1. f_equal. rewrite take_app_le by (rewrite length_fmap; lia). done.
Qed.

(** C8: a depth message of at most [MSG_CAP] bytes (1 MiB) that the peer splits into
    two or more frames, once received, puts one event per level into the queue, asks before bids, as far as there is
    room; the session goes on, sends nothing, and the bytes behind the message
    stay in the receive buffer. *)
Theorem depth_message_published {R : Type} (rd : R -> Z * R) (first last rest : list Z) (mids : list (list Z))
    (s : wst (BinanceDepth Q) R) (d : DepthDiff)
    (Hwf : wst_wf s) (H0 : msg_len (ses s) = 0)
    (Hrx : contents (io_rx (sio s)) =
       encode_frame false OpCode.binary first ++ concat (encode_frame false OpCode.cont <$> mids) ++
       encode_frame true OpCode.cont last ++ rest)
    (Hcap : zlen (first ++ concat mids ++ last) <= MSG_CAP)
    (Hid : templateId (first ++ concat mids ++ last) = Ret DepthDiffStreamEvent)
    (Hsize : size_bytes_checked (first ++ concat mids ++ last) = true)
    (Hview : diff_view (first ++ concat mids ++ last) = Ret d) :
  exists s', dispatch_n rd (S (length mids + 1)) s = Ret (protocol.ok, s') /\
    items (_queue (codec (ses s'))) =
      items (_queue (codec (ses s))) ++ take (free (_queue (codec (ses s)))) (events_of d) /\
    contents (io_rx (sio s')) = rest /\ io_tx (sio s') = io_tx (sio s) /\ wst_wf s'.
Proof.
  destruct (fragments_delivered rd OpCode.binary first last rest mids s Hwf H0) as (s1 & [Hw1 Hio1] & Hc1 & Htx1 & _ & Hcd & Heq);
    [done|by split|done|done|].
  rewrite Heq. unfold deliver, mbind, M_bind. cbn [handle_frame on_binary depth_codec].
  unfold run_handler, on_binary_. rewrite Hid. cbn [mbind outcome_bind]. rewrite Z.eqb_refl, Hsize. cbn [negb].
  rewrite Hview. unfold mbind, outcome_bind. cbv beta iota. destruct (push_diff_items d (codec (ses s1))) as (q' & Hp & Hi & _). rewrite Hp.
  cbn. eexists. split; [reflexivity|]. cbn. rewrite Hi, Hcd. split_and!; [done|done|done|].
  split; [|done]. destruct Hw1 as [Hb Hl]. split; cbn; [done|]. split; [lia|vm_compute; discriminate].
Qed.

(** The event time of the schema is in microseconds; the event carries the same
    number under a name that says nanoseconds. *)
Lemma event_time_unchanged d : Forall (fun e => event_time_ns e = eventTime d) (events_of d).
Proof. apply Forall_app. split; apply Forall_fmap, Forall_forall; done. Qed.
End published.

(** ** Witnesses: a list as the queue, messages with one ask and one bid *)

Record toy_queue := mkToyQueue { tq_items : list DepthEvent; tq_capacity : nat }.

#[export] Instance toy_spsc : SPSCQueue toy_queue := {
  try_push := fun e q =>
    if (length (tq_items q) <? tq_capacity q)%nat then (true, mkToyQueue (tq_items q ++ [e]) (tq_capacity q)) else (false, q);
  front := fun q => head (tq_items q);
  pop := fun q => match tq_items q with [] => None | _ :: es => Some (mkToyQueue es (tq_capacity q)) end
}.

#[export] Instance toy_spsc_ok : SPSCQueueOk toy_queue.
Proof.
  refine {| items := tq_items; capacity := tq_capacity |}; [|done|].
  - intros e q. cbn [try_push toy_spsc]. by destruct (length (tq_items q) <? tq_capacity q)%nat.
  - intros e es q Hq. cbn. rewrite Hq. by eexists.
Defined.

(** After the 8 bytes of the header, the prices and quantities as single bytes. *)
#[export] Instance toy_sbe : Sbe := {
  templateId := fun p => match p with _ :: _ :: lo :: hi :: _ => Ret (u8 lo + 256 * u8 hi) | _ => UB end;
  size_bytes_checked := fun p => (length p =? 12)%nat;
  diff_view := fun p =>
    match drop 8 p with [p1; q1; p2; q2] => Ret (mkDiff 7 1 (-2) (-8) [(p1, q1)] [(p2, q2)]) | _ => UB end
}.

Definition sample_diff : list Z := [0; 0; 0x13; 0x27; 1; 0; 0; 0; 101; 5; 99; 6].

Definition sample_depth_wst : wst (BinanceDepth toy_queue) Z :=
  mkWst (with_state State.listening (Session_new (str "host") (mkConfig (str "/") [] (mkBinanceDepth (mkToyQueue [] 1)))))
    (mkIO (sample_rx (encode_frame false OpCode.binary (take 5 sample_diff) ++
      encode_frame true OpCode.cont (drop 5 sample_diff))) (Buffer_new 64)) 0.

Lemma depth_message_published_witness :
  exists s', dispatch_n count_rd 2 sample_depth_wst = Ret (protocol.ok, s') /\
    items (_queue (codec (ses s'))) = [mkDepthEvent BTC ask 7 1 (-2) 101 (-8) 5].
Proof.
  destruct (depth_message_published count_rd (take 5 sample_diff) (drop 5 sample_diff) [] [] sample_depth_wst
    (mkDiff 7 1 (-2) (-8) [(101, 5)] [(99, 6)])) as (s' & Hrun & Hi & _).
  - split; [apply session_wf_state, Session_new_wf|]. split; [apply sample_rx_wf; reflexivity|apply Buffer_new_wf; lia].
  - reflexivity.
  - reflexivity.
  - vm_compute. discriminate.
  - reflexivity.
  - reflexivity.
  - reflexivity.
  - exists s'. split; [exact Hrun|]. rewrite Hi. reflexivity.
Defined.
