(* ===== verification/App.v ===== *)
(** * The example program: two threads and a queue

    examples/main.cc.  The network thread pushes the events of the depth codec,
    the worker prints them, the main thread starts both, waits for a signal and
    stops them; each access to shared memory, each call of the queue (the
    parameter [SPSCQueue] of BinanceDepth.v), each system call and each signal is
    one step of a relation on the state of the process.  What [reactor.run] does
    but for the codec's pushes is left open: it may receive messages, throw and
    return at any time, and no theorem here says that it returns. *)

From stdpp Require Import relations.
From S2P Require Import Prelude Status Numerals Config Handshake WebSocket BinanceDepth.

(** [pin_thread], given the result of [pthread_setaffinity_np]. *)
Definition pin_thread (opt_cpu_id : option Z) (setaffinity : Z -> Z) : bool :=
  match opt_cpu_id with
  | None => true
  | Some cpu_id =>
      let rc := setaffinity cpu_id in
      if negb (rc =? 0) then false else true
  end.

(** The [printf] of the worker. *)
Definition print_event (e : DepthEvent) : list Z :=
  dec (event_time_ns e) ++ str ": " ++ (if decide (side e = ask) then str "A" else str "B") ++ str " " ++
  dec (qty e) ++ str "e" ++ dec (qty_exp e) ++ str " @ " ++ dec (price e) ++ str "e" ++ dec (price_exp e) ++ [10].

(** The configuration of the connection that [run_net] gives to the reactor: host,
    port, TLS host name and protocol. *)
Definition net_connection {C : Type} (config : Config) (depth_queue : C) : list Z * Z * list Z * config_t C :=
  (str "stream-sbe.binance.com", 9443, str "stream-sbe.binance.com",
   mkConfig (str "/ws/btcusdt@depth") [mkHeader (str "X-MBX-APIKEY") (api_key config)] depth_queue).

Definition SIGINT : Z := 2.
Definition SIGTERM : Z := 15.
Definition SIGUSR1 : Z := 10.

(** Where each thread is. *)
Inductive net_pc :=
| net_none
| net_start
| net_running (todo : list DepthEvent)  (* in [push_diff], with these events left *)
| net_kill
| net_done.

Inductive worker_pc :=
| worker_none
| worker_start
| worker_test
| worker_front
| worker_pop (e : DepthEvent)
| worker_print (e : DepthEvent)
| worker_done.

Inductive main_pc :=
| main_worker                 (* before the first [pthread_create] *)
| main_net                    (* before the second *)
| main_unwind                 (* it failed: store, join, exit *)
| main_unwind_join
| main_wait                   (* [sigwait] *)
| main_signal (sig : Z)
| main_join_net (sig : Z)
| main_store (sig : Z)
| main_join_worker (sig : Z)
| exited (status : Z)
| aborted
| undefined.                  (* the worker popped an empty queue *)

Section program.
Context {Q : Type} {spsc : SPSCQueue Q}.

(** The last three fields are history: the events pushed and printed so far and
    the signals sent to the process. *)
Record app := mkApp {
  queue : Q;
  shutdown : bool;
  signalled : bool;            (* [Net::signal] was called *)
  pending : list Z;            (* blocked signals *)
  stdout_ : list Z;
  main_at : main_pc;
  net_at : net_pc;
  worker_at : worker_pc;
  pushed : list DepthEvent;
  printed : list DepthEvent;
  raised : list Z
}.

Definition app0 (q0 : Q) : app := mkApp q0 false false [] [] main_worker net_none worker_none [] [] [].

Definition set_main (m : main_pc) (a : app) : app :=
  mkApp (queue a) (shutdown a) (signalled a) (pending a) (stdout_ a) m (net_at a) (worker_at a) (pushed a) (printed a) (raised a).
Definition set_net (n : net_pc) (a : app) : app :=
  mkApp (queue a) (shutdown a) (signalled a) (pending a) (stdout_ a) (main_at a) n (worker_at a) (pushed a) (printed a) (raised a).
Definition set_worker (w : worker_pc) (a : app) : app :=
  mkApp (queue a) (shutdown a) (signalled a) (pending a) (stdout_ a) (main_at a) (net_at a) w (pushed a) (printed a) (raised a).
Definition set_shutdown (a : app) : app :=
  mkApp (queue a) true (signalled a) (pending a) (stdout_ a) (main_at a) (net_at a) (worker_at a) (pushed a) (printed a) (raised a).
Definition set_signalled (a : app) : app :=
  mkApp (queue a) (shutdown a) true (pending a) (stdout_ a) (main_at a) (net_at a) (worker_at a) (pushed a) (printed a) (raised a).
Definition raise (sig : Z) (a : app) : app :=
  mkApp (queue a) (shutdown a) (signalled a) (sig :: pending a) (stdout_ a) (main_at a) (net_at a) (worker_at a)
        (pushed a) (printed a) (sig :: raised a).
Definition take_signal (sig : Z) (a : app) : app :=
  mkApp (queue a) (shutdown a) (signalled a) (filter (fun s => s <> sig) (pending a)) (stdout_ a) (main_at a) (net_at a)
        (worker_at a) (pushed a) (printed a) (raised a).
Definition set_queue (q : Q) (a : app) : app :=
  mkApp q (shutdown a) (signalled a) (pending a) (stdout_ a) (main_at a) (net_at a) (worker_at a)
        (pushed a) (printed a) (raised a).
(** An accepted push, in the history. *)
Definition add_pushed (e : DepthEvent) (a : app) : app :=
  mkApp (queue a) (shutdown a) (signalled a) (pending a) (stdout_ a) (main_at a) (net_at a) (worker_at a)
        (pushed a ++ [e]) (printed a) (raised a).
Definition print (e : DepthEvent) (a : app) : app :=
  mkApp (queue a) (shutdown a) (signalled a) (pending a) (stdout_ a ++ print_event e) (main_at a) (net_at a) (worker_at a)
        (pushed a) (printed a ++ [e]) (raised a).

(** The threads run while the process does. *)
Definition alive (a : app) : Prop := match main_at a with exited _ | aborted | undefined => False | _ => True end.

Section steps.
Context (config : Config) (setaffinity : Z -> Z).

(** [run_net]. *)
Inductive net_step (a : app) : app -> Prop :=
| net_pinned : net_at a = net_start -> pin_thread (net_cpu_id config) setaffinity = true ->
    net_step a (set_net (net_running []) a)
| net_not_pinned : net_at a = net_start -> pin_thread (net_cpu_id config) setaffinity = false ->
    net_step a (set_main aborted a)
| net_throws : net_at a = net_running [] -> net_step a (set_main aborted a)
| net_receives (d : DepthDiff) : net_at a = net_running [] -> net_step a (set_net (net_running (events_of d)) a)
| net_pushes e todo q : net_at a = net_running (e :: todo) -> try_push e (queue a) = (true, q) ->
    net_step a (add_pushed e (set_queue q (set_net (net_running todo) a)))
| net_drops e todo q : net_at a = net_running (e :: todo) -> try_push e (queue a) = (false, q) ->
    net_step a (set_queue q (set_net (net_running []) a))
| net_returns : net_at a = net_running [] -> net_step a (set_net net_kill a)
| net_kills : net_at a = net_kill -> net_step a (raise SIGUSR1 (set_net net_done a)).

(** [run_worker]. *)
Inductive worker_step (a : app) : app -> Prop :=
| worker_pinned : worker_at a = worker_start -> pin_thread (worker_cpu_id config) setaffinity = true ->
    worker_step a (set_worker worker_test a)
| worker_not_pinned : worker_at a = worker_start -> pin_thread (worker_cpu_id config) setaffinity = false ->
    worker_step a (set_main aborted a)
| worker_goes_on : worker_at a = worker_test -> shutdown a = false -> worker_step a (set_worker worker_front a)
| worker_stops : worker_at a = worker_test -> shutdown a = true -> worker_step a (set_worker worker_done a)
| worker_sees e : worker_at a = worker_front -> front (queue a) = Some e -> worker_step a (set_worker (worker_pop e) a)
| worker_pauses : worker_at a = worker_front -> front (queue a) = None -> worker_step a (set_worker worker_test a)
| worker_pops e q : worker_at a = worker_pop e -> pop (queue a) = Some q ->
    worker_step a (set_queue q (set_worker (worker_print e) a))
| worker_pops_nothing e : worker_at a = worker_pop e -> pop (queue a) = None -> worker_step a (set_main undefined a)
| worker_prints e : worker_at a = worker_print e -> worker_step a (print e (set_worker worker_test a)).

(** [main]; [pthread_create] may fail. *)
Inductive main_step (a : app) : app -> Prop :=
| main_starts_worker : main_at a = main_worker -> main_step a (set_main main_net (set_worker worker_start a))
| main_no_worker : main_at a = main_worker -> main_step a (set_main (exited 1) a)
| main_starts_net : main_at a = main_net -> main_step a (set_main main_wait (set_net net_start a))
| main_no_net : main_at a = main_net -> main_step a (set_main main_unwind a)
| main_unwinds : main_at a = main_unwind -> main_step a (set_main main_unwind_join (set_shutdown a))
| main_unwound : main_at a = main_unwind_join -> worker_at a = worker_done -> main_step a (set_main (exited 1) a)
| main_waits sig : main_at a = main_wait -> sig ∈ pending a ->
    main_step a (set_main (main_signal sig) (take_signal sig a))
| main_signals sig : main_at a = main_signal sig -> sig <> SIGUSR1 ->
    main_step a (set_main (main_join_net sig) (set_signalled a))
| main_ended sig : main_at a = main_signal sig -> sig = SIGUSR1 -> main_step a (set_main (main_join_net sig) a)
| main_joins_net sig : main_at a = main_join_net sig -> net_at a = net_done -> main_step a (set_main (main_store sig) a)
| main_stores sig : main_at a = main_store sig -> main_step a (set_main (main_join_worker sig) (set_shutdown a))
| main_joins_worker sig : main_at a = main_join_worker sig -> worker_at a = worker_done ->
    main_step a (set_main (exited (if decide (sig = SIGINT \/ sig = SIGTERM) then 0 else 1)) a).

(** A step of one of the threads. *)
Inductive thread_step (a : app) : app -> Prop :=
| step_net a' : alive a -> net_step a a' -> thread_step a a'
| step_worker a' : alive a -> worker_step a a' -> thread_step a a'
| step_main a' : alive a -> main_step a a' -> thread_step a a'.

(** A step of a thread, or a signal from outside. *)
Inductive step (a : app) : app -> Prop :=
| step_thread a' : thread_step a a' -> step a a'
| step_signal sig : alive a -> sig ∈ [SIGINT; SIGTERM] -> step a (raise sig a).

Definition reachable (q0 : Q) (a : app) : Prop := rtc step (app0 q0) a.
End steps.
End program.
Arguments app : clear implicits.

(** ** Invariants *)
Section invariants.
Context {Q : Type} {spsc : SPSCQueue Q} {spsc_ok : SPSCQueueOk Q}.
Context (config : Config) (setaffinity : Z -> Z) (q0 : Q).
Implicit Types a : app Q.

(** The event the worker has taken and not yet printed. *)
Definition in_hand (w : worker_pc) : list DepthEvent := match w with worker_print e => [e] | _ => [] end.

Record events_inv a : Prop := {
  ev_fifo : printed a ++ in_hand (worker_at a) ++ items (queue a) = pushed a;
  ev_front : forall e, worker_at a = worker_pop e -> exists es, items (queue a) = e :: es;
  ev_cap : (length (items (queue a)) <= capacity q0)%nat /\ capacity (queue a) = capacity q0;
  ev_out : stdout_ a = concat (print_event <$> printed a);
  ev_defined : main_at a <> undefined
}.

(** Steps that leave the events alone. *)
Lemma events_inv_same a a' :
  events_inv a -> printed a' = printed a -> pushed a' = pushed a -> items (queue a') = items (queue a) ->
  capacity (queue a') = capacity (queue a) -> stdout_ a' = stdout_ a ->
  in_hand (worker_at a') = in_hand (worker_at a) ->
  (forall e, worker_at a' = worker_pop e -> worker_at a = worker_pop e \/ exists es, items (queue a) = e :: es) ->
  main_at a' <> undefined -> events_inv a'.
Proof.
  intros [H1 H2 H3 H4 _] Ep Eq Ei Ec Eo Eh Hf Hu. split; rewrite ?Ep, ?Eq, ?Ei, ?Ec, ?Eo, ?Eh; try done.
  intros e He. destruct (Hf e He) as [?|?]; [by apply H2|done].
Qed.

Lemma net_step_events a a' : events_inv a -> net_step config setaffinity a a' -> events_inv a'.
Proof.
  intros Ha Hs. destruct Hs as [| | | |e todo q Hn Hp|e todo q Hn Hp| |];
    try (destruct Ha; apply (events_inv_same a); cbn; auto; done).
  - destruct Ha as [H1 H2 [H3 H3'] H4 H5]. destruct (push_items e (queue a)) as (I & B & C).
    rewrite Hp in I, B, C. cbn [fst snd] in *. rewrite <- B in I. symmetry in B. apply Nat.ltb_lt in B.
    split; cbn; try done.
    + by rewrite I, <- H1, !app_assoc.
    + intros e' He. destruct (H2 e' He) as [es Hes]. rewrite I, Hes. by exists (es ++ [e]).
    + rewrite I, length_app. cbn. split; [lia|congruence].
  - destruct (push_items e (queue a)) as (I & B & C). rewrite Hp in I, B, C. cbn [fst snd] in *. rewrite <- B in I.
    destruct Ha. apply (events_inv_same a); cbn; auto. done.
Qed.

Lemma worker_step_events a a' : events_inv a -> worker_step config setaffinity a a' -> events_inv a'.
Proof.
  intros Ha Hs. destruct Hs as [Hw|Hw|Hw|Hw|e Hw Hq|Hw|e q Hw Hq|e Hw Hq|e Hw];
    try (pose proof Ha as []; apply (events_inv_same a); cbn; rewrite ?Hw; auto; done).
  - pose proof Ha as []. apply (events_inv_same a); cbn; rewrite ?Hw; auto. intros e' [= <-]. right.
    rewrite front_items in Hq. destruct (items (queue a)) as [|e' es]; [done|]. injection Hq as ->. by exists es.
  - destruct Ha as [H1 H2 [H3 H3'] H4 H5]. destruct (H2 e Hw) as [es Hes]. rewrite Hw in H1.
    destruct (pop_items e es (queue a) Hes) as (q' & Hq' & I & C). rewrite Hq in Hq'. injection Hq' as <-.
    split; cbn; rewrite ?I; try done.
    + by rewrite <- H1, Hes.
    + rewrite Hes in H3. cbn in H3. split; [lia|congruence].
  - destruct Ha as [H1 H2 H3 H4 H5]. destruct (H2 e Hw) as [es Hes].
    destruct (pop_items e es (queue a) Hes) as (q' & Hq' & _). congruence.
  - destruct Ha as [H1 H2 H3 H4 H5]. rewrite Hw in H1. split; cbn; try done.
    + by rewrite <- H1, <- app_assoc.
    + rewrite H4, fmap_app, concat_app. cbn. by rewrite app_nil_r.
Qed.

(** What is known at each point of [main]. *)
Definition main_inv a : Prop :=
  match main_at a with
  | main_worker => worker_at a = worker_none /\ net_at a = net_none
  | main_net | main_unwind => worker_at a <> worker_none /\ net_at a = net_none
  | main_unwind_join => worker_at a <> worker_none /\ net_at a = net_none /\ shutdown a = true
  | main_wait => worker_at a <> worker_none /\ net_at a <> net_none
  | main_signal sig => worker_at a <> worker_none /\ net_at a <> net_none /\ sig ∈ raised a
  | main_join_net sig =>
      worker_at a <> worker_none /\ net_at a <> net_none /\ sig ∈ raised a /\ (sig <> SIGUSR1 -> signalled a = true)
  | main_store sig =>
      worker_at a <> worker_none /\ net_at a = net_done /\ sig ∈ raised a /\ (sig <> SIGUSR1 -> signalled a = true)
  | main_join_worker sig =>
      worker_at a <> worker_none /\ net_at a = net_done /\ sig ∈ raised a /\ (sig <> SIGUSR1 -> signalled a = true) /\
      shutdown a = true
  | exited status =>
      (status = 1 /\ net_at a = net_none) \/
      exists sig, sig ∈ raised a /\ (sig <> SIGUSR1 -> signalled a = true) /\ net_at a = net_done /\
        worker_at a = worker_done /\ status = if decide (sig = SIGINT \/ sig = SIGTERM) then 0 else 1
  | aborted | undefined => True
  end.

Record control_inv a : Prop := {
  ct_main : main_inv a;
  ct_pending : forall sig, sig ∈ pending a -> sig ∈ raised a;
  ct_raised : forall sig, sig ∈ raised a -> sig = SIGINT \/ sig = SIGTERM \/ (sig = SIGUSR1 /\ net_at a = net_done)
}.

Lemma control_inv_app0 : control_inv (app0 q0).
Proof. split; cbn; [done|set_solver..]. Qed.

Lemma net_step_control a a' : alive a -> control_inv a -> net_step config setaffinity a a' -> control_inv a'.
Proof.
  intros Hl [H1 H2 H3] Hs.
  assert (Hnd : net_at a <> net_done /\ net_at a <> net_none) by (destruct Hs; split; congruence).
  assert (Hm : forall a', main_at a' = main_at a -> (forall sig, sig ∈ raised a -> sig ∈ raised a') ->
    signalled a' = signalled a -> worker_at a' = worker_at a -> net_at a' <> net_none -> main_inv a').
  { intros b Hb Hr Hsg Hw Hn. unfold main_inv in *. unfold alive in Hl. rewrite Hb.
    destruct Hnd as [Hnd1 Hnd2]. destruct (main_at a); rewrite ?Hsg, ?Hw; naive_solver. }
  destruct Hs; split; cbn; try done; try (by apply Hm);
    try (intros sig Hsig; destruct (H3 sig Hsig) as [?|[?|[? ?]]]; [by left|by right; left|]; exfalso; tauto).
  - apply Hm; cbn; try done. set_solver.
  - intros sig [->|?]%elem_of_cons; [by left|]. right. auto.
  - intros sig [->|Hin]%elem_of_cons; [by right; right|]. destruct (H3 sig Hin) as [?|[?|[? _]]]; auto.
Qed.

Lemma worker_step_control a a' : alive a -> control_inv a -> worker_step config setaffinity a a' -> control_inv a'.
Proof.
  intros Hl [H1 H2 H3] Hs.
  assert (Hw : worker_at a <> worker_none) by (destruct Hs; congruence).
  assert (Hm : forall a', main_at a' = main_at a -> raised a' = raised a -> signalled a' = signalled a ->
    net_at a' = net_at a -> worker_at a' <> worker_none -> shutdown a' = shutdown a -> main_inv a').
  { intros b Hb Hr Hsg Hn Hw' Hsh. unfold main_inv in *. unfold alive in Hl. rewrite Hb.
    destruct (main_at a); rewrite ?Hsg, ?Hr, ?Hn, ?Hsh; tauto. }
  destruct Hs; split; cbn; done || by apply Hm.
Qed.

Lemma main_step_control a a' : control_inv a -> main_step a a' -> control_inv a'.
Proof.
  intros [H1 H2 H3] Hs. unfold main_inv in H1.
  destruct Hs as [Hm|Hm|Hm|Hm|Hm|Hm Hw|sig Hm Hp|sig Hm Hn|sig Hm Hn|sig Hm Hn|sig Hm|sig Hm Hw]; rewrite Hm in H1;
    (split; [unfold main_inv; cbn|try done..]); try tauto; try (left; tauto).
  - by destruct H1.
  - by destruct H1.
  - cbn. intros sig Hin. destruct (H3 sig Hin) as [?|[?|[_ Hd]]]; [by left|by right; left|]. destruct H1. congruence.
  - destruct H1 as [? ?]. auto.
  - cbn. intros s' [_ Hin]%list_elem_of_filter. auto.
  - right. exists sig. tauto.
Qed.

Lemma main_step_events a a' : events_inv a -> control_inv a -> main_step a a' -> events_inv a'.
Proof.
  intros Ha [H1 _ _] Hs. pose proof (ev_defined a Ha).
  destruct Hs as [Hm|?|?|?|?|? ?|? ? ?|? ? ?|? ? ?|? ? ?|? ?|? ? ?];
    try (apply (events_inv_same a); cbn; auto; done).
  unfold main_inv in H1. rewrite Hm in H1. destruct H1 as [Hw _]. apply (events_inv_same a); cbn; rewrite ?Hw; auto; done.
Qed.

Lemma step_inv a a' :
  step config setaffinity a a' -> events_inv a /\ control_inv a -> events_inv a' /\ control_inv a'.
Proof.
  intros [b [c ? ?|c ? ?|c ? ?]|sig Hl Hsig] [He Hc].
  - split; [by eapply net_step_events|by eapply net_step_control].
  - split; [by eapply worker_step_events|by eapply worker_step_control].
  - split; [by eapply main_step_events|by eapply main_step_control].
  - split; [pose proof He as []; apply (events_inv_same a); cbn; auto|]. destruct Hc as [H1 H2 H3]. split; cbn.
    + unfold main_inv in *. unfold alive in Hl. cbn. destruct (main_at a); set_solver.
    + set_solver.
    + intros s' [->|?]%elem_of_cons; [set_solver|auto].
Qed.

(** The queue is empty at the start. *)
Context (Hempty : items q0 = []).

Lemma reachable_inv a : reachable config setaffinity q0 a -> events_inv a /\ control_inv a.
Proof.
  intros Hr. assert (H0 : events_inv (app0 q0) /\ control_inv (app0 q0)).
  { split; [|apply control_inv_app0]. split; cbn; rewrite ?Hempty; try done. split; [cbn; lia|done]. }
  revert H0. induction Hr as [|a1 a2 a3 Hs _ IH]; [done|]. intros H0. apply IH. by eapply step_inv.
Qed.

(** ** The end of the process *)

Abbreviation tstep := (thread_step config setaffinity).

(** Only the worker is left, and it is told to stop. *)
Definition closing a : Prop :=
  shutdown a = true /\ worker_at a <> worker_none /\ (net_at a = net_none \/ net_at a = net_done) /\
  (main_at a = main_unwind_join \/ exists sig, main_at a = main_join_worker sig).

(** The thread steps that are left at most. *)
Definition worker_rank (w : worker_pc) : nat :=
  match w with
  | worker_none | worker_done => 0
  | worker_test => 1
  | worker_print _ => 2
  | worker_pop _ => 3
  | worker_start | worker_front => 4
  end.

Definition rest a : nat :=
  match main_at a with exited _ | aborted | undefined => 0 | _ => S (worker_rank (worker_at a)) end.

Lemma closing_step a a' : closing a -> tstep a a' -> (~ alive a' \/ closing a') /\ (rest a' < rest a)%nat.
Proof.
  intros (Hs & Hw & Hn & Hm) Hstep.
  assert (Hrest : rest a = S (worker_rank (worker_at a))) by (unfold rest; by destruct Hm as [->|[? ->]]).
  assert (Hal : forall b, main_at b = main_at a -> rest b = S (worker_rank (worker_at b)))
    by (intros b Hb; unfold rest; by rewrite Hb; destruct Hm as [->|[? ->]]).
  destruct Hstep as [b _ Hb|b _ Hb|b _ Hb].
  - exfalso. destruct Hb; destruct Hn; congruence.
  - destruct Hb; try (split; [left; by intros []|rewrite Hrest; cbn; lia]);
      try congruence; (split; [right; by split_and!|rewrite Hrest, Hal by done; cbn; rewrite H; cbn; lia]).
  - destruct Hb; try (split; [left; by intros []|rewrite Hrest; cbn; lia]);
      exfalso; destruct Hm as [?|[? ?]]; congruence.
Qed.

(** Some thread can go on. *)
Lemma closing_progress a : closing a -> exists a', tstep a a'.
Proof.
  intros (Hs & Hw & _ & Hm).
  assert (Hl : alive a) by (unfold alive; by destruct Hm as [->|[? ->]]).
  destruct (worker_at a) as [| | | |e|e|] eqn:E; [done|..].
  - destruct (pin_thread (worker_cpu_id config) setaffinity) eqn:Hp;
      eexists; apply step_worker; [done|by apply worker_pinned|done|by apply worker_not_pinned].
  - eexists. apply step_worker; [done|by apply worker_stops].
  - destruct (front (queue a)) as [e|] eqn:Hf;
      eexists; apply step_worker; [done|by apply (worker_sees _ _ _ e)|done|by apply worker_pauses].
  - destruct (pop (queue a)) as [q|] eqn:Hp;
      eexists; apply step_worker; [done|by apply (worker_pops _ _ _ e q)|done|by apply (worker_pops_nothing _ _ _ e)].
  - eexists. apply step_worker; [done|by apply (worker_prints _ _ _ e)].
  - destruct Hm as [Hm|[sig Hm]]; eexists; apply step_main; [done|by apply main_unwound|done|by apply (main_joins_worker _ sig)].
Qed.

Lemma closing_ends a : closing a ->
  (forall n a', nsteps tstep n a a' -> (n <= rest a)%nat) /\
  (forall a', rtc tstep a a' -> (forall a'', ~ tstep a' a'') -> ~ alive a').
Proof.
  intros Hc.
  assert (Hdead : forall b b', ~ alive b -> ~ tstep b b') by (intros b b' Hb [c ? ?|c ? ?|c ? ?]; done).
  split.
  - intros n a' Hn. revert Hc. induction Hn as [b|n b c d Hs Hn IH]; intros Hc; [lia|].
    destruct (closing_step b c Hc Hs) as [[Hd|Hc'] Hr].
    + destruct Hn as [|m c e d Hs' _]; [lia|]. by destruct (Hdead c e).
    + specialize (IH Hc'). lia.
  - intros a' Hr. revert Hc. induction Hr as [b|b c d Hs Hr IH]; intros Hc Hstuck.
    + destruct (closing_progress b Hc) as [c Hs]. by destruct (Hstuck c).
    + destruct (closing_step b c Hc Hs) as [[Hd|Hc'] _]; [|by apply IH].
      destruct Hr as [|c e d Hs' _]; [done|]. by destruct (Hdead c e).
Qed.

(** C9: for any bounded FIFO queue that keeps its contract, no interleaving of the
    network thread, the worker and signals loses, duplicates or reorders an
    event the queue accepted: what was printed, the event in the worker's hand
    and the contents of the queue are together what was pushed, in order; the
    worker never pops an empty queue; and the output is one line per printed
    event. *)
Theorem app_events_in_order (a : app Q) (Hreach : reachable config setaffinity q0 a) :
  printed a ++ in_hand (worker_at a) ++ items (queue a) = pushed a /\ main_at a <> undefined /\
  (length (items (queue a)) <= capacity q0)%nat /\
  stdout_ a = concat (print_event <$> printed a).
Proof. destruct (reachable_inv a Hreach) as [[H1 _ [H3 _] H4 H5] _]. done. Qed.

End invariants.

(** ** A run: one message, one event printed, then SIGINT *)

Definition sample_config : Config := Config.mkConfig None (str "key") (Some 1) None.
Definition sample_affinity (cpu : Z) : Z := 0.
Definition sample_event : DepthEvent := mkDepthEvent BTC ask 7 1 (-2) 101 (-8) 5.
Definition sample_queue : toy_queue := mkToyQueue [] 4.

Lemma sample_queue_empty : items sample_queue = [].
Proof. reflexivity. Qed.

Ltac run_step t := eapply rtc_l; [t; try reflexivity; try exact I|].
Ltac thread_run_step t := run_step ltac:(apply step_thread; t).

Lemma sample_app :
  exists a, reachable sample_config sample_affinity sample_queue a /\ main_at a = exited 0 /\ printed a = [sample_event].
Proof.
  eexists. split.
  { unfold reachable.
    thread_run_step ltac:(apply step_main; [|apply main_starts_worker]).
    thread_run_step ltac:(apply step_main; [|apply main_starts_net]).
    thread_run_step ltac:(apply step_net; [|apply net_pinned]).
    thread_run_step ltac:(apply step_worker; [|apply worker_pinned]).
    thread_run_step ltac:(apply step_worker; [|apply worker_goes_on]).
    thread_run_step ltac:(apply step_net; [|apply (net_receives _ _ _ (mkDiff 7 1 (-2) (-8) [(101, 5)] []))]).
    thread_run_step ltac:(apply step_net; [|apply (net_pushes _ _ _ sample_event [] (mkToyQueue [sample_event] 4))]).
    thread_run_step ltac:(apply step_worker; [|apply (worker_sees _ _ _ sample_event)]).
    thread_run_step ltac:(apply step_worker; [|apply (worker_pops _ _ _ sample_event (mkToyQueue [] 4))]).
    thread_run_step ltac:(apply step_worker; [|apply (worker_prints _ _ _ sample_event)]).
    run_step ltac:(apply (step_signal _ _ _ SIGINT); [|by left]).
    thread_run_step ltac:(apply step_main; [|apply (main_waits _ SIGINT); [|by left]]).
    thread_run_step ltac:(apply step_main; [|apply (main_signals _ SIGINT); [|discriminate]]).
    thread_run_step ltac:(apply step_net; [|apply net_returns]).
    thread_run_step ltac:(apply step_net; [|apply net_kills]).
    thread_run_step ltac:(apply step_main; [|apply (main_joins_net _ SIGINT)]).
    thread_run_step ltac:(apply step_main; [|apply (main_stores _ SIGINT)]).
    thread_run_step ltac:(apply step_worker; [|apply worker_stops]).
    thread_run_step ltac:(apply step_main; [|apply (main_joins_worker _ SIGINT)]).
    apply rtc_refl. }
  split; reflexivity.
Qed.

Lemma app_events_in_order_witness :
  exists a, reachable sample_config sample_affinity sample_queue a /\
    stdout_ a = concat (print_event <$> [sample_event]) /\ main_at a <> undefined.
Proof.
  destruct sample_app as (a & Hr & _ & Hp).
  destruct (app_events_in_order sample_config sample_affinity sample_queue sample_queue_empty a Hr) as (_ & Hu & _ & Ho).
  exists a. split; [exact Hr|]. split; [rewrite <- Hp; exact Ho|exact Hu].
Defined.

